(* ===== verification/_CoqProject ===== *)
-Q . S2P
Prelude.v
UtList.v
Strings.v
Frame.v
Wire.v
Filter.v
Timeout.v
Xap.v
Hub.v
MinIni.v
Float.v
Bsc.v
Urf.v
Termios.v
Serial.v
Livebox.v
Controller.v
RfLink.v
Server.v
ControllerProps.v
Startup.v
Queue.v
IServer.v
IServerProps.v
IServices.v
IServicesProps.v
Xively.v
CurrentCost.v
CurrentCostProps.v
Sms.v
SmsProps.v
Jsmn.v
Twitter.v
Tools.v
Mail.v
Calendar.v
WebClient.v
Pachube.v
Receiver.v
Options.v
