(* ===== verification/Prelude.v ===== *)
(** * HAH: a verification of the home automation hub's xAP programs

    The hub of src/userapps/hah is a set of C programs that talk over the xAP
    protocol, UDP broadcasts of small text messages.  All of them are built on one
    library (xaplib2): a parser of messages, filters that select messages for
    callbacks, periodic timeouts, endpoints of devices (BSC), INI files, and a main
    loop over sockets.  Programs on one machine share the broadcast port through
    the hub (xap-hub).  The iServer offers the bus to TCP clients.  The adaptors
    connect devices and services: the board of the box with relays, inputs,
    one-wire sensors, port expanders and RF transmitter (xap-livebox), the RF
    receiver (xap-urfrx), serial ports (xap-serial), an energy monitor
    (xap-currentcost), GSM modems (xap-sms), web services (xap-xively,
    xap-twitter, xap-googlecal), mail (xap-mail).  The web pages (klone) ask the
    board's program over a local socket.

    ** How the code is modelled

    A C function is a Rocq function on the state it touches.  [out] is the result:
    a value, [Undef] with the kind of undefined behaviour the code runs into (access
    out of bounds, NULL, freed memory, division by zero, signed overflow), or [Die]
    for [exit].  Integers are in [Z] with the width of the target written out ([u8],
    [u32], [s32], [add_int]: 32-bit [int], [long] and [time_t]); strings are lists
    of bytes ([cstr]) without their NUL, buffers are lists with it.  Pointers into a
    packet are offsets, pointers to heap blocks are addresses ([addr]) with a map
    from addresses to blocks, so that dangling pointers are visible.  Callbacks are
    the constructors of a type per program, run by a function that acts on the
    whole state, so a callback can change the list that is being traversed.  What
    the outside answers is an argument: the clock, the bytes of reads and
    datagrams, the results of open, lock, send, the contents of the INI file, the
    XML library's events, the contents of fresh memory.  What is sent is recorded
    in the state.  Log messages and delays are left out.

    ** Files, in dependency order

    - [Prelude]: outcomes, integers, C strings and printing, shared lemmas, tactics
      and hints (the database [uaf]: a computation does not touch freed memory).
    - [UtList] (xaplib2/utlist.h): the list macros on a heap of next pointers
      (module [Heap]) and on sequences (module [Lists]), the first implementing the
      second; traversals whose body changes the list.
    - [Strings] (strlcpy.c, strlcat.c, util.c), [MinIni] (minIni.c), [Termios],
      [Float] (the C library's [atof] and printing of floats).
    - [Frame] (parse.c, xap.h), [Wire]: the in-place parser, look-up, the rebuilding
      of a message; the text of messages and its round trips.
    - [Filter] (filter.c), [Timeout] (timeout.c), [Xap] (init.c, tx.c, rx.c): the
      object every program has, heartbeats, ports, sockets, one round of the loop.
    - [Bsc] (bsc.c): endpoints; parameterised by the hooks of the application.
    - [Hub] (xap-hub/hub.c): the table of programs, relay, reaper.
    - [Urf] (xap-urfrx), [Serial] (xap-serial/serial.c), [Startup] (identities,
      passwords and options of several programs from their INI files).
    - [Livebox], [Controller], [Server], [ControllerProps] (xap-livebox): lines from
      and to the board and hooks; endpoints from the INI file, sensors, start;
      requests of the web pages; the properties of the program as a whole.
      [RfLink]: transmitter and receiver of RF codes agree.
    - [Queue], [IServer], [IServerProps] (iServer): the queue between the threads,
      tokenizer, clients, filters, transmission; its properties.  [IServices],
      [IServicesProps]: its listening sockets, status page and flash policy
      service, and the program as [main], passes of the main loop and rounds of
      the transmit thread.
    - [Xively] (xap-xively), [CurrentCost] and [CurrentCostProps]
      (xap-currentcost), [Sms] and [SmsProps] (xap-sms).
    - [Jsmn] (opensource/jsmn): the JSON tokenizer; [Twitter] (xap-twitter), its
      client.
    - [Tools] (xap-echo, xap-snoop): programs with one filter action, and the two
      smallest of them; [Mail] (xap-mail), [Calendar] (xap-googlecal).
    - [WebClient] (klone/liblivebox/comms.c, utils.c and const.c, with the
      connections of xap-livebox/server.c): requests, labels and forms of the web
      pages.
      [Pachube] (xap-xively/pachulib.c): the HTTP request of an upload.
    - [Receiver] (xap-urfrx/rfrx.c): the receiver as a program; [Options]
      (xaplib2/init.c): the command line of the library.

    ** What the theorems show

    - Messages: the parser is memory safe up to the size where it is not, keeps the
      strings terminated, and recovers every message from its text; rebuilding a
      frame gives the text back; look-ups are those of the list of entries.
    - Selection: filters match exactly when every condition of the chain holds,
      address patterns have the meaning of their fields, a dispatch runs exactly the
      callbacks that match; periodic callbacks are never early and never missed.
    - Endpoints: the message of an endpoint is read back as its state; commands do
      to an endpoint what their sections say.
    - Hub: one entry per port in every reachable state, entries live as long as
      heartbeats come, every packet is relayed to the programs alive.
    - iServer and queue: the pointer queue is a sequence in every interleaving; no
      table ever holds a freed client, from [main] through any passes of the main
      loop; the commands of a client are executed in sequence whatever segments they
      arrive in; the status page has one row per client.
    - Configuration: reading is the first match; what is written is read back and
      nothing else changes.
    - Board, RF, serial ports: lines become events and commands become lines; RF
      descriptions are decoded as printed; a received sequence is reported exactly
      when it is the expected one; buffers of serial ports are never overrun, lines
      are reported one by one; no filter or timeout of the controller outlives its
      endpoint, through any sequence of messages, lines, timeouts, web requests and
      reloads.
    - Adaptors: the cache of datastreams is a finite map and every feed is uploaded
      completely; the energy monitor's documents are delivered as sent, its impulse
      differences add up, its total is the sum of the channels; the modem's answers
      are recognised however they are cut and a message is reported as sent only
      when the modem said so; an upload is read back by a server as the document;
      a mail has the lines of its message and no header more.
    - JSON: the tokenizer stays inside its text and its array on every input, and
      finds the tokens of every value in every layout; the latest tweet is the one
      of the response, relayed and deleted once.
    - Tools and pages: snoop prints what its options select, unchanged; the echo
      answers with the message it got; a page gets the answer of the controller's
      command handler; a field that is submitted is read back.
    - Where the code does not do what it means to (buffers that are overrun, a
      calibration that is added again with every query, a hysteresis that never
      fires, an echo of echoes, calendar events that fire at any time), the theorem
      states what it does.

    ** Bounds and fuel

    Loops over lists and strings are structural.  Fuel is used where the code's
    bound is not structural, and the bound is one the loop cannot exceed: the
    parser and the tokenizer consume a character per round (the length of the text),
    list traversals visit at most as many nodes as the list has unless a callback
    adds nodes, the sections of an INI file are fewer than its characters
    ([addIniEndpoints_terminates]), [cmd_loop] has the code's own 98 rounds, the
    growing print buffer of [appendXml] needs two attempts, decimal digits are at
    most the bits of a number.  Running out of fuel is an outcome of its own or is
    excluded by a lemma; the theorems on results are stated for the fuel the
    definitions use.

    ** Not modelled

    Socket, serial line and file system calls themselves, log messages, delays and
    usage texts.  libxml, curl, libgcal, OAuth (also the copies of its sources in
    the tree) and Subversion's parser of dates are libraries: parameters or
    recorded calls; of pachulib.c only the request the adaptor uses is modelled.
    The hooks of the web server are glue.  The plugboard is a Lua program, the pages are templates, the Arduino
    sketches are C++ for other processors.  The kernel, the
    vendor's modules and the open source packages of the firmware are third-party
    code. *)

From Stdlib Require Export ZArith Ascii String Lia.
From stdpp Require Export base list numbers option strings gmap sets.

#[global] Open Scope Z_scope.
#[global] Open Scope list_scope.

(** * Outcomes of C code *)

(** The ways in which the code can leave defined behaviour. *)
Inductive ub :=
| OutOfBounds
| NullDeref
| UseAfterFree
| DivByZero
| SignedOverflow
| Uninitialised
| BadCall.   (* a call whose arguments do not fit the function called *)

(** [Ok]: the function returned; [Undef]: it performed an operation C leaves
    undefined; [Die]: it called [die] (log and [exit(1)]). *)
Inductive out (A : Type) :=
| Ok (a : A)
| Undef (u : ub)
| Die.
Arguments Ok {A} _.
Arguments Undef {A} _.
Arguments Die {A}.

#[global] Instance ub_eq_dec : EqDecision ub.
Proof. solve_decision. Defined.

#[global] Instance out_eq_dec {A} `{EqDecision A} : EqDecision (out A).
Proof. solve_decision. Defined.

#[global] Instance out_ret : MRet out := @Ok.

#[global] Instance out_bind : MBind out := fun A B f m =>
  match m with Ok a => f a | Undef u => Undef u | Die => Die end.

#[global] Instance out_fmap : FMap out := fun A B f m =>
  match m with Ok a => Ok (f a) | Undef u => Undef u | Die => Die end.

(** Reading through a pointer that may be absent. *)
Definition of_opt {A} (u : ub) (o : option A) : out A :=
  match o with Some a => Ok a | None => Undef u end.

Definition is_Ok {A} (m : out A) : bool :=
  match m with Ok _ => true | _ => false end.

Lemma bind_Ok_inv {A B} (m : out A) (f : A -> out B) b :
  (m ≫= f) = Ok b -> exists a, m = Ok a /\ f a = Ok b.
Proof. destruct m; simpl; intros; [eauto | discriminate | discriminate]. Qed.

Lemma bind_Ok {A B} (a : A) (f : A -> out B) : (Ok a ≫= f) = f a.
Proof. reflexivity. Qed.

Lemma Ok_inj {A} (a b : A) : Ok a = Ok b -> a = b.
Proof. by intros [= ->]. Qed.

Lemma bind_assoc {A B C} (m : out A) (f : A -> out B) (g : B -> out C) :
  (m ≫= f) ≫= g = m ≫= (fun a => f a ≫= g).
Proof. by destruct m. Qed.

Lemma of_opt_Ok {A} u (o : option A) a : of_opt u o = Ok a <-> o = Some a.
Proof. destruct o; simpl; naive_solver. Qed.

Lemma of_opt_Some {A} u (a : A) : of_opt u (Some a) = Ok a.
Proof. reflexivity. Qed.

(** Reduce a hypothesis [m ≫= f = Ok b] to its parts. *)
Ltac inv_bind H :=
  let a := fresh "a" in let Ha := fresh "H" a in
  apply bind_Ok_inv in H; destruct H as (a & Ha & H).

(** * Machine integers *)

Definition u8 (x : Z) : Z := x mod 2 ^ 8.
Definition u16 (x : Z) : Z := x mod 2 ^ 16.
Definition u32 (x : Z) : Z := x mod 2 ^ 32.
Definition s32 (x : Z) : Z := (x + 2 ^ 31) mod 2 ^ 32 - 2 ^ 31.

Definition INT_MAX : Z := 2 ^ 31 - 1.
Definition INT_MIN : Z := - 2 ^ 31.
Definition int_range (x : Z) : Prop := INT_MIN <= x <= INT_MAX.

(** A byte read through a plain [char] on the target (gcc for MIPS: signed). *)
Definition schar (c : Z) : Z := if c <? 128 then c else c - 256.

(** Signed arithmetic: [int], [long] and [time_t] are 32 bits wide on the target. *)
Definition add_int (x y : Z) : out Z :=
  if (INT_MIN <=? x + y) && (x + y <=? INT_MAX) then Ok (x + y) else Undef SignedOverflow.

Definition mul_int (x y : Z) : out Z :=
  if (INT_MIN <=? x * y) && (x * y <=? INT_MAX) then Ok (x * y) else Undef SignedOverflow.

Lemma add_int_Ok x y : int_range (x + y) -> add_int x y = Ok (x + y).
Proof.
  unfold int_range, add_int. intros [H1 H2].
  destruct (Z.leb_spec INT_MIN (x + y)), (Z.leb_spec (x + y) INT_MAX); done || lia.
Qed.

(** An outcome other than an access to freed memory. *)
Definition no_uaf {A} (m : out A) : Prop := m <> Undef UseAfterFree.

Lemma no_uaf_bind {A B} (m : out A) (f : A -> out B) :
  no_uaf m -> (forall a, m = Ok a -> no_uaf (f a)) -> no_uaf (m ≫= f).
Proof. unfold no_uaf. intros H1 H2. destruct m; simpl; [by apply H2|congruence|done]. Qed.

Lemma no_uaf_of_opt {A} u (o : option A) : u <> UseAfterFree -> no_uaf (of_opt u o).
Proof. unfold no_uaf. destruct o; simpl; congruence. Qed.

Lemma no_uaf_Ok {A} (a : A) : no_uaf (Ok a).
Proof. done. Qed.

Lemma no_uaf_add_int x y : no_uaf (add_int x y).
Proof. unfold add_int, no_uaf. by destruct (_ && _). Qed.

Lemma no_uaf_mul_int x y : no_uaf (mul_int x y).
Proof. unfold mul_int, no_uaf. by destruct (_ && _). Qed.

(** Proofs that a computation does not touch freed memory: its parts do not. *)
Create HintDb uaf discriminated.
#[export] Hint Resolve no_uaf_Ok no_uaf_add_int no_uaf_mul_int : uaf.
#[export] Hint Extern 1 (no_uaf (of_opt _ _)) => apply no_uaf_of_opt; discriminate : uaf.

Lemma u8_small x : 0 <= x < 256 -> u8 x = x.
Proof. intros. unfold u8. apply Z.mod_small. lia. Qed.

Lemma u16_small x : 0 <= x < 65536 -> u16 x = x.
Proof. intros. unfold u16. apply Z.mod_small. lia. Qed.

Lemma u32_small x : 0 <= x < 2 ^ 32 -> u32 x = x.
Proof. intros. unfold u32. by apply Z.mod_small. Qed.

Lemma s32_small x : int_range x -> s32 x = x.
Proof.
  unfold int_range, INT_MIN, INT_MAX, s32. intros.
  rewrite Z.mod_small; lia.
Qed.

Lemma u8_range x : 0 <= u8 x < 256.
Proof. unfold u8. apply Z.mod_pos_bound. lia. Qed.

(** * Bytes and C strings *)

(** A [char] buffer is a list of byte values; a C string is the list of its
    bytes before the terminating NUL. *)
Abbreviation cstr := (list Z).

Definition str (s : string) : cstr :=
  map (fun a => Z.of_N (N_of_ascii a)) (list_ascii_of_string s).
Arguments str s%_string.

(** A line of text: the string followed by ["\n"]. *)
Definition line (s : string) : cstr := str s ++ [10].
Arguments line s%_string.

Definition is_byte (c : Z) : Prop := 0 <= c < 256.
Definition bytes_wf (l : list Z) : Prop := Forall is_byte l.
Definition no_nul (l : list Z) : Prop := Forall (fun c => c <> 0) l.

(** ** ctype.h *)

Definition tolower (c : Z) : Z := if (65 <=? c) && (c <=? 90) then c + 32 else c.
Definition toupper (c : Z) : Z := if (97 <=? c) && (c <=? 122) then c - 32 else c.
Definition isupper (c : Z) : bool := (65 <=? c) && (c <=? 90).
Definition isdigit (c : Z) : bool := (48 <=? c) && (c <=? 57).
Definition isspace (c : Z) : bool := ((9 <=? c) && (c <=? 13)) || (c =? 32).
Definition isxdigit (c : Z) : bool :=
  isdigit c || ((65 <=? c) && (c <=? 70)) || ((97 <=? c) && (c <=? 102)).

(** Case analysis on every comparison of integers in sight. *)
Ltac zcase :=
  repeat match goal with
  | |- context [?a <=? ?b] => destruct (Z.leb_spec a b)
  | |- context [?a <? ?b] => destruct (Z.ltb_spec a b)
  | |- context [?a =? ?b] => destruct (Z.eqb_spec a b)
  | H : context [?a <=? ?b] |- _ => destruct (Z.leb_spec a b)
  | H : context [?a <? ?b] |- _ => destruct (Z.ltb_spec a b)
  | H : context [?a =? ?b] |- _ => destruct (Z.eqb_spec a b)
  end.

Lemma tolower_idem c : tolower (tolower c) = tolower c.
Proof. unfold tolower. zcase; simpl in *; lia. Qed.

Lemma tolower_ctl c : tolower c < 32 <-> c < 32.
Proof. unfold tolower. zcase; simpl in *; lia. Qed.

Lemma tolower_0 c : tolower c = 0 <-> c = 0.
Proof. unfold tolower. zcase; simpl in *; lia. Qed.

(** ** string.h *)

(** [strcmp(a,b) == 0], [strcasecmp(a,b) == 0], [strncmp(a,b,n) == 0] *)
Definition strcmp0 (a b : cstr) : bool := bool_decide (a = b).
Definition strcasecmp0 (a b : cstr) : bool := bool_decide (map tolower a = map tolower b).
Definition strncmp0 (n : nat) (a b : cstr) : bool := bool_decide (take n a = take n b).

Definition lower (s : cstr) : cstr := map tolower s.

Lemma lower_idem s : lower (lower s) = lower s.
Proof. unfold lower. rewrite map_map. apply map_ext, tolower_idem. Qed.

Lemma strcmp0_spec a b : strcmp0 a b = true <-> a = b.
Proof. apply bool_decide_eq_true. Qed.

Lemma strcmp0_refl a : strcmp0 a a = true.
Proof. by apply strcmp0_spec. Qed.

Lemma strcasecmp0_spec a b : strcasecmp0 a b = true <-> lower a = lower b.
Proof. apply bool_decide_eq_true. Qed.

Lemma strcasecmp0_refl a : strcasecmp0 a a = true.
Proof. by apply strcasecmp0_spec. Qed.

Lemma strcasecmp0_sym a b : strcasecmp0 a b = strcasecmp0 b a.
Proof. unfold strcasecmp0. apply bool_decide_ext. naive_solver. Qed.

Lemma strcasecmp0_cons c d s t :
  strcasecmp0 (c :: s) (d :: t) = (tolower c =? tolower d) && strcasecmp0 s t.
Proof.
  apply eq_true_iff_eq. rewrite andb_true_iff, !strcasecmp0_spec, Z.eqb_eq. unfold lower. cbn [map].
  split; [by intros [= -> ->] | by intros [-> ->]].
Qed.

(** [strchr(s,c)] as an offset, for [c <> 0]. *)
Fixpoint strchr (s : cstr) (c : Z) : option nat :=
  match s with
  | [] => None
  | x :: r => if x =? c then Some 0%nat else S <$> strchr r c
  end.

Fixpoint strrchr (s : cstr) (c : Z) : option nat :=
  match s with
  | [] => None
  | x :: r =>
      match strrchr r c with
      | Some i => Some (S i)
      | None => if x =? c then Some 0%nat else None
      end
  end.

(** [strstr(s,needle)] as an offset. *)
Fixpoint strstr (s needle : cstr) : option nat :=
  if bool_decide (take (length needle) s = needle) then Some 0%nat
  else match s with
       | [] => None
       | _ :: r => S <$> strstr r needle
       end.

(** The C string that starts at offset [off] of a buffer; [None] when the
    buffer ends before a NUL. *)
Fixpoint until0 (l : list Z) : option cstr :=
  match l with
  | [] => None
  | c :: r => if c =? 0 then Some [] else cons c <$> until0 r
  end.

Definition cstr_at (buf : list Z) (off : nat) : option cstr := until0 (drop off buf).

Lemma until0_app s r : no_nul s -> until0 (s ++ 0 :: r) = Some s.
Proof.
  induction 1 as [|c s Hc _ IH]; simpl; [done|].
  destruct (Z.eqb_spec c 0); [done|]. by rewrite IH.
Qed.

Lemma until0_Some l s :
  until0 l = Some s -> no_nul s /\ exists r, l = s ++ 0 :: r.
Proof.
  revert s; induction l as [|c l IH]; simpl; intros s H; [done|].
  destruct (Z.eqb_spec c 0) as [->|Hc].
  - injection H as <-. split; [constructor | by exists l].
  - destruct (until0 l) as [t|]; [|done]. injection H as <-.
    destruct (IH t eq_refl) as (? & r & ->). split; [by constructor | by exists r].
Qed.

Lemma until0_is_Some l : (exists i, l !! i = Some 0) -> is_Some (until0 l).
Proof.
  induction l as [|c l IH]; intros [i Hi]; [done|]. simpl.
  destruct (Z.eqb_spec c 0); [eauto|].
  destruct i as [|i]; [simpl in Hi; congruence|].
  destruct IH as [s ->]; [by exists i | by eexists].
Qed.

Lemma cstr_at_app pre s r :
  no_nul s -> cstr_at (pre ++ s ++ 0 :: r) (length pre) = Some s.
Proof. intros. unfold cstr_at. rewrite drop_app_length. by apply until0_app. Qed.

Lemma strchr_None s c : strchr s c = None <-> c ∉ s.
Proof.
  induction s as [|x s IH]; simpl; [set_solver|].
  destruct (Z.eqb_spec x c); [set_solver|].
  destruct (strchr s c); simpl; [|set_solver].
  split; [done|]. intros Hc. exfalso. apply not_elem_of_cons in Hc as [_ Hc].
  by apply IH in Hc.
Qed.

Lemma strchr_app s c r : c ∉ s -> strchr (s ++ c :: r) c = Some (length s).
Proof.
  induction s as [|x s IH]; simpl; intros Hc.
  - by rewrite Z.eqb_refl.
  - apply not_elem_of_cons in Hc as [? ?].
    destruct (Z.eqb_spec x c); [congruence|]. by rewrite IH.
Qed.

Lemma strchr_lookup s c i : strchr s c = Some i -> s !! i = Some c /\ c ∉ take i s.
Proof.
  revert i; induction s as [|x s IH]; simpl; intros i; [done|].
  destruct (Z.eqb_spec x c) as [->|].
  - intros [= <-]. split; [done|]. simpl. set_solver.
  - destruct (strchr s c) as [j|]; simpl; [|done]. intros [= <-]. simpl.
    destruct (IH j eq_refl). split; [done|]. set_solver.
Qed.

(** ** stdlib.h and printf conversions *)

Fixpoint skip_while (p : Z -> bool) (s : cstr) : cstr :=
  match s with
  | c :: r => if p c then skip_while p r else s
  | [] => []
  end.

Fixpoint take_while (p : Z -> bool) (s : cstr) : cstr :=
  match s with
  | c :: r => if p c then c :: take_while p r else []
  | [] => []
  end.

(** The string in a buffer that ends with a NUL. *)
Definition c_text (b : list Z) : cstr := take_while (fun c => negb (c =? 0)) b.

Definition digits_val (s : cstr) : Z := fold_left (fun acc c => acc * 10 + (c - 48)) s 0.

Definition clamp_int (x : Z) : Z := Z.max INT_MIN (Z.min INT_MAX x).

(** [atoi], and [strtol(s,NULL,10)]: [long] is 32 bits wide on the target and
    uClibc saturates. *)
Definition atoi (s : cstr) : Z :=
  match skip_while isspace s with
  | 45 :: r => clamp_int (- digits_val (take_while isdigit r))
  | 43 :: r => clamp_int (digits_val (take_while isdigit r))
  | r => clamp_int (digits_val (take_while isdigit r))
  end.

Lemma atoi_range s : int_range (atoi s).
Proof.
  unfold atoi, clamp_int, int_range.
  assert (INT_MIN <= INT_MAX) by (unfold INT_MIN, INT_MAX; lia).
  repeat case_match; lia.
Qed.

(** The digits of [n >= 0] in [base], least significant first. *)
Fixpoint digits_rev (fuel : nat) (base n : Z) : list Z :=
  match fuel with
  | O => []
  | S f => if n <? base then [n] else (n mod base) :: digits_rev f base (n / base)
  end.

Definition digits (base n : Z) : list Z :=
  rev (digits_rev (S (Z.to_nat (Z.log2 n))) base n).

Definition dec_char (d : Z) : Z := 48 + d.
Definition hex_char_up (d : Z) : Z := if d <? 10 then 48 + d else 55 + d.
Definition hex_char_lo (d : Z) : Z := if d <? 10 then 48 + d else 87 + d.

(** Zero padding to a minimum field width. *)
Definition pad0 (w : nat) (s : cstr) : cstr := replicate (w - length s) 48 ++ s.

(** ["%d"], ["%02X"], ["%0wx"] *)
Definition fmt_d (n : Z) : cstr :=
  if n <? 0 then 45 :: map dec_char (digits 10 (- n)) else map dec_char (digits 10 n).
Definition fmt_X (w : nat) (n : Z) : cstr := pad0 w (map hex_char_up (digits 16 (u32 n))).
Definition fmt_x (w : nat) (n : Z) : cstr := pad0 w (map hex_char_lo (digits 16 (u32 n))).

Lemma fmt_d_examples :
  fmt_d 0 = str "0" /\ fmt_d (-120) = str "-120" /\ fmt_X 2 10 = str "0A" /\ fmt_X 2 255 = str "FF".
Proof. repeat split; vm_compute; reflexivity. Qed.

(** *** Reading a printed number back *)

Lemma digits_rev_range fuel base n :
  2 <= base -> 0 <= n -> Forall (fun d => 0 <= d < base) (digits_rev fuel base n).
Proof.
  intros Hb. revert n. induction fuel as [|f IH]; intros n Hn; simpl; [constructor|].
  destruct (Z.ltb_spec n base); [by repeat constructor|].
  constructor; [apply Z.mod_pos_bound; lia|]. apply IH, Z.div_pos; lia.
Qed.

Lemma digits_rev_val fuel base n :
  2 <= base -> 0 <= n < base ^ Z.of_nat fuel ->
  fold_right (fun d acc => acc * base + d) 0 (digits_rev fuel base n) = n.
Proof.
  intros Hb. revert n. induction fuel as [|f IH]; intros n Hn.
  - simpl in *. lia.
  - cbn [digits_rev]. destruct (Z.ltb_spec n base) as [|Hge]; [simpl; lia|].
    cbn [fold_right]. rewrite IH.
    + pose proof (Z.div_mod n base). lia.
    + rewrite Nat2Z.inj_succ, Z.pow_succ_r in Hn by lia. split; [apply Z.div_pos; lia|].
      apply Z.div_lt_upper_bound; lia.
Qed.

Lemma digits_fuel base n : 2 <= base -> 0 <= n -> n < base ^ Z.of_nat (S (Z.to_nat (Z.log2 n))).
Proof.
  intros Hb Hn. rewrite Nat2Z.inj_succ, Z2Nat.id by apply Z.log2_nonneg.
  pose proof (Z.log2_nonneg n). destruct (decide (n = 0)) as [->|Hn0].
  { apply Z.pow_pos_nonneg; lia. }
  pose proof (Z.log2_spec n ltac:(lia)) as [_ Hl].
  pose proof (Z.pow_le_mono_l 2 base (Z.succ (Z.log2 n)) ltac:(lia)). lia.
Qed.

Lemma digits_val_digits n : 0 <= n -> digits_val (map dec_char (digits 10 n)) = n.
Proof.
  intros Hn. unfold digits_val, digits. rewrite map_rev, <- fold_left_rev_right, rev_involutive.
  etransitivity; [|apply (digits_rev_val (S (Z.to_nat (Z.log2 n))) 10 n);
    [lia|split; [lia|by apply digits_fuel]]].
  generalize (digits_rev (S (Z.to_nat (Z.log2 n))) 10 n). intros l.
  induction l as [|d l IH]; [done|]. cbn [map fold_right]. rewrite IH. unfold dec_char. lia.
Qed.

Lemma digits_isdigit n : 0 <= n -> Forall (fun c => isdigit c = true) (map dec_char (digits 10 n)).
Proof.
  intros Hn. apply Forall_map. unfold digits. apply Forall_rev.
  eapply Forall_impl; [by apply digits_rev_range; [lia|]|]. intros d Hd. simpl in Hd.
  unfold isdigit, dec_char. lia.
Qed.

Lemma digits_nonempty n : digits 10 n <> [].
Proof.
  unfold digits. cbn [digits_rev]. destruct (n <? 10); [done|]. simpl. by destruct (rev _).
Qed.

Lemma take_while_all p s : Forall (fun c => p c = true) s -> take_while p s = s.
Proof. induction 1 as [|c s Hc _ IH]; [done|]. simpl. by rewrite Hc, IH. Qed.

(** [atoi] inverts ["%d"]. *)
Lemma atoi_fmt_d n : int_range n -> atoi (fmt_d n) = n.
Proof.
  unfold int_range, INT_MIN, INT_MAX. intros Hr. unfold fmt_d. destruct (Z.ltb_spec n 0) as [Hn|Hn].
  - unfold atoi. cbn [skip_while]. change (isspace 45) with false. cbn match.
    rewrite take_while_all, digits_val_digits by (lia || apply digits_isdigit; lia).
    unfold clamp_int, INT_MIN, INT_MAX. lia.
  - pose proof (digits_isdigit n Hn) as Hd. pose proof (digits_nonempty n) as Hne.
    pose proof (digits_val_digits n Hn) as Hv.
    assert (exists c r, map dec_char (digits 10 n) = c :: r) as (c & r & Hc).
    { destruct (digits 10 n); [done|]. simpl. eauto. }
    rewrite Hc in *. apply Forall_cons in Hd as Hd'. destruct Hd' as [Hdc _].
    unfold isdigit in Hdc. unfold atoi. cbn [skip_while].
    replace (isspace c) with false by (unfold isspace; lia).
    assert (Hm : clamp_int (digits_val (take_while isdigit (c :: r))) = n).
    { rewrite take_while_all, Hv by done. unfold clamp_int, INT_MIN, INT_MAX. lia. }
    destruct (decide (c = 45)) as [->|]; [lia|]. destruct (decide (c = 43)) as [->|]; [lia|].
    repeat case_match; done.
Qed.

(** Printed numbers are text. *)
Lemma fmt_d_text n : Forall (fun c => 32 <= c) (fmt_d n).
Proof.
  assert (Hd : forall m, 0 <= m -> Forall (fun c => 32 <= c) (map dec_char (digits 10 m))).
  { intros m Hm. eapply Forall_impl; [by apply digits_isdigit|]. intros c Hc. unfold isdigit in Hc. lia. }
  unfold fmt_d. destruct (Z.ltb_spec n 0); [constructor; [lia|]|]; apply Hd; lia.
Qed.

(** * Lists *)

Lemma Forall_sublist {A} (P : A -> Prop) (l1 l2 : list A) : sublist l1 l2 -> Forall P l2 -> Forall P l1.
Proof.
  intros Hs. induction Hs as [|x l1 l2 _ IH|x l1 l2 _ IH]; intros Hl; [done| |];
    apply Forall_cons in Hl as [Hx Hl]; [constructor|]; auto.
Qed.

Lemma app_cons_assoc {A} (l : list A) x r : l ++ x :: r = (l ++ [x]) ++ r.
Proof. by rewrite <- app_assoc. Qed.

(** Right-nested appends with cons in head position. *)
Ltac app_norm := repeat first [rewrite <- app_assoc | progress (cbn [app])].

(** Arithmetic on the lengths of appended lists. *)
Ltac len_lia :=
  repeat match goal with
  | H : context [length (_ ++ _)] |- _ => rewrite !length_app in H
  end;
  rewrite ?length_app; simpl in *; lia.
