(* ===== verification/UtList.v ===== *)
(** * Singly linked lists (xaplib2/utlist.h)

    Every table of the system (filter callbacks, timeouts, socket listeners,
    endpoints, hub connections, iServer clients, serial ports) is a chain of
    heap nodes manipulated by the [LL_*] macros.  [Module Heap] models the
    macros on a heap of [next] pointers, with dereferences of freed nodes and
    of NULL as outcomes; [Module Lists] gives the operations on sequences of
    nodes the component models use, and the theorems at the end show that the
    macros implement them. *)

From S2P Require Import Prelude.

Abbreviation addr := positive.
Abbreviation ptr := (option positive).

(** ** The macros on a heap of [next] fields *)
Module Heap.

(** A live node maps to the value of its [next] field. *)
Abbreviation heap := (gmap addr ptr).

Definition load_next (h : heap) (p : ptr) : out ptr :=
  match p with
  | None => Undef NullDeref
  | Some a => of_opt UseAfterFree (h !! a)
  end.

Definition store_next (h : heap) (p v : ptr) : out heap :=
  match p with
  | None => Undef NullDeref
  | Some a => match h !! a with
              | Some _ => Ok (<[a := v]> h)
              | None => Undef UseAfterFree
              end
  end.

Definition LL_PREPEND (h : heap) (head : ptr) (add : addr) : out (heap * ptr) :=
  h ← store_next h (Some add) head;
  Ok (h, Some add).

(** [while (_tmp->next && (_tmp->next != (del))) _tmp = _tmp->next;]
    the fuel bounds the number of iterations. *)
Fixpoint walk_to (fuel : nat) (h : heap) (tmp : ptr) (del : ptr) : out ptr :=
  match fuel with
  | O => Undef OutOfBounds
  | S f =>
      n ← load_next h tmp;
      match n with
      | None => Ok tmp
      | Some _ => if bool_decide (n = del) then Ok tmp else walk_to f h n del
      end
  end.

Definition LL_APPEND (fuel : nat) (h : heap) (head : ptr) (add : addr) : out (heap * ptr) :=
  h ← store_next h (Some add) None;
  match head with
  | None => Ok (h, Some add)
  | Some _ =>
      tmp ← walk_to fuel h head None;
      h ← store_next h tmp (Some add);
      Ok (h, head)
  end.

Definition LL_DELETE (fuel : nat) (h : heap) (head : ptr) (del : addr) : out (heap * ptr) :=
  if bool_decide (head = Some del) then
    n ← load_next h head;
    Ok (h, n)
  else
    tmp ← walk_to fuel h head (Some del);
    n ← load_next h tmp;
    match n with
    | None => Ok (h, head)
    | Some _ =>
        dn ← load_next h (Some del);
        h ← store_next h tmp dn;
        Ok (h, head)
    end.

(** The addresses [LL_FOREACH] visits when the body leaves the chain alone. *)
Fixpoint LL_FOREACH (fuel : nat) (h : heap) (p : ptr) : out (list addr) :=
  match fuel with
  | O => Undef OutOfBounds
  | S f =>
      match p with
      | None => Ok []
      | Some a =>
          n ← load_next h p;
          l ← LL_FOREACH f h n;
          Ok (a :: l)
      end
  end.

(** [is_ll h p l]: the chain from [p] is the sequence [l]. *)
Fixpoint is_ll (h : heap) (p : ptr) (l : list addr) : Prop :=
  match l with
  | [] => p = None
  | a :: r => p = Some a /\ exists n, h !! a = Some n /\ is_ll h n r
  end.

Lemma is_ll_functional h p l1 l2 : is_ll h p l1 -> is_ll h p l2 -> l1 = l2.
Proof.
  revert p l2; induction l1 as [|a l1 IH]; intros p [|b l2]; simpl; [naive_solver..|].
  intros (-> & n & Hn & H1) ([= <-] & m & Hm & H2). rewrite Hn in Hm. injection Hm as <-.
  f_equal; eauto.
Qed.

Lemma is_ll_suffix h p l1 a l2 : is_ll h p (l1 ++ a :: l2) -> is_ll h (Some a) (a :: l2).
Proof.
  revert p; induction l1 as [|b l1 IH]; intros p; simpl.
  - by intros (-> & ?).
  - intros (_ & n & _ & H). exact (IH n H).
Qed.

Lemma is_ll_NoDup h p l : is_ll h p l -> NoDup l.
Proof.
  revert p; induction l as [|a l IH]; intros p H; [constructor|].
  pose proof H as Hl. simpl in H. destruct H as (-> & n & Hn & Hr).
  constructor; [|eauto]. intros Hin.
  apply list_elem_of_split in Hin as (l1 & l2 & ->).
  pose proof (is_ll_suffix h n l1 a l2 Hr) as Hs.
  pose proof (is_ll_functional _ _ _ _ Hl Hs) as Heq.
  apply (f_equal length) in Heq. simpl in Heq. rewrite length_app in Heq. simpl in Heq. lia.
Qed.

(** Writing a node that is not in the chain leaves the chain alone. *)
Lemma is_ll_frame h p l a v : a ∉ l -> is_ll h p l -> is_ll (<[a := v]> h) p l.
Proof.
  revert p; induction l as [|b l IH]; intros p Ha; simpl; [done|].
  apply not_elem_of_cons in Ha as [Hb Ha].
  intros (-> & n & Hn & Hr). split; [done|]. exists n.
  rewrite lookup_insert_ne by done. eauto.
Qed.

Lemma is_ll_free h p l a : a ∉ l -> is_ll h p l -> is_ll (delete a h) p l.
Proof.
  revert p; induction l as [|b l IH]; intros p Ha; simpl; [done|].
  apply not_elem_of_cons in Ha as [Hb Ha].
  intros (-> & n & Hn & Hr). split; [done|]. exists n.
  rewrite lookup_delete_ne by done. eauto.
Qed.

Lemma LL_FOREACH_spec h p l fuel :
  is_ll h p l -> (length l < fuel)%nat -> LL_FOREACH fuel h p = Ok l.
Proof.
  revert p fuel; induction l as [|a l IH]; intros p [|f] H Hf; simpl in *; try lia.
  - by subst.
  - destruct H as (-> & n & Hn & Hr). simpl. rewrite Hn. simpl.
    rewrite (IH n f) by (auto; lia). done.
Qed.

Lemma LL_PREPEND_spec h head l add :
  is_ll h head l -> is_Some (h !! add) -> add ∉ l ->
  exists h', LL_PREPEND h head add = Ok (h', Some add) /\ is_ll h' (Some add) (add :: l).
Proof.
  intros Hl [v Hv] Hadd. unfold LL_PREPEND. simpl. rewrite Hv. simpl.
  eexists; split; [done|]. simpl. split; [done|]. exists head.
  rewrite lookup_insert_eq. split; [done|]. by apply is_ll_frame.
Qed.

(** The walk stops on the predecessor of [del]. *)
Lemma walk_to_found h l1 a del l2 p fuel :
  is_ll h p (l1 ++ a :: del :: l2) -> (length l1 < fuel)%nat ->
  walk_to fuel h p (Some del) = Ok (Some a).
Proof.
  revert p fuel; induction l1 as [|b l1 IH]; intros p [|f] Hl Hf; simpl in Hf; try lia.
  - simpl in *. destruct Hl as (-> & n & Hn & -> & m & Hm & _). simpl. rewrite Hn. simpl.
    by rewrite bool_decide_eq_true_2.
  - pose proof (is_ll_NoDup _ _ _ Hl) as Hnd.
    simpl in Hl. destruct Hl as (-> & n & Hn & Hr). simpl. rewrite Hn. simpl.
    destruct n as [c|].
    + destruct (bool_decide_reflect (Some c = Some del)) as [[= ->]|].
      * exfalso. apply NoDup_cons in Hnd as [_ Hnd].
        destruct l1 as [|d l1]; simpl in Hr; destruct Hr as ([= <-] & _);
          simpl in Hnd; apply NoDup_cons in Hnd as [Hnd _]; set_solver.
      * apply (IH (Some c) f); [done|lia].
    + exfalso. destruct l1; simpl in Hr; by destruct Hr.
Qed.

Lemma walk_to_last h l a del p fuel :
  is_ll h p (l ++ [a]) -> del ∉ tail (l ++ [a]) -> (length l < fuel)%nat ->
  walk_to fuel h p (Some del) = Ok (Some a) /\ walk_to fuel h p None = Ok (Some a).
Proof.
  revert p fuel; induction l as [|b l IH]; intros p [|f] Hl Hd Hf; simpl in Hf; try lia.
  - simpl in *. destruct Hl as (-> & n & Hn & ->). simpl. by rewrite Hn.
  - simpl in Hl, Hd. destruct Hl as (-> & n & Hn & Hr). simpl. rewrite Hn. simpl.
    assert (exists c, n = Some c /\ c <> del /\ del ∉ tail (l ++ [a])) as (c & -> & Hc & Ht).
    { destruct l as [|d l]; simpl in Hr, Hd |- *; destruct Hr as (-> & _);
        eexists; (split; [done|]); set_solver. }
    rewrite !bool_decide_eq_false_2 by congruence. apply IH; [done|done|lia].
Qed.

Lemma is_ll_set_tail h l a p l2 n :
  NoDup (l ++ [a]) -> is_ll h p (l ++ [a]) -> a ∉ l2 ->
  is_ll h n l2 -> is_ll (<[a := n]> h) p (l ++ a :: l2).
Proof.
  revert p; induction l as [|b l IH]; intros p Hnd Hl Ha H2; simpl in *.
  - destruct Hl as (-> & m & _ & _). split; [done|]. exists n.
    rewrite lookup_insert_eq. split; [done|]. by apply is_ll_frame.
  - destruct Hl as (-> & m & Hm & Hr). apply NoDup_cons in Hnd as [Hb Hnd].
    split; [done|]. exists m. rewrite lookup_insert_ne by set_solver. eauto.
Qed.

Lemma is_ll_split h p l1 a l2 :
  is_ll h p (l1 ++ a :: l2) -> exists n, h !! a = Some n /\ is_ll h n l2.
Proof.
  intros H. apply is_ll_suffix in H. simpl in H. naive_solver.
Qed.

(** Redirecting the [next] field of a node to another chain. *)
Lemma is_ll_relink h p l a l2 l3 n :
  is_ll h p (l ++ a :: l2) -> a ∉ l3 -> is_ll h n l3 ->
  is_ll (<[a := n]> h) p (l ++ a :: l3).
Proof.
  intros Hl. pose proof (is_ll_NoDup _ _ _ Hl) as Hnd.
  revert p Hl Hnd; induction l as [|b l IH]; intros p Hl Hnd Ha H3; simpl in *.
  - destruct Hl as (-> & m & _ & _). split; [done|]. exists n.
    rewrite lookup_insert_eq. split; [done|]. by apply is_ll_frame.
  - destruct Hl as (-> & m & Hm & Hr). apply NoDup_cons in Hnd as [Hb Hnd].
    split; [done|]. exists m. rewrite lookup_insert_ne by set_solver. eauto.
Qed.

Lemma LL_APPEND_spec h head l add fuel :
  is_ll h head l -> is_Some (h !! add) -> add ∉ l -> (length l < fuel)%nat ->
  exists h' head', LL_APPEND fuel h head add = Ok (h', head') /\ is_ll h' head' (l ++ [add]).
Proof.
  intros Hl [v Hv] Hadd Hf. unfold LL_APPEND. simpl. rewrite Hv. simpl.
  pose proof (is_ll_frame _ _ _ add None Hadd Hl) as Hl'.
  assert (Hn : is_ll (<[add := None]> h) (Some add) [add]).
  { simpl. split; [done|]. exists None. by rewrite lookup_insert_eq. }
  destruct l as [|a l _] using rev_ind.
  - simpl in Hl. subst head. eauto.
  - rewrite length_app in Hf. simpl in Hf.
    destruct (walk_to_last _ _ _ add _ fuel Hl') as [_ Hw]; [|lia|].
    { destruct l; set_solver. }
    destruct head as [hd|]; [|by destruct l; destruct Hl].
    rewrite Hw. simpl. destruct (is_ll_split _ _ _ _ _ Hl') as (n & -> & _). simpl.
    eexists _, _; split; [done|]. rewrite <- app_assoc. simpl.
    eapply is_ll_relink; [done|set_solver|done].
Qed.

Lemma LL_DELETE_absent h head l del fuel :
  is_ll h head l -> head <> None -> del ∉ l -> (length l <= fuel)%nat ->
  LL_DELETE fuel h head del = Ok (h, head).
Proof.
  intros Hl Hhd Hdel Hf. unfold LL_DELETE.
  destruct l as [|a l _] using rev_ind; [simpl in Hl; congruence|].
  rewrite bool_decide_eq_false_2.
  2: { intros ->. destruct l; simpl in Hl; destruct Hl as ([= ->] & _); set_solver. }
  rewrite length_app in Hf. simpl in Hf.
  destruct (walk_to_last _ _ _ del _ fuel Hl) as [-> _]; [|lia|].
  { destruct l; set_solver. }
  simpl. destruct (is_ll_split _ _ _ _ _ Hl) as (n & -> & ->). done.
Qed.

Lemma LL_DELETE_present h head l1 del l2 fuel :
  is_ll h head (l1 ++ del :: l2) -> (length l1 < fuel)%nat ->
  exists h' head', LL_DELETE fuel h head del = Ok (h', head') /\ is_ll h' head' (l1 ++ l2)
    /\ h' !! del = h !! del.
Proof.
  intros Hl Hf. unfold LL_DELETE. pose proof (is_ll_NoDup _ _ _ Hl) as Hnd.
  destruct (is_ll_split _ _ _ _ _ Hl) as (dn & Hdn & H2).
  destruct l1 as [|a l1 _] using rev_ind.
  - simpl in Hl. destruct Hl as (-> & _). rewrite bool_decide_eq_true_2 by done.
    simpl. rewrite Hdn. simpl. eauto.
  - rewrite bool_decide_eq_false_2.
    2: { intros ->. destruct l1; simpl in Hl, Hnd; destruct Hl as ([= ->] & _);
         apply NoDup_cons in Hnd as [Hnd _]; set_solver. }
    rewrite <- app_assoc in Hl, Hnd. simpl in Hl, Hnd.
    rewrite length_app in Hf. simpl in Hf.
    rewrite (walk_to_found _ _ _ _ _ _ _ Hl) by lia. simpl.
    destruct (is_ll_split _ _ _ _ _ Hl) as (n & Hn & Hd). rewrite Hn. simpl.
    simpl in Hd. destruct Hd as (-> & _). simpl. rewrite Hdn. simpl.
    eexists _, _; split; [done|]. apply NoDup_app in Hnd as (_ & _ & Hnd).
    apply NoDup_cons in Hnd as [Ha Hnd]. rewrite <- app_assoc. simpl. split.
    + eapply is_ll_relink; [done|set_solver|done].
    + rewrite lookup_insert_ne; set_solver.
Qed.

(** Deleting from an empty list dereferences NULL. *)
Lemma LL_DELETE_empty h del fuel : LL_DELETE (S fuel) h None del = Undef NullDeref.
Proof. reflexivity. Qed.

End Heap.

(** ** The operations on sequences of nodes *)

(** A node is a payload with the address [malloc] gave it. *)
Class Node (N : Type) := node_addr : N -> addr.

Module Lists.
Section Lists.
Context {N : Type} `{Node N}.
Implicit Types (l : list N) (a : addr).

Definition ll_prepend (x : N) l : list N := x :: l.
Definition ll_append (x : N) l : list N := l ++ [x].

Fixpoint ll_delete (a : addr) l : list N :=
  match l with
  | [] => []
  | x :: r => if bool_decide (node_addr x = a) then r else x :: ll_delete a r
  end.

(** [LL_SEARCH_SCALAR] and the hand-written search loops. *)
Fixpoint ll_search (p : N -> bool) l : option N :=
  match l with
  | [] => None
  | x :: r => if p x then Some x else ll_search p r
  end.

(** The node stored at an address, with the address of its successor. *)
Fixpoint ll_node (a : addr) l : option (N * ptr) :=
  match l with
  | [] => None
  | x :: r => if bool_decide (node_addr x = a) then Some (x, node_addr <$> head r) else ll_node a r
  end.

Definition ll_head l : ptr := node_addr <$> head l.

(** Apply a store through a pointer to the node at [a]. *)
Definition ll_update (a : addr) (f : N -> N) l : list N :=
  map (fun x => if bool_decide (node_addr x = a) then f x else x) l.

Definition ll_wf l : Prop := NoDup (map node_addr l).

Lemma ll_delete_notin a l : a ∉ map node_addr l -> ll_delete a l = l.
Proof.
  induction l as [|x l IH]; simpl; [done|]. intros Ha.
  apply not_elem_of_cons in Ha as [? ?]. rewrite bool_decide_eq_false_2 by congruence.
  f_equal; auto.
Qed.

Lemma ll_delete_app l1 x l2 :
  node_addr x ∉ map node_addr l1 -> ll_delete (node_addr x) (l1 ++ x :: l2) = l1 ++ l2.
Proof.
  induction l1 as [|y l1 IH]; simpl; intros Hx.
  - by rewrite bool_decide_eq_true_2.
  - apply not_elem_of_cons in Hx as [? ?]. rewrite bool_decide_eq_false_2 by congruence.
    f_equal; auto.
Qed.

Lemma ll_delete_filter a l : ll_wf l -> ll_delete a l = filter (fun x => node_addr x <> a) l.
Proof.
  unfold ll_wf. induction l as [|x l IH]; simpl; [done|]. intros Hnd.
  apply NoDup_cons in Hnd as [Hx Hnd]. rewrite filter_cons.
  destruct (bool_decide_reflect (node_addr x = a)) as [<-|Hne].
  - rewrite decide_False by (intros Hf; by apply Hf). rewrite <- IH by done.
    by rewrite ll_delete_notin.
  - rewrite decide_True by done. f_equal; auto.
Qed.

Lemma ll_delete_sublist a l : sublist (ll_delete a l) l.
Proof.
  induction l as [|x l IH]; simpl; [constructor|].
  case_bool_decide; by constructor.
Qed.

Lemma ll_delete_wf a l : ll_wf l -> ll_wf (ll_delete a l).
Proof.
  unfold ll_wf. intros. eapply sublist_NoDup; [done|].
  apply (fmap_sublist node_addr), ll_delete_sublist.
Qed.

Lemma ll_update_addr a f l :
  (forall x, node_addr (f x) = node_addr x) -> map node_addr (ll_update a f l) = map node_addr l.
Proof.
  intros Hf. unfold ll_update. rewrite map_map. apply map_ext. intros x.
  case_bool_decide; [apply Hf|done].
Qed.

Lemma ll_search_Some p l x : ll_search p l = Some x -> x ∈ l /\ p x = true.
Proof.
  induction l as [|y l IH]; simpl; [done|]. destruct (p y) eqn:E.
  - intros [= ->]. split; [constructor|done].
  - intros Hx. destruct (IH Hx). split; [by constructor|done].
Qed.

Lemma ll_search_app p l1 l2 :
  ll_search p (l1 ++ l2) = match ll_search p l1 with Some x => Some x | None => ll_search p l2 end.
Proof. induction l1 as [|y l1 IH]; simpl; [done|]. by destruct (p y). Qed.

Lemma ll_search_None p l : ll_search p l = None <-> Forall (fun x => p x = false) l.
Proof.
  induction l as [|y l IH]; simpl.
  - split; [constructor|done].
  - rewrite Forall_cons. destruct (p y); naive_solver.
Qed.

Lemma ll_node_app l1 x l2 :
  node_addr x ∉ map node_addr l1 ->
  ll_node (node_addr x) (l1 ++ x :: l2) = Some (x, ll_head l2).
Proof.
  induction l1 as [|y l1 IH]; simpl; intros Hx.
  - by rewrite bool_decide_eq_true_2.
  - apply not_elem_of_cons in Hx as [? ?]. rewrite bool_decide_eq_false_2 by congruence. auto.
Qed.

Lemma ll_node_None a l : a ∉ map node_addr l -> ll_node a l = None.
Proof.
  induction l as [|y l IH]; simpl; intros Hx; [done|].
  apply not_elem_of_cons in Hx as [? ?]. rewrite bool_decide_eq_false_2 by congruence. auto.
Qed.

Lemma ll_node_elem a l x n : ll_node a l = Some (x, n) -> x ∈ l /\ node_addr x = a.
Proof.
  induction l as [|y l IH]; [done|]. cbn [ll_node]. case_bool_decide.
  - intros [= -> <-]. split; [left|done].
  - intros Hx. destruct (IH Hx). split; [by right|done].
Qed.

Lemma ll_node_update a x l n y :
  ll_node a l = Some (y, n) -> node_addr x = a -> ll_node a (ll_update a (fun _ => x) l) = Some (x, n).
Proof.
  intros Hl Hx. revert Hl. unfold ll_update. induction l as [|z l IH]; [done|]. cbn [ll_node map].
  destruct (bool_decide_reflect (node_addr z = a)) as [Hz|Hz].
  - intros [= <- <-]. rewrite bool_decide_eq_true_2 by done. do 2 f_equal. destruct l as [|t l]; [done|]. cbn. f_equal.
    case_bool_decide as Ht; [by rewrite Hx|done].
  - rewrite bool_decide_eq_false_2 by done. exact IH.
Qed.

Lemma ll_wf_inj l x y : ll_wf l -> x ∈ l -> y ∈ l -> node_addr x = node_addr y -> x = y.
Proof.
  intros Hw Hx Hy Ha. apply list_elem_of_split in Hx as (l1 & l2 & ->). unfold ll_wf in Hw.
  rewrite map_app in Hw. cbn [map] in Hw. apply NoDup_app in Hw as (_ & Hw1 & Hw2). apply NoDup_cons in Hw2 as [Hw2 _].
  apply elem_of_app in Hy as [Hy|Hy]; [|apply elem_of_cons in Hy as [->|Hy]; [done|]].
  - destruct (Hw1 (node_addr y)); [apply list_elem_of_fmap; eauto|]. rewrite Ha. apply elem_of_cons. by left.
  - destruct Hw2. apply list_elem_of_fmap. by exists y.
Qed.

(** *** Iteration with a body that may change the list

    [W] is the program state, [get] selects the list in it.  [LL_FOREACH_SAFE]
    saves the successor before the body runs, [LL_FOREACH] reads it from the
    node afterwards; following a pointer to a node that is no longer in the
    list is a use after free. *)
Section Iter.
Context {W : Type} (get : W -> list N) (body : N -> W -> out W).

Fixpoint foreach_safe (fuel : nat) (p : ptr) (w : W) : out W :=
  match p with
  | None => Ok w
  | Some a =>
      match fuel with
      | O => Undef OutOfBounds
      | S f =>
          '(x, tmp) ← of_opt UseAfterFree (ll_node a (get w));
          w ← body x w;
          foreach_safe f tmp w
      end
  end.

Fixpoint foreach (fuel : nat) (p : ptr) (w : W) : out W :=
  match p with
  | None => Ok w
  | Some a =>
      match fuel with
      | O => Undef OutOfBounds
      | S f =>
          '(x, _) ← of_opt UseAfterFree (ll_node a (get w));
          w ← body x w;
          '(_, nxt) ← of_opt UseAfterFree (ll_node a (get w));
          foreach f nxt w
      end
  end.

(** The list is visited once, front to back; the fuel is its length. *)
Definition LL_FOREACH_SAFE (w : W) : out W := foreach_safe (length (get w)) (ll_head (get w)) w.
Definition LL_FOREACH (w : W) : out W := foreach (length (get w)) (ll_head (get w)) w.

(** A body that may prepend nodes and delete the node it is handed keeps the
    rest of the list in place, so the iteration is a left fold. *)
Fixpoint iter_all (l : list N) (w : W) : out W :=
  match l with
  | [] => Ok w
  | x :: r => w ← body x w; iter_all r w
  end.

Definition keeps_rest : Prop := forall x w w' r pre,
  get w = pre ++ x :: r -> ll_wf (get w) -> body x w = Ok w' ->
  ll_wf (get w') /\ exists pre', get w' = pre' ++ r.

Lemma foreach_safe_iter l w fuel pre :
  keeps_rest -> get w = pre ++ l -> ll_wf (get w) -> (length l <= fuel)%nat ->
  foreach_safe fuel (ll_head l) w = iter_all l w.
Proof.
  intros Hk. revert w fuel pre. induction l as [|x l IH]; intros w fuel pre Hg Hwf Hf.
  - by destruct fuel.
  - destruct fuel as [|f]; simpl in Hf; [lia|]. simpl.
    rewrite Hg. rewrite ll_node_app.
    2: { unfold ll_wf in Hwf. rewrite Hg, map_app in Hwf. apply NoDup_app in Hwf as (_ & Hd & _).
         intros Hx. apply (Hd _ Hx). simpl. left. }
    simpl. destruct (body x w) as [w'| |] eqn:Hb; simpl; [|done|done].
    destruct (Hk x w w' l pre Hg Hwf Hb) as (Hwf' & pre' & Hg').
    eapply IH; [done|done|lia].
Qed.

(** For [LL_FOREACH] the body must also leave the node itself in the list. *)
Definition keeps_node : Prop := forall x w w' r pre,
  get w = pre ++ x :: r -> ll_wf (get w) -> body x w = Ok w' ->
  ll_wf (get w') /\ exists pre' x', get w' = pre' ++ x' :: r /\ node_addr x' = node_addr x.

Lemma ll_wf_before l1 x l2 : ll_wf (l1 ++ x :: l2) -> node_addr x ∉ map node_addr l1.
Proof.
  unfold ll_wf. rewrite map_app. intros (_ & Hd & _)%NoDup_app Hx. apply (Hd _ Hx). left.
Qed.

Lemma foreach_iter l w fuel pre :
  keeps_node -> get w = pre ++ l -> ll_wf (get w) -> (length l <= fuel)%nat ->
  foreach fuel (ll_head l) w = iter_all l w.
Proof.
  intros Hk. revert w fuel pre. induction l as [|x l IH]; intros w fuel pre Hg Hwf Hf.
  - by destruct fuel.
  - destruct fuel as [|f]; simpl in Hf; [lia|]. simpl.
    rewrite Hg, ll_node_app by (rewrite Hg in Hwf; by eapply ll_wf_before).
    simpl. destruct (body x w) as [w'| |] eqn:Hb; simpl; [|done|done].
    destruct (Hk x w w' l pre Hg Hwf Hb) as (Hwf' & pre' & x' & Hg' & Hx').
    rewrite Hg', <- Hx', ll_node_app by (rewrite Hg' in Hwf'; by eapply ll_wf_before).
    simpl. eapply (IH w' f (pre' ++ [x'])); [by rewrite Hg', <- app_assoc|done|lia].
Qed.

Lemma LL_FOREACH_iter w :
  keeps_node -> ll_wf (get w) -> LL_FOREACH w = iter_all (get w) w.
Proof. intros. eapply (foreach_iter _ _ _ []); done. Qed.

Lemma LL_FOREACH_SAFE_iter w :
  keeps_rest -> ll_wf (get w) -> LL_FOREACH_SAFE w = iter_all (get w) w.
Proof. intros. eapply (foreach_safe_iter _ _ _ []); done. Qed.

(** A pass whose body, under an invariant [J] of the state, touches no freed
    memory and keeps the part of the list behind its node: the pass does neither
    lose its way nor the invariant. *)
Definition keeps_suffix (x : N) (w w' : W) : Prop :=
  forall pre r, get w = pre ++ x :: r -> exists pre', get w' = pre' ++ r.

Lemma foreach_safe_safe (J : W -> Prop) :
  (forall w, J w -> ll_wf (get w)) ->
  (forall x w, J w -> x ∈ get w ->
     no_uaf (body x w) /\ forall w', body x w = Ok w' -> J w' /\ keeps_suffix x w w') ->
  forall l fuel pre w, J w -> get w = pre ++ l ->
    no_uaf (foreach_safe fuel (ll_head l) w) /\ forall w', foreach_safe fuel (ll_head l) w = Ok w' -> J w'.
Proof.
  intros HJ Hbody l. induction l as [|x l IH]; intros fuel pre w Hw Hg.
  - destruct fuel; (split; [done|by intros w' [= <-]]).
  - destruct fuel as [|f]; [done|]. simpl. pose proof (HJ w Hw) as Hwf. rewrite Hg in Hwf.
    rewrite Hg, ll_node_app by (by eapply ll_wf_before). simpl.
    destruct (Hbody x w Hw) as [Hn Hok]; [rewrite Hg; set_solver|].
    assert (Hrest : forall w1, body x w = Ok w1 ->
      no_uaf (foreach_safe f (ll_head l) w1) /\ forall w', foreach_safe f (ll_head l) w1 = Ok w' -> J w').
    { intros w1 H1. destruct (Hok w1 H1) as [Hw1 Hs]. destruct (Hs pre l Hg) as [pre' Hg'].
      by apply (IH f pre' w1). }
    split; [apply no_uaf_bind; [done|]; intros w1 H1; by apply Hrest|].
    intros w' Hr. inv_bind Hr. by apply (Hrest a Ha).
Qed.

(** A pass keeps what every call of its body keeps. *)
Lemma foreach_safe_keeps (R : W -> W -> Prop) `{!PreOrder R} fuel p w w' :
  (forall x w w', body x w = Ok w' -> R w w') -> foreach_safe fuel p w = Ok w' -> R w w'.
Proof.
  intros Hb. revert p w. induction fuel as [|f IH]; intros [a|] w Hr; simpl in Hr; try done; try by injection Hr as <-.
  inv_bind Hr. destruct a0 as [x t]. inv_bind Hr. etrans; [by eapply Hb|by eapply IH].
Qed.

End Iter.
End Lists.
End Lists.
Export Lists.

(** ** The macros implement the sequence operations *)
Section Refinement.
Context {N : Type} `{Node N}.
Implicit Types (l : list N).

(** The heap holds the sequence [l] from [p]. *)
Definition ll_rep (h : Heap.heap) (p : ptr) l : Prop := Heap.is_ll h p (map node_addr l).

Lemma ll_rep_delete h p l x fuel :
  ll_rep h p l -> x ∈ l -> (length l <= fuel)%nat ->
  exists h' p', Heap.LL_DELETE fuel h p (node_addr x) = Ok (h', p') /\
    ll_rep (delete (node_addr x) h') p' (ll_delete (node_addr x) l).
Proof.
  unfold ll_rep. intros Hr Hx Hf. pose proof (Heap.is_ll_NoDup _ _ _ Hr) as Hnd.
  apply list_elem_of_split in Hx as (l1 & l2 & ->).
  rewrite map_app in Hr, Hnd. simpl in Hr, Hnd.
  pose proof Hnd as Hnd'. apply NoDup_app in Hnd as (_ & Hd & Hnd2).
  apply NoDup_cons in Hnd2 as [Hx2 _].
  assert (Hx1 : node_addr x ∉ map node_addr l1) by (intros Hx; apply (Hd _ Hx); left).
  rewrite length_app in Hf. simpl in Hf.
  destruct (Heap.LL_DELETE_present _ _ _ _ _ fuel Hr) as (h' & p' & Hdel & Hl & _).
  { rewrite length_map. lia. }
  exists h', p'. split; [done|]. rewrite ll_delete_app by done. rewrite map_app.
  apply Heap.is_ll_free; [|done]. rewrite elem_of_app. tauto.
Qed.

End Refinement.
