(* ===== verification/Strings.v ===== *)
(** * Bounded strings (xaplib2/strlcpy.c, strlcat.c, util.c)

    The bounded copies on buffers of bytes, the idiom
    [len += snprintf(&buf[len], size-len, ...)] with which the code builds
    messages, the password obfuscation [rot47] and the hexadecimal dump
    [str2hex].  The theorems give the strings the buffers hold afterwards. *)

From S2P Require Import Prelude.

(** [memcpy(dst + off, bytes, |bytes|)] *)
Definition write_at (dst : list Z) (off : nat) (bytes : list Z) : out (list Z) :=
  if (off + length bytes <=? length dst)%nat
  then Ok (take off dst ++ bytes ++ drop (off + length bytes) dst)
  else Undef OutOfBounds.

(** The buffer and the value returned; [size] is a [size_t]. *)
Definition strlcpy (dst : list Z) (src : cstr) (size : nat) : out (list Z * nat) :=
  let length_ := length src in
  if (0 <? size)%nat then
    let copy := if (size <=? length_)%nat then (size - 1)%nat else length_ in
    dst ← write_at dst 0 (take copy src);
    dst ← write_at dst copy [0];
    Ok (dst, length_)
  else Ok (dst, length_).

Definition strlcat (dst : list Z) (src : cstr) (size : nat) : out (list Z * nat) :=
  d ← of_opt OutOfBounds (cstr_at dst 0);
  let used := length d in
  let length_ := length src in
  if (0 <? size)%nat && (used <? size - 1)%nat then
    let copy := if (size - used <=? length_)%nat then (size - used - 1)%nat else length_ in
    dst ← write_at dst used (take copy src);
    dst ← write_at dst (used + copy) [0];
    Ok (dst, (used + length_)%nat)
  else Ok (dst, (used + length_)%nat).

(** ** Building a message with snprintf

    [t] is everything printed so far: its length is the variable [len], and the
    buffer of [N] bytes holds its first [N-1] bytes.  Once [len] exceeds [N] the
    remaining size is negative, a huge [size_t], and the next call writes
    outside the buffer. *)
Definition sb_append (N : Z) (t text : cstr) : out cstr :=
  if Z.of_nat (length t) <=? N then Ok (t ++ text) else Undef OutOfBounds.

Definition sb_content (N : Z) (t : cstr) : cstr := take (Z.to_nat (N - 1)) t.

(** ** util.c *)

(** The comparisons are on plain [char]. *)
Definition rot47_char (c : Z) : Z :=
  if (33 <=? schar c) && (schar c <=? 79) then (c + 47) mod 127
  else if (80 <=? schar c) && (schar c <=? 126) then (c - 47) mod 127
  else c.

Definition rot47 (s : cstr) : cstr := map rot47_char s.

(** [hex["0123456789ABCDEF"]] *)
Definition hexd (n : Z) : Z := if n <? 10 then 48 + n else 55 + n.

(** The low nibble comes first. *)
Definition str2hex (s : cstr) : cstr :=
  concat (map (fun c => [hexd (Z.land (schar c) 15); hexd (Z.land (Z.shiftr (schar c) 4) 15)]) s).

(** * Properties *)

Lemma write_at_Ok dst off bytes :
  (off + length bytes <= length dst)%nat ->
  write_at dst off bytes = Ok (take off dst ++ bytes ++ drop (off + length bytes) dst).
Proof. intros. unfold write_at. by destruct (Nat.leb_spec (off + length bytes) (length dst)); [|lia]. Qed.

(** Writing a string and its terminator. *)
Lemma write_cstr dst off s :
  (off + length s < length dst)%nat ->
  (d ← write_at dst off s; write_at d (off + length s) [0])
  = Ok (take off dst ++ s ++ [0] ++ drop (off + length s + 1) dst).
Proof.
  intros H. rewrite write_at_Ok, bind_Ok by lia. rewrite write_at_Ok.
  2: { rewrite !length_app, length_take, length_drop. simpl. lia. }
  f_equal. rewrite (app_assoc (take off dst) s).
  rewrite take_app_length' by (rewrite length_app, length_take; lia).
  rewrite drop_app_ge by (rewrite length_app, length_take; simpl; lia).
  rewrite <- app_assoc. do 3 f_equal. rewrite drop_drop. f_equal.
  rewrite length_app, length_take. simpl. lia.
Qed.

Lemma strlcpy_eq dst src size :
  (0 < size <= length dst)%nat ->
  strlcpy dst src size
  = Ok (take (size - 1) src ++ [0] ++ drop (length (take (size - 1) src) + 1) dst, length src).
Proof.
  intros H. unfold strlcpy. destruct (Nat.ltb_spec 0 size); [|lia]. cbv zeta.
  set (copy := if (size <=? length src)%nat then (size - 1)%nat else length src).
  assert (take copy src = take (size - 1) src /\ copy = length (take (size - 1) src)) as [Ht Hc].
  { subst copy. rewrite length_take. destruct (Nat.leb_spec size (length src)).
    - split; [done|lia].
    - rewrite !take_ge by lia. split; [done|lia]. }
  rewrite Ht, Hc, <- bind_assoc.
  pose proof (write_cstr dst 0 (take (size - 1) src)) as Hw. cbn [Nat.add] in Hw.
  rewrite Hw; [done|]. rewrite length_take. lia.
Qed.

Lemma no_nul_take n s : no_nul s -> no_nul (take n s).
Proof. apply Forall_take. Qed.

Lemma strlcpy_ok dst src size :
  (0 < size <= length dst)%nat -> no_nul src ->
  exists dst', strlcpy dst src size = Ok (dst', length src) /\ length dst' = length dst /\
    cstr_at dst' 0 = Some (take (size - 1) src).
Proof.
  intros H Hn. eexists. split; [by apply strlcpy_eq|]. split.
  - rewrite !length_app, length_drop, length_take. simpl. lia.
  - apply (cstr_at_app []). by apply no_nul_take.
Qed.

Lemma cstr_at_length buf off s : cstr_at buf off = Some s -> (off + length s < length buf)%nat.
Proof.
  unfold cstr_at. intros (_ & r & Hr)%until0_Some. apply (f_equal length) in Hr.
  rewrite length_drop, length_app in Hr. simpl in Hr. lia.
Qed.

Lemma cstr_at_no_nul buf off s : cstr_at buf off = Some s -> no_nul s.
Proof. unfold cstr_at. by intros [? _]%until0_Some. Qed.

Lemma cstr_at_0 buf s : cstr_at buf 0 = Some s -> take (length s) buf = s.
Proof.
  unfold cstr_at. rewrite drop_0. intros (_ & r & ->)%until0_Some. by rewrite take_app_length.
Qed.

Lemma strlcat_ok dst d src size :
  cstr_at dst 0 = Some d -> (length d < size <= length dst)%nat -> no_nul src ->
  exists dst', strlcat dst src size = Ok (dst', (length d + length src)%nat) /\
    length dst' = length dst /\ cstr_at dst' 0 = Some (take (size - 1) (d ++ src)).
Proof.
  intros Hd Hsz Hn. unfold strlcat. rewrite Hd. cbn [of_opt]. rewrite bind_Ok. cbv zeta.
  destruct (Nat.ltb_spec 0 size); [|lia].
  destruct (Nat.ltb_spec (length d) (size - 1)) as [Hlt|Hge]; cbn [andb].
  - set (copy := if (size - length d <=? length src)%nat then (size - length d - 1)%nat else length src).
    assert (take copy src = take (size - 1 - length d) src /\ copy = length (take (size - 1 - length d) src)) as [Ht Hc].
    { subst copy. rewrite length_take. destruct (Nat.leb_spec (size - length d) (length src)).
      - split; [f_equal|]; lia.
      - rewrite !take_ge by lia. split; [done|lia]. }
    rewrite Ht, Hc, <- bind_assoc. rewrite write_cstr.
    2: { rewrite length_take. lia. }
    rewrite bind_Ok, (cstr_at_0 _ _ Hd). eexists; split; [done|]. split.
    + rewrite !length_app, length_drop, length_take. simpl. lia.
    + rewrite take_app, (take_ge d) by lia. rewrite app_assoc. apply (cstr_at_app []).
      apply Forall_app. split; [by eapply cstr_at_no_nul | by apply no_nul_take].
  - eexists; split; [done|]. split; [done|]. rewrite take_app, (take_ge d) by lia.
    replace (size - 1 - length d)%nat with 0%nat by lia. by rewrite app_nil_r.
Qed.

Lemma rot47_char_low c : 33 <= c <= 79 -> rot47_char c = c + 47.
Proof.
  intros H. unfold rot47_char, schar. destruct (Z.ltb_spec c 128); [|lia].
  destruct (Z.leb_spec 33 c), (Z.leb_spec c 79); try lia. cbn [andb]. apply Z.mod_small. lia.
Qed.

Lemma rot47_char_high c : 80 <= c <= 126 -> rot47_char c = c - 47.
Proof.
  intros H. unfold rot47_char, schar. destruct (Z.ltb_spec c 128); [|lia].
  destruct (Z.leb_spec c 79); [lia|]. rewrite andb_false_r.
  destruct (Z.leb_spec 80 c), (Z.leb_spec c 126); try lia. cbn [andb]. apply Z.mod_small. lia.
Qed.

Lemma rot47_char_other c : is_byte c -> c < 33 \/ 126 < c -> rot47_char c = c.
Proof.
  unfold is_byte. intros Hb H. unfold rot47_char, schar.
  assert (Hs : (if c <? 128 then c else c - 256) < 33 \/ 126 < (if c <? 128 then c else c - 256))
    by (destruct (Z.ltb_spec c 128); lia).
  revert Hs. generalize (if c <? 128 then c else c - 256) as x. intros x Hx.
  destruct (Z.leb_spec 33 x), (Z.leb_spec x 79), (Z.leb_spec 80 x), (Z.leb_spec x 126); done || lia.
Qed.

Lemma rot47_char_involutive c : is_byte c -> rot47_char (rot47_char c) = c /\ is_byte (rot47_char c).
Proof.
  intros Hb. unfold is_byte in *. destruct (decide (33 <= c <= 79)) as [H|H].
  - rewrite (rot47_char_low c), rot47_char_high by lia. lia.
  - destruct (decide (80 <= c <= 126)) as [H'|H'].
    + rewrite (rot47_char_high c), rot47_char_low by lia. lia.
    + assert (Hc : rot47_char c = c) by (apply rot47_char_other; unfold is_byte; lia).
      by rewrite !Hc.
Qed.

Lemma rot47_char_nul c : is_byte c -> c <> 0 -> rot47_char c <> 0.
Proof.
  intros Hb H0 Hr. destruct (rot47_char_involutive c Hb) as [Hi _]. rewrite Hr in Hi. by subst c.
Qed.

Lemma rot47_involutive_aux s : bytes_wf s -> rot47 (rot47 s) = s.
Proof.
  induction 1 as [|c s Hc _ IH]; [done|]. cbn. f_equal; [by apply rot47_char_involutive | done].
Qed.

(** Reading the dump back. *)
Definition hexv (c : Z) : Z := if c <? 65 then c - 48 else c - 55.
Fixpoint hex2str (s : cstr) : cstr :=
  match s with
  | lo :: hi :: r => (hexv lo + 16 * hexv hi) :: hex2str r
  | _ => []
  end.

Lemma hexv_hexd n : 0 <= n < 16 -> hexv (hexd n) = n.
Proof. intros. unfold hexv, hexd. zcase; lia. Qed.

Lemma nibbles c : is_byte c ->
  0 <= Z.land (schar c) 15 < 16 /\ 0 <= Z.land (Z.shiftr (schar c) 4) 15 < 16 /\
  Z.land (schar c) 15 + 16 * Z.land (Z.shiftr (schar c) 4) 15 = c.
Proof.
  unfold is_byte. intros Hb. change 15 with (Z.ones 4). rewrite !Z.land_ones, Z.shiftr_div_pow2 by lia.
  change (2 ^ 4) with 16. unfold schar. destruct (Z.ltb_spec c 128).
  - pose proof (Z.div_mod c 16). pose proof (Z.mod_pos_bound c 16).
    rewrite (Z.mod_small (c / 16)) by (split; [apply Z.div_pos|apply Z.div_lt_upper_bound]; lia). 
    split; [lia|]. split; [split; [apply Z.div_pos|apply Z.div_lt_upper_bound]; lia|]. lia.
  - replace (c - 256) with (c + (-16) * 16) by lia. rewrite Z.mod_add, Z.div_add by lia.
    replace (c / 16 + -16) with (c / 16 + (-1) * 16) by lia. rewrite Z.mod_add by lia.
    pose proof (Z.div_mod c 16). pose proof (Z.mod_pos_bound c 16).
    assert (0 <= c / 16 < 16) by (split; [apply Z.div_pos|apply Z.div_lt_upper_bound]; lia).
    rewrite (Z.mod_small (c / 16)) by lia. lia.
Qed.

Lemma sb_append_fits N t text : Z.of_nat (length t) <= N -> sb_append N t text = Ok (t ++ text).
Proof. intros. unfold sb_append. by destruct (Z.leb_spec (Z.of_nat (length t)) N); [|lia]. Qed.

Lemma sb_content_fits N t : Z.of_nat (length t) < N -> sb_content N t = t.
Proof. intros. unfold sb_content. apply take_ge. lia. Qed.

(** * Claims *)

(** [strlcpy] into a buffer at least as large as the size it is given stays
    in bounds and leaves the longest prefix of the source that fits, terminated;
    it returns the length of the source, so the copy was cut exactly when the
    result is not below the size. *)
Theorem strlcpy_spec (dst : list Z) (src : cstr) (size : nat) :
  (0 < size <= length dst)%nat -> no_nul src ->
  exists dst' n, strlcpy dst src size = Ok (dst', n) /\ length dst' = length dst /\
    cstr_at dst' 0 = Some (take (size - 1) src) /\ (take (size - 1) src = src <-> (n < size)%nat).
Proof.
  intros H Hn. destruct (strlcpy_ok dst src size H Hn) as (dst' & He & Hl & Hc).
  exists dst', (length src). repeat split; try done.
  - intros Ht. apply (f_equal length) in Ht. rewrite length_take in Ht. lia.
  - intros. apply take_ge. lia.
Qed.

Lemma strlcpy_spec_witness :
  exists dst' n, strlcpy [1;1;1;1;1] (str "hello") 4 = Ok (dst', n) /\ cstr_at dst' 0 = Some (str "hel").
Proof.
  destruct (strlcpy_spec [1;1;1;1;1] (str "hello") 4) as (d & n & H & _ & Hc & _).
  - simpl. lia.
  - by repeat constructor.
  - exists d, n. done.
Defined.

(** [strlcat] on a buffer that holds a string shorter than the size appends
    and cuts: the result is the longest prefix of the concatenation that fits,
    terminated, and the value returned is the length of the concatenation. *)
Theorem strlcat_spec (dst : list Z) (d src : cstr) (size : nat) :
  cstr_at dst 0 = Some d -> (length d < size <= length dst)%nat -> no_nul src ->
  exists dst', strlcat dst src size = Ok (dst', length (d ++ src)) /\
    length dst' = length dst /\ cstr_at dst' 0 = Some (take (size - 1) (d ++ src)).
Proof. intros. rewrite length_app. by apply strlcat_ok. Qed.

Lemma strlcat_spec_witness :
  exists dst', strlcat (str "ab" ++ [0; 7; 7; 7]) (str "cdef") 6 = Ok (dst', 6%nat) /\
    cstr_at dst' 0 = Some (str "abcde").
Proof.
  destruct (strlcat_spec (str "ab" ++ [0; 7; 7; 7]) (str "ab") (str "cdef") 6) as (d & H & _ & Hc).
  - done.
  - simpl. lia.
  - by repeat constructor.
  - exists d. done.
Defined.

(** [rot47] undoes itself on every C string, and [str2hex] loses nothing:
    the two digits of each byte, low nibble first, give the byte back. *)
Theorem rot47_str2hex_roundtrip (s : cstr) :
  bytes_wf s -> rot47 (rot47 s) = s /\ hex2str (str2hex s) = s /\ length (str2hex s) = (2 * length s)%nat.
Proof.
  intros Hs. split; [by apply rot47_involutive_aux|].
  induction Hs as [|c s Hc _ [IH1 IH2]]; [done|]. unfold str2hex in *. cbn [map concat app hex2str length].
  destruct (nibbles c Hc) as (H1 & H2 & H3). rewrite !hexv_hexd by done. split; [|lia].
  by rewrite IH1, H3.
Qed.

Lemma rot47_str2hex_roundtrip_witness :
  rot47 (rot47 (str "p4ssw0rd!")) = str "p4ssw0rd!" /\ str2hex (str "AZ") = str "14A5".
Proof.
  split; [|reflexivity]. apply (rot47_str2hex_roundtrip (str "p4ssw0rd!")). by repeat constructor.
Defined.

(** ** No access to freed memory *)

Lemma no_uaf_write_at d o b : no_uaf (write_at d o b).
Proof. unfold write_at, no_uaf. by destruct (_ <=? _)%nat. Qed.

Lemma no_uaf_strlcpy d s n : no_uaf (strlcpy d s n).
Proof.
  unfold strlcpy. destruct (0 <? n)%nat; [|done].
  apply no_uaf_bind; [apply no_uaf_write_at|]. intros d1 _. apply no_uaf_bind; [apply no_uaf_write_at|done].
Qed.

Lemma no_uaf_sb_append N t x : no_uaf (sb_append N t x).
Proof. unfold sb_append, no_uaf. by destruct (_ <=? _). Qed.

#[export] Hint Resolve no_uaf_write_at no_uaf_strlcpy no_uaf_sb_append : uaf.
