(* ===== verification/Frame.v ===== *)
(** * xAP frames (xaplib2/parse.c, xap.h)

    The data frame, the in-place message parser [parseMsgF], the accessors
    [xapGetTypeF], [xapGetValueF], [xapIsValueF], the rebuilding of a message
    [parsedMsgToRawWithoutSectionF] and the in-place lower-casing
    [xapLowerMessageF].  Pointers into [dataPacket] are offsets ([None] is
    NULL); the packet is mutated exactly as the code mutates it.  The second
    half proves that parsing stays in bounds for packets of up to 452 bytes,
    that it leaves a frame whose strings are all terminated, and that the
    accessors are total and agree with a lookup in the decoded entries. *)

From S2P Require Import Prelude.

Definition XAP_DATA_LEN : Z := 1500.
Definition XAP_MSG_ELEMENTS : Z := 150.

Definition XAP_MSG_HBEAT : Z := 1.
Definition XAP_MSG_ORDINARY : Z := 2.
Definition XAP_MSG_CONFIG_REQUEST : Z := 3.
Definition XAP_MSG_CACHE_REQUEST : Z := 4.
Definition XAP_MSG_CONFIG_REPLY : Z := 5.
Definition XAP_MSG_CACHE_REPLY : Z := 6.
Definition XAP_MSG_UNKNOWN : Z := 0.
Definition XAP_MSG_NONE : Z := 0.

Definition XAP_FILTER_ANY : cstr := str "XAP_FILTER_ANY".
Definition XAP_FILTER_ABSENT : cstr := str "XAP_FILTER_ABSENT".

(** [struct parsedMsgElement]: offsets into [dataPacket]. *)
Record parsedMsgElement := mkElem {
  section : option nat;
  key : option nat;
  value : option nat;
}.

(** [xAPFrame]; [dataPacket] has [XAP_DATA_LEN + 1] bytes and [parsedMsg]
    [XAP_MSG_ELEMENTS] elements. *)
Record xAPFrame := mkFrame {
  len : Z;
  dataPacket : list Z;
  parsedMsgCount : nat;
  parsedMsg : list parsedMsgElement;
}.

Definition set_dataPacket (d : list Z) (f : xAPFrame) : xAPFrame :=
  mkFrame (len f) d (parsedMsgCount f) (parsedMsg f).
Definition set_count (n : nat) (f : xAPFrame) : xAPFrame :=
  mkFrame (len f) (dataPacket f) n (parsedMsg f).

(** Store into [frame->parsedMsg[frame->parsedMsgCount]]. *)
Definition store_elem (g : parsedMsgElement -> parsedMsgElement) (f : xAPFrame) : out xAPFrame :=
  match parsedMsg f !! parsedMsgCount f with
  | Some e => Ok (mkFrame (len f) (dataPacket f) (parsedMsgCount f)
                    (<[parsedMsgCount f := g e]> (parsedMsg f)))
  | None => Undef OutOfBounds
  end.

(** ** The parser *)

(** Right trim: NUL out the control characters that end at offset [p]; offset
    0 is never written. *)
Fixpoint rtrim (buf : list Z) (p : nat) : list Z :=
  match p with
  | O => buf
  | S q =>
      match buf !! p with
      | Some c => if c <? 32 then rtrim (<[p := 0]> buf) q else buf
      | None => buf
      end
  end.

Inductive pstate :=
| START_SECTION_NAME
| IN_SECTION_NAME
| START_KEYNAME
| IN_KEYNAME
| IN_KEYVALUE.

(** The locals of [parseMsgF] and the frame. *)
Record pctx := mkPctx {
  state : pstate;
  current_section : option nat;
  keycount : Z;
  ix : Z;
  frame : xAPFrame;
}.

Definition printable (c : Z) : bool := (32 <? c) && (c <? 128).

(** [*buf = '\0'; rtrim(frame->dataPacket, buf);] *)
Definition terminate (p : nat) (f : xAPFrame) : xAPFrame :=
  set_dataPacket (rtrim (<[p := 0]> (dataPacket f)) p) f.

(** One pass through the [switch]. *)
Definition parse_step (p : nat) (s : pctx) : out pctx :=
  c ← of_opt OutOfBounds (dataPacket (frame s) !! p);
  match state s with
  | START_SECTION_NAME =>
      if printable c
      then Ok (mkPctx IN_SECTION_NAME (Some p) (keycount s) (ix s) (frame s))
      else Ok s
  | IN_SECTION_NAME =>
      if c =? 123
      then Ok (mkPctx START_KEYNAME (current_section s) 0 (ix s) (terminate p (frame s)))
      else Ok s
  | START_KEYNAME =>
      if c =? 125 then
        f ← (if keycount s =? 0
             then f ← store_elem (fun _ => mkElem (current_section s) None None) (frame s);
                  Ok (set_count (S (parsedMsgCount f)) f)
             else Ok (frame s));
        Ok (mkPctx START_SECTION_NAME (current_section s) (keycount s) (ix s) f)
      else if printable c then
        f ← store_elem (fun e => mkElem (current_section s) (Some p) (value e)) (frame s);
        Ok (mkPctx IN_KEYNAME (current_section s) (keycount s) (ix s) f)
      else Ok s
  | IN_KEYNAME =>
      if (c <? 32) || (c =? 61) then
        f ← store_elem (fun e => mkElem (section e) (key e) (Some (S p))) (terminate p (frame s));
        Ok (mkPctx IN_KEYVALUE (current_section s) (keycount s) (ix s) f)
      else Ok s
  | IN_KEYVALUE =>
      if c <? 32 then
        let f := terminate p (frame s) in
        let f := set_count (S (parsedMsgCount f)) f in
        let i := if XAP_MSG_ELEMENTS <=? Z.of_nat (parsedMsgCount f)
                 then u32 (len f) else ix s in
        Ok (mkPctx START_KEYNAME (current_section s) (u32 (keycount s + 1)) i f)
      else Ok s
  end.

(** The [for] loop: [i] is unsigned, [frame->len] is converted to unsigned for
    the comparison.  [buf] advances once per iteration and is tested against
    the end of the packet, so [XAP_DATA_LEN] iterations are enough. *)
Fixpoint parse_loop (fuel : nat) (p : nat) (s : pctx) : out pctx :=
  match fuel with
  | O => Ok s
  | S n =>
      if (ix s <? u32 (len (frame s))) && (Z.of_nat p <? XAP_DATA_LEN) then
        s ← parse_step p s;
        parse_loop n (S p)
          (mkPctx (state s) (current_section s) (keycount s) (u32 (ix s + 1)) (frame s))
      else Ok s
  end.

(** Returns the frame and [frame->parsedMsgCount]. *)
Definition parseMsgF (f : xAPFrame) : out (xAPFrame * nat) :=
  s ← parse_loop (Z.to_nat XAP_DATA_LEN) 0 (mkPctx START_SECTION_NAME None 0 0 (set_count 0 f));
  Ok (frame s, parsedMsgCount (frame s)).

(** ** Accessors *)

(** Read the C string a pointer into the packet denotes. *)
Definition deref (f : xAPFrame) (p : option nat) : out cstr :=
  match p with
  | None => Undef NullDeref
  | Some o => of_opt OutOfBounds (cstr_at (dataPacket f) o)
  end.

Definition xapGetTypeF (f : xAPFrame) : out Z :=
  if (parsedMsgCount f =? 0)%nat then Ok XAP_MSG_NONE else
  e ← of_opt OutOfBounds (parsedMsg f !! 0%nat);
  s ← deref f (section e);
  Ok (if strcasecmp0 s (str "xap-hbeat") then XAP_MSG_HBEAT
      else if strcasecmp0 s (str "xap-header") then XAP_MSG_ORDINARY
      else if strcasecmp0 s (str "xap-config-request") then XAP_MSG_CONFIG_REQUEST
      else if strcasecmp0 s (str "xap-cache-request") then XAP_MSG_CACHE_REQUEST
      else if strcasecmp0 s (str "xap-cache-reply") then XAP_MSG_CACHE_REPLY
      else if strcasecmp0 s (str "xap-config-reply") then XAP_MSG_CONFIG_REPLY
      else XAP_MSG_UNKNOWN).

(** The test of [xapGetValueF] on one element. *)
Definition elem_matches (f : xAPFrame) (sec : cstr) (k : option cstr) (e : parsedMsgElement) : out bool :=
  s ← deref f (section e);
  if strcasecmp0 sec s then
    match k, key e with
    | None, None => Ok true
    | Some kn, Some o => ks ← deref f (Some o); Ok (strcasecmp0 kn ks)
    | _, _ => Ok false
    end
  else Ok false.

Fixpoint get_value_loop (f : xAPFrame) (sec : cstr) (k : option cstr)
    (es : list parsedMsgElement) : out (option cstr) :=
  match es with
  | [] => Ok None
  | e :: r =>
      m ← elem_matches f sec k e;
      if (m : bool) then
        match value e, k with
        | None, None => Ok (Some XAP_FILTER_ANY)
        | None, Some _ => Ok None
        | Some o, _ => v ← deref f (Some o); Ok (Some v)
        end
      else get_value_loop f sec k r
  end.

(** The [key] argument may be NULL (an empty section). *)
Definition xapGetValueF (f : xAPFrame) (sec : cstr) (k : option cstr) : out (option cstr) :=
  get_value_loop f sec k (take (parsedMsgCount f) (parsedMsg f)).

Definition xapIsValueF (f : xAPFrame) (sec : cstr) (k : option cstr) (v : cstr) : out bool :=
  kvalue ← xapGetValueF f sec k;
  Ok (match kvalue with Some kv => strcasecmp0 kv v | None => false end).

(** ** Rebuilding a message *)

(** [len += snprintf(&msg[len], size, ...)] into a buffer of [size] bytes: the
    call writes [min(|text|, size-1) + 1] bytes from offset [len].  [msg] is the
    text printed so far: its length is [len], the buffer holds its first
    [size-1] bytes. *)
Definition raw_append (size : Z) (msg : cstr) (text : cstr) : out cstr :=
  if Z.of_nat (length msg) + Z.min (Z.of_nat (length text)) (size - 1) + 1 <=? size
  then Ok (msg ++ text) else Undef OutOfBounds.

Fixpoint raw_loop (f : xAPFrame) (size : Z) (skip : option cstr)
    (es : list parsedMsgElement) (currentSection : option nat) (msg : cstr)
    : out (option nat * cstr) :=
  match es with
  | [] => Ok (currentSection, msg)
  | e :: r =>
      sk ← match skip with
           | None => Ok false
           | Some s => es ← deref f (section e); Ok (strcasecmp0 s es)
           end;
      if (sk : bool) then raw_loop f size skip r currentSection msg else
      '(cur, msg) ← (if bool_decide (currentSection = None) || bool_decide (currentSection <> section e) then
                 msg ← (if bool_decide (currentSection <> None)
                        then raw_append size msg (line "}") else Ok msg);
                 s ← deref f (section e);
                 msg ← raw_append size msg (s ++ [10] ++ line "{");
                 Ok (section e, msg)
               else Ok (currentSection, msg));
      msg ← match key e with
            | None => Ok msg
            | Some _ =>
                k ← deref f (key e);
                v ← deref f (value e);
                raw_append size msg (k ++ str "=" ++ v ++ [10])
            end;
      raw_loop f size skip r cur msg
  end.

(** [msg] points to [size] bytes; the result is the C string left there (its
    length is the value the function returns). *)
Definition parsedMsgToRawWithoutSectionF (f : xAPFrame) (size : Z) (skip : option cstr) : out cstr :=
  if size <=? 0 then Undef OutOfBounds else
  '(cur, msg) ← raw_loop f size skip (take (parsedMsgCount f) (parsedMsg f)) None [];
  if bool_decide (cur <> None) then raw_append size msg (line "}") else Ok msg.

Definition parsedMsgToRawF (f : xAPFrame) (size : Z) : out cstr :=
  parsedMsgToRawWithoutSectionF f size None.

(** ** Lower-casing in place *)

(** [xapLowerString] (util.c) on the string at the head of a buffer. *)
Fixpoint lower_until0 (l : list Z) : list Z :=
  match l with
  | [] => []
  | c :: r => if c =? 0 then l else tolower c :: lower_until0 r
  end.

Definition xapLowerString (p : option nat) (f : xAPFrame) : xAPFrame :=
  match p with
  | None => f
  | Some o => set_dataPacket (take o (dataPacket f) ++ lower_until0 (drop o (dataPacket f))) f
  end.

Definition is_bsc_class (v : cstr) : bool :=
  strcmp0 v (str "xapbsc.info") || strcmp0 v (str "xapbsc.cmd") || strcmp0 v (str "xapbsc.event").

(** The body of the loop of [xapLowerMessageF]. *)
Definition lower_elem (e : parsedMsgElement) (st : option nat * bool * xAPFrame)
    : out (option nat * bool * xAPFrame) :=
  let '(cur, bsc, f) := st in
  let '(cur, f) := if bool_decide (cur = None) || bool_decide (cur <> section e)
                   then (section e, xapLowerString (section e) f) else (cur, f) in
  let f := xapLowerString (key e) f in
  f ← (if (bsc : bool) then
         k ← deref f (key e);
         Ok (if strcmp0 (str "state") k then xapLowerString (value e) f else f)
       else Ok f);
  cs ← deref f cur;
  if strcmp0 (str "xap-header") cs then
    k ← deref f (key e);
    if strcmp0 (str "source") k || strcmp0 (str "target") k || strcmp0 (str "class") k then
      let f := xapLowerString (value e) f in
      if strcmp0 (str "class") k then
        v ← deref f (value e);
        Ok (cur, bsc || is_bsc_class v, f)
      else Ok (cur, bsc, f)
    else Ok (cur, bsc, f)
  else Ok (cur, bsc, f).

Arguments lower_elem : simpl never.

Fixpoint lower_loop (es : list parsedMsgElement) (st : option nat * bool * xAPFrame)
    : out (option nat * bool * xAPFrame) :=
  match es with
  | [] => Ok st
  | e :: r => st ← lower_elem e st; lower_loop r st
  end.

Definition xapLowerMessageF (f : xAPFrame) : out xAPFrame :=
  '(_, _, f) ← lower_loop (take (parsedMsgCount f) (parsedMsg f)) (None, false, f);
  Ok f.

(** ** No access to freed memory *)

Lemma no_uaf_store g f : no_uaf (store_elem g f).
Proof. unfold store_elem, no_uaf. by destruct (_ !! _). Qed.

Lemma no_uaf_parse_step p s : no_uaf (parse_step p s).
Proof.
  unfold parse_step. apply no_uaf_bind; [by apply no_uaf_of_opt|]. intros ch _.
  destruct (state s).
  - by destruct (printable ch).
  - by destruct (ch =? 123).
  - destruct (ch =? 125).
    + apply no_uaf_bind; [|done]. destruct (keycount s =? 0); [|done].
      apply no_uaf_bind; [apply no_uaf_store|done].
    + destruct (printable ch); [|done]. apply no_uaf_bind; [apply no_uaf_store|done].
  - destruct (_ || _); [|done]. apply no_uaf_bind; [apply no_uaf_store|done].
  - by destruct (ch <? 32).
Qed.

Lemma no_uaf_parse f : no_uaf (parseMsgF f).
Proof.
  unfold parseMsgF. apply no_uaf_bind; [|done].
  generalize (mkPctx START_SECTION_NAME None 0 0 (set_count 0 f)) as s. generalize 0%nat as p.
  generalize (Z.to_nat XAP_DATA_LEN) as n. intros n. induction n as [|n IH]; intros p s; [done|].
  cbn [parse_loop]. destruct (_ && _); [|done].
  apply no_uaf_bind; [apply no_uaf_parse_step|]. intros s' _. apply IH.
Qed.

Lemma no_uaf_deref f p : no_uaf (deref f p).
Proof. destruct p; [|done]. by apply no_uaf_of_opt. Qed.

Lemma no_uaf_get_value f sec k : no_uaf (xapGetValueF f sec k).
Proof.
  unfold xapGetValueF. generalize (take (parsedMsgCount f) (parsedMsg f)) as es. intros es.
  induction es as [|e es IH]; [done|]. cbn [get_value_loop]. apply no_uaf_bind.
  - unfold elem_matches. apply no_uaf_bind; [apply no_uaf_deref|]. intros s _.
    destruct (strcasecmp0 sec s); [|done]. destruct k, (key e); try done.
    apply no_uaf_bind; [apply no_uaf_deref|done].
  - intros [] _; [|done]. destruct (value e); [|by destruct k].
    apply no_uaf_bind; [apply no_uaf_deref|done].
Qed.

#[export] Hint Resolve no_uaf_parse no_uaf_deref no_uaf_get_value : uaf.

(** * Properties *)

(** ** The packet only loses control characters *)

(** [d'] is [d] with some bytes replaced by NUL. *)
Definition zero_ext (d d' : list Z) : Prop :=
  length d' = length d /\ forall j, d' !! j = d !! j \/ d' !! j = Some 0.

#[global] Instance zero_ext_refl : Reflexive zero_ext.
Proof. intros d. split; auto. Qed.

#[global] Instance zero_ext_trans : Transitive zero_ext.
Proof.
  intros a b c [L1 H1] [L2 H2]. split; [lia|]. intros j.
  destruct (H2 j) as [->|]; [apply H1 | auto].
Qed.

Lemma zero_ext_insert d p : (p < length d)%nat -> zero_ext d (<[p := 0]> d).
Proof.
  intros Hp. split; [apply length_insert|]. intros j.
  destruct (decide (p = j)) as [->|Hne].
  - right. by apply list_lookup_insert_eq.
  - left. by apply list_lookup_insert_ne.
Qed.

Lemma zero_ext_rtrim d p : zero_ext d (rtrim d p).
Proof.
  revert d; induction p as [|p IH]; intros d; simpl; [reflexivity|].
  destruct (d !! S p) as [c|] eqn:Hc; [|reflexivity].
  destruct (c <? 32); [|reflexivity].
  etransitivity; [apply (zero_ext_insert d (S p)); by eapply lookup_lt_Some | apply IH].
Qed.

Lemma rtrim_above d p j : (p < j)%nat -> rtrim d p !! j = d !! j.
Proof.
  revert d; induction p as [|p IH]; intros d Hj; simpl; [done|].
  destruct (d !! S p) as [c|]; [|done]. destruct (c <? 32); [|done].
  rewrite IH by lia. apply list_lookup_insert_ne. lia.
Qed.

(** A NUL at or after the offset. *)
Definition terminated (d : list Z) (o : nat) : Prop :=
  exists j, (o <= j)%nat /\ d !! j = Some 0.

Lemma terminated_ext d d' o : zero_ext d d' -> terminated d o -> terminated d' o.
Proof.
  intros [_ H] (j & Hj & Hz). exists j. split; [done|].
  destruct (H j) as [-> | ->]; done.
Qed.

Lemma terminated_cstr d o : terminated d o -> is_Some (cstr_at d o).
Proof.
  intros (j & Hj & Hz). apply until0_is_Some. exists (j - o)%nat.
  rewrite lookup_drop. by replace (o + (j - o))%nat with j by lia.
Qed.

Lemma terminate_ext p f :
  (p < length (dataPacket f))%nat -> zero_ext (dataPacket f) (dataPacket (terminate p f)).
Proof.
  intros Hp. simpl. etransitivity; [by apply zero_ext_insert | apply zero_ext_rtrim].
Qed.

Lemma terminate_at p o f :
  (p < length (dataPacket f))%nat -> (o <= p)%nat -> terminated (dataPacket (terminate p f)) o.
Proof.
  intros Hp Ho. simpl. apply (terminated_ext (<[p := 0]> (dataPacket f))).
  - apply zero_ext_rtrim.
  - exists p. split; [done|]. by apply list_lookup_insert_eq.
Qed.

(** ** What the parser guarantees *)

Definition elem_ok (d : list Z) (e : parsedMsgElement) : Prop :=
  (exists o, section e = Some o /\ terminated d o) /\
  match key e, value e with
  | None, None => True
  | Some k, Some v => terminated d k /\ terminated d v
  | _, _ => False
  end.

(** A frame whose counted elements all point at terminated strings. *)
Definition frame_wf (f : xAPFrame) : Prop :=
  length (dataPacket f) = 1501%nat /\ length (parsedMsg f) = 150%nat /\
  (parsedMsgCount f <= 150)%nat /\
  Forall (elem_ok (dataPacket f)) (take (parsedMsgCount f) (parsedMsg f)).

(** The declared sizes of the arrays. *)
Definition frame_sized (f : xAPFrame) : Prop :=
  length (dataPacket f) = 1501%nat /\ length (parsedMsg f) = 150%nat.

Lemma elem_ok_ext d d' e : zero_ext d d' -> elem_ok d e -> elem_ok d' e.
Proof.
  intros Hx ((o & Ho & Ht) & Hkv). split; [by eauto using terminated_ext|].
  destruct (key e), (value e); try done. naive_solver eauto using terminated_ext.
Qed.

Lemma Forall_elem_ok_ext d d' es :
  zero_ext d d' -> Forall (elem_ok d) es -> Forall (elem_ok d') es.
Proof. intros Hx Hf. eapply Forall_impl; [done|]. intros e. by apply elem_ok_ext. Qed.

(** What holds of the element under construction in each state. *)
Definition pending_ok (p : nat) (s : pctx) : Prop :=
  let d := dataPacket (frame s) in
  match state s with
  | START_SECTION_NAME => True
  | IN_SECTION_NAME => exists o, current_section s = Some o /\ (o < p)%nat
  | START_KEYNAME => exists o, current_section s = Some o /\ terminated d o
  | IN_KEYNAME =>
      exists o k v, current_section s = Some o /\ terminated d o /\ (k < p)%nat /\
        parsedMsg (frame s) !! parsedMsgCount (frame s) = Some (mkElem (Some o) (Some k) v)
  | IN_KEYVALUE =>
      exists o k v, current_section s = Some o /\ terminated d o /\ terminated d k /\ (v <= p)%nat /\
        parsedMsg (frame s) !! parsedMsgCount (frame s) = Some (mkElem (Some o) (Some k) (Some v))
  end.

Definition pinv (p : nat) (s : pctx) : Prop :=
  frame_wf (frame s) /\ pending_ok p s.

Lemma take_insert_snoc {A} (l : list A) n x :
  (n < length l)%nat -> take (S n) (<[n := x]> l) = take n l ++ [x].
Proof.
  intros Hn. rewrite take_S_r with (x := x).
  - by rewrite take_insert_ge by lia.
  - by apply list_lookup_insert_eq.
Qed.

Lemma store_elem_Ok g f f' :
  store_elem g f = Ok f' ->
  (parsedMsgCount f < length (parsedMsg f))%nat /\
  exists e, parsedMsg f !! parsedMsgCount f = Some e /\
    f' = mkFrame (len f) (dataPacket f) (parsedMsgCount f) (<[parsedMsgCount f := g e]> (parsedMsg f)).
Proof.
  unfold store_elem. destruct (parsedMsg f !! _) as [e|] eqn:He; [|done].
  intros [= <-]. split; [by eapply lookup_lt_Some | eauto].
Qed.

Lemma frame_wf_terminate p f :
  (p < 1501)%nat -> frame_wf f -> frame_wf (terminate p f).
Proof.
  intros Hp (Hd & He & Hc & Hf).
  assert (Hx : zero_ext (dataPacket f) (dataPacket (terminate p f))) by (apply terminate_ext; lia).
  repeat split; simpl; [|done|done|].
  - destruct Hx as [Hl _]. simpl in Hl. lia.
  - by eapply Forall_elem_ok_ext.
Qed.

(** Storing into the first uncounted element. *)
Lemma frame_wf_store g f f' :
  frame_wf f -> store_elem g f = Ok f' -> frame_wf f' /\ dataPacket f' = dataPacket f /\
    parsedMsgCount f' = parsedMsgCount f /\ (parsedMsgCount f < 150)%nat /\
    exists e, parsedMsg f !! parsedMsgCount f = Some e /\ parsedMsg f' !! parsedMsgCount f = Some (g e).
Proof.
  intros (Hd & He & Hc & Hf) Hs. apply store_elem_Ok in Hs as (Hlt & e & Hget & ->).
  repeat split; simpl; [done| |done| |lia|].
  - by rewrite length_insert.
  - by rewrite take_insert_ge by lia.
  - exists e. split; [done|]. by apply list_lookup_insert_eq.
Qed.

(** Counting an element that is complete. *)
Lemma frame_wf_count f e :
  frame_wf f -> parsedMsg f !! parsedMsgCount f = Some e -> elem_ok (dataPacket f) e ->
  frame_wf (set_count (S (parsedMsgCount f)) f).
Proof.
  intros (Hd & He & Hc & Hf) Hget Hok. pose proof (lookup_lt_Some _ _ _ Hget).
  repeat split; simpl; [done|done|lia|].
  rewrite (take_S_r _ _ e Hget). apply Forall_app. by split; [|constructor].
Qed.

(** The [START_KEYNAME] state: the end of a section or the start of a key. *)
Lemma parse_step_pinv_key p s s' :
  state s = START_KEYNAME -> pinv p s -> parse_step p s = Ok s' -> pinv (S p) s'.
Proof.
  intros Hst [Hwf Hpend] Hstep. unfold parse_step in Hstep. inv_bind Hstep.
  unfold pending_ok in Hpend. rewrite Hst in Hpend, Hstep.
  destruct Hpend as (o & Ho & Ht). destruct (a =? 125).
  - inv_bind Hstep. injection Hstep as <-. split; [|done]. simpl.
    destruct (keycount s =? 0); [|by injection Ha0 as <-].
    inv_bind Ha0. injection Ha0 as <-.
    destruct (frame_wf_store _ _ _ Hwf Ha1) as (Hwf' & Hdp & Hcnt & _ & e & _ & Hget).
    rewrite <- Hcnt in Hget.
    eapply frame_wf_count; [done|done|]. split; simpl; [|done]. rewrite Hdp. eauto.
  - destruct (printable a).
    + inv_bind Hstep. injection Hstep as <-.
      destruct (frame_wf_store _ _ _ Hwf Ha0) as (Hwf' & Hdp & Hcnt & _ & e & _ & Hget).
      split; [done|]. exists o, p, (value e). simpl. rewrite Hdp, Hcnt. rewrite Ho in Hget.
      repeat split; [done|done|lia|done].
    + injection Hstep as <-. split; [done|]. unfold pending_ok. rewrite Hst. eauto.
Qed.

(** The states inside a key and inside a value. *)
Lemma parse_step_pinv_kv p s s' :
  (p < 1501)%nat -> state s = IN_KEYNAME \/ state s = IN_KEYVALUE ->
  pinv p s -> parse_step p s = Ok s' -> pinv (S p) s'.
Proof.
  intros Hp Hst [Hwf Hpend] Hstep. unfold parse_step in Hstep. inv_bind Hstep.
  pose proof Hwf as (Hd & _).
  pose proof (frame_wf_terminate p _ Hp Hwf) as Hwf1.
  assert (Hterm : forall o, (o <= p)%nat -> terminated (dataPacket (terminate p (frame s))) o)
    by (intros; apply terminate_at; [lia|done]).
  assert (Hext : zero_ext (dataPacket (frame s)) (dataPacket (terminate p (frame s))))
    by (apply terminate_ext; lia).
  unfold pending_ok in Hpend. destruct Hst as [Hst|Hst]; rewrite Hst in Hpend, Hstep.
  - destruct Hpend as (o & k & v & Ho & Ht & Hk & Hget). destruct ((a <? 32) || (a =? 61)).
    + inv_bind Hstep. injection Hstep as <-.
      destruct (frame_wf_store _ _ _ Hwf1 Ha0) as (Hwf' & Hdp & Hcnt & _ & e & Hget0 & Hget').
      simpl in Hget0, Hget', Hcnt. rewrite Hget in Hget0. injection Hget0 as <-. simpl in Hget'.
      split; [done|]. exists o, k, (S p). simpl. rewrite Hdp, Hcnt.
      repeat split; [done|by eapply terminated_ext|apply Hterm; lia|lia|done].
    + injection Hstep as <-. split; [done|]. unfold pending_ok. rewrite Hst.
      exists o, k, v. repeat split; eauto with lia.
  - destruct Hpend as (o & k & v & Ho & Ht & Hk & Hv & Hget).
    destruct (a <? 32); injection Hstep as <-.
    + split; [|exists o; split; [done|by eapply terminated_ext]].
      apply (frame_wf_count _ (mkElem (Some o) (Some k) (Some v)) Hwf1 Hget). split; simpl.
      * exists o. split; [done|]. by eapply terminated_ext.
      * split; [by eapply terminated_ext | by apply Hterm].
    + split; [done|]. unfold pending_ok. rewrite Hst.
      exists o, k, v. repeat split; eauto with lia.
Qed.

Lemma parse_step_pinv p s s' :
  (p < 1501)%nat -> pinv p s -> parse_step p s = Ok s' -> pinv (S p) s'.
Proof.
  intros Hp Hinv Hstep. destruct (state s) eqn:Hst;
    [| |by eapply parse_step_pinv_key|by eapply parse_step_pinv_kv; eauto..].
  - unfold parse_step in Hstep. inv_bind Hstep. rewrite Hst in Hstep. destruct Hinv as [Hwf _].
    destruct (printable a); injection Hstep as <-; (split; [done|]); unfold pending_ok; simpl.
    + eauto with lia.
    + by rewrite Hst.
  - unfold parse_step in Hstep. inv_bind Hstep. rewrite Hst in Hstep. destruct Hinv as [Hwf Hpend].
    unfold pending_ok in Hpend. rewrite Hst in Hpend. destruct Hpend as (o & Ho & Hlt).
    pose proof Hwf as (Hd & _).
    destruct (a =? 123); injection Hstep as <-.
    + split; [by apply frame_wf_terminate|]. exists o. split; [done|]. apply terminate_at; lia.
    + split; [done|]. unfold pending_ok. rewrite Hst. eauto with lia.
Qed.

Lemma parse_loop_pinv fuel p s s' :
  pinv p s -> parse_loop fuel p s = Ok s' -> exists q, pinv q s'.
Proof.
  revert p s; induction fuel as [|n IH]; intros p s Hinv Hl; simpl in Hl.
  - injection Hl as <-. eauto.
  - destruct (_ && _) eqn:Hc; [|injection Hl as <-; eauto].
    inv_bind Hl. apply andb_prop in Hc as [_ Hc].
    apply Z.ltb_lt in Hc. unfold XAP_DATA_LEN in Hc.
    eapply (IH (S p)); [|done].
    exact (parse_step_pinv p s a ltac:(lia) Hinv Ha).
Qed.

Lemma pinv_init f : frame_sized f -> pinv 0 (mkPctx START_SECTION_NAME None 0 0 (set_count 0 f)).
Proof. intros [Hd He]. split; [|done]. repeat split; simpl; [done|done|lia|constructor]. Qed.

Lemma parseMsgF_frame_wf f f' n :
  frame_sized f -> parseMsgF f = Ok (f', n) -> frame_wf f' /\ n = parsedMsgCount f'.
Proof.
  intros Hs Hp. unfold parseMsgF in Hp. inv_bind Hp. injection Hp as <- <-. split; [|done].
  by destruct (parse_loop_pinv _ _ _ _ (pinv_init f Hs) Ha) as (q & Hwf & _).
Qed.

(** ** The bound on the number of elements *)

(** Every element takes at least three bytes of the packet. *)
Definition pbound (p : nat) (s : pctx) : Prop :=
  let c := Z.of_nat (parsedMsgCount (frame s)) in
  0 <= keycount s <= Z.of_nat p /\
  match state s with
  | START_SECTION_NAME => 3 * c <= Z.of_nat p
  | IN_SECTION_NAME => 3 * c + 1 <= Z.of_nat p
  | START_KEYNAME =>
      (keycount s = 0 /\ 3 * c + 2 <= Z.of_nat p) \/
      (0 < keycount s /\ 3 * c <= Z.of_nat p /\ (ix s <= u32 (len (frame s)) - 1 -> c < 150))
  | IN_KEYNAME => 3 * c + 1 <= Z.of_nat p /\ c < 150
  | IN_KEYVALUE => 3 * c + 2 <= Z.of_nat p /\ c < 150
  end.

Lemma store_elem_in f g :
  frame_wf f -> (parsedMsgCount f < 150)%nat ->
  exists e, store_elem g f = Ok (mkFrame (len f) (dataPacket f) (parsedMsgCount f)
                                   (<[parsedMsgCount f := g e]> (parsedMsg f))).
Proof.
  intros (_ & He & _) Hc. unfold store_elem.
  destruct (lookup_lt_is_Some_2 (parsedMsg f) (parsedMsgCount f)) as [e ->]; [lia|]. eauto.
Qed.

Definition next_ix (s : pctx) : pctx :=
  mkPctx (state s) (current_section s) (keycount s) (u32 (ix s + 1)) (frame s).

(** The loop index runs with [buf] until the parser stops early. *)
Definition lockstep (p : nat) (s : pctx) : Prop :=
  ix s = Z.of_nat p \/ len (frame s) <= ix s <= len (frame s) + 1.

Lemma parse_step_bound p s :
  pinv p s -> pbound p s -> lockstep p s -> 0 <= len (frame s) <= 452 -> ix s < len (frame s) ->
  exists s', parse_step p s = Ok s' /\ pbound (S p) (next_ix s') /\ lockstep (S p) (next_ix s') /\
    len (frame s') = len (frame s).
Proof.
  intros [Hwf _] (Hk & Hb) Hls Hlen Hix. pose proof Hwf as (Hd & He & _ & _).
  destruct Hls as [Hls|?]; [|lia].
  assert (Hu : u32 (len (frame s)) = len (frame s)) by (apply u32_small; lia).
  assert (Hi : u32 (ix s + 1) = Z.of_nat (S p)) by (rewrite u32_small; lia).
  unfold parse_step.
  destruct (lookup_lt_is_Some_2 (dataPacket (frame s)) p) as [c ->]; [lia|]. simpl.
  unfold pbound, lockstep.
  destruct (state s) eqn:Hst.
  - destruct (printable c); eexists; (split; [reflexivity|]); simpl; rewrite ?Hst, Hi; repeat split; lia.
  - destruct (c =? 123); eexists; (split; [reflexivity|]); simpl; rewrite ?Hst, Hi; repeat split; lia.
  - assert (Hc : (parsedMsgCount (frame s) < 150)%nat) by lia.
    destruct (c =? 125); [destruct (Z.eqb_spec (keycount s) 0)|destruct (printable c)];
      try (destruct (store_elem_in _ (fun _ => mkElem (current_section s) None None) Hwf Hc) as [e0 ->]);
      try (destruct (store_elem_in _ (fun e => mkElem (current_section s) (Some p) (value e)) Hwf Hc) as [e0 ->]);
      eexists; (split; [reflexivity|]); simpl; rewrite ?Hst, Hi; repeat split; lia.
  - destruct Hb as [Hb Hc]. destruct ((c <? 32) || (c =? 61)).
    + pose proof (frame_wf_terminate p _ ltac:(lia) Hwf) as Hwf1.
      destruct (store_elem_in _ (fun e => mkElem (section e) (key e) (Some (S p))) Hwf1) as [e ->];
        [simpl; lia|].
      eexists; (split; [reflexivity|]); simpl; rewrite Hi; repeat split; lia.
    + eexists; (split; [reflexivity|]); simpl; rewrite Hst, Hi; repeat split; lia.
  - destruct Hb as [Hb Hc]. destruct (c <? 32).
    + eexists; (split; [reflexivity|]). simpl. unfold XAP_MSG_ELEMENTS. rewrite Hu.
      rewrite (u32_small (keycount s + 1)) by lia.
      destruct (Z.leb_spec 150 (Z.of_nat (S (parsedMsgCount (frame s)))));
        [rewrite (u32_small (len (frame s) + 1)) by lia | rewrite Hi];
        repeat split; try lia; right; lia.
    + eexists; (split; [reflexivity|]); simpl; rewrite Hst, Hi; repeat split; lia.
Qed.

Lemma parse_loop_total fuel p s :
  pinv p s -> pbound p s -> lockstep p s -> 0 <= len (frame s) <= 452 ->
  exists s', parse_loop fuel p s = Ok s'.
Proof.
  revert p s; induction fuel as [|n IH]; intros p s Hinv Hb Hls Hlen; simpl; [eauto|].
  destruct (_ && _) eqn:Hc; [|eauto]. apply andb_prop in Hc as [Hc1 Hc2].
  apply Z.ltb_lt in Hc1, Hc2. unfold XAP_DATA_LEN in Hc2. rewrite u32_small in Hc1 by lia.
  destruct (parse_step_bound p s) as (s' & Hs & Hb' & Hls' & Hl'); [done..|].
  rewrite Hs. simpl. apply IH; [|done|done|simpl; lia].
  exact (parse_step_pinv p s s' ltac:(lia) Hinv Hs).
Qed.

(** C1.  A packet of at most 452 bytes is parsed without leaving the
    [parsedMsg] array, and the frame it leaves is well formed: at most 150
    elements, every section, key and value a terminated string of the packet. *)
Theorem parseMsgF_safe (f : xAPFrame) :
  frame_sized f -> 0 <= len f <= 452 ->
  exists f', parseMsgF f = Ok (f', parsedMsgCount f') /\ frame_wf f'.
Proof.
  intros Hs Hl. unfold parseMsgF.
  destruct (parse_loop_total (Z.to_nat XAP_DATA_LEN) 0
              (mkPctx START_SECTION_NAME None 0 0 (set_count 0 f))) as [s' Hp].
  - by apply pinv_init.
  - unfold pbound; simpl; lia.
  - by left.
  - done.
  - rewrite Hp. simpl. eexists; split; [done|].
    by destruct (parse_loop_pinv _ _ _ _ (pinv_init f Hs) Hp) as (q & Hwf & _).
Qed.

(** A frame as [readXapData] leaves it: the received bytes and a NUL. *)
Definition load_packet (bytes : list Z) : xAPFrame :=
  mkFrame (Z.of_nat (length bytes))
    (bytes ++ replicate (1501 - length bytes) 0) 0
    (replicate 150 (mkElem None None None)).

Lemma load_packet_sized bytes : (length bytes <= 1500)%nat -> frame_sized (load_packet bytes).
Proof.
  intros. unfold load_packet. split; cbn [dataPacket parsedMsg]; [|apply length_replicate].
  rewrite length_app, length_replicate. lia.
Qed.

Lemma parseMsgF_safe_witness :
  frame_sized (load_packet (line "xap-hbeat{v=12")) /\
  exists f', parseMsgF (load_packet (line "xap-hbeat{v=12")) = Ok (f', parsedMsgCount f') /\ frame_wf f'.
Proof.
  split; [by apply load_packet_sized; vm_compute; lia|].
  apply parseMsgF_safe; [apply load_packet_sized; vm_compute; lia | vm_compute; split; discriminate].
Defined.

(** The element count is only checked when a key is stored: 151 empty
    sections, 453 bytes of packet, make the parser write past the end of the
    [parsedMsg] array. *)
Theorem parseMsgF_empty_sections_overflow :
  let bytes := concat (replicate 151 (str "a{}")) in
  length bytes = 453%nat /\ parseMsgF (load_packet bytes) = Undef OutOfBounds.
Proof. vm_compute. split; reflexivity. Qed.

(** ** Decoded entries *)

(** What an element denotes: a section name, and a key with its value unless
    the section was empty. *)
Record entry := mkEntry { en_section : cstr; en_kv : option (cstr * cstr) }.

Definition elem_rep (d : list Z) (e : parsedMsgElement) (en : entry) : Prop :=
  (exists o, section e = Some o /\ cstr_at d o = Some (en_section en)) /\
  match key e, value e, en_kv en with
  | None, None, None => True
  | Some k, Some v, Some (ks, vs) => cstr_at d k = Some ks /\ cstr_at d v = Some vs
  | _, _, _ => False
  end.

Definition frame_rep (f : xAPFrame) (es : list entry) : Prop :=
  Forall2 (elem_rep (dataPacket f)) (take (parsedMsgCount f) (parsedMsg f)) es.

Definition entry_matches (sec : cstr) (k : option cstr) (en : entry) : bool :=
  strcasecmp0 sec (en_section en) &&
  match k, en_kv en with
  | None, None => true
  | Some kn, Some (ks, _) => strcasecmp0 kn ks
  | _, _ => false
  end.

(** The value of the first matching entry. *)
Definition entries_lookup (es : list entry) (sec : cstr) (k : option cstr) : option cstr :=
  match List.find (entry_matches sec k) es with
  | Some en => match en_kv en with Some (_, v) => Some v | None => Some XAP_FILTER_ANY end
  | None => None
  end.

Lemma elem_ok_rep d e : elem_ok d e -> exists en, elem_rep d e en.
Proof.
  intros ((o & Ho & Ht) & Hkv). destruct (terminated_cstr _ _ Ht) as [s Hs].
  destruct (key e) as [k|] eqn:Hk, (value e) as [v|] eqn:Hv; try done.
  - destruct Hkv as [Hk' Hv'].
    destruct (terminated_cstr _ _ Hk') as [ks ?], (terminated_cstr _ _ Hv') as [vs ?].
    exists (mkEntry s (Some (ks, vs))). split; [by eauto|]. by rewrite Hk, Hv.
  - exists (mkEntry s None). split; [by eauto|]. by rewrite Hk, Hv.
Qed.

Lemma frame_wf_rep f : frame_wf f -> exists es, frame_rep f es.
Proof.
  intros (_ & _ & _ & Hf). unfold frame_rep. induction Hf as [|e l He _ [es IH]].
  - exists []. constructor.
  - destruct (elem_ok_rep _ _ He) as [en Hen]. exists (en :: es). by constructor.
Qed.

Lemma elem_matches_rep f sec k e en :
  elem_rep (dataPacket f) e en -> elem_matches f sec k e = Ok (entry_matches sec k en).
Proof.
  intros ((o & Ho & Hs) & Hkv). unfold elem_matches, entry_matches. rewrite Ho. simpl.
  rewrite Hs. simpl. destruct (strcasecmp0 sec (en_section en)); simpl; [|done].
  destruct k, (key e), (value e), (en_kv en) as [[ks vs]|]; try done.
  destruct Hkv as [Hk _]. simpl. by rewrite Hk.
Qed.

Lemma get_value_rep (f : xAPFrame) (es : list entry) (sec : cstr) (k : option cstr) :
  frame_rep f es -> xapGetValueF f sec k = Ok (entries_lookup es sec k).
Proof.
  unfold frame_rep, xapGetValueF, entries_lookup.
  generalize (take (parsedMsgCount f) (parsedMsg f)). intros l Hl.
  induction Hl as [|e en l es He _ IH]; [done|]. simpl.
  rewrite (elem_matches_rep _ _ _ _ _ He). simpl.
  destruct (entry_matches sec k en) eqn:Hm; [|done].
  destruct He as (_ & Hkv). unfold entry_matches in Hm.
  destruct k, (key e), (value e), (en_kv en) as [[ks vs]|]; simpl in *; try done;
    rewrite ?andb_false_r in Hm; try done.
  destruct Hkv as [_ Hv]. by rewrite Hv.
Qed.

(** ** Lower-casing *)

(** Each byte of [d'] is the byte of [d] or its lower case. *)
Definition lower_rel (d d' : list Z) : Prop :=
  Forall2 (fun c c' => c' = c \/ c' = tolower c) d d'.

#[global] Instance lower_rel_refl : Reflexive lower_rel.
Proof. intros d. induction d; constructor; auto. Qed.

#[global] Instance lower_rel_trans : Transitive lower_rel.
Proof.
  intros a b c H1. revert c. induction H1 as [|x y a b Hxy _ IH]; intros c H2;
    inversion H2 as [|? z ? c' Hyz Hr]; subst; constructor; [|by apply IH].
  destruct Hxy as [->| ->], Hyz as [->| ->]; auto. right. apply tolower_idem.
Qed.

Lemma lower_rel_until0 d : lower_rel d (lower_until0 d).
Proof.
  induction d as [|c d IH]; simpl; [reflexivity|].
  destruct (c =? 0); [reflexivity|]. constructor; [by right|done].
Qed.

Lemma lower_rel_xapLowerString p f : lower_rel (dataPacket f) (dataPacket (xapLowerString p f)).
Proof.
  destruct p as [o|]; simpl; [|reflexivity].
  rewrite <- (take_drop o (dataPacket f)) at 1. apply Forall2_app; [reflexivity|].
  apply lower_rel_until0.
Qed.

Lemma lower_rel_cstr d d' o s :
  lower_rel d d' -> cstr_at d o = Some s ->
  exists s', cstr_at d' o = Some s' /\ lower_rel s s'.
Proof.
  unfold cstr_at. intros Hr. apply (Forall2_drop _ _ _ o) in Hr.
  revert s. induction Hr as [|c c' l l' Hc _ IH]; simpl; [done|]. intros s.
  assert (c' =? 0 = (c =? 0)) as ->.
  { destruct Hc as [->| ->]; [done|]. pose proof (tolower_0 c). zcase; lia. }
  destruct (c =? 0).
  - intros [= <-]. exists []. split; [done|constructor].
  - destruct (until0 l) as [t|]; [|done]. intros [= <-]. simpl.
    destruct (IH t eq_refl) as (t' & -> & Ht). exists (c' :: t'). split; [done|by constructor].
Qed.

Lemma lower_rel_lower s s' : lower_rel s s' -> lower s' = lower s.
Proof.
  induction 1 as [|c c' s s' Hc _ IH]; simpl; [done|]. f_equal; [|done].
  destruct Hc as [->| ->]; [done|apply tolower_idem].
Qed.

Lemma lower_rel_fixed s s' : lower_rel s s' -> lower s = s -> s' = s.
Proof.
  induction 1 as [|c c' s s' Hc _ IH]; simpl; [done|]. intros [= Hl Hs].
  f_equal; [|by apply IH]. destruct Hc as [->| ->]; congruence.
Qed.

(** Entries that agree up to letter case. *)
Definition entry_ci (a b : entry) : Prop :=
  lower (en_section a) = lower (en_section b) /\
  match en_kv a, en_kv b with
  | None, None => True
  | Some (k, v), Some (k', v') => lower k = lower k' /\ lower v = lower v'
  | _, _ => False
  end.

Lemma lower_rel_elem d d' e en :
  lower_rel d d' -> elem_rep d e en -> exists en', elem_rep d' e en' /\ entry_ci en en'.
Proof.
  intros Hr ((o & Ho & Hs) & Hkv).
  destruct (lower_rel_cstr _ _ _ _ Hr Hs) as (s' & Hs' & Hl).
  destruct (key e) as [k|] eqn:Hk, (value e) as [v|] eqn:Hv, (en_kv en) as [[ks vs]|] eqn:Hen; try done.
  - destruct Hkv as [H1 H2].
    destruct (lower_rel_cstr _ _ _ _ Hr H1) as (k' & Hk' & Hlk).
    destruct (lower_rel_cstr _ _ _ _ Hr H2) as (v' & Hv' & Hlv).
    exists (mkEntry s' (Some (k', v'))). unfold elem_rep, entry_ci. simpl. rewrite Hk, Hv, Hen.
    rewrite (lower_rel_lower _ _ Hl), (lower_rel_lower _ _ Hlk), (lower_rel_lower _ _ Hlv). eauto 10.
  - exists (mkEntry s' None). unfold elem_rep, entry_ci. simpl. rewrite Hk, Hv, Hen.
    rewrite (lower_rel_lower _ _ Hl). eauto 10.
Qed.

Lemma lower_rel_entries d d' l es :
  lower_rel d d' -> Forall2 (elem_rep d) l es ->
  exists es', Forall2 (elem_rep d') l es' /\ Forall2 entry_ci es es'.
Proof.
  intros Hr. induction 1 as [|e en l es He _ (es' & H1 & H2)].
  - exists []. split; constructor.
  - destruct (lower_rel_elem _ _ _ _ Hr He) as (en' & ? & ?).
    exists (en' :: es'). split; by constructor.
Qed.

Lemma until0_lower l : until0 (lower_until0 l) = lower <$> until0 l.
Proof.
  induction l as [|c l IH]; simpl; [done|].
  destruct (Z.eqb_spec c 0) as [->|Hc]; [done|]. simpl.
  destruct (Z.eqb_spec (tolower c) 0) as [H0|_]; [by apply (proj1 (tolower_0 c)) in H0|].
  rewrite IH. by destruct (until0 l).
Qed.

Lemma cstr_at_xapLowerString o f s :
  cstr_at (dataPacket f) o = Some s ->
  cstr_at (dataPacket (xapLowerString (Some o) f)) o = Some (lower s).
Proof.
  unfold cstr_at. simpl. intros Hs.
  assert (o <= length (dataPacket f))%nat.
  { destruct (decide (o <= length (dataPacket f))%nat); [done|].
    rewrite drop_ge in Hs by lia. done. }
  rewrite drop_app_length' by (rewrite length_take; lia).
  rewrite until0_lower, Hs. done.
Qed.

(** The string behind a pointer is in lower case. *)
Definition lowered (d : list Z) (p : option nat) : Prop :=
  match p with
  | None => True
  | Some o => exists s, cstr_at d o = Some s /\ lower s = s
  end.

Lemma lowered_rel d d' p : lower_rel d d' -> lowered d p -> lowered d' p.
Proof.
  destruct p as [o|]; simpl; [|done]. intros Hr (s & Hs & Hl).
  destruct (lower_rel_cstr _ _ _ _ Hr Hs) as (s' & Hs' & Hr').
  exists s'. split; [done|]. by rewrite (lower_rel_fixed _ _ Hr' Hl).
Qed.

Definition readable (d : list Z) (p : option nat) : Prop :=
  match p with None => True | Some o => is_Some (cstr_at d o) end.

Lemma readable_rel d d' p : lower_rel d d' -> readable d p -> readable d' p.
Proof.
  destruct p as [o|]; simpl; [|done]. intros Hr [s Hs].
  destruct (lower_rel_cstr _ _ _ _ Hr Hs) as (s' & Hs' & _). eauto.
Qed.

Lemma lowered_xapLowerString p f :
  readable (dataPacket f) p -> lowered (dataPacket (xapLowerString p f)) p.
Proof.
  destruct p as [o|]; [|done]. intros [s Hs]. exists (lower s).
  split; [by apply cstr_at_xapLowerString | apply lower_idem].
Qed.

(** Only the packet bytes change. *)
Definition same_elems (f f' : xAPFrame) : Prop :=
  len f' = len f /\ parsedMsgCount f' = parsedMsgCount f /\ parsedMsg f' = parsedMsg f.

Lemma same_elems_lower p f : same_elems f (xapLowerString p f).
Proof. by destruct p. Qed.

(** The pointers of an element can be read. *)
Definition elem_readable (d : list Z) (e : parsedMsgElement) : Prop :=
  readable d (section e) /\ readable d (key e) /\ readable d (value e).

(** The key whose value the header rules lower. *)
Definition header_key (k : cstr) : bool :=
  strcmp0 (str "source") k || strcmp0 (str "target") k || strcmp0 (str "class") k.

(** What one iteration establishes for its element. *)
Definition elem_lowered (d : list Z) (e : parsedMsgElement) : Prop :=
  lowered d (section e) /\ lowered d (key e) /\
  forall o k s ks, section e = Some o -> key e = Some k ->
    cstr_at d o = Some s -> cstr_at d k = Some ks ->
    s = str "xap-header" -> header_key ks = true -> lowered d (value e).

Lemma elem_lowered_rel d d' e : lower_rel d d' -> elem_lowered d e -> elem_lowered d' e.
Proof.
  intros Hr (H1 & H2 & H3). split; [by eapply lowered_rel|]. split; [by eapply lowered_rel|].
  intros o k s ks Ho Hk Hs Hks -> Hh. eapply lowered_rel; [done|].
  rewrite Ho in H1. destruct H1 as (s0 & Hs0 & Hl0). rewrite Hk in H2. destruct H2 as (k0 & Hk0 & Hlk0).
  destruct (lower_rel_cstr _ _ _ _ Hr Hs0) as (s1 & Hs1 & Hr1).
  destruct (lower_rel_cstr _ _ _ _ Hr Hk0) as (k1 & Hk1 & Hr2).
  rewrite (lower_rel_fixed _ _ Hr1 Hl0) in Hs1. rewrite (lower_rel_fixed _ _ Hr2 Hlk0) in Hk1.
  rewrite Hs in Hs1. rewrite Hks in Hk1. injection Hs1 as <-. injection Hk1 as <-. eauto.
Qed.

(** [f'] is [f] with some strings lowered. *)
Definition lowers (f f' : xAPFrame) : Prop :=
  lower_rel (dataPacket f) (dataPacket f') /\ same_elems f f'.

#[global] Instance lowers_refl : Reflexive lowers.
Proof. intros f. split; [reflexivity | by repeat split]. Qed.

#[global] Instance lowers_trans : Transitive lowers.
Proof.
  intros a b c [H1 (L1 & C1 & P1)] [H2 (L2 & C2 & P2)].
  split; [by etransitivity | repeat split; congruence].
Qed.

Lemma lowers_step p f : lowers f (xapLowerString p f).
Proof. split; [apply lower_rel_xapLowerString | apply same_elems_lower]. Qed.

(** The section of the element becomes the current one, in lower case. *)
Lemma lower_section e cur f :
  readable (dataPacket f) (section e) -> lowered (dataPacket f) cur ->
  exists f1, (if bool_decide (cur = None) || bool_decide (cur <> section e)
              then (section e, xapLowerString (section e) f) else (cur, f)) = (section e, f1) /\
    lowers f f1 /\ lowered (dataPacket f1) (section e).
Proof.
  intros Hr Hc. destruct (bool_decide_reflect (cur = None)) as [->|Hn]; simpl.
  - eexists; split; [done|]. split; [apply lowers_step | by apply lowered_xapLowerString].
  - destruct (bool_decide_reflect (cur <> section e)) as [Hd|Hd]; simpl.
    + eexists; split; [done|]. split; [apply lowers_step | by apply lowered_xapLowerString].
    + apply dec_stable in Hd. subst cur. exists f. done.
Qed.

Lemma deref_Ok f p s : deref f p = Ok s <-> exists o, p = Some o /\ cstr_at (dataPacket f) o = Some s.
Proof.
  destruct p as [o|]; simpl; [rewrite of_opt_Ok|]; naive_solver.
Qed.

Lemma lower_elem_spec e cur bsc f cur' bsc' f' :
  elem_readable (dataPacket f) e -> lowered (dataPacket f) cur ->
  lower_elem e (cur, bsc, f) = Ok (cur', bsc', f') ->
  lowers f f' /\ cur' = section e /\ elem_lowered (dataPacket f') e.
Proof.
  intros (Hrs & Hrk & Hrv) Hcur. unfold lower_elem.
  destruct (lower_section e cur f Hrs Hcur) as (f1 & -> & Hl1 & Hs1).
  assert (Hl2 : lowers f1 (xapLowerString (key e) f1)) by apply lowers_step.
  assert (Hk2 : lowered (dataPacket (xapLowerString (key e) f1)) (key e)).
  { apply lowered_xapLowerString. eapply readable_rel; [apply Hl1 | done]. }
  set (f2 := xapLowerString (key e) f1) in *.
  intros H. inv_bind H. rename a into f3, Ha into H3.
  assert (Hl3 : lowers f2 f3).
  { destruct bsc; [|injection H3 as <-; reflexivity]. inv_bind H3. injection H3 as <-.
    destruct (strcmp0 _ _); [apply lowers_step | reflexivity]. }
  assert (Hl13 : lowers f1 f3) by (by etransitivity).
  assert (Hs3 : lowered (dataPacket f3) (section e)) by (eapply lowered_rel; [apply Hl13 | done]).
  assert (Hk3 : lowered (dataPacket f3) (key e)) by (eapply lowered_rel; [apply Hl3 | done]).
  assert (Hl03 : lowers f f3) by (by etransitivity).
  inv_bind H. rename a into cs, Ha into Hcs. apply deref_Ok in Hcs as (o & Ho & Hcs).
  destruct (strcmp0 (str "xap-header") cs) eqn:Hhd.
  - inv_bind H. rename a into ks, Ha into Hks. apply deref_Ok in Hks as (k & Hk & Hks).
    fold (header_key ks) in H. destruct (header_key ks) eqn:Hh.
    + assert (f' = xapLowerString (value e) f3 /\ cur' = section e) as [-> ->].
      { destruct (strcmp0 (str "class") ks); [inv_bind H|]; by injection H as <- <- <-. }
      assert (Hl4 : lowers f3 (xapLowerString (value e) f3)) by apply lowers_step.
      split; [by etransitivity|]. split; [done|]. split; [eapply lowered_rel; [apply Hl4|done]|].
      split; [eapply lowered_rel; [apply Hl4|done]|]. intros. apply lowered_xapLowerString.
      eapply readable_rel; [apply Hl03 | done].
    + injection H as <- <- <-. split; [done|]. split; [done|]. split; [done|]. split; [done|].
      intros o' k' s' ks' _ Hk' _ Hks' _ Hh'. rewrite Hk in Hk'. injection Hk' as <-.
      rewrite Hks in Hks'. injection Hks' as <-. congruence.
  - injection H as <- <- <-. split; [done|]. split; [done|]. split; [done|]. split; [done|].
    intros o' k' s' ks' Ho' _ Hs' _ -> _. rewrite Ho in Ho'. injection Ho' as <-.
    rewrite Hcs in Hs'. injection Hs' as ->. by rewrite strcmp0_refl in Hhd.
Qed.

Lemma elem_readable_rel d d' e : lower_rel d d' -> elem_readable d e -> elem_readable d' e.
Proof. intros Hr (? & ? & ?). repeat split; by eapply readable_rel. Qed.

Lemma lower_loop_spec es cur bsc f cur' bsc' f' :
  Forall (elem_readable (dataPacket f)) es -> lowered (dataPacket f) cur ->
  lower_loop es (cur, bsc, f) = Ok (cur', bsc', f') ->
  lowers f f' /\ Forall (elem_lowered (dataPacket f')) es.
Proof.
  revert cur bsc f. induction es as [|e es IH]; intros cur bsc f Hr Hc H; simpl in H.
  - injection H as <- <- <-. split; [reflexivity | constructor].
  - inv_bind H. destruct a as [[cur1 bsc1] f1]. apply Forall_cons in Hr as [Hre Hr].
    destruct (lower_elem_spec _ _ _ _ _ _ _ Hre Hc Ha) as (Hl & -> & He).
    destruct (IH (section e) bsc1 f1) as [Hl' Hes]; [|by apply He|done|].
    { eapply Forall_impl; [done|]. intros x. apply elem_readable_rel, Hl. }
    split; [by etransitivity|]. constructor; [|done].
    eapply elem_lowered_rel; [apply Hl' | done].
Qed.

Lemma elem_rep_readable d e en : elem_rep d e en -> elem_readable d e.
Proof.
  intros ((o & Ho & Hs) & Hkv). unfold elem_readable. rewrite Ho.
  destruct (key e), (value e), (en_kv en) as [[??]|]; try done.
  - destruct Hkv as [H1 H2]. simpl. rewrite Hs, H1, H2. eauto.
  - simpl. rewrite Hs. eauto.
Qed.

Lemma frame_rep_readable f es :
  frame_rep f es -> Forall (elem_readable (dataPacket f)) (take (parsedMsgCount f) (parsedMsg f)).
Proof.
  unfold frame_rep. induction 1; constructor; [by eapply elem_rep_readable | done].
Qed.

Lemma lower_message_ci f es f' :
  frame_rep f es -> xapLowerMessageF f = Ok f' ->
  exists es', frame_rep f' es' /\ Forall2 entry_ci es es'.
Proof.
  intros Hrep H. unfold xapLowerMessageF in H. inv_bind H.
  destruct a as [[cur bsc] f1]. injection H as <-.
  destruct (lower_loop_spec _ None _ _ _ _ _ (frame_rep_readable _ _ Hrep) I Ha)
    as [[Hr (_ & Hc & Hp)] _].
  unfold frame_rep in *. rewrite Hc, Hp. by apply (lower_rel_entries _ _ _ _ Hr).
Qed.

Lemma readable_deref f p : readable (dataPacket f) p -> p <> None -> exists s, deref f p = Ok s.
Proof. destruct p as [o|]; [|done]. intros [s Hs] _. exists s. simpl. by rewrite Hs. Qed.

(** With a key and a value to read, an iteration returns. *)
Lemma lower_elem_total e cur bsc f :
  elem_readable (dataPacket f) e -> lowered (dataPacket f) cur ->
  section e <> None -> key e <> None -> value e <> None ->
  exists st, lower_elem e (cur, bsc, f) = Ok st.
Proof.
  intros Hre Hcur Hs Hk Hv. unfold lower_elem. pose proof Hre as (Hrs & Hrk & Hrv).
  destruct (lower_section e cur f Hrs Hcur) as (f1 & -> & Hl1 & _).
  assert (Hl2 : lowers f (xapLowerString (key e) f1)) by (etransitivity; [done|apply lowers_step]).
  set (f2 := xapLowerString (key e) f1) in *. clearbody f2.
  assert (Hd : forall p g, readable (dataPacket f) p -> p <> None -> lowers f g -> exists s, deref g p = Ok s).
  { intros p g Hp Hn [Hg _]. apply readable_deref; [by eapply readable_rel|done]. }
  assert (exists f3, lowers f f3 /\ (if bsc then k ← deref f2 (key e);
            Ok (if strcmp0 (str "state") k then xapLowerString (value e) f2 else f2)
          else Ok f2) = Ok f3) as (f3 & Hl3 & ->).
  { destruct bsc; [|by eauto]. destruct (Hd _ f2 Hrk Hk Hl2) as [k ->]. simpl.
    eexists; split; [|done]. destruct (strcmp0 _ _); [etransitivity; [done|apply lowers_step]|done]. }
  simpl. destruct (Hd _ f3 Hrs Hs Hl3) as [cs ->]. simpl.
  destruct (strcmp0 (str "xap-header") cs); [|eauto].
  destruct (Hd _ f3 Hrk Hk Hl3) as [ks ->]. simpl.
  destruct (_ || _); [|eauto]. destruct (strcmp0 (str "class") ks); [|eauto].
  destruct (Hd _ (xapLowerString (value e) f3) Hrv Hv) as [vs ->].
  { etransitivity; [done|apply lowers_step]. }
  simpl. eauto.
Qed.

Definition elem_full (e : parsedMsgElement) : Prop :=
  section e <> None /\ key e <> None /\ value e <> None.

Lemma lower_loop_total es cur bsc f :
  Forall (elem_readable (dataPacket f)) es -> Forall elem_full es -> lowered (dataPacket f) cur ->
  exists st, lower_loop es (cur, bsc, f) = Ok st.
Proof.
  revert cur bsc f. induction es as [|e es IH]; intros cur bsc f Hr Hf Hc; simpl; [eauto|].
  apply Forall_cons in Hr as [Hre Hr]. apply Forall_cons in Hf as [(?&?&?) Hf].
  destruct (lower_elem_total e cur bsc f) as [[[cur1 bsc1] f1] Hone]; [done..|]. rewrite Hone. simpl.
  destruct (lower_elem_spec _ _ _ _ _ _ _ Hre Hc Hone) as (Hl & -> & He).
  apply IH; [|done|by apply He]. eapply Forall_impl; [exact Hr|]. intros x. apply elem_readable_rel, Hl.
Qed.

Lemma frame_rep_full f es :
  frame_rep f es -> Forall (fun en => en_kv en <> None) es ->
  Forall elem_full (take (parsedMsgCount f) (parsedMsg f)).
Proof.
  unfold frame_rep. induction 1 as [|e en l es ((o & Ho & _) & Hkv) _ IH]; intros Hf; constructor.
  - apply Forall_cons in Hf as [Hf _]. unfold elem_full. rewrite Ho.
    destruct (key e), (value e), (en_kv en); done.
  - apply Forall_cons in Hf as [_ Hf]. auto.
Qed.

(** On a frame that denotes the entries [es], [xapGetValueF] is the
    case-insensitive lookup of the first entry with that section and key. *)
Theorem xapGetValueF_spec (f : xAPFrame) (es : list entry) (sec : cstr) (k : option cstr) :
  frame_rep f es -> xapGetValueF f sec k = Ok (entries_lookup es sec k).
Proof. apply get_value_rep. Qed.

(** A frame with one key. *)
Definition demo_frame1 : xAPFrame :=
  mkFrame 0 (str "h" ++ [0] ++ str "k" ++ [0] ++ str "V" ++ [0]) 1
    [mkElem (Some 0%nat) (Some 2%nat) (Some 4%nat)].

Lemma demo_frame1_rep : frame_rep demo_frame1 [mkEntry (str "h") (Some (str "k", str "V"))].
Proof. repeat constructor. by exists 0%nat. Qed.

Lemma xapGetValueF_spec_witness : xapGetValueF demo_frame1 (str "H") (Some (str "K")) = Ok (Some (str "V")).
Proof. rewrite (xapGetValueF_spec _ _ _ _ demo_frame1_rep). reflexivity. Defined.

(** On a frame without empty sections [xapLowerMessageF] returns, the
    entries are the same up to letter case, and afterwards every section, every
    key and the source, target and class of the header are in lower case. *)
Theorem xapLowerMessageF_spec (f : xAPFrame) (es : list entry) :
  frame_rep f es -> Forall (fun en => en_kv en <> None) es ->
  exists f' es', xapLowerMessageF f = Ok f' /\ frame_rep f' es' /\ Forall2 entry_ci es es' /\
    Forall (elem_lowered (dataPacket f')) (take (parsedMsgCount f') (parsedMsg f')).
Proof.
  intros Hrep Hfull. pose proof (frame_rep_readable _ _ Hrep) as Hrd.
  destruct (lower_loop_total _ None false f Hrd (frame_rep_full _ _ Hrep Hfull) I)
    as [[[cur bsc] f'] Hl].
  assert (Hm : xapLowerMessageF f = Ok f') by (unfold xapLowerMessageF; by rewrite Hl).
  destruct (lower_message_ci _ _ _ Hrep Hm) as (es' & Hrep' & Hci).
  exists f', es'. destruct (lower_loop_spec _ None _ _ _ _ _ Hrd I Hl) as [[_ (_ & Hc & Hp)] Hlow].
  rewrite Hc, Hp. done.
Qed.

Lemma xapLowerMessageF_spec_witness :
  exists f' es', xapLowerMessageF demo_frame1 = Ok f' /\ frame_rep f' es' /\
    Forall2 entry_ci [mkEntry (str "h") (Some (str "k", str "V"))] es'.
Proof.
  destruct (xapLowerMessageF_spec _ _ demo_frame1_rep) as (f' & es' & H1 & H2 & H3 & _).
  - by repeat constructor.
  - exists f', es'. done.
Defined.

(** The loop compares the key of every element with the header and state
    names: an empty section, whose key is NULL, makes [xapLowerMessageF]
    dereference NULL once a BSC class was seen. *)
Theorem xapLowerMessageF_empty_section_crash :
  let msg := str "xap-header{class=xAPBSC.event" ++ [10] ++ str "}body{}" in
  (parseMsgF (load_packet msg) ≫= fun r => xapLowerMessageF (fst r)) = Undef NullDeref.
Proof. vm_compute. reflexivity. Qed.
