(* ===== verification/Wire.v ===== *)
(** * Messages on the wire: printing and parsing

    The abstract syntax of an xAP message (a sequence of named sections with
    key/value pairs), the canonical text every sender of the code base prints,
    and the round trips: [parseMsgF] (parse.c) recovers the message from its
    text, and [parsedMsgToRawWithoutSectionF] rebuilds the text from the parsed
    frame, without the sections it is told to skip. *)

From S2P Require Import Prelude Frame.

Record block := mkBlock { b_name : cstr; b_kvs : list (cstr * cstr) }.

Abbreviation message := (list block).

Definition print_kv (kv : cstr * cstr) : cstr := fst kv ++ [61] ++ snd kv ++ [10].
Definition print_kvs (kvs : list (cstr * cstr)) : cstr := concat (map print_kv kvs).
Definition print_block (b : block) : cstr :=
  b_name b ++ [10; 123; 10] ++ print_kvs (b_kvs b) ++ [125; 10].
Definition print_msg (m : message) : cstr := concat (map print_block m).

(** The entries a parsed message denotes. *)
Definition block_entries (b : block) : list entry :=
  match b_kvs b with
  | [] => [mkEntry (b_name b) None]
  | kvs => map (fun kv => mkEntry (b_name b) (Some kv)) kvs
  end.
Definition msg_entries (m : message) : list entry := concat (map block_entries m).

(** Text without control characters. *)
Definition text_wf (s : cstr) : Prop := Forall (fun c => 32 <= c) s.

(** A section name starts with a printable character and holds no brace. *)
Definition name_wf (s : cstr) : Prop :=
  text_wf s /\ 123 ∉ s /\ match s with c :: _ => printable c = true | [] => False end.

(** A key starts with a printable character other than the closing brace and
    holds no equals sign. *)
Definition key_wf (s : cstr) : Prop :=
  text_wf s /\ 61 ∉ s /\ match s with c :: _ => printable c = true /\ c <> 125 | [] => False end.

Definition kv_wf (kv : cstr * cstr) : Prop := key_wf (fst kv) /\ text_wf (snd kv).
Definition block_wf (b : block) : Prop := name_wf (b_name b) /\ Forall kv_wf (b_kvs b).
Definition msg_wf (m : message) : Prop := Forall block_wf m.

(** ** The packet after parsing *)

Definition mark_kv (kv : cstr * cstr) : cstr := fst kv ++ [0] ++ snd kv ++ [0].
Definition mark_kvs (kvs : list (cstr * cstr)) : cstr := concat (map mark_kv kvs).
Definition mark_block (b : block) : cstr :=
  b_name b ++ [0; 0; 10] ++ mark_kvs (b_kvs b) ++ [125; 10].
Definition mark_msg (m : message) : cstr := concat (map mark_block m).

(** The elements of a section that starts at [o], its keys from [p]. *)
Fixpoint kv_elems (o p : nat) (kvs : list (cstr * cstr)) : list parsedMsgElement :=
  match kvs with
  | [] => []
  | (k, v) :: r =>
      mkElem (Some o) (Some p) (Some (p + length k + 1)%nat)
      :: kv_elems o (p + length k + 1 + length v + 1)%nat r
  end.

Definition block_elems (p : nat) (b : block) : list parsedMsgElement :=
  match b_kvs b with
  | [] => [mkElem (Some p) None None]
  | kvs => kv_elems p (p + length (b_name b) + 3)%nat kvs
  end.

Fixpoint msg_elems (p : nat) (m : message) : list parsedMsgElement :=
  match m with
  | [] => []
  | b :: r => block_elems p b ++ msg_elems (p + length (mark_block b))%nat r
  end.

(** ** Running the parser over a known piece of text *)

(** The loop has consumed [don], [todo] is left; the elements [es] are counted
    and [fr] are the slots after them. *)
Definition conf (st : pstate) (cs : option nat) (kc L : Z) (don todo : list Z)
    (es fr : list parsedMsgElement) : pctx :=
  mkPctx st cs kc (Z.of_nat (length don)) (mkFrame L (don ++ todo) (length es) (es ++ fr)).

Lemma length_snoc {A} (l : list A) x : length (l ++ [x]) = S (length l).
Proof. rewrite length_app. simpl. lia. Qed.

Lemma lookup_mid {A} (l : list A) x r : (l ++ x :: r) !! length l = Some x.
Proof. rewrite lookup_app_r by lia. by rewrite Nat.sub_diag. Qed.

Lemma insert_mid {A} (l : list A) x y r : <[length l := y]> (l ++ x :: r) = l ++ y :: r.
Proof. rewrite insert_app_r_alt by lia. by rewrite Nat.sub_diag. Qed.

(** One iteration, from a configuration to the next. *)
Lemma loop_to n st cs kc L don c todo es fr st' cs' kc' don' es' fr' :
  length don' = S (length don) -> Z.of_nat (length don) < L <= 1500 ->
  parse_step (length don) (conf st cs kc L don (c :: todo) es fr)
    = Ok (mkPctx st' cs' kc' (Z.of_nat (length don)) (mkFrame L (don' ++ todo) (length es') (es' ++ fr'))) ->
  parse_loop (S n) (length don) (conf st cs kc L don (c :: todo) es fr)
    = parse_loop n (length don') (conf st' cs' kc' L don' todo es' fr').
Proof.
  intros Hd HL Hs. cbn [parse_loop]. cbn [ix frame len conf].
  rewrite u32_small by lia. unfold XAP_DATA_LEN.
  destruct (Z.ltb_spec (Z.of_nat (length don)) L); [|lia].
  destruct (Z.ltb_spec (Z.of_nat (length don)) 1500); [|lia].
  simpl andb. cbn match. rewrite Hs, bind_Ok. cbn [state current_section keycount ix frame].
  unfold conf. rewrite Hd. f_equal. f_equal. rewrite u32_small; lia.
Qed.

(** A character the state ignores. *)
Definition ignores (st : pstate) (c : Z) : Prop :=
  match st with
  | START_SECTION_NAME => printable c = false
  | IN_SECTION_NAME => c <> 123
  | START_KEYNAME => printable c = false
  | IN_KEYNAME => 32 <= c /\ c <> 61
  | IN_KEYVALUE => 32 <= c
  end.

Lemma run_skip n st cs kc L don w todo es fr :
  Forall (ignores st) w -> Z.of_nat (length don + length w) <= L <= 1500 ->
  parse_loop (length w + n) (length don) (conf st cs kc L don (w ++ todo) es fr)
    = parse_loop n (length (don ++ w)) (conf st cs kc L (don ++ w) todo es fr).
Proof.
  intros Hw. revert don. induction Hw as [|c w Hc _ IH]; intros don HL.
  - by rewrite app_nil_r.
  - simpl in HL. simpl length. simpl app. cbn [Nat.add].
    rewrite (loop_to _ _ _ _ _ _ _ _ _ _ st cs kc (don ++ [c]) es fr); [|apply length_snoc|lia|].
    2: { unfold parse_step. simpl. rewrite lookup_mid. simpl. rewrite <- (app_assoc don [c]).
         destruct st; simpl in Hc |- *.
         - by rewrite Hc.
         - destruct (Z.eqb_spec c 123); [done|]. done.
         - rewrite Hc. destruct (Z.eqb_spec c 125) as [->|]; [done|]. done.
         - destruct Hc. destruct (Z.ltb_spec c 32); [lia|]. destruct (Z.eqb_spec c 61); [lia|]. done.
         - destruct (Z.ltb_spec c 32); [lia|]. done. }
    rewrite IH by (rewrite length_snoc; lia). by rewrite <- (app_assoc don [c] w).
Qed.

(** [rtrim] over a run of control characters that follows [x]. *)
Lemma rtrim_ctl a x z todo :
  32 <= x -> Forall (fun c => c < 32) z -> z <> [] ->
  rtrim ((a ++ [x]) ++ z ++ todo) (length a + length z) = (a ++ [x]) ++ replicate (length z) 0 ++ todo.
Proof.
  intros Hx. revert todo. induction z as [|c z IH] using rev_ind; intros todo Hz Hne; [done|].
  apply Forall_app in Hz as [Hz Hc]. apply Forall_cons in Hc as [Hc _].
  rewrite length_snoc. rewrite Nat.add_succ_r. cbn [rtrim].
  replace (S (length a + length z)) with (length ((a ++ [x]) ++ z)) at 1
    by (rewrite !length_app; simpl; lia).
  replace (S (length a + length z)) with (length ((a ++ [x]) ++ z))
    by (rewrite !length_app; simpl; lia).
  rewrite <- (app_assoc z [c] todo). cbn [app]. rewrite (app_assoc _ z (c :: todo)).
  rewrite lookup_mid, insert_mid. destruct (Z.ltb_spec c 32); [|lia].
  rewrite <- (app_assoc _ z (0 :: todo)).
  destruct z as [|c' z'] eqn:Ez.
  - simpl. destruct a as [|y a']; [done|].
    rewrite Nat.add_0_r. cbn [length rtrim].
    replace (S (length a')) with (length (y :: a')) by done.
    rewrite <- (app_assoc (y :: a') [x]). cbn [app].
    change (y :: a' ++ x :: 0 :: todo) with ((y :: a') ++ x :: 0 :: todo). rewrite lookup_mid.
    destruct (Z.ltb_spec x 32); [lia|done].
  - rewrite <- Ez in *. rewrite (IH (0 :: todo)); [|done|congruence].
    rewrite replicate_S_end. by rewrite <- !app_assoc.
Qed.

(** Terminating at a control character or separator [c] preceded by [z]. *)
Lemma terminate_conf a x z c todo L es fr :
  32 <= x -> Forall (fun c => c < 32) z ->
  terminate (length ((a ++ [x]) ++ z)) (mkFrame L (((a ++ [x]) ++ z) ++ c :: todo) (length es) (es ++ fr))
  = mkFrame L (((a ++ [x]) ++ replicate (S (length z)) 0) ++ todo) (length es) (es ++ fr).
Proof.
  intros Hx Hz. unfold terminate, set_dataPacket. cbn [len dataPacket parsedMsgCount parsedMsg].
  f_equal. rewrite insert_mid. rewrite (app_cons_assoc _ 0), <- (app_assoc (a ++ [x]) z).
  replace (length ((a ++ [x]) ++ z)) with (length a + length (z ++ [0%Z]))%nat
    by (rewrite !length_app; simpl; lia).
  rewrite <- app_assoc. rewrite rtrim_ctl; [|done| |by destruct z].
  - rewrite length_snoc. by rewrite <- !app_assoc.
  - apply Forall_app. split; [done|]. constructor; [lia|constructor].
Qed.

Lemma last_char s : s <> [] -> text_wf s -> exists a x, s = a ++ [x] /\ 32 <= x.
Proof.
  intros Hne Hs. destruct s as [|x a _] using rev_ind; [done|].
  exists a, x. split; [done|]. apply Forall_app in Hs as [_ Hs]. by inversion Hs.
Qed.

(** The section header: name, newline, opening brace. *)
Lemma run_header n cs kc L don name todo es fr :
  name_wf name -> Z.of_nat (length don + length name + 2) <= L <= 1500 ->
  parse_loop (length name + 2 + n) (length don)
    (conf START_SECTION_NAME cs kc L don (name ++ [10; 123] ++ todo) es fr)
  = parse_loop n (length (don ++ name ++ [0; 0]))
    (conf START_KEYNAME (Some (length don)) 0 L (don ++ name ++ [0; 0]) todo es fr).
Proof.
  intros (Ht & Hb & Hp) HL. destruct name as [|c name]; [done|].
  cbn [length Nat.add app] in HL |- *.
  rewrite (loop_to _ _ _ _ _ _ _ _ _ _ IN_SECTION_NAME (Some (length don)) kc (don ++ [c]) es fr);
    [|apply length_snoc|lia|].
  2: { unfold parse_step. simpl. rewrite lookup_mid. simpl. rewrite Hp. by rewrite <- (app_assoc don [c]). }
  replace (name ++ 10 :: 123 :: todo) with ((name ++ [10]) ++ 123 :: todo) by (by rewrite <- app_assoc).
  replace (length name + 2 + n)%nat with (length (name ++ [10%Z]) + S n)%nat
    by (rewrite length_app; simpl; lia).
  rewrite run_skip.
  2: { apply Forall_app. split; [|by repeat constructor]. apply Forall_forall. simpl.
       intros y Hy ->. apply Hb. by right. }
  2: { rewrite !length_app. simpl. lia. }
  destruct (last_char (c :: name)) as (a & x & Hax & Hx); [done|done|].
  replace ((don ++ [c]) ++ name ++ [10]) with (((don ++ a) ++ [x]) ++ [10])
    by (rewrite <- (app_assoc don [c]); cbn [app]; change (c :: name ++ [10]) with ((c :: name) ++ [10]);
        rewrite Hax; by rewrite <- !app_assoc).
  replace (don ++ c :: name ++ [0; 0]) with (((don ++ a) ++ [x]) ++ [0; 0])
    by (change (c :: name ++ [0; 0]) with ((c :: name) ++ [0; 0]); rewrite Hax; by rewrite <- !app_assoc).
  apply (f_equal length) in Hax. rewrite length_snoc in Hax. simpl in Hax.
  apply loop_to; [rewrite !length_app; simpl; lia|rewrite !length_app; simpl; lia|].
  unfold parse_step. cbn [conf frame dataPacket state current_section keycount ix].
  rewrite lookup_mid. cbn [of_opt]. rewrite bind_Ok. cbn [Z.eqb Pos.eqb].
  rewrite terminate_conf; [done|done|by repeat constructor].
Qed.

Lemma store_elem_conf g L d es e0 fr :
  store_elem g (mkFrame L d (length es) (es ++ e0 :: fr)) = Ok (mkFrame L d (length es) (es ++ g e0 :: fr)).
Proof. unfold store_elem. cbn. by rewrite lookup_mid, insert_mid. Qed.

(** A key up to its equals sign. *)
Lemma run_key n cs kc L don k todo es e0 fr :
  key_wf k -> Z.of_nat (length don + length k + 1) <= L <= 1500 ->
  parse_loop (length k + 1 + n) (length don)
    (conf START_KEYNAME cs kc L don (k ++ [61] ++ todo) es (e0 :: fr))
  = parse_loop n (length (don ++ k ++ [0]))
    (conf IN_KEYVALUE cs kc L (don ++ k ++ [0]) todo es
      (mkElem cs (Some (length don)) (Some (length don + length k + 1)%nat) :: fr)).
Proof.
  intros (Ht & He & Hp) HL. destruct k as [|c k]; [done|]. destruct Hp as [Hp Hc].
  cbn [length Nat.add app] in HL |- *.
  rewrite (loop_to _ _ _ _ _ _ _ _ _ _ IN_KEYNAME cs kc (don ++ [c]) es
             (mkElem cs (Some (length don)) (value e0) :: fr)); [|apply length_snoc|lia|].
  2: { unfold parse_step. simpl. rewrite lookup_mid. simpl. rewrite Hp.
       destruct (Z.eqb_spec c 125); [done|]. rewrite store_elem_conf. by rewrite <- (app_assoc don [c]). }
  replace (length k + 1 + n)%nat with (length k + S n)%nat by lia.
  rewrite run_skip.
  2: { apply Forall_cons in Ht as [_ Ht]. apply Forall_forall. intros y Hy. simpl. split.
       - by eapply (proj1 (Forall_forall _ _) Ht).
       - intros ->. apply He. by right. }
  2: { rewrite !length_app. simpl. lia. }
  destruct (last_char (c :: k)) as (a & x & Hax & Hx); [done|done|].
  replace ((don ++ [c]) ++ k) with (((don ++ a) ++ [x]) ++ [])
    by (rewrite <- (app_assoc don [c]); cbn [app]; rewrite Hax; by rewrite app_nil_r, <- !app_assoc).
  replace (don ++ c :: k ++ [0]) with (((don ++ a) ++ [x]) ++ [0])
    by (change (c :: k ++ [0]) with ((c :: k) ++ [0]); rewrite Hax; by rewrite <- !app_assoc).
  apply (f_equal length) in Hax. rewrite length_snoc in Hax. simpl in Hax.
  apply loop_to; [rewrite !length_app; simpl; lia|rewrite !length_app; simpl; lia|].
  unfold parse_step. cbn [conf frame dataPacket state current_section keycount ix].
  rewrite lookup_mid. cbn [of_opt]. rewrite bind_Ok. cbn [Z.eqb Pos.eqb Z.ltb Z.compare orb].
  rewrite terminate_conf; [|done|done].
  rewrite store_elem_conf. simpl. repeat f_equal. rewrite !length_app. simpl. lia.
Qed.

(** A value up to its newline; the text before it ends in a key and a NUL. *)
Lemma run_value n cs kc L a x v todo es e fr :
  32 <= x -> text_wf v -> (length es < 149)%nat ->
  Z.of_nat (length (a ++ [x; 0]) + length v + 1) <= L <= 1500 ->
  parse_loop (length v + 1 + n) (length (a ++ [x; 0]))
    (conf IN_KEYVALUE cs kc L (a ++ [x; 0]) (v ++ [10] ++ todo) es (e :: fr))
  = parse_loop n (length (a ++ [x; 0] ++ v ++ [0]))
    (conf START_KEYNAME cs (u32 (kc + 1)) L (a ++ [x; 0] ++ v ++ [0]) todo (es ++ [e]) fr).
Proof.
  intros Hx Hv Hn HL. replace (length v + 1 + n)%nat with (length v + S n)%nat by lia.
  rewrite run_skip; [|done|lia].
  assert (Hstep : forall b y z, 32 <= y -> Forall (fun c => c < 32) z ->
            (a ++ [x; 0]) ++ v = (b ++ [y]) ++ z ->
            a ++ [x; 0] ++ v ++ [0] = (b ++ [y]) ++ replicate (S (length z)) 0 ->
            parse_loop (S n) (length ((a ++ [x; 0]) ++ v))
              (conf IN_KEYVALUE cs kc L ((a ++ [x; 0]) ++ v) ([10] ++ todo) es (e :: fr)) =
            parse_loop n (length (a ++ [x; 0] ++ v ++ [0]))
              (conf START_KEYNAME cs (u32 (kc + 1)) L (a ++ [x; 0] ++ v ++ [0]) todo (es ++ [e]) fr)).
  { intros b y z Hy Hz H1 H2. apply loop_to.
    - rewrite !length_app. simpl. lia.
    - rewrite !length_app in *. simpl in *. lia.
    - rewrite H1, H2. unfold parse_step. cbn [conf frame dataPacket state current_section keycount ix].
      rewrite lookup_mid. cbn [of_opt]. rewrite bind_Ok. cbn [Z.ltb Z.compare].
      rewrite terminate_conf by done. unfold set_count. cbn [parsedMsgCount len dataPacket parsedMsg].
      unfold XAP_MSG_ELEMENTS. destruct (Z.leb_spec 150 (Z.of_nat (S (length es)))); [lia|].
      rewrite length_snoc. by rewrite <- (app_assoc es [e]). }
  destruct v as [|y v _] using rev_ind.
  - apply (Hstep a x [0]); [done|by repeat constructor|by rewrite app_nil_r, <- app_assoc|].
    simpl. by rewrite <- app_assoc.
  - apply Forall_app in Hv as [_ Hy]. apply Forall_cons in Hy as [Hy _].
    apply (Hstep (a ++ [x; 0] ++ v) y []); [done|constructor| |];
      simpl; rewrite ?app_nil_r, <- ?app_assoc; simpl; by rewrite <- ?app_assoc.
Qed.

Lemma key_last k : key_wf k -> exists a x, k = a ++ [x] /\ 32 <= x.
Proof. intros (Ht & _ & Hk). apply last_char; [by destruct k|done]. Qed.

Lemma run_kvs n o kc L don kvs todo es slots fr :
  Forall kv_wf kvs -> length slots = length kvs -> (length es + length kvs < 150)%nat ->
  0 <= kc -> kc + Z.of_nat (length kvs) <= 1500 ->
  Z.of_nat (length don + length (print_kvs kvs)) <= L <= 1500 ->
  parse_loop (length (print_kvs kvs) + n) (length don)
    (conf START_KEYNAME (Some o) kc L don (print_kvs kvs ++ todo) es (slots ++ fr))
  = parse_loop n (length (don ++ mark_kvs kvs))
    (conf START_KEYNAME (Some o) (kc + Z.of_nat (length kvs)) L (don ++ mark_kvs kvs) todo
       (es ++ kv_elems o (length don) kvs) fr).
Proof.
  intros Hkv. revert kc don es slots.
  induction Hkv as [|[k v] kvs [Hk Hv] _ IH]; intros kc don es slots Hs Hn Hkc Hkc2 HL.
  - destruct slots; [|done]. simpl. rewrite !app_nil_r. by rewrite Z.add_0_r.
  - destruct slots as [|e0 slots]; [done|]. injection Hs as Hs.
    unfold print_kvs in HL |- *. cbn [map concat] in HL |- *. fold (print_kvs kvs) in HL |- *.
    unfold print_kv in HL |- *. cbn [fst snd length] in *.
    rewrite !length_app in HL |- *. cbn [length] in HL |- *.
    destruct (key_last k Hk) as (a & x & Hax & Hx).
    replace (length k + (1 + (length v + 1)) + length (print_kvs kvs) + n)%nat
      with (length k + 1 + (length v + 1 + (length (print_kvs kvs) + n)))%nat by lia.
    rewrite <- !app_assoc. change ((e0 :: slots) ++ fr) with (e0 :: (slots ++ fr)).
    rewrite run_key; [|done|lia].
    replace (don ++ k ++ [0]) with ((don ++ a) ++ [x; 0]) by (rewrite Hax; by rewrite <- !app_assoc).
    rewrite run_value; [|done|done|simpl in Hn; lia|].
    2: { apply (f_equal length) in Hax. rewrite !length_app in *. simpl in *. lia. }
    replace ((don ++ a) ++ [x; 0] ++ v ++ [0]) with (don ++ mark_kv (k, v))
      by (unfold mark_kv; simpl; rewrite Hax; by rewrite <- !app_assoc).
    assert (Hm : length (mark_kv (k, v)) = (length k + 1 + length v + 1)%nat)
      by (unfold mark_kv; rewrite !length_app; simpl; lia).
    rewrite u32_small by lia.
    rewrite IH; [|done|rewrite length_app; simpl in *; lia|lia|lia|rewrite length_app; lia].
    rewrite (length_app don (mark_kv (k, v))), Hm. rewrite <- !app_assoc. simpl.
    replace (length don + (length k + 1 + length v + 1))%nat
      with (length don + length k + 1 + length v + 1)%nat by lia.
    unfold mark_kvs. simpl. by replace (kc + 1 + Z.of_nat (length kvs)) with (kc + Z.pos (Pos.of_succ_nat (length kvs))) by lia.
Qed.

Definition entry_count (b : block) : nat := length (block_entries b).

Lemma length_kv_elems o p kvs : length (kv_elems o p kvs) = length kvs.
Proof. revert p; induction kvs as [|[k v] r IH]; intros p; simpl; [done|]. by rewrite IH. Qed.

Lemma length_block_elems p b : length (block_elems p b) = entry_count b.
Proof.
  unfold block_elems, entry_count, block_entries. destruct (b_kvs b) as [|kv r]; [done|].
  by rewrite length_kv_elems, length_map.
Qed.

Lemma length_mark_kvs kvs : length (mark_kvs kvs) = length (print_kvs kvs).
Proof.
  unfold mark_kvs, print_kvs. induction kvs as [|[k v] r IH]; [done|]. simpl.
  rewrite !length_app, IH. unfold mark_kv, print_kv. rewrite !length_app. done.
Qed.

Lemma length_mark_block b : length (mark_block b) = length (print_block b).
Proof. unfold mark_block, print_block. rewrite !length_app, length_mark_kvs. done. Qed.

(** The closing brace records an empty section. *)
Lemma run_close n o kc L don todo es slots fr (kvs : list (cstr * cstr)) :
  kc = Z.of_nat (length kvs) -> length slots = (if bool_decide (kvs = []) then 1 else 0)%nat ->
  Z.of_nat (length don + 2) <= L <= 1500 ->
  parse_loop (2 + n) (length don) (conf START_KEYNAME (Some o) kc L don ([125; 10] ++ todo) es (slots ++ fr))
  = parse_loop n (length (don ++ [125; 10]))
    (conf START_SECTION_NAME (Some o) kc L (don ++ [125; 10]) todo
       (es ++ if bool_decide (kvs = []) then [mkElem (Some o) None None] else []) fr).
Proof.
  intros Hkc Hs HL. cbn [Nat.add app].
  rewrite (loop_to _ _ _ _ _ _ _ _ _ _ START_SECTION_NAME (Some o) kc (don ++ [125])
             (es ++ if bool_decide (kvs = []) then [mkElem (Some o) None None] else []) fr);
    [|apply length_snoc|lia|].
  2: { unfold parse_step. cbn [conf frame dataPacket state current_section keycount ix].
       rewrite lookup_mid. cbn [of_opt]. rewrite bind_Ok. cbn [Z.eqb Pos.eqb].
       rewrite <- (app_assoc don [125]).
       destruct kvs as [|kv r]; simpl in Hkc, Hs; subst kc.
       - destruct slots as [|e0 [|]]; try done. cbn [Z.eqb]. simpl app. rewrite store_elem_conf.
         simpl. unfold set_count. simpl. rewrite length_snoc. by rewrite <- (app_assoc es).
       - destruct slots; [|done]. destruct (Z.eqb_spec (Z.pos (Pos.of_succ_nat (length r))) 0); [lia|].
         simpl. by rewrite app_nil_r. }
  replace (S n) with (length [10%Z] + n)%nat by done.
  change (10 :: todo) with ([10] ++ todo). rewrite run_skip; [|by repeat constructor|rewrite length_snoc; simpl; lia].
  by rewrite <- (app_assoc don [125] [10]).
Qed.

Lemma run_block n cs kc L don b todo es slots fr :
  block_wf b -> length slots = entry_count b -> (length es + entry_count b < 150)%nat ->
  Z.of_nat (length don + length (print_block b)) <= L <= 1500 ->
  exists cs' kc',
  parse_loop (length (print_block b) + n) (length don)
    (conf START_SECTION_NAME cs kc L don (print_block b ++ todo) es (slots ++ fr))
  = parse_loop n (length (don ++ mark_block b))
    (conf START_SECTION_NAME cs' kc' L (don ++ mark_block b) todo (es ++ block_elems (length don) b) fr).
Proof.
  intros [Hname Hkvs] Hs Hn HL. exists (Some (length don)), (Z.of_nat (length (b_kvs b))).
  unfold print_block in HL |- *. rewrite !length_app in HL |- *. cbn [length] in HL |- *.
  set (kvs := b_kvs b) in *. set (name := b_name b) in *.
  replace (length name + (3 + (length (print_kvs kvs) + 2)) + n)%nat
    with (length name + 2 + (length [10%Z] + (length (print_kvs kvs) + (2 + n))))%nat by (simpl; lia).
  rewrite <- !app_assoc. change ([10; 123; 10] ++ print_kvs kvs ++ [125; 10] ++ todo)
    with ([10; 123] ++ [10] ++ print_kvs kvs ++ [125; 10] ++ todo).
  rewrite run_header; [|done|lia].
  rewrite run_skip; [|by repeat constructor|rewrite !length_app; simpl; lia].
  set (don1 := (don ++ name ++ [0; 0]) ++ [10]).
  assert (Hd1 : length don1 = (length don + length name + 3)%nat)
    by (unfold don1; rewrite !length_app; simpl; lia).
  assert (Hcount : entry_count b = if bool_decide (kvs = []) then 1%nat else length kvs).
  { unfold entry_count, block_entries. fold kvs. destruct kvs; [done|]. by rewrite length_map. }
  assert (exists s1 s2, slots = s1 ++ s2 /\ length s1 = length kvs /\
            length s2 = (if bool_decide (kvs = []) then 1 else 0)%nat) as (s1 & s2 & -> & H1 & H2).
  { rewrite Hcount in Hs. destruct kvs as [|kv r].
    - exists [], slots. done.
    - exists slots, []. rewrite app_nil_r. done. }
  rewrite <- (app_assoc s1). assert (Hnk : (length es + length kvs < 150)%nat)
    by (rewrite Hcount in Hn; destruct kvs; simpl in *; lia).
  rewrite run_kvs; [|done|done|done|lia|lia|rewrite Hd1; lia].
  rewrite (run_close _ _ _ _ _ _ _ _ _ kvs); [|lia|done|].
  2: { rewrite length_app, length_mark_kvs, Hd1. lia. }
  replace ((don1 ++ mark_kvs kvs) ++ [125; 10]) with (don ++ mark_block b)
    by (unfold don1, mark_block; fold kvs; fold name; by rewrite <- !app_assoc).
  f_equal. f_equal. rewrite <- (app_assoc es). f_equal. unfold block_elems. fold kvs. fold name.
  rewrite Hd1. by destruct kvs; [|rewrite app_nil_r].
Qed.

Lemma run_msg n cs kc L don m todo es slots fr :
  msg_wf m -> length slots = length (msg_entries m) -> (length es + length (msg_entries m) < 150)%nat ->
  Z.of_nat (length don + length (print_msg m)) <= L <= 1500 ->
  exists cs' kc',
  parse_loop (length (print_msg m) + n) (length don)
    (conf START_SECTION_NAME cs kc L don (print_msg m ++ todo) es (slots ++ fr))
  = parse_loop n (length (don ++ mark_msg m))
    (conf START_SECTION_NAME cs' kc' L (don ++ mark_msg m) todo (es ++ msg_elems (length don) m) fr).
Proof.
  intros Hm. revert cs kc don es slots.
  induction Hm as [|b m Hb _ IH]; intros cs kc don es slots Hs Hn HL.
  - destruct slots; [|done]. exists cs, kc. simpl. by rewrite !app_nil_r.
  - unfold msg_entries in Hs, Hn. unfold print_msg in HL |- *. simpl in Hs, Hn, HL |- *.
    rewrite length_app in Hs, Hn, HL |- *. fold (msg_entries m) in Hs, Hn. fold (print_msg m) in HL |- *.
    fold (entry_count b) in Hs, Hn.
    rewrite <- (take_drop (entry_count b) slots), <- Nat.add_assoc, <- !app_assoc.
    destruct (run_block (length (print_msg m) + n) cs kc L don b (print_msg m ++ todo) es
                (take (entry_count b) slots) (drop (entry_count b) slots ++ fr))
      as (cs1 & kc1 & ->); [done|rewrite length_take; lia|lia|lia|].
    destruct (IH cs1 kc1 (don ++ mark_block b) (es ++ block_elems (length don) b) (drop (entry_count b) slots))
      as (cs2 & kc2 & ->).
    + rewrite length_drop. lia.
    + rewrite length_app, length_block_elems. lia.
    + rewrite length_app, length_mark_block. lia.
    + exists cs2, kc2. unfold mark_msg. simpl. rewrite (length_app don), length_mark_block.
      by rewrite <- !app_assoc.
Qed.

(** ** The elements denote the entries *)

Lemma text_no_nul s : text_wf s -> no_nul s.
Proof. intros H. eapply Forall_impl; [exact H|]. simpl. lia. Qed.

Lemma kv_elems_rep d o name pre kvs rest :
  Forall kv_wf kvs -> cstr_at d o = Some name -> d = pre ++ mark_kvs kvs ++ rest ->
  Forall2 (elem_rep d) (kv_elems o (length pre) kvs) (map (fun kv => mkEntry name (Some kv)) kvs).
Proof.
  intros Hkv Ho. revert pre. induction Hkv as [|[k v] kvs [(Hk & _) Hv] _ IH]; intros pre Hd; [constructor|].
  unfold mark_kvs in Hd. simpl in Hd. fold (mark_kvs kvs) in Hd. unfold mark_kv in Hd. simpl in Hd, Hk, Hv.
  simpl. constructor.
  - split; [by eauto|]. simpl. split.
    + rewrite Hd. rewrite <- !app_assoc. simpl. apply cstr_at_app. by apply text_no_nul.
    + replace d with ((pre ++ k ++ [0]) ++ v ++ 0 :: mark_kvs kvs ++ rest)
        by (rewrite Hd; rewrite <- !app_assoc; simpl; by rewrite <- !app_assoc).
      replace (length pre + length k + 1)%nat with (length (pre ++ k ++ [0%Z]))
        by (rewrite !length_app; simpl; lia).
      apply cstr_at_app. by apply text_no_nul.
  - replace (length pre + length k + 1 + length v + 1)%nat with (length (pre ++ k ++ 0 :: v ++ [0%Z]))
      by (rewrite !length_app; simpl; rewrite length_app; simpl; lia).
    apply IH. rewrite Hd. rewrite <- !app_assoc. simpl. by rewrite <- !app_assoc.
Qed.

Lemma block_elems_rep d pre b rest :
  block_wf b -> d = pre ++ mark_block b ++ rest ->
  Forall2 (elem_rep d) (block_elems (length pre) b) (block_entries b).
Proof.
  intros [(Hname & _ & _) Hkvs] Hd. unfold mark_block in Hd.
  assert (Ho : cstr_at d (length pre) = Some (b_name b)).
  { rewrite Hd. rewrite <- !app_assoc. simpl. apply cstr_at_app. by apply text_no_nul. }
  unfold block_elems, block_entries. destruct (b_kvs b) as [|kv kvs] eqn:Hk.
  - constructor; [|constructor]. split; [by eauto|done].
  - rewrite <- Hk in *.
    replace (length pre + length (b_name b) + 3)%nat with (length (pre ++ b_name b ++ [0; 0; 10]))
      by (rewrite !length_app; simpl; lia).
    eapply kv_elems_rep; [done|done|]. rewrite Hd. by rewrite <- !app_assoc.
Qed.

Lemma msg_elems_rep d pre m rest :
  msg_wf m -> d = pre ++ mark_msg m ++ rest ->
  Forall2 (elem_rep d) (msg_elems (length pre) m) (msg_entries m).
Proof.
  intros Hm. revert pre. induction Hm as [|b m Hb _ IH]; intros pre Hd; [constructor|].
  unfold mark_msg in Hd. simpl in Hd. fold (mark_msg m) in Hd. rewrite <- app_assoc in Hd.
  unfold msg_entries. simpl. apply Forall2_app; [by eapply block_elems_rep|].
  rewrite <- length_app. apply IH. rewrite Hd. by rewrite <- app_assoc.
Qed.

Lemma length_msg_elems p m : length (msg_elems p m) = length (msg_entries m).
Proof.
  revert p. induction m as [|b m IH]; intros p; [done|]. unfold msg_entries. simpl.
  by rewrite !length_app, length_block_elems, IH.
Qed.

Lemma length_mark_msg m : length (mark_msg m) = length (print_msg m).
Proof.
  induction m as [|b m IH]; [done|]. unfold mark_msg, print_msg in *. simpl.
  by rewrite !length_app, length_mark_block, IH.
Qed.

(** The frame the parser leaves for the text of [m] followed by [rest]. *)
Definition parsed_frame (m : message) (rest : list Z) (pm : list parsedMsgElement) : xAPFrame :=
  mkFrame (Z.of_nat (length (print_msg m))) (mark_msg m ++ rest) (length (msg_entries m))
    (msg_elems 0 m ++ drop (length (msg_entries m)) pm).

Lemma parse_print m rest pm cnt :
  msg_wf m -> (length (print_msg m) <= 1500)%nat -> (length (msg_entries m) < 150)%nat ->
  length pm = 150%nat ->
  parseMsgF (mkFrame (Z.of_nat (length (print_msg m))) (print_msg m ++ rest) cnt pm)
    = Ok (parsed_frame m rest pm, length (msg_entries m)).
Proof.
  intros Hm HL Hn Hpm. unfold parseMsgF.
  set (L := Z.of_nat (length (print_msg m))).
  replace (Z.to_nat XAP_DATA_LEN) with (length (print_msg m) + (1500 - length (print_msg m)))%nat
    by (unfold XAP_DATA_LEN; lia).
  change (mkPctx START_SECTION_NAME None 0 0 (set_count 0 (mkFrame L (print_msg m ++ rest) cnt pm)))
    with (conf START_SECTION_NAME None 0 L [] (print_msg m ++ rest) [] pm).
  rewrite <- (take_drop (length (msg_entries m)) pm) at 1.
  destruct (run_msg (1500 - length (print_msg m)) None 0 L [] m rest [] (take (length (msg_entries m)) pm)
              (drop (length (msg_entries m)) pm)) as (cs & kc & Hrun);
    [done|rewrite length_take; lia|simpl; lia|simpl; lia|].
  change (length (@nil Z)) with 0%nat in Hrun. rewrite Hrun.
  assert (Hstop : forall k s, ix s = u32 (len (frame s)) -> forall p, parse_loop k p s = Ok s).
  { intros k s Hs p. destruct k; [done|]. cbn [parse_loop]. rewrite Hs, Z.ltb_irrefl. done. }
  rewrite Hstop.
  - simpl. unfold parsed_frame. fold L. by rewrite length_msg_elems.
  - cbn [conf ix frame len app]. rewrite length_mark_msg. fold L. rewrite u32_small; lia.
Qed.

Lemma parsed_frame_rep m rest pm :
  msg_wf m -> frame_rep (parsed_frame m rest pm) (msg_entries m).
Proof.
  intros Hm. unfold frame_rep, parsed_frame. cbn [dataPacket parsedMsg parsedMsgCount].
  rewrite take_app_length' by (by rewrite length_msg_elems).
  by apply (msg_elems_rep _ []  m rest).
Qed.

(** ** Rebuilding the text *)

Definition skipped (skip : option cstr) (b : block) : bool :=
  match skip with None => false | Some s => strcasecmp0 s (b_name b) end.

(** The sections that are kept. *)
Definition kept (skip : option cstr) (m : message) : message :=
  List.filter (fun b => negb (skipped skip b)) m.

(** What closes the section under construction. *)
Definition close_section (cur : option nat) : cstr :=
  match cur with None => [] | Some _ => line "}" end.

Lemma raw_append_fits size msg text :
  Z.of_nat (length msg + length text) < size -> raw_append size msg text = Ok (msg ++ text).
Proof. intros. unfold raw_append. zcase; [done|lia]. Qed.

Lemma raw_kvs f size skip o name kvs p r msg :
  cstr_at (dataPacket f) o = Some name ->
  match skip with None => false | Some s => strcasecmp0 s name end = false ->
  Forall2 (elem_rep (dataPacket f)) (kv_elems o p kvs) (map (fun kv => mkEntry name (Some kv)) kvs) ->
  Z.of_nat (length msg + length (print_kvs kvs)) < size ->
  raw_loop f size skip (kv_elems o p kvs ++ r) (Some o) msg
    = raw_loop f size skip r (Some o) (msg ++ print_kvs kvs).
Proof.
  intros Ho Hsk. revert p msg. induction kvs as [|[k v] kvs IH]; intros p msg Hrep Hsz.
  - simpl. by rewrite app_nil_r.
  - cbn [kv_elems map] in Hrep. apply Forall2_cons in Hrep as [[_ (Hk & Hv)] Hrep].
    unfold print_kvs in Hsz |- *. cbn [map concat] in Hsz |- *. fold (print_kvs kvs) in Hsz |- *.
    rewrite length_app in Hsz. unfold print_kv in Hsz |- *. cbn [fst snd] in Hsz |- *.
    rewrite !length_app in Hsz. simpl in Hsz.
    cbn [kv_elems app raw_loop section key value deref].
    assert (match skip with None => Ok false | Some s => es ← of_opt OutOfBounds (cstr_at (dataPacket f) o);
              Ok (strcasecmp0 s es) end = Ok false) as ->.
    { destruct skip as [s|]; [|done]. rewrite Ho. simpl. by rewrite Hsk. }
    rewrite bind_Ok. rewrite bool_decide_eq_false_2 by done.
    rewrite bool_decide_eq_false_2 by (intros Hf; by apply Hf). cbn [orb]. rewrite bind_Ok.
    rewrite Hk, Hv. cbn [of_opt]. rewrite !bind_Ok. rewrite raw_append_fits.
    2: { rewrite !length_app. simpl. lia. }
    rewrite bind_Ok. rewrite IH; [|done|rewrite !length_app; simpl; lia].
    change (str "=") with [61]. by app_norm.
Qed.

Lemma raw_skip f size s es r cur msg :
  Forall (fun e => exists o n, section e = Some o /\ cstr_at (dataPacket f) o = Some n /\
            strcasecmp0 s n = true) es ->
  raw_loop f size (Some s) (es ++ r) cur msg = raw_loop f size (Some s) r cur msg.
Proof.
  induction 1 as [|e es (o & n & Ho & Hn & Hc) _ IH]; [done|].
  cbn [app raw_loop]. rewrite Ho. cbn [deref]. rewrite Hn. cbn [of_opt]. rewrite !bind_Ok.
  by rewrite Hc.
Qed.

Lemma kv_elems_section o p kvs : Forall (fun e => section e = Some o) (kv_elems o p kvs).
Proof. revert p. induction kvs as [|[k v] r IH]; intros p; constructor; [done|apply IH]. Qed.

Lemma block_elems_section p b : Forall (fun e => section e = Some p) (block_elems p b).
Proof.
  unfold block_elems. destruct (b_kvs b); [by repeat constructor | apply kv_elems_section].
Qed.

(** Opening a section: the first element of a block. *)
Lemma raw_open f size skip e r cur p name msg :
  section e = Some p -> cstr_at (dataPacket f) p = Some name -> cur <> Some p ->
  match skip with None => false | Some s => strcasecmp0 s name end = false ->
  Z.of_nat (length (msg ++ close_section cur ++ name ++ [10; 123; 10])) < size ->
  raw_loop f size skip (e :: r) cur msg =
  (msg ← match key e with
        | None => Ok (msg ++ close_section cur ++ name ++ [10; 123; 10])
        | Some _ => k ← deref f (key e); v ← deref f (value e);
                    raw_append size (msg ++ close_section cur ++ name ++ [10; 123; 10]) (k ++ str "=" ++ v ++ [10])
        end;
   raw_loop f size skip r (Some p) msg).
Proof.
  intros Hs Hn Hcur Hsk Hsz. cbn [raw_loop]. rewrite Hs. cbn [deref]. rewrite Hn. cbn [of_opt].
  assert (match skip with None => Ok false | Some s => es ← Ok name; Ok (strcasecmp0 s es) end
          = Ok false) as ->.
  { destruct skip as [s|]; [|done]. simpl. by rewrite Hsk. }
  rewrite bind_Ok.
  assert (bool_decide (cur = None) || bool_decide (cur <> Some p) = true) as ->.
  { rewrite (bool_decide_eq_true_2 (cur <> Some p)) by done. apply orb_true_r. }
  change (msg ++ close_section cur ++ name ++ [10; 123; 10])
    with (msg ++ close_section cur ++ name ++ [10] ++ line "{") in *.
  destruct cur as [q|]; cbn [close_section] in *.
  - rewrite bool_decide_eq_true_2 by done. rewrite raw_append_fits.
    2: { len_lia. }
    rewrite !bind_Ok. rewrite raw_append_fits by (len_lia).
    rewrite !bind_Ok. by rewrite <- !app_assoc.
  - rewrite bool_decide_eq_false_2 by (intros Hf; by apply Hf). rewrite !bind_Ok.
    rewrite raw_append_fits by (len_lia). by rewrite !bind_Ok.
Qed.

Lemma raw_block f size skip pre b rest r cur msg :
  block_wf b -> dataPacket f = pre ++ mark_block b ++ rest ->
  cur <> Some (length pre) -> skipped skip b = false ->
  Z.of_nat (length (msg ++ close_section cur ++ print_block b)) < size ->
  raw_loop f size skip (block_elems (length pre) b ++ r) cur msg
    = raw_loop f size skip r (Some (length pre))
        (msg ++ close_section cur ++ b_name b ++ [10; 123; 10] ++ print_kvs (b_kvs b)).
Proof.
  intros Hb Hd Hcur Hsk Hsz. pose proof (block_elems_rep _ _ _ _ Hb Hd) as Hrep.
  pose proof Hb as [(Hname & _ & _) _].
  assert (Ho : cstr_at (dataPacket f) (length pre) = Some (b_name b)).
  { rewrite Hd. unfold mark_block. rewrite <- !app_assoc. simpl. apply cstr_at_app. by apply text_no_nul. }
  unfold print_block in Hsz. unfold block_elems, block_entries in *. unfold skipped in Hsk.
  destruct (b_kvs b) as [|[k v] kvs].
  - cbn [app]. rewrite (raw_open _ _ _ _ _ _ (length pre) (b_name b)); [|done|done|done|done|].
    2: { len_lia. }
    cbn [key]. by rewrite bind_Ok.
  - cbn [kv_elems map] in Hrep |- *. apply Forall2_cons in Hrep as [[_ (Hk & Hv)] Hrep].
    unfold print_kvs in *. cbn [map concat] in *. fold (print_kvs kvs) in *. unfold print_kv in *.
    cbn [fst snd] in *. rewrite !length_app in Hsz. cbn [length] in Hsz.
    cbn [app]. rewrite (raw_open _ _ _ _ _ _ (length pre) (b_name b)); [|done|done|done|done|].
    2: { rewrite !length_app. simpl. lia. }
    cbn [key value deref]. rewrite Hk, Hv. cbn [of_opt]. rewrite !bind_Ok.
    rewrite raw_append_fits by (rewrite !length_app; simpl; lia). rewrite bind_Ok.
    rewrite (raw_kvs _ _ _ _ (b_name b)); [|done|done|done|rewrite !length_app; simpl; lia].
    f_equal. change (str "=") with [61]. by app_norm.
Qed.
Lemma raw_blocks f size skip pre m rest cur msg :
  msg_wf m -> dataPacket f = pre ++ mark_msg m ++ rest ->
  (forall q, cur = Some q -> (q < length pre)%nat) ->
  Z.of_nat (length (msg ++ close_section cur ++ print_msg (kept skip m))) < size ->
  exists cur' msg', raw_loop f size skip (msg_elems (length pre) m) cur msg = Ok (cur', msg') /\
    msg' ++ close_section cur' = msg ++ close_section cur ++ print_msg (kept skip m).
Proof.
  intros Hm. revert pre cur msg. induction Hm as [|b m Hb _ IH]; intros pre cur msg Hd Hcur Hsz.
  - exists cur, msg. simpl. by rewrite app_nil_r.
  - unfold mark_msg in Hd. simpl in Hd. fold (mark_msg m) in Hd. rewrite <- app_assoc in Hd.
    assert (Hd' : dataPacket f = (pre ++ mark_block b) ++ mark_msg m ++ rest)
      by (rewrite Hd; by app_norm).
    cbn [msg_elems]. unfold kept in Hsz |- *. cbn [List.filter] in Hsz |- *. fold (kept skip m) in Hsz |- *.
    assert (Hmb : (0 < length (mark_block b))%nat).
    { rewrite length_mark_block. unfold print_block. len_lia. }
    destruct (skipped skip b) eqn:Hsk; cbn [negb] in Hsz |- *.
    + destruct skip as [s|]; [|done]. rewrite raw_skip.
      2: { eapply Forall_impl; [apply block_elems_section|]. intros e He. exists (length pre), (b_name b).
           split; [done|]. split; [|done]. rewrite Hd. unfold mark_block. app_norm. apply cstr_at_app.
           apply text_no_nul, Hb. }
      rewrite <- length_app. apply IH; [done| |done]. intros q Hq. apply Hcur in Hq. len_lia.
    + unfold print_msg in Hsz |- *. cbn [map concat] in Hsz |- *. fold (print_msg (kept skip m)) in Hsz |- *.
      rewrite (raw_block _ _ _ _ _ (mark_msg m ++ rest)); [|done|done| |done|len_lia].
      2: { intros Hq. apply Hcur in Hq. lia. }
      rewrite <- length_app.
      destruct (IH (pre ++ mark_block b) (Some (length pre))
        (msg ++ close_section cur ++ b_name b ++ [10; 123; 10] ++ print_kvs (b_kvs b)))
        as (cur' & msg' & Hr & Heq); [done| | |].
      * intros q [= <-]. len_lia.
      * unfold print_block in Hsz. change (close_section (Some (length pre))) with [125; 10]. len_lia.
      * exists cur', msg'. split; [done|]. rewrite Heq. unfold print_block.
        change (close_section (Some (length pre))) with [125; 10]. by app_norm.
Qed.

Lemma raw_parsed_frame m rest pm size skip :
  msg_wf m -> Z.of_nat (length (print_msg (kept skip m))) < size ->
  parsedMsgToRawWithoutSectionF (parsed_frame m rest pm) size skip = Ok (print_msg (kept skip m)).
Proof.
  intros Hm Hsz. unfold parsedMsgToRawWithoutSectionF. destruct (Z.leb_spec size 0); [lia|].
  unfold parsed_frame at 2 3. cbn [parsedMsg parsedMsgCount].
  rewrite take_app_length' by (by rewrite length_msg_elems).
  destruct (raw_blocks (parsed_frame m rest pm) size skip [] m rest None []) as (cur & msg & Hr & Heq);
    [done|done|done|done|].
  simpl in Hr, Heq. rewrite Hr, bind_Ok. destruct cur as [q|]; simpl in Heq |- *.
  - rewrite raw_append_fits; [by rewrite <- Heq|]. rewrite <- Heq in Hsz. len_lia.
  - rewrite app_nil_r in Heq. by subst.
Qed.

(** C2.  Parsing the canonical text of a well-formed message of fewer than 150
    entries that fits the packet yields exactly the entries of the message, in
    order, whatever the packet and the element array held before. *)
Theorem parseMsgF_print (m : message) (rest : list Z) (pm : list parsedMsgElement) (cnt : nat) :
  msg_wf m -> (length (print_msg m) <= 1500)%nat -> (length (msg_entries m) < 150)%nat ->
  length pm = 150%nat ->
  exists f, parseMsgF (mkFrame (Z.of_nat (length (print_msg m))) (print_msg m ++ rest) cnt pm)
              = Ok (f, length (msg_entries m)) /\ frame_rep f (msg_entries m).
Proof.
  intros. eexists. split; [by apply parse_print | by apply parsed_frame_rep].
Qed.

(** A message with a header and an empty section. *)
Definition demo_msg : message :=
  [mkBlock (str "xap-header") [(str "class", str "xAPBSC.query"); (str "target", str "a.b.c:>")];
   mkBlock (str "request") []].

Lemma demo_msg_wf : msg_wf demo_msg.
Proof.
  assert (Ht : forall s : cstr, forallb (fun c => 32 <=? c) s = true -> text_wf s).
  { intros s Hs. apply Forall_forall. intros c Hc. apply forallb_forall with (x := c) in Hs; [lia|].
    by apply list_elem_of_In. }
  repeat constructor; try (by apply Ht); try (by apply (bool_decide_eq_true_1 (_ ∉ _))); done.
Qed.

Lemma parseMsgF_print_witness :
  exists f, parseMsgF (load_packet (print_msg demo_msg)) = Ok (f, 3%nat) /\ frame_rep f (msg_entries demo_msg).
Proof.
  apply (parseMsgF_print demo_msg (replicate (1501 - length (print_msg demo_msg)) 0)
    (replicate 150 (mkElem None None None)) 0 demo_msg_wf); vm_compute; (reflexivity || lia).
Defined.

(** C27.  Rebuilding a parsed message into a buffer it fits gives the canonical
    text of the message without the skipped section; with nothing to skip,
    the text that was parsed. *)
Theorem parsedMsgToRaw_roundtrip (m : message) (rest : list Z) (pm : list parsedMsgElement)
    (cnt : nat) (size : Z) (skip : option cstr) :
  msg_wf m -> (length (print_msg m) <= 1500)%nat -> (length (msg_entries m) < 150)%nat ->
  length pm = 150%nat -> Z.of_nat (length (print_msg (kept skip m))) < size ->
  (parseMsgF (mkFrame (Z.of_nat (length (print_msg m))) (print_msg m ++ rest) cnt pm)
     ≫= fun r => parsedMsgToRawWithoutSectionF (fst r) size skip) = Ok (print_msg (kept skip m)).
Proof.
  intros. rewrite parse_print by done. rewrite bind_Ok. by apply raw_parsed_frame.
Qed.

Lemma parsedMsgToRaw_roundtrip_witness :
  (parseMsgF (mkFrame (Z.of_nat (length (print_msg demo_msg))) (print_msg demo_msg ++ [0]) 0
      (replicate 150 (mkElem None None None)))
     ≫= fun r => parsedMsgToRawWithoutSectionF (fst r) 1500 (Some (str "XAP-Header")))
  = Ok (str "request" ++ [10; 123; 10; 125; 10]).
Proof.
  apply (parsedMsgToRaw_roundtrip demo_msg [0] (replicate 150 (mkElem None None None)) 0 1500
    (Some (str "XAP-Header")) demo_msg_wf); vm_compute; (reflexivity || lia).
Defined.

(** [parsedMsgToRawWithoutSectionF] passes the full buffer size to every
    [snprintf]: a packet of 1499 bytes written compactly expands past the 1507
    bytes the iServer has for it. *)
Theorem parsedMsgToRaw_overflow :
  let packet := concat (replicate 100 (str "a{b=" ++ [10; 125])) ++
                str "c{d=" ++ replicate 890 120 ++ [10; 125] in
  (length packet <= 1499)%nat /\
  (parseMsgF (load_packet packet) ≫= fun r => parsedMsgToRawF (fst r) 1507) = Undef OutOfBounds.
Proof. split; [vm_compute; lia | vm_compute; reflexivity]. Qed.
