(* ===== verification/Filter.v ===== *)
(** * Message filters (xaplib2/filter.c)

    Address patterns with the wildcards ['*'] and ['>'], filter chains, the list
    of filter callbacks and their dispatch on the current frame.  The theorems
    give the field-wise meaning of a pattern, show that a chain matches exactly
    when each of its filters does, that deleting by user data removes exactly
    the callbacks of that user, and that a dispatch runs exactly the callbacks
    whose filters match the message, even though the callbacks may lower-case
    the shared frame while the dispatch goes on. *)

From S2P Require Import Prelude UtList Frame.

(** ** Filters *)

Record xAPFilter := mkFilter { f_section : cstr; f_key : cstr; f_value : cstr }.

(** Filters are prepended to the chain. *)
Definition xapAddFilter (f : list xAPFilter) (sec k v : cstr) : list xAPFilter :=
  mkFilter sec k v :: f.

Definition not_colon (c : Z) : bool := negb (c =? 58).
Definition not_sep (c : Z) : bool := negb ((c =? 46) || (c =? 58)).

(** The wildcard loop of [xapFilterAddrSubaddress]; every iteration consumes a
    character of the pattern, so the fuel is its length. *)
Fixpoint wild_loop (fuel : nat) (filterAddr addr : cstr) : bool :=
  match fuel, filterAddr, addr with
  | S n, f :: fr, a :: ar =>
      if f =? 62 then wild_loop n (tail fr) (tail (skip_while not_colon addr))
      else if f =? 42 then wild_loop n (tail fr) (tail (skip_while not_sep addr))
      else if tolower f =? tolower a then wild_loop n fr ar
      else false
  | _, [], [] => true
  | _, _, _ => false
  end.

(** [None] is a NULL pattern. *)
Definition xapFilterAddrSubaddress (filterAddr : option cstr) (addr : cstr) : bool :=
  match filterAddr with
  | None | Some [] => true
  | Some fa =>
      match strchr fa 42, strchr fa 62 with
      | None, None => strcasecmp0 fa addr
      | _, _ => wild_loop (length fa) fa addr
      end
  end.

(** The body of [xapCompareFilters] for a filter whose key has the value [v]. *)
Definition header_addr_key (k : cstr) : bool :=
  strcasecmp0 (str "target") k || strcasecmp0 (str "source") k || strcasecmp0 (str "class") k.

Definition compare_value (f : xAPFilter) (v : cstr) : bool :=
  if strcasecmp0 (str "xap-header") (f_section f) && header_addr_key (f_key f) then
    if strcasecmp0 (str "target") (f_key f)
    then xapFilterAddrSubaddress (Some v) (f_value f)
    else xapFilterAddrSubaddress (Some (f_value f)) v
  else strcasecmp0 v (f_value f).

(** The loop runs while [f && match]. *)
Fixpoint compare_loop (fr : xAPFrame) (head : list xAPFilter) (match_ : bool) : out bool :=
  match head with
  | [] => Ok match_
  | f :: next =>
      if match_ then
        v ← xapGetValueF fr (f_section f) (Some (f_key f));
        if strcmp0 (f_value f) XAP_FILTER_ABSENT
        then compare_loop fr next (match v with None => true | Some _ => false end)
        else if strcmp0 (f_value f) XAP_FILTER_ANY
        then compare_loop fr next (match v with Some _ => true | None => false end)
        else match v with
             | None => Ok false
             | Some vs => compare_loop fr next (compare_value f vs)
             end
      else Ok match_
  end.

Definition xapCompareFilters (fr : xAPFrame) (head : list xAPFilter) : out bool :=
  compare_loop fr head true.

(** ** Filter callbacks *)

Section Callbacks.
(** The callback functions and the user data of the program. *)
Context {CB UD : Type} `{EqDecision UD}.

Record xAPFilterCallback := mkFilterCallback {
  fc_addr : addr;
  callback : CB;
  user_data : UD;
  fc_filter : list xAPFilter;
}.

#[global] Instance filter_node : Node xAPFilterCallback := fc_addr.

(** [p] is the block [malloc] returned. *)
Definition xapAddFilterAction (p : addr) (func : CB) (flt : list xAPFilter) (data : UD)
    (l : list xAPFilterCallback) : list xAPFilterCallback :=
  ll_prepend (mkFilterCallback p func data flt) l.

(** Unlinks and frees the callback and its filters, returns the user data. *)
Definition xapDelFilterAction (p : addr) (l : list xAPFilterCallback)
    : out (UD * list xAPFilterCallback) :=
  '(cb, _) ← of_opt UseAfterFree (ll_node p l);
  Ok (user_data cb, ll_delete p l).

(** A loop that deletes the callbacks a test selects, counting them. *)
Definition del_where_body (p : xAPFilterCallback -> bool) (cb : xAPFilterCallback)
    (w : list xAPFilterCallback * nat) : out (list xAPFilterCallback * nat) :=
  if p cb then
    '(_, l) ← xapDelFilterAction (fc_addr cb) (fst w);
    Ok (l, S (snd w))
  else Ok w.

(** Returns the number of callbacks deleted. *)
Definition xapDelFilterActionForUserData (ud : UD) (l : list xAPFilterCallback)
    : out (list xAPFilterCallback * nat) :=
  LL_FOREACH_SAFE fst (del_where_body (fun cb => bool_decide (user_data cb = ud))) (l, 0%nat).

(** [filterDispatch] over a program state [W] that holds the callback list and
    the current frame; [run] is the effect of a callback. *)
Section Dispatch.
Context {W : Type} (filterList : W -> list xAPFilterCallback) (gframe : W -> xAPFrame).
Context (run : CB -> UD -> W -> out W).

Definition dispatch_body (cb : xAPFilterCallback) (w : W) : out W :=
  m ← xapCompareFilters (gframe w) (fc_filter cb);
  if (m : bool) then run (callback cb) (user_data cb) w else Ok w.

Definition filterDispatch (w : W) : out W := LL_FOREACH_SAFE filterList dispatch_body w.

End Dispatch.
End Callbacks.
Arguments xAPFilterCallback : clear implicits.

(** * Properties *)

(** ** Patterns and letter case *)

Lemma tolower_punct c p : p < 65 -> (tolower c =? p) = (c =? p).
Proof.
  intros. unfold tolower. destruct (Z.leb_spec 65 c), (Z.leb_spec c 90); simpl;
    destruct (Z.eqb_spec c p); [destruct (Z.eqb_spec (c + 32) p)|destruct (Z.eqb_spec (c + 32) p)|..]; lia.
Qed.

Lemma lower_cons_inv s c r : lower s = c :: r -> exists c' r', s = c' :: r' /\ tolower c' = c /\ lower r' = r.
Proof. destruct s as [|c' r']; [done|]. simpl. intros [= <- <-]. eauto. Qed.

Lemma skip_while_lower p s :
  (forall c, p (tolower c) = p c) -> lower (skip_while p s) = skip_while p (lower s).
Proof.
  intros Hp. induction s as [|c s IH]; simpl; [done|]. rewrite Hp.
  by destruct (p c).
Qed.

Lemma tail_lower s : lower (tail s) = tail (lower s).
Proof. by destruct s. Qed.

Lemma wild_loop_lower n fa ad : wild_loop n fa ad = wild_loop n (lower fa) (lower ad).
Proof.
  revert fa ad. induction n as [|n IH]; intros fa ad; [by destruct fa, ad|].
  destruct fa as [|f fr], ad as [|a ar]; try done. cbn [wild_loop lower map].
  fold (lower fr) (lower ar). change (tolower a :: lower ar) with (lower (a :: ar)).
  rewrite !tolower_idem, (tolower_punct f 62), (tolower_punct f 42) by lia.
  destruct (f =? 62); [|destruct (f =? 42)]; [| |by rewrite IH].
  - rewrite IH, !tail_lower, (skip_while_lower not_colon); [done|].
    intros c. unfold not_colon. by rewrite tolower_punct by lia.
  - rewrite IH, !tail_lower, (skip_while_lower not_sep); [done|].
    intros c. unfold not_sep. by rewrite !tolower_punct by lia.
Qed.

Lemma strchr_lower s p : p < 65 -> is_Some (strchr s p) <-> is_Some (strchr (lower s) p).
Proof.
  intros Hp. induction s as [|c s IH]; simpl; [done|].
  rewrite (tolower_punct c p) by done. destruct (c =? p); [split; eauto|].
  rewrite !fmap_is_Some. done.
Qed.

(** A pattern matches independently of letter case. *)
Lemma sub_lower fa ad :
  xapFilterAddrSubaddress (Some fa) ad = xapFilterAddrSubaddress (Some (lower fa)) (lower ad).
Proof.
  unfold xapFilterAddrSubaddress. destruct fa as [|f fr] eqn:Hfa; [done|]. rewrite <- Hfa.
  destruct (lower fa) as [|f' fr'] eqn:Hl; [by subst|]. rewrite <- Hl.
  pose proof (strchr_lower fa 42 ltac:(lia)) as H1. pose proof (strchr_lower fa 62 ltac:(lia)) as H2.
  assert (Hw : wild_loop (length fa) fa ad = wild_loop (length (lower fa)) (lower fa) (lower ad)).
  { unfold lower at 1. rewrite length_map. apply wild_loop_lower. }
  assert (Hs : strcasecmp0 fa ad = strcasecmp0 (lower fa) (lower ad)).
  { unfold strcasecmp0. apply bool_decide_ext. fold (lower fa) (lower ad).
    fold (lower (lower fa)) (lower (lower ad)). by rewrite !lower_idem. }
  destruct (strchr fa 42), (strchr (lower fa) 42), (strchr fa 62), (strchr (lower fa) 62);
    try done; exfalso;
    first [apply (is_Some_None (A := nat)), H1; by eauto | apply (is_Some_None (A := nat)), H2; by eauto].
Qed.

Lemma sub_ci fa fa' ad ad' :
  lower fa = lower fa' -> lower ad = lower ad' ->
  xapFilterAddrSubaddress (Some fa) ad = xapFilterAddrSubaddress (Some fa') ad'.
Proof. intros H1 H2. rewrite (sub_lower fa), (sub_lower fa'). by rewrite H1, H2. Qed.

(** ** Filter chains on the entries of a message *)

(** What one filter asks of a message. *)
Definition filter_match (es : list entry) (f : xAPFilter) : bool :=
  let v := entries_lookup es (f_section f) (Some (f_key f)) in
  if strcmp0 (f_value f) XAP_FILTER_ABSENT then match v with None => true | Some _ => false end
  else if strcmp0 (f_value f) XAP_FILTER_ANY then match v with Some _ => true | None => false end
  else match v with None => false | Some vs => compare_value f vs end.

Definition chain_match (es : list entry) (head : list xAPFilter) : bool :=
  forallb (filter_match es) head.

(** The same as a specification: the ways a filter can hold of a message. *)
Definition is_header_key (f : xAPFilter) (keys : list cstr) : Prop :=
  lower (f_section f) = str "xap-header" /\ lower (f_key f) ∈ keys.

Inductive filter_holds (es : list entry) (f : xAPFilter) : Prop :=
| fh_absent :
    f_value f = XAP_FILTER_ABSENT ->
    entries_lookup es (f_section f) (Some (f_key f)) = None -> filter_holds es f
| fh_any v :
    f_value f = XAP_FILTER_ANY ->
    entries_lookup es (f_section f) (Some (f_key f)) = Some v -> filter_holds es f
| fh_target v :
    f_value f <> XAP_FILTER_ABSENT -> f_value f <> XAP_FILTER_ANY ->
    entries_lookup es (f_section f) (Some (f_key f)) = Some v ->
    is_header_key f [str "target"] ->
    xapFilterAddrSubaddress (Some v) (f_value f) = true -> filter_holds es f
| fh_pattern v :
    f_value f <> XAP_FILTER_ABSENT -> f_value f <> XAP_FILTER_ANY ->
    entries_lookup es (f_section f) (Some (f_key f)) = Some v ->
    is_header_key f [str "source"; str "class"] ->
    xapFilterAddrSubaddress (Some (f_value f)) v = true -> filter_holds es f
| fh_equal v :
    f_value f <> XAP_FILTER_ABSENT -> f_value f <> XAP_FILTER_ANY ->
    entries_lookup es (f_section f) (Some (f_key f)) = Some v ->
    ~ is_header_key f [str "target"; str "source"; str "class"] ->
    lower v = lower (f_value f) -> filter_holds es f.

Lemma compare_loop_false fr head : compare_loop fr head false = Ok false.
Proof. by destruct head. Qed.

Lemma compare_rep fr es head :
  frame_rep fr es -> xapCompareFilters fr head = Ok (chain_match es head).
Proof.
  intros Hrep. unfold xapCompareFilters, chain_match. induction head as [|f head IH]; [done|].
  cbn [compare_loop forallb]. rewrite (get_value_rep _ _ _ _ Hrep), bind_Ok.
  unfold filter_match at 1. cbv zeta.
  destruct (entries_lookup es (f_section f) (Some (f_key f))) as [vs|];
    repeat (case_match; simpl; rewrite ?compare_loop_false; auto).
  destruct (compare_value f vs); simpl; rewrite ?compare_loop_false; auto.
Qed.

Lemma strcasecmp0_lit lit k : lower lit = lit -> strcasecmp0 lit k = true <-> lower k = lit.
Proof. intros Hl. unfold strcasecmp0. fold (lower lit) (lower k). rewrite bool_decide_eq_true, Hl. naive_solver. Qed.

(** The three kinds of keys exclude each other. *)
Lemma header_key_split f :
  is_header_key f [str "target"; str "source"; str "class"] <->
  is_header_key f [str "target"] \/ is_header_key f [str "source"; str "class"].
Proof. unfold is_header_key. rewrite !elem_of_cons, elem_of_nil. tauto. Qed.

Lemma header_key_disjoint f :
  is_header_key f [str "target"] -> is_header_key f [str "source"; str "class"] -> False.
Proof.
  unfold is_header_key. intros [_ ->%list_elem_of_singleton] [_ H].
  by apply (bool_decide_eq_false_1 (str "target" ∈ [str "source"; str "class"])) in H.
Qed.

Lemma compare_value_cases f v :
  is_header_key f [str "target"] /\ compare_value f v = xapFilterAddrSubaddress (Some v) (f_value f) \/
  is_header_key f [str "source"; str "class"] /\
    compare_value f v = xapFilterAddrSubaddress (Some (f_value f)) v \/
  ~ is_header_key f [str "target"; str "source"; str "class"] /\
    compare_value f v = bool_decide (lower v = lower (f_value f)).
Proof.
  unfold compare_value, is_header_key, header_addr_key.
  pose proof (strcasecmp0_lit (str "xap-header") (f_section f) eq_refl) as Hs.
  pose proof (strcasecmp0_lit (str "target") (f_key f) eq_refl) as Ht.
  pose proof (strcasecmp0_lit (str "source") (f_key f) eq_refl) as Hr.
  pose proof (strcasecmp0_lit (str "class") (f_key f) eq_refl) as Hc.
  rewrite !elem_of_cons, elem_of_nil.
  destruct (strcasecmp0 (str "xap-header") _), (strcasecmp0 (str "target") _),
    (strcasecmp0 (str "source") _), (strcasecmp0 (str "class") _); cbn [andb orb];
    generalize (xapFilterAddrSubaddress (Some v) (f_value f)), (xapFilterAddrSubaddress (Some (f_value f)) v);
    unfold strcasecmp0; fold (lower v) (lower (f_value f)); intuition congruence.
Qed.

Lemma filter_match_holds es f : filter_match es f = true <-> filter_holds es f.
Proof.
  unfold filter_match, strcmp0. cbv zeta.
  destruct (bool_decide_reflect (f_value f = XAP_FILTER_ABSENT)) as [Ha|Ha];
    [|destruct (bool_decide_reflect (f_value f = XAP_FILTER_ANY)) as [Hy|Hy]].
  - assert (XAP_FILTER_ABSENT <> XAP_FILTER_ANY) by (by apply (bool_decide_eq_false_1 _)).
    destruct (entries_lookup es _ _) eqn:E; split; try done; [inversion 1; congruence|by intros; apply fh_absent].
  - destruct (entries_lookup es _ _) as [v|] eqn:E; split; try done;
      [by intros; apply (fh_any _ _ v) | inversion 1; congruence].
  - destruct (entries_lookup es _ _) as [v|] eqn:E; [|split; [done|inversion 1; congruence]].
    pose proof (header_key_split f) as Hsp. pose proof (header_key_disjoint f) as Hdj.
    destruct (compare_value_cases f v) as [[Hk ->]|[[Hk ->]|[Hk ->]]]; rewrite ?bool_decide_eq_true.
    + split; [by apply fh_target|]. inversion 1; simplify_eq; intuition congruence.
    + split; [by apply fh_pattern|]. inversion 1; simplify_eq; intuition congruence.
    + split; [by apply fh_equal|]. inversion 1; simplify_eq; intuition congruence.
Qed.

Lemma chain_match_holds es head : chain_match es head = true <-> Forall (filter_holds es) head.
Proof.
  unfold chain_match. rewrite forallb_forall, List.Forall_forall.
  by setoid_rewrite filter_match_holds.
Qed.

(** Lookups agree on entries that differ in letter case only. *)
Lemma entry_matches_ci sec k a b : entry_ci a b -> entry_matches sec k a = entry_matches sec k b.
Proof.
  intros [Hs Hkv]. unfold entry_matches.
  assert (strcasecmp0 sec (en_section a) = strcasecmp0 sec (en_section b)) as ->.
  { unfold strcasecmp0. fold (lower (en_section a)) (lower (en_section b)). by rewrite Hs. }
  f_equal. destruct k as [k|], (en_kv a) as [[??]|], (en_kv b) as [[??]|]; try done.
  destruct Hkv as [Hk _]. unfold strcasecmp0. unfold lower in Hk. by rewrite Hk.
Qed.

Definition value_ci (a b : option cstr) : Prop :=
  match a, b with Some x, Some y => lower x = lower y | None, None => True | _, _ => False end.

Lemma entries_lookup_ci es es' sec k :
  Forall2 entry_ci es es' -> value_ci (entries_lookup es sec k) (entries_lookup es' sec k).
Proof.
  unfold entries_lookup. induction 1 as [|a b es es' Hab _ IH]; [done|]. cbn [List.find].
  rewrite (entry_matches_ci sec k a b Hab). destruct (entry_matches sec k b); [|done].
  destruct Hab as [_ Hkv]. destruct (en_kv a) as [[??]|], (en_kv b) as [[??]|]; try done.
  by destruct Hkv.
Qed.

Lemma compare_value_ci f v v' : lower v = lower v' -> compare_value f v = compare_value f v'.
Proof.
  intros Hv. unfold compare_value.
  rewrite (sub_ci v v' (f_value f) (f_value f)), (sub_ci (f_value f) (f_value f) v v') by done.
  assert (strcasecmp0 v (f_value f) = strcasecmp0 v' (f_value f)) as ->; [|done].
  unfold strcasecmp0. unfold lower in Hv. by rewrite Hv.
Qed.

Lemma chain_match_ci es es' head :
  Forall2 entry_ci es es' -> chain_match es head = chain_match es' head.
Proof.
  intros Hci. unfold chain_match. induction head as [|f head IH]; [done|]. cbn [forallb].
  rewrite IH. f_equal. unfold filter_match. cbv zeta.
  pose proof (entries_lookup_ci _ _ (f_section f) (Some (f_key f)) Hci) as Hv.
  destruct (entries_lookup es _ _) as [v|], (entries_lookup es' _ _) as [v'|]; try done.
  simpl in Hv. by rewrite (compare_value_ci f v v' Hv).
Qed.

(** ** Deleting callbacks and dispatching to them *)
Section CallbackProps.
Context {CB UD : Type} `{EqDecision UD}.
Abbreviation cbs := (list (xAPFilterCallback CB UD)).

Lemma del_body_eq p (pre : cbs) x l n :
  ll_wf (pre ++ x :: l) ->
  del_where_body p x (pre ++ x :: l, n)
  = Ok (if p x then (pre ++ l, S n) else (pre ++ x :: l, n)).
Proof.
  intros Hwf%ll_wf_before. unfold del_where_body. destruct (p x); [|done].
  unfold xapDelFilterAction. cbn [fst snd].
  change (fc_addr x) with (node_addr x). rewrite ll_node_app by done. cbn [of_opt].
  rewrite !bind_Ok. by rewrite ll_delete_app.
Qed.

Lemma ll_wf_remove (pre : cbs) x l : ll_wf (pre ++ x :: l) -> ll_wf (pre ++ l).
Proof.
  intros Hwf. pose proof (ll_wf_before _ _ _ Hwf). apply (ll_delete_wf (node_addr x)) in Hwf.
  by rewrite ll_delete_app in Hwf.
Qed.

Lemma del_body_keeps p : keeps_rest fst (@del_where_body CB UD p).
Proof.
  intros x [l0 n] w' r pre Hg Hwf. simpl in Hg, Hwf. subst l0. rewrite del_body_eq by done.
  intros [= <-]. destruct (p x); simpl.
  - split; [by eapply ll_wf_remove | eauto].
  - split; [done|]. exists (pre ++ [x]). apply app_cons_assoc.
Qed.

Lemma del_iter p (l pre : cbs) n :
  ll_wf (pre ++ l) ->
  iter_all (del_where_body p) l (pre ++ l, n)
  = Ok (pre ++ List.filter (fun cb => negb (p cb)) l, (n + length (List.filter p l))%nat).
Proof.
  revert pre n. induction l as [|x l IH]; intros pre n Hwf; cbn [iter_all List.filter].
  - by rewrite Nat.add_0_r.
  - rewrite del_body_eq, bind_Ok by done. destruct (p x); cbn [negb].
    + rewrite IH by (by eapply ll_wf_remove). simpl length. do 2 f_equal. lia.
    + rewrite (app_cons_assoc pre x l), IH by (by rewrite <- app_cons_assoc).
      by rewrite <- app_assoc.
Qed.

(** Deleting while iterating is filtering. *)
Lemma del_where p (l : cbs) :
  ll_wf l ->
  LL_FOREACH_SAFE fst (del_where_body p) (l, 0%nat)
  = Ok (List.filter (fun cb => negb (p cb)) l, length (List.filter p l)).
Proof.
  intros Hwf. rewrite LL_FOREACH_SAFE_iter by (done || apply del_body_keeps). exact (del_iter p l [] 0 Hwf).
Qed.

(** The callbacks may prepend to the list, delete themselves and change letter
    case in the frame, and nothing else of either. *)
Section DispatchProps.
Context {W : Type} (filterList : W -> cbs) (gframe : W -> xAPFrame) (run : CB -> UD -> W -> out W).

Definition callbacks_keep_list : Prop := forall x w w' pre r,
  filterList w = pre ++ x :: r -> ll_wf (filterList w) -> run (callback x) (user_data x) w = Ok w' ->
  ll_wf (filterList w') /\ exists pre', filterList w' = pre' ++ r.

Definition callbacks_keep_frame : Prop := forall cb ud w w' es,
  frame_rep (gframe w) es -> run cb ud w = Ok w' ->
  exists es', frame_rep (gframe w') es' /\ Forall2 entry_ci es es'.

(** Run the callbacks of a list one after the other. *)
Fixpoint run_all (l : cbs) (w : W) : out W :=
  match l with
  | [] => Ok w
  | cb :: r => w ← run (callback cb) (user_data cb) w; run_all r w
  end.

Definition cb_match (es : list entry) (cb : xAPFilterCallback CB UD) : bool :=
  chain_match es (fc_filter cb).

Lemma dispatch_body_rep w es x :
  frame_rep (gframe w) es ->
  dispatch_body gframe run x w
  = if cb_match es x then run (callback x) (user_data x) w else Ok w.
Proof. intros Hrep. unfold dispatch_body. by rewrite (compare_rep _ _ _ Hrep). Qed.

Lemma dispatch_iter l w es fuel pre :
  callbacks_keep_list -> callbacks_keep_frame -> frame_rep (gframe w) es ->
  filterList w = pre ++ l -> ll_wf (filterList w) -> (length l <= fuel)%nat ->
  foreach_safe filterList (dispatch_body gframe run) fuel (ll_head l) w
  = run_all (List.filter (cb_match es) l) w.
Proof.
  intros Hkl Hkf. revert w es fuel pre. induction l as [|x l IH]; intros w es fuel pre Hrep Hg Hwf Hf.
  - by destruct fuel.
  - destruct fuel as [|f]; simpl in Hf; [lia|]. simpl.
    rewrite Hg, ll_node_app.
    2: { rewrite Hg in Hwf. by eapply ll_wf_before. }
    simpl. rewrite (dispatch_body_rep _ _ _ Hrep). destruct (cb_match es x) eqn:Hm; cbn [run_all].
    + destruct (run (callback x) (user_data x) w) as [w'| |] eqn:Hr; simpl; [|done|done].
      destruct (Hkl x w w' pre l Hg Hwf Hr) as (Hwf' & pre' & Hg').
      destruct (Hkf _ _ _ _ _ Hrep Hr) as (es' & Hrep' & Hci).
      rewrite (IH w' es' f pre') by (done || lia). f_equal. apply filter_ext.
      intros cb. symmetry. by apply chain_match_ci.
    + simpl. apply (IH w es f (pre ++ [x])); [done|by rewrite Hg, app_cons_assoc|done|lia].
Qed.

End DispatchProps.
End CallbackProps.

(** ** The field-wise meaning of a pattern *)

(** A field of a pattern: a literal, or a star. *)
Inductive pfield := Lit (s : cstr) | Star.

Definition is_sep (c : Z) : bool := (c =? 46) || (c =? 58).
Definition is_wild (c : Z) : bool := (c =? 42) || (c =? 62).

(** An address: its fields with the separators that follow them, and the last
    field; likewise a pattern. *)
Definition print_fields (l : list (cstr * Z)) (last : cstr) : cstr :=
  concat (map (fun p => fst p ++ [snd p]) l) ++ last.

Definition pfield_text (p : pfield) : cstr := match p with Lit s => s | Star => [42] end.
Definition print_pattern (l : list (pfield * Z)) (last : pfield) : cstr :=
  print_fields (map (fun p => (pfield_text (fst p), snd p)) l) (pfield_text last).

Definition field_match (p : pfield) (a : cstr) : bool :=
  match p with Lit s => strcasecmp0 s a | Star => true end.

(** Field by field; the separator after a star is not compared. *)
Fixpoint fields_match (pat : list (pfield * Z)) (plast : pfield) (ad : list (cstr * Z)) (alast : cstr) : bool :=
  match pat, ad with
  | [], [] => field_match plast alast
  | (p, ps) :: pr, (a, s) :: ar =>
      field_match p a && (match p with Star => true | Lit _ => ps =? s end) && fields_match pr plast ar alast
  | _, _ => false
  end.

Definition field_wf (s : cstr) : Prop := s <> [] /\ Forall (fun c => is_sep c = false) s.
Definition pfield_wf (p : pfield) : Prop :=
  match p with Lit s => field_wf s /\ Forall (fun c => is_wild c = false) s | Star => True end.
Definition addr_wf (l : list (cstr * Z)) (last : cstr) : Prop :=
  Forall (fun p => field_wf (fst p) /\ is_sep (snd p) = true) l /\ field_wf last.
Definition pattern_wf (l : list (pfield * Z)) (last : pfield) : Prop :=
  Forall (fun p => pfield_wf (fst p) /\ is_sep (snd p) = true) l /\ pfield_wf last.

(** The rest of an address or pattern starts with a separator. *)
Definition at_sep (l : cstr) : Prop := match l with [] => True | c :: _ => is_sep c = true end.

Lemma tolower_sep c d : is_sep c = true -> is_sep d = false -> (tolower c =? tolower d) = false.
Proof.
  unfold is_sep. intros Hc Hd. destruct (Z.eqb_spec (tolower c) (tolower d)) as [He|]; [|done].
  exfalso. assert (tolower c = c) as Hcc.
  { unfold tolower. destruct (Z.leb_spec 65 c), (Z.leb_spec c 90); simpl; try done. lia. }
  rewrite Hcc in He. pose proof (tolower_punct d c ltac:(lia)) as Hp.
  rewrite <- He, Z.eqb_refl in Hp. assert (d = c) by lia. subst. congruence.
Qed.

Lemma wild_loop_lit lit s n P A :
  Forall (fun c => is_sep c = false) lit -> Forall (fun c => is_wild c = false) lit ->
  Forall (fun c => is_sep c = false) s -> at_sep P -> at_sep A ->
  wild_loop (length lit + n) (lit ++ P) (s ++ A) = strcasecmp0 lit s && wild_loop n P A.
Proof.
  intros Hl Hw Hs HP HA. revert s Hs Hw. induction Hl as [|l lit Hl _ IH]; intros s Hs Hw.
  - destruct Hs as [|a s Ha _]; [done|]. cbn [length Nat.add app].
    assert (strcasecmp0 [] (a :: s) = false) as -> by (by apply bool_decide_eq_false_2).
    destruct n as [|n]; [by destruct P|]. destruct P as [|p P]; [done|]. cbn [wild_loop].
    rewrite (tolower_sep p a) by done. cbn in HP. unfold is_sep in HP.
    destruct (Z.eqb_spec p 62); [lia|]. destruct (Z.eqb_spec p 42); [lia|]. done.
  - apply Forall_cons in Hw as [Hwl Hw]. unfold is_wild in Hwl. apply orb_false_iff in Hwl as [H42 H62].
    cbn [length Nat.add app]. destruct Hs as [|a s Ha Hs].
    + assert (strcasecmp0 (l :: lit) [] = false) as -> by (by apply bool_decide_eq_false_2).
      destruct A as [|a A]; [done|]. cbn [app wild_loop]. rewrite H62, H42.
      by rewrite Z.eqb_sym, (tolower_sep a l) by done.
    + cbn [app wild_loop]. rewrite H62, H42.
      rewrite strcasecmp0_cons.
      destruct (tolower l =? tolower a); [|done]. by apply IH.
Qed.

Lemma wild_loop_fuel fa n m ad :
  (length fa <= n)%nat -> (length fa <= m)%nat -> wild_loop n fa ad = wild_loop m fa ad.
Proof.
  revert n m fa ad. induction n as [|n IH]; intros m fa ad Hn Hm.
  - destruct fa; simpl in Hn; [|lia]. by destruct m, ad.
  - destruct fa as [|f fr]; [by destruct m, ad|]. simpl in Hn, Hm. destruct m as [|m]; [lia|].
    destruct ad as [|a ar]; [done|]. cbn [wild_loop].
    assert (length (tail fr) <= length fr)%nat by (destruct fr; simpl; lia).
    by rewrite !(IH m) by lia.
Qed.

Lemma skip_while_app p s A :
  Forall (fun c => p c = true) s -> match A with [] => True | c :: _ => p c = false end ->
  skip_while p (s ++ A) = A.
Proof.
  induction 1 as [|c s Hc _ IH]; intros HA; cbn [app skip_while].
  - destruct A as [|c A]; [done|]. cbn [skip_while]. by rewrite HA.
  - rewrite Hc. auto.
Qed.

Lemma wild_loop_star s n P A :
  field_wf s -> at_sep A -> wild_loop (S n) (42 :: P) (s ++ A) = wild_loop n (tail P) (tail A).
Proof.
  intros [Hne Hs] HA. destruct s as [|c s]; [done|]. cbn [app wild_loop]. cbn [Z.eqb Pos.eqb].
  change (c :: s ++ A) with ((c :: s) ++ A). rewrite skip_while_app; [done| |].
  - eapply Forall_impl; [exact Hs|]. intros x Hx. unfold not_sep. unfold is_sep in Hx. by rewrite Hx.
  - destruct A as [|a A]; [done|]. unfold not_sep. unfold at_sep, is_sep in HA. by rewrite HA.
Qed.

(** One field and what follows it. *)
Lemma wild_loop_field p a n P A :
  pfield_wf p -> field_wf a -> at_sep P -> at_sep A -> (length P <= n)%nat ->
  wild_loop (length (pfield_text p) + n) (pfield_text p ++ P) (a ++ A)
  = field_match p a && match p with Lit _ => wild_loop n P A | Star => wild_loop n (tail P) (tail A) end.
Proof.
  intros Hp Ha HP HA Hn. destruct p as [l|]; simpl.
  - destruct Hp as [[_ Hl] Hw], Ha as [_ Ha]. by apply wild_loop_lit.
  - by apply wild_loop_star.
Qed.

Lemma print_fields_cons f s l last :
  print_fields ((f, s) :: l) last = f ++ s :: print_fields l last.
Proof. unfold print_fields. cbn. by rewrite <- !app_assoc. Qed.

Lemma print_fields_nonempty l last : field_wf last -> print_fields l last <> [].
Proof.
  intros [Hl _]. unfold print_fields. destruct last; [done|]. by destruct (concat _).
Qed.

Lemma print_pattern_cons p s l last :
  print_pattern ((p, s) :: l) last = pfield_text p ++ s :: print_pattern l last.
Proof. unfold print_pattern. cbn [map fst snd]. apply print_fields_cons. Qed.

Lemma print_pattern_nonempty l last : pfield_wf last -> print_pattern l last <> [].
Proof.
  intros Hl. unfold print_pattern, print_fields. destruct last as [s|].
  - destruct Hl as [[Hl _] _]. destruct s; [done|]. by destruct (concat _).
  - by destruct (concat _).
Qed.

Lemma wild_loop_sep n c P d A :
  is_sep c = true -> is_sep d = true -> wild_loop (S n) (c :: P) (d :: A) = (c =? d) && wild_loop n P A.
Proof.
  intros Hc Hd. cbn [wild_loop]. unfold is_sep in *.
  destruct (Z.eqb_spec c 62); [lia|]. destruct (Z.eqb_spec c 42); [lia|].
  assert (forall x, (x =? 46) || (x =? 58) = true -> tolower x = x) as Ht.
  { intros x Hx. unfold tolower. destruct (Z.leb_spec 65 x), (Z.leb_spec x 90); simpl; lia. }
  rewrite (Ht c Hc), (Ht d Hd). by destruct (c =? d).
Qed.

Lemma wild_loop_nil_r n fa : wild_loop n fa [] = match fa with [] => true | _ => false end.
Proof. by destruct n, fa. Qed.

Lemma wild_loop_nil_l n ad : wild_loop n [] ad = match ad with [] => true | _ => false end.
Proof. by destruct n, ad. Qed.

Lemma wild_loop_fields pat plast ad alast n :
  pattern_wf pat plast -> addr_wf ad alast ->
  (length (print_pattern pat plast) <= n)%nat ->
  wild_loop n (print_pattern pat plast) (print_fields ad alast) = fields_match pat plast ad alast.
Proof.
  intros [Hp Hpl] [Ha Hal]. revert ad Ha n. induction Hp as [|[p s] pat [Hp Hs] _ IH]; intros ad Ha n Hn.
  - change (print_pattern [] plast) with (pfield_text plast) in Hn |- *.
    rewrite (wild_loop_fuel _ _ (length (pfield_text plast) + 0)) by lia.
    rewrite <- (app_nil_r (pfield_text plast)) at 2.
    destruct Ha as [|[a t] ad [Ha Ht] Had].
    + unfold print_fields. simpl. rewrite <- (app_nil_r alast) at 1.
      rewrite wild_loop_field by done. by destruct plast; rewrite ?andb_true_r.
    + rewrite print_fields_cons, wild_loop_field by (done || simpl; lia).
      pose proof (print_fields_nonempty ad alast Hal). destruct (print_fields ad alast); [done|].
      destruct plast; simpl; by rewrite ?andb_false_r.
  - rewrite print_pattern_cons in Hn |- *. rewrite length_app in Hn. simpl in Hn, Hp, Hs.
    rewrite (wild_loop_fuel _ _ (length (pfield_text p) + S (length (print_pattern pat plast))))
      by (rewrite length_app; simpl; lia).
    destruct Ha as [|[a t] ad [Ha Ht] Had].
    + unfold print_fields. simpl. rewrite <- (app_nil_r alast) at 1.
      rewrite wild_loop_field by done. rewrite !wild_loop_nil_r.
      pose proof (print_pattern_nonempty pat plast Hpl). simpl.
      destruct (print_pattern pat plast); [done|]. by destruct p; rewrite ?andb_false_r.
    + rewrite print_fields_cons, wild_loop_field by done. simpl in Ha, Ht. cbn [tail fields_match].
      rewrite wild_loop_sep by done. destruct p; cbn [field_match]; rewrite !IH by (done || lia).
      * by rewrite andb_assoc.
      * done.
Qed.

(** A literal prefix, followed by anything. *)
Lemma wild_loop_prefix lit n P ad :
  Forall (fun c => is_wild c = false) lit ->
  wild_loop (length lit + n) (lit ++ P) ad
  = strcasecmp0 lit (take (length lit) ad) && wild_loop n P (drop (length lit) ad).
Proof.
  intros Hl. revert ad. induction Hl as [|l lit Hl _ IH]; intros ad; [by rewrite drop_0|].
  unfold is_wild in Hl. apply orb_false_iff in Hl as [H42 H62].
  cbn [length Nat.add app]. destruct ad as [|a ad].
  - assert (strcasecmp0 (l :: lit) (take (S (length lit)) []) = false) as ->; [|done].
    by apply bool_decide_eq_false_2.
  - cbn [wild_loop take drop]. rewrite H62, H42, IH.
    rewrite strcasecmp0_cons. by destruct (tolower l =? tolower a).
Qed.

Lemma strcasecmp0_take lit ad :
  strcasecmp0 lit (take (length lit) ad) && match drop (length lit) ad with [] => true | _ => false end
  = strcasecmp0 lit ad.
Proof.
  apply eq_true_iff_eq. rewrite andb_true_iff, !strcasecmp0_spec. split.
  - intros [H1 H2]. destruct (drop (length lit) ad) eqn:Hd; [|done].
    rewrite H1. f_equal. by rewrite <- (take_drop (length lit) ad) at 2; rewrite Hd, app_nil_r.
  - intros He. assert (Hlen : length lit = length ad).
    { apply (f_equal length) in He. unfold lower in He. by rewrite !length_map in He. }
    by rewrite Hlen, take_ge, drop_ge by done.
Qed.

Lemma no_wild_Forall fa : 42 ∉ fa -> 62 ∉ fa -> Forall (fun c => is_wild c = false) fa.
Proof.
  intros H1 H2. apply Forall_forall. intros c Hc. unfold is_wild.
  destruct (Z.eqb_spec c 42), (Z.eqb_spec c 62); subst; done.
Qed.

(** The wildcard loop subsumes the plain comparison. *)
Lemma sub_wild_loop fa ad :
  fa <> [] -> xapFilterAddrSubaddress (Some fa) ad = wild_loop (length fa) fa ad.
Proof.
  intros Hfa. unfold xapFilterAddrSubaddress. destruct fa as [|c fa0]; [done|].
  set (fa := c :: fa0). destruct (strchr fa 42) eqn:H1, (strchr fa 62) eqn:H2; try done.
  apply strchr_None in H1, H2.
  pose proof (wild_loop_prefix fa 0 [] ad (no_wild_Forall _ H1 H2)) as Hw.
  rewrite Nat.add_0_r, app_nil_r, wild_loop_nil_l, strcasecmp0_take in Hw. by rewrite Hw.
Qed.

(** What ['>'] leaves: nothing after the first colon. *)
Lemma tail_skip_colon l :
  l <> [] -> tail (skip_while not_colon l) = [] <-> 58 ∉ removelast l.
Proof.
  induction l as [|c [|d l] IH]; intros Hl; [done| |].
  - cbn. destruct (not_colon c); split; (done || set_solver).
  - specialize (IH ltac:(done)). cbn [skip_while removelast]. unfold not_colon at 1.
    destruct (Z.eqb_spec c 58) as [->|Hc]; cbn [negb].
    + split; [done|]. intros Hn. exfalso. apply Hn. left.
    + rewrite IH. cbn [removelast]. set_solver.
Qed.

Lemma prefix_ci lit ad :
  lower lit = lower (take (length lit) ad) /\ drop (length lit) ad <> [] <->
  exists p r, ad = p ++ r /\ lower p = lower lit /\ r = drop (length lit) ad /\ r <> [].
Proof.
  split.
  - intros [H1 H2]. exists (take (length lit) ad), (drop (length lit) ad). by rewrite take_drop.
  - intros (p & r & Had & Hp & Hr & Hne). subst r. split; [|done].
    assert (length p = length lit) as <-.
    { apply (f_equal length) in Hp. unfold lower in Hp. by rewrite !length_map in Hp. }
    by rewrite Had, take_app_length.
Qed.

(** * Claims *)

(** C31.  A pattern made of literal fields and stars matches an address exactly
    when both have the same number of fields, each literal field equals its
    counterpart up to letter case, and each separator equals its counterpart
    except the one after a star, which is not compared. *)
Theorem xapFilterAddrSubaddress_fields (pat : list (pfield * Z)) (plast : pfield)
    (ad : list (cstr * Z)) (alast : cstr) :
  pattern_wf pat plast -> addr_wf ad alast ->
  xapFilterAddrSubaddress (Some (print_pattern pat plast)) (print_fields ad alast)
  = fields_match pat plast ad alast.
Proof.
  intros Hp Ha. rewrite sub_wild_loop by (apply print_pattern_nonempty, Hp).
  by apply wild_loop_fields.
Qed.

(** A star in the middle: ["dbzoo.*.relay"] against ["dbzoo.livebox:relay"], whose
    separator differs, still matches. *)
Lemma xapFilterAddrSubaddress_fields_witness :
  xapFilterAddrSubaddress (Some (str "dbzoo.*.relay")) (str "DBZOO.livebox:Relay") = true.
Proof.
  change (xapFilterAddrSubaddress
    (Some (print_pattern [(Lit (str "dbzoo"), 46); (Star, 46)] (Lit (str "relay"))))
    (print_fields [(str "DBZOO", 46); (str "livebox", 58)] (str "Relay")) = true).
  rewrite xapFilterAddrSubaddress_fields; [reflexivity| |].
  - split; [|split; [split; [done|]|]]; repeat constructor; done.
  - split; [|split; [done|]]; repeat constructor; done.
Defined.

(** A literal prefix followed by ['>'] matches an address exactly when the
    address starts with the prefix, up to letter case, and goes on with at least
    one character and no colon before its last character. *)
Theorem xapFilterAddrSubaddress_rest (lit ad : cstr) :
  42 ∉ lit -> 62 ∉ lit ->
  xapFilterAddrSubaddress (Some (lit ++ [62])) ad = true <->
  exists p r, ad = p ++ r /\ lower p = lower lit /\ r <> [] /\ 58 ∉ removelast r.
Proof.
  intros H42 H62. rewrite sub_wild_loop by (by destruct lit).
  rewrite length_app. change (length [62]) with 1%nat. rewrite (wild_loop_prefix lit 1 [62] ad (no_wild_Forall _ H42 H62)).
  rewrite andb_true_iff, strcasecmp0_spec.
  assert (Hr : wild_loop 1 [62] (drop (length lit) ad) = true <->
    drop (length lit) ad <> [] /\ 58 ∉ removelast (drop (length lit) ad)).
  { generalize (drop (length lit) ad) as l. intros [|c l]; [naive_solver|].
    rewrite <- tail_skip_colon by done. cbn [wild_loop Z.eqb Pos.eqb tail].
    destruct (tail (skip_while not_colon (c :: l))); naive_solver. }
  rewrite Hr. split.
  - intros (H1 & H2 & H3). destruct (proj1 (prefix_ci lit ad) (conj H1 H2)) as (p & r & ? & ? & -> & ?).
    eauto 10.
  - intros (p & r & Had & Hp & Hne & Hc).
    assert (drop (length lit) ad = r) as Hd.
    { apply (f_equal length) in Hp. unfold lower in Hp. rewrite !length_map in Hp.
      by rewrite Had, drop_app_length'. }
    rewrite Hd. split; [|done]. apply (prefix_ci lit ad). exists p, r. by rewrite Hd.
Qed.

Lemma xapFilterAddrSubaddress_rest_witness :
  xapFilterAddrSubaddress (Some (str "dbzoo.livebox.>")) (str "dbzoo.LIVEBOX.relay.1") = true.
Proof.
  apply (xapFilterAddrSubaddress_rest (str "dbzoo.livebox.") (str "dbzoo.LIVEBOX.relay.1")).
  - apply (bool_decide_eq_true_1 _); reflexivity.
  - apply (bool_decide_eq_true_1 _); reflexivity.
  - exists (str "dbzoo.LIVEBOX."), (str "relay.1"). repeat split.
    + done.
    + apply (bool_decide_eq_true_1 _); reflexivity.
Defined.

(** C6.  On a frame that denotes the entries [es], [xapCompareFilters] answers,
    and it answers yes exactly when every filter of the chain holds of the
    message in the sense of [filter_holds]: the value ["XAP_FILTER_ABSENT"] asks
    that the key be absent, ["XAP_FILTER_ANY"] that it be present, the target of
    the header is itself the pattern the filter's value must match, the source
    and class of the header must match the filter's value as a pattern, and any
    other value must be equal up to letter case; moreover the answer does not
    depend on letter case in the message. *)
Theorem xapCompareFilters_spec (fr fr' : xAPFrame) (es es' : list entry) (head : list xAPFilter) :
  frame_rep fr es -> frame_rep fr' es' -> Forall2 entry_ci es es' ->
  exists b, xapCompareFilters fr head = Ok b /\ xapCompareFilters fr' head = Ok b /\
            (b = true <-> Forall (filter_holds es) head).
Proof.
  intros H H' Hci. exists (chain_match es head). rewrite (compare_rep _ _ _ H), (compare_rep _ _ _ H').
  repeat split; [by rewrite (chain_match_ci _ _ _ Hci) | |]; apply chain_match_holds.
Qed.

Lemma xapCompareFilters_spec_witness :
  exists b, xapCompareFilters demo_frame1
    (xapAddFilter (xapAddFilter [] (str "H") (str "K") (str "v")) (str "h") (str "x") XAP_FILTER_ABSENT)
  = Ok b /\ b = true.
Proof.
  edestruct (xapCompareFilters_spec demo_frame1 demo_frame1
    [mkEntry (str "h") (Some (str "k", str "V"))] _
    (xapAddFilter (xapAddFilter [] (str "H") (str "K") (str "v")) (str "h") (str "x") XAP_FILTER_ABSENT)
    demo_frame1_rep demo_frame1_rep) as (b & Hb & _ & Hiff).
  { by repeat constructor. }
  exists b. split; [exact Hb|]. apply Hiff. constructor; [|constructor; [|constructor]].
  - by apply fh_absent.
  - apply (fh_equal _ _ (str "V")); [done | done | done | | done]. intros [H _].
    by apply (bool_decide_eq_false_1 _) in H.
Defined.

(** [xapDelFilterActionForUserData] removes from the list of callbacks,
    while iterating over it, exactly those registered with the user data, keeps
    the order of the others and returns how many it removed. *)
Theorem xapDelFilterActionForUserData_spec {CB UD : Type} `{EqDecision UD} (ud : UD)
    (l : list (xAPFilterCallback CB UD)) :
  ll_wf l ->
  xapDelFilterActionForUserData ud l
  = Ok (List.filter (fun cb => negb (bool_decide (user_data cb = ud))) l,
        length (List.filter (fun cb => bool_decide (user_data cb = ud)) l)).
Proof. intros Hwf. by apply del_where. Qed.

Definition filter_demo_cbs : list (xAPFilterCallback bool nat) :=
  xapAddFilterAction 3 true [mkFilter (str "h") (str "k") (str "v")] 7%nat
    (xapAddFilterAction 2 false [mkFilter (str "h") (str "k") (str "w")] 8%nat
      (xapAddFilterAction 1 true [] 7%nat [])).

Lemma filter_demo_wf : ll_wf filter_demo_cbs.
Proof. by apply (bool_decide_eq_true_1 (NoDup _)). Qed.

Lemma xapDelFilterActionForUserData_spec_witness :
  (p ← xapDelFilterActionForUserData 7%nat filter_demo_cbs; Ok (length (fst p), snd p)) = Ok (1%nat, 2%nat).
Proof.
  rewrite (xapDelFilterActionForUserData_spec 7%nat filter_demo_cbs filter_demo_wf). reflexivity.
Defined.

(** C8.  When the callbacks change the current frame in letter case only and the
    callback list by prepending or deleting themselves only, [filterDispatch]
    runs exactly the callbacks whose filters match the message as it was
    received, once each and in list order. *)
Theorem filterDispatch_spec {CB UD W : Type} (filterList : W -> list (xAPFilterCallback CB UD))
    (gframe : W -> xAPFrame) (run : CB -> UD -> W -> out W) (w : W) (es : list entry) :
  callbacks_keep_list filterList run -> callbacks_keep_frame gframe run ->
  frame_rep (gframe w) es -> ll_wf (filterList w) ->
  filterDispatch filterList gframe run w
  = run_all run (List.filter (cb_match es) (filterList w)) w.
Proof. intros. by apply (dispatch_iter _ _ _ _ _ _ _ []). Qed.

(** A program whose callbacks lower-case the frame and log their user data. *)
Record dispatch_demo := mkDemo {
  demo_cbs : list (xAPFilterCallback bool nat); demo_frame : xAPFrame; demo_log : list nat }.

Definition demo_run (low : bool) (ud : nat) (w : dispatch_demo) : out dispatch_demo :=
  f ← (if low then xapLowerMessageF (demo_frame w) else Ok (demo_frame w));
  Ok (mkDemo (demo_cbs w) f (ud :: demo_log w)).

Lemma entry_ci_refl es : Forall2 entry_ci es es.
Proof.
  apply Forall_Forall2_diag, Forall_forall. intros e _. split; [done|].
  by destruct (en_kv e) as [[]|].
Qed.

Lemma filterDispatch_spec_witness :
  (w ← filterDispatch demo_cbs demo_frame demo_run (mkDemo filter_demo_cbs demo_frame1 []);
   Ok (demo_log w)) = Ok [7%nat; 7%nat].
Proof.
  rewrite (filterDispatch_spec demo_cbs demo_frame demo_run _ [mkEntry (str "h") (Some (str "k", str "V"))]).
  - reflexivity.
  - intros x w w' pre r Hg Hwf Hr. inv_bind Hr. injection Hr as <-. split; [done|].
    exists (pre ++ [x]). simpl. by rewrite Hg, app_cons_assoc.
  - intros cb ud w w' es Hrep Hr. inv_bind Hr. injection Hr as <-. simpl.
    destruct cb; [by eapply lower_message_ci|]. injection Ha as <-. exists es.
    split; [done|apply entry_ci_refl].
  - apply demo_frame1_rep.
  - apply filter_demo_wf.
Defined.
