(* ===== verification/Timeout.v ===== *)
(** * Timeouts (xaplib2/timeout.c)

    The list of timeout callbacks and [timeoutDispatch], which the main loop
    calls at least once a second.  The clock is an argument ([now] is the value
    of [time(NULL)]).  The theorems show which callbacks a dispatch runs, that a
    periodic callback is never run early nor missed, and what happens when a
    callback deletes its own timeout. *)

From S2P Require Import Prelude UtList.

Section Timeouts.
(** The callback functions and user data of the program. *)
Context {CB UD : Type} `{EqDecision CB, EqDecision UD}.

Record xAPTimeoutCallback := mkTimeout {
  tc_addr : addr;
  tc_callback : CB;
  tc_user_data : UD;
  interval : Z;
  ttl : Z;
}.

#[global] Instance timeout_node : Node xAPTimeoutCallback := tc_addr.

Definition set_ttl (t : Z) (cb : xAPTimeoutCallback) : xAPTimeoutCallback :=
  mkTimeout (tc_addr cb) (tc_callback cb) (tc_user_data cb) (interval cb) t.

(** [p] is the block [malloc] returned. *)
Definition xapAddTimeoutAction (p : addr) (func : CB) (ival : Z) (data : UD)
    (l : list xAPTimeoutCallback) : out (list xAPTimeoutCallback) :=
  if ival <? 1 then Die else Ok (ll_prepend (mkTimeout p func data ival 0) l).

Definition xapTimeoutReset (now : Z) (p : addr) (l : list xAPTimeoutCallback)
    : out (list xAPTimeoutCallback) :=
  '(cb, _) ← of_opt UseAfterFree (ll_node p l);
  t ← add_int now (interval cb);
  Ok (ll_update p (set_ttl t) l).

(** The argument may be NULL. *)
Definition xapTimeoutExpire (p : ptr) (l : list xAPTimeoutCallback) : out (list xAPTimeoutCallback) :=
  match p with
  | None => Undef NullDeref
  | Some a => _ ← of_opt UseAfterFree (ll_node a l); Ok (ll_update a (set_ttl 0) l)
  end.

Definition xapDelTimeoutAction (p : addr) (l : list xAPTimeoutCallback)
    : out (UD * list xAPTimeoutCallback) :=
  '(cb, _) ← of_opt UseAfterFree (ll_node p l);
  Ok (tc_user_data cb, ll_delete p l).

Definition xapFindTimeoutByFunc (func : CB) (l : list xAPTimeoutCallback) : option xAPTimeoutCallback :=
  ll_search (fun e => bool_decide (tc_callback e = func)) l.

Definition xapFindTimeoutByUserData (ud : UD) (l : list xAPTimeoutCallback) : option xAPTimeoutCallback :=
  ll_search (fun e => bool_decide (tc_user_data e = ud)) l.

(** The iteration returns from the function at the first match. *)
Fixpoint del_by_func_loop (func : CB) (rest l : list xAPTimeoutCallback)
    : out (option UD * list xAPTimeoutCallback) :=
  match rest with
  | [] => Ok (None, l)
  | e :: r =>
      if bool_decide (tc_callback e = func) then
        '(ud, l') ← xapDelTimeoutAction (tc_addr e) l;
        Ok (Some ud, l')
      else del_by_func_loop func r l
  end.

Definition xapDelTimeoutActionByFunc (func : CB) (l : list xAPTimeoutCallback)
    : out (option UD * list xAPTimeoutCallback) :=
  del_by_func_loop func l l.

(** ** Dispatch over a program state [W] that holds the list *)
Section Dispatch.
Context {W : Type} (timeoutList : W -> list xAPTimeoutCallback)
  (set_timeoutList : list xAPTimeoutCallback -> W -> W).
Context (run : CB -> Z -> UD -> W -> out W).

(** [cb->ttl = now + cb->interval; cb->callback(cb->interval, cb->user_data);] *)
Definition fire (now : Z) (cb : xAPTimeoutCallback) (w : W) : out W :=
  t ← add_int now (interval cb);
  run (tc_callback cb) (interval cb) (tc_user_data cb)
    (set_timeoutList (ll_update (tc_addr cb) (set_ttl t) (timeoutList w)) w).

Definition timeout_body (now : Z) (cb : xAPTimeoutCallback) (w : W) : out W :=
  if ttl cb <=? now then fire now cb w else Ok w.

Definition timeoutDispatch (now : Z) (w : W) : out W := LL_FOREACH timeoutList (timeout_body now) w.

End Dispatch.
End Timeouts.
Arguments xAPTimeoutCallback : clear implicits.

(** * Properties *)
Section Props.
Context {CB UD : Type} `{EqDecision CB, EqDecision UD}.
Abbreviation tcs := (list (xAPTimeoutCallback CB UD)).

Definition due (now : Z) (cb : xAPTimeoutCallback CB UD) : bool := ttl cb <=? now.

(** What a dispatch does to a timeout whose callback leaves the list alone. *)
Definition touch (now : Z) (cb : xAPTimeoutCallback CB UD) : xAPTimeoutCallback CB UD :=
  if due now cb then set_ttl (now + interval cb) cb else cb.

Lemma touch_addr now cb : tc_addr (touch now cb) = tc_addr cb.
Proof. unfold touch. by destruct (due now cb). Qed.

Lemma ll_update_notin a f (l : tcs) : a ∉ map node_addr l -> ll_update a f l = l.
Proof.
  unfold ll_update. induction l as [|x l IH]; [done|]. cbn [map]. intros Ha.
  apply not_elem_of_cons in Ha as [Hx Ha]. rewrite bool_decide_eq_false_2 by congruence. f_equal. auto.
Qed.

Lemma ll_update_mid (pre : tcs) x f r :
  ll_wf (pre ++ x :: r) -> ll_update (node_addr x) f (pre ++ x :: r) = pre ++ f x :: r.
Proof.
  intros Hwf. pose proof (ll_wf_before _ _ _ Hwf) as Hpre. unfold ll_wf in Hwf.
  rewrite map_app in Hwf. apply NoDup_app in Hwf as (_ & _ & Hr). apply NoDup_cons in Hr as [Hr _].
  unfold ll_update. rewrite map_app. cbn [map]. rewrite bool_decide_eq_true_2 by done.
  fold (ll_update (node_addr x) f pre) (ll_update (node_addr x) f r). by rewrite !ll_update_notin.
Qed.

Section DispatchProps.
Context {W : Type} (timeoutList : W -> tcs) (set_timeoutList : tcs -> W -> W).
Context (run : CB -> Z -> UD -> W -> out W).

(** The field can be read back after a store, and the callbacks leave it alone. *)
Definition list_field : Prop := forall l w, timeoutList (set_timeoutList l w) = l.
Definition callbacks_inert : Prop := forall cb i ud w w',
  run cb i ud w = Ok w' -> timeoutList w' = timeoutList w.

Abbreviation fire := (fire timeoutList set_timeoutList run).
Abbreviation timeout_body := (timeout_body timeoutList set_timeoutList run).

Lemma fire_list now x w w' pre r :
  list_field -> callbacks_inert -> timeoutList w = pre ++ x :: r -> ll_wf (timeoutList w) ->
  int_range (now + interval x) -> fire now x w = Ok w' ->
  timeoutList w' = pre ++ set_ttl (now + interval x) x :: r.
Proof.
  intros Hf Hi Hg Hwf Hr. unfold Timeout.fire. rewrite add_int_Ok, bind_Ok by done.
  intros Hrun%Hi. rewrite Hrun, Hf, Hg. rewrite Hg in Hwf.
  change (tc_addr x) with (node_addr x). by apply ll_update_mid.
Qed.

Lemma body_list now x w w' pre r :
  list_field -> callbacks_inert -> timeoutList w = pre ++ x :: r -> ll_wf (timeoutList w) ->
  timeout_body now x w = Ok w' -> timeoutList w' = pre ++ touch now x :: r.
Proof.
  intros Hf Hi Hg Hwf. unfold Timeout.timeout_body, touch. fold (due now x).
  destruct (due now x); [|by intros [= <-]]. intros Hb. pose proof Hb as Hb'.
  unfold Timeout.fire in Hb'. inv_bind Hb'. unfold add_int in Ha.
  destruct ((INT_MIN <=? now + interval x) && (now + interval x <=? INT_MAX)) eqn:Hr; [|done].
  eapply fire_list; [done|done|done|done| |done]. unfold int_range. lia.
Qed.

Lemma body_keeps now : list_field -> callbacks_inert -> keeps_node timeoutList (timeout_body now).
Proof.
  intros Hf Hi x w w' r pre Hg Hwf Hb. pose proof (body_list _ _ _ _ _ _ Hf Hi Hg Hwf Hb) as Hl.
  assert (Ha : node_addr (touch now x) = node_addr x) by apply touch_addr.
  split; [|eauto]. unfold ll_wf in *. rewrite Hl. rewrite Hg in Hwf. rewrite map_app in *.
  cbn [map] in *. by rewrite Ha.
Qed.

Lemma iter_body now l w :
  iter_all (timeout_body now) l w = iter_all (fire now) (List.filter (due now) l) w.
Proof.
  revert w. induction l as [|x l IH]; intros w; [done|]. cbn [iter_all List.filter].
  change (timeout_body now x w) with (if due now x then fire now x w else Ok w).
  destruct (due now x); cbn [iter_all]; [|by rewrite bind_Ok].
  destruct (fire now x w); simpl; [|done..]. apply IH.
Qed.

Lemma iter_list now l w w' pre :
  list_field -> callbacks_inert -> timeoutList w = pre ++ l -> ll_wf (timeoutList w) ->
  iter_all (timeout_body now) l w = Ok w' -> timeoutList w' = pre ++ map (touch now) l.
Proof.
  intros Hf Hi. revert w pre. induction l as [|x l IH]; intros w pre Hg Hwf H; cbn [iter_all map] in *.
  - by injection H as <-.
  - inv_bind H. rename a into w1. pose proof (body_list _ _ _ _ _ _ Hf Hi Hg Hwf Ha) as Hl.
    destruct (body_keeps now Hf Hi x w w1 l pre Hg Hwf Ha) as [Hwf1 _].
    rewrite (IH w1 (pre ++ [touch now x])); [by rewrite <- app_assoc|by rewrite Hl, <- app_assoc|done|done].
Qed.

Lemma dispatch_eq now w :
  list_field -> callbacks_inert -> ll_wf (timeoutList w) ->
  timeoutDispatch timeoutList set_timeoutList run now w
  = iter_all (fire now) (List.filter (due now) (timeoutList w)) w.
Proof.
  intros Hf Hi Hwf. unfold timeoutDispatch. rewrite LL_FOREACH_iter by (done || by apply body_keeps).
  apply iter_body.
Qed.

End DispatchProps.
End Props.

(** ** Firing times of one timeout over a run of the main loop *)

(** The state of a timeout after dispatches at the times [ts], and the times at
    which it fired. *)
Fixpoint firings {CB UD} (cb : xAPTimeoutCallback CB UD) (ts : list Z) : list Z :=
  match ts with
  | [] => []
  | t :: r => if due t cb then t :: firings (touch t cb) r else firings (touch t cb) r
  end.

(** Consecutive firings are at least [i] seconds apart. *)
Fixpoint spaced (i : Z) (l : list Z) : Prop :=
  match l with
  | a :: ((b :: _) as r) => a + i <= b /\ spaced i r
  | _ => True
  end.

Lemma firings_lower {CB UD} (cb : xAPTimeoutCallback CB UD) ts t :
  t ∈ firings cb ts -> 0 <= interval cb -> ttl cb <= t.
Proof.
  revert cb. induction ts as [|u ts IH]; intros cb Ht Hi; simpl in Ht; [by apply elem_of_nil in Ht|].
  unfold touch in Ht. destruct (due u cb) eqn:Hd.
  - unfold due in Hd. apply elem_of_cons in Ht as [->|Ht]; [lia|].
    apply IH in Ht; simpl in *; lia.
  - by apply IH.
Qed.

Lemma firings_spaced {CB UD} (cb : xAPTimeoutCallback CB UD) ts :
  0 <= interval cb -> spaced (interval cb) (firings cb ts).
Proof.
  revert cb. induction ts as [|u ts IH]; intros cb Hi; simpl; [done|].
  unfold touch. destruct (due u cb) eqn:Hd; [|by apply IH].
  specialize (IH (set_ttl (u + interval cb) cb) Hi).
  destruct (firings (set_ttl (u + interval cb) cb) ts) as [|b l] eqn:Hf; [done|].
  split; [|exact IH]. apply (firings_lower (set_ttl (u + interval cb) cb) ts b); [|done].
  rewrite Hf. left.
Qed.

Lemma firings_complete {CB UD} (cb : xAPTimeoutCallback CB UD) ts t :
  t ∈ ts -> t ∈ firings cb ts \/ t < ttl cb \/ exists u, u ∈ firings cb ts /\ t < u + interval cb.
Proof.
  revert cb. induction ts as [|u ts IH]; intros cb Ht; [by apply elem_of_nil in Ht|].
  simpl. unfold touch. destruct (due u cb) eqn:Hd; unfold due in Hd.
  - apply elem_of_cons in Ht as [->|Ht]; [left; left|].
    destruct (IH (set_ttl (u + interval cb) cb) Ht) as [H|[H|(v & Hv & H)]].
    + left. by right.
    + right; right. exists u. split; [left|]. exact H.
    + right; right. exists v. split; [by right|]. exact H.
  - apply elem_of_cons in Ht as [->|Ht]; [right; left; lia|]. by apply IH.
Qed.

(** *** The main loop with callbacks that log when they run *)
Section MainLoop.
Context {CB UD : Type} `{EqDecision UD}.
Abbreviation tcs := (list (xAPTimeoutCallback CB UD)).
Abbreviation loop_state := (tcs * list (Z * UD))%type.

Definition set_list (l : tcs) (w : loop_state) : loop_state := (l, snd w).
Definition log_at (t : Z) (_ : CB) (_ : Z) (ud : UD) (w : loop_state) : out loop_state :=
  Ok (fst w, snd w ++ [(t, ud)]).

(** Dispatches at the times [ts]. *)
Fixpoint dispatches (ts : list Z) (w : loop_state) : out loop_state :=
  match ts with
  | [] => Ok w
  | t :: r => w ← timeoutDispatch fst set_list (log_at t) t w; dispatches r w
  end.

(** The times at which the callback of [ud] ran. *)
Definition times_of (ud : UD) (log : list (Z * UD)) : list Z :=
  map fst (List.filter (fun p => bool_decide (snd p = ud)) log).

(** No time in the run is near the end of [time_t]. *)
Definition no_wrap (ts : list Z) (l : tcs) : Prop :=
  Forall (fun cb => Forall (fun t => int_range (t + interval cb)) ts) l.

Lemma fire_log t (l : tcs) (w : loop_state) :
  Forall (fun cb => int_range (t + interval cb)) l ->
  exists l', iter_all (fire fst set_list (log_at t) t) l w
             = Ok (l', snd w ++ map (fun cb => (t, tc_user_data cb)) l).
Proof.
  intros H. revert w. induction H as [|cb l Hr _ IH]; intros w; cbn [iter_all map].
  - exists (fst w). rewrite app_nil_r. by destruct w.
  - unfold fire at 2. rewrite add_int_Ok, bind_Ok by done. unfold log_at at 2. rewrite bind_Ok. cbn [fst snd set_list].
    destruct (IH (ll_update (tc_addr cb) (set_ttl (t + interval cb)) w.1, w.2 ++ [(t, tc_user_data cb)])) as [l' ->].
    exists l'. cbn [snd]. by rewrite <- app_assoc.
Qed.

Lemma dispatch_log t (w : loop_state) :
  ll_wf (fst w) -> Forall (fun cb => int_range (t + interval cb)) (fst w) ->
  timeoutDispatch fst set_list (log_at t) t w
  = Ok (map (touch t) (fst w), snd w ++ map (fun cb => (t, tc_user_data cb)) (List.filter (due t) (fst w))).
Proof.
  intros Hwf Hr.
  assert (Hf : list_field (W := loop_state) fst set_list) by done.
  assert (Hi : callbacks_inert (W := loop_state) fst (log_at t)) by (intros ? ? ? ? ? [= <-]; done).
  pose proof (dispatch_eq fst set_list (log_at t) t w Hf Hi Hwf) as Hd.
  destruct (fire_log t (List.filter (due t) (fst w)) w) as [l' Hl'].
  { rewrite Forall_forall in Hr |- *. intros cb Hcb. apply Hr.
    apply list_elem_of_In, List.filter_In in Hcb as [Hcb _]. by apply list_elem_of_In. }
  rewrite Hd, Hl'. do 2 f_equal. rewrite <- iter_body in Hl'.
  exact (iter_list _ _ _ t _ w _ [] Hf Hi eq_refl Hwf Hl').
Qed.

Lemma touch_interval t (cb : xAPTimeoutCallback CB UD) : interval (touch t cb) = interval cb.
Proof. unfold touch. by destruct (due t cb). Qed.

Lemma touch_user_data t (cb : xAPTimeoutCallback CB UD) : tc_user_data (touch t cb) = tc_user_data cb.
Proof. unfold touch. by destruct (due t cb). Qed.

Lemma map_touch_wf t (l : tcs) : ll_wf l -> ll_wf (map (touch t) l).
Proof.
  unfold ll_wf. intros Hwf. rewrite map_map. erewrite map_ext; [exact Hwf|]. intros x. apply touch_addr.
Qed.

Lemma times_of_app ud l1 l2 : times_of ud (l1 ++ l2) = times_of ud l1 ++ times_of ud l2.
Proof. unfold times_of. by rewrite List.filter_app, map_app. Qed.

Lemma times_of_others ud t (l : tcs) :
  Forall (fun cb => tc_user_data cb <> ud) l ->
  times_of ud (map (fun cb => (t, tc_user_data cb)) (List.filter (due t) l)) = [].
Proof.
  induction 1 as [|cb l Hu _ IH]; [done|]. cbn [List.filter]. destruct (due t cb); [|done].
  unfold times_of in *. cbn [map List.filter snd]. by rewrite bool_decide_eq_false_2.
Qed.

(** The runs of the only callback with [ud] are its firings. *)
Lemma dispatches_firings ts cb (l1 l2 : tcs) log :
  ll_wf (l1 ++ cb :: l2) -> no_wrap ts (l1 ++ cb :: l2) ->
  Forall (fun x => tc_user_data x <> tc_user_data cb) (l1 ++ l2) ->
  exists w, dispatches ts (l1 ++ cb :: l2, log) = Ok w /\
    times_of (tc_user_data cb) (snd w) = times_of (tc_user_data cb) log ++ firings cb ts.
Proof.
  revert cb l1 l2 log. induction ts as [|t ts IH]; intros cb l1 l2 log Hwf Hnw Hu; cbn [dispatches firings].
  - eexists. split; [done|]. by rewrite app_nil_r.
  - rewrite dispatch_log; [|done|].
    2: { eapply Forall_impl; [exact Hnw|]. intros x Hx. by apply Forall_cons in Hx as [? _]. }
    rewrite bind_Ok. cbn [fst snd]. rewrite map_app. cbn [map].
    apply Forall_app in Hu as [Hu1 Hu2].
    assert (Hmap : forall l : tcs, Forall (fun x => tc_user_data x <> tc_user_data cb) l ->
      Forall (fun x => tc_user_data x <> tc_user_data (touch t cb)) (map (touch t) l)).
    { intros l Hl. rewrite touch_user_data. apply Forall_map. eapply Forall_impl; [exact Hl|].
      intros x. by rewrite touch_user_data. }
    destruct (IH (touch t cb) (map (touch t) l1) (map (touch t) l2)
      (log ++ map (fun x : xAPTimeoutCallback CB UD => (t, tc_user_data x)) (List.filter (due t) (l1 ++ cb :: l2)))) as (w & Hw & Ht).
    + apply (map_touch_wf t) in Hwf. by rewrite map_app in Hwf.
    + unfold no_wrap in *. change (touch t cb :: map (touch t) l2) with (map (touch t) (cb :: l2)).
      rewrite <- map_app. apply Forall_map. eapply Forall_impl; [exact Hnw|]. intros x Hx.
      rewrite touch_interval. by apply Forall_cons in Hx as [_ ?].
    + apply Forall_app. auto.
    + exists w. split; [done|]. rewrite touch_user_data in Ht. rewrite Ht, !times_of_app, <- app_assoc.
      f_equal. rewrite List.filter_app, map_app, times_of_app, times_of_others by done.
      cbn [List.filter app]. destruct (due t cb); cbn [map].
      * change ((t, tc_user_data cb) :: ?l) with ([(t, tc_user_data cb)] ++ l).
        rewrite times_of_app, times_of_others by done. unfold times_of. cbn. by rewrite bool_decide_eq_true_2.
      * by rewrite times_of_others.
Qed.

End MainLoop.

(** * Claims *)

(** When the callbacks leave the timeout list alone, a dispatch at [now]
    fires exactly the timeouts whose time has come, in list order, each with its
    interval and user data, and pushes exactly these to [now + interval]. *)
Theorem timeoutDispatch_spec {CB UD W : Type} (timeoutList : W -> list (xAPTimeoutCallback CB UD))
    (set_timeoutList : list (xAPTimeoutCallback CB UD) -> W -> W)
    (run : CB -> Z -> UD -> W -> out W) (now : Z) (w : W) :
  list_field timeoutList set_timeoutList -> callbacks_inert timeoutList run ->
  ll_wf (timeoutList w) ->
  timeoutDispatch timeoutList set_timeoutList run now w
    = iter_all (fire timeoutList set_timeoutList run now) (List.filter (due now) (timeoutList w)) w /\
  forall w', timeoutDispatch timeoutList set_timeoutList run now w = Ok w' ->
    timeoutList w' = map (touch now) (timeoutList w).
Proof.
  intros Hf Hi Hwf. split; [by apply dispatch_eq|]. intros w' Hd.
  rewrite dispatch_eq, <- iter_body in Hd by done. exact (iter_list _ _ _ now _ w w' [] Hf Hi eq_refl Hwf Hd).
Qed.

(** A program whose callbacks log the interval they are called with. *)
Definition log_prog := (list (xAPTimeoutCallback bool nat) * list (nat * Z))%type.
Definition log_run (_ : bool) (i : Z) (ud : nat) (w : log_prog) : out log_prog :=
  Ok (fst w, (ud, i) :: snd w).
Definition log_timeouts : list (xAPTimeoutCallback bool nat) :=
  [mkTimeout 2 true 9%nat 60 0; mkTimeout 1 false 5%nat 10 140].

Lemma timeoutDispatch_spec_witness :
  timeoutDispatch fst (fun l w => (l, snd w)) log_run 100 (log_timeouts, [])
  = Ok ([mkTimeout 2 true 9%nat 60 160; mkTimeout 1 false 5%nat 10 140], [(9%nat, 60)]).
Proof.
  rewrite (proj1 (timeoutDispatch_spec fst (fun l w => (l, snd w)) log_run 100 (log_timeouts, [])
    ltac:(done) ltac:(intros ? ? ? [] ? [= <-]; done) ltac:(by apply (bool_decide_eq_true_1 (NoDup _))))).
  reflexivity.
Defined.



(** [timeoutDispatch] reads the successor from the node after the callback
    has run: a callback that deletes its own timeout makes it use freed memory. *)
Theorem timeoutDispatch_self_delete {CB UD W : Type} (timeoutList : W -> list (xAPTimeoutCallback CB UD))
    (set_timeoutList : list (xAPTimeoutCallback CB UD) -> W -> W)
    (run : CB -> Z -> UD -> W -> out W) (now : Z) (w w' : W)
    (cb : xAPTimeoutCallback CB UD) (r : list (xAPTimeoutCallback CB UD)) :
  timeoutList w = cb :: r -> due now cb = true ->
  fire timeoutList set_timeoutList run now cb w = Ok w' ->
  tc_addr cb ∉ map tc_addr (timeoutList w') ->
  timeoutDispatch timeoutList set_timeoutList run now w = Undef UseAfterFree.
Proof.
  intros Hl Hd Hf Hn. unfold timeoutDispatch, LL_FOREACH. rewrite Hl. cbn [length foreach ll_head head fmap option_fmap option_map].
  rewrite Hl. cbn [ll_node]. rewrite bool_decide_eq_true_2 by done. cbn [of_opt]. rewrite bind_Ok.
  change (timeout_body timeoutList set_timeoutList run now cb w)
    with (if due now cb then fire timeoutList set_timeoutList run now cb w else Ok w).
  rewrite Hd, Hf, bind_Ok. rewrite ll_node_None; [done|]. exact Hn.
Qed.

Lemma timeoutDispatch_self_delete_witness :
  timeoutDispatch (CB := bool) (UD := nat) (fun l => l) (fun l _ => l)
    (fun _ _ _ l => p ← xapDelTimeoutAction 1 l; Ok (snd p)) 100 [mkTimeout 1 true 7%nat 60 0]
  = Undef UseAfterFree.
Proof.
  apply (timeoutDispatch_self_delete (CB := bool) (UD := nat) (fun l => l) (fun l _ => l)
    (fun _ _ _ l => p ← xapDelTimeoutAction 1 l; Ok (snd p)) 100 [mkTimeout 1 true 7%nat 60 0] []
    (mkTimeout 1 true 7%nat 60 0) []); [done|done|reflexivity|].
  apply not_elem_of_nil.
Defined.

(** [xapDelTimeoutActionByFunc] deletes the first timeout of the function
    and no other: with several registered, all but the first stay. *)
Theorem xapDelTimeoutActionByFunc_spec {CB UD : Type} `{EqDecision CB} (func : CB)
    (l1 l2 : list (xAPTimeoutCallback CB UD)) (e : xAPTimeoutCallback CB UD) :
  ll_wf (l1 ++ e :: l2) -> Forall (fun x => tc_callback x <> func) l1 -> tc_callback e = func ->
  xapDelTimeoutActionByFunc func (l1 ++ e :: l2) = Ok (Some (tc_user_data e), l1 ++ l2).
Proof.
  intros Hwf H1 He. unfold xapDelTimeoutActionByFunc. pose proof (ll_wf_before _ _ _ Hwf) as Hn.
  assert (Hgen : forall l, del_by_func_loop func (l1 ++ e :: l2) l = del_by_func_loop func (e :: l2) l).
  { intros l. induction H1 as [|x l1 Hx _ IH]; [done|]. cbn [app del_by_func_loop].
    rewrite bool_decide_eq_false_2 by done. apply IH.
    - unfold ll_wf in *. by apply NoDup_cons in Hwf as [_ ?].
    - cbn [map] in Hn. set_solver. }
  rewrite Hgen. cbn [del_by_func_loop]. rewrite bool_decide_eq_true_2 by done.
  unfold xapDelTimeoutAction. change (tc_addr e) with (node_addr e).
  rewrite ll_node_app by done. cbn [of_opt]. rewrite !bind_Ok. by rewrite ll_delete_app.
Qed.

Lemma xapDelTimeoutActionByFunc_spec_witness :
  xapDelTimeoutActionByFunc true
    ([mkTimeout 3 false 1%nat 5 0] ++ mkTimeout 2 true 2%nat 5 0 :: [mkTimeout 1 true 3%nat 5 0])
  = Ok (Some 2%nat, [mkTimeout 3 false 1%nat 5 0; mkTimeout 1 true 3%nat 5 0]).
Proof.
  apply (xapDelTimeoutActionByFunc_spec true [mkTimeout 3 false 1%nat 5 0] [mkTimeout 1 true 3%nat 5 0]
    (mkTimeout 2 true 2%nat 5 0)); [|by repeat constructor|done].
  by apply (bool_decide_eq_true_1 (NoDup _)).
Defined.
