(* ===== verification/Xap.v ===== *)
(** * The xAP object: start-up, transmission, reception, main loop
      (xaplib2/init.c, tx.c, rx.c)

    The socket listeners, the heartbeat messages, the completion of short
    messages, the choice of the receive port and of the broadcast address, the
    packet handler and one iteration of [xapProcess].  What the kernel answers
    (received bytes, ready descriptors, which ports are free, the interface
    table, the clock) is an argument.  Messages handed to [xapSend] are part of
    the result. *)

From S2P Require Import Prelude UtList Strings Frame Wire Filter Timeout.

Definition XAP_HEARTBEAT_INTERVAL : Z := 60.
Definition XAP_PORT_L : Z := 3639.
Definition XAP_PORT_H : Z := 4639.

(** The identity part of [struct _xAP]. *)
Record xAPIdent := mkIdent { source : cstr; uid : cstr; rxPort : Z; ip : cstr }.

(** [sprintf(buff, ...)] into [N] bytes. *)
Definition sprintf_buf (N : Z) (text : cstr) : out cstr :=
  if Z.of_nat (length text) <? N then Ok text else Undef OutOfBounds.

(** [snprintf] into [N] bytes. *)
Definition snprintf (N : nat) (s : cstr) : cstr := take (N - 1) s.

(** ** init.c: heartbeats *)

(** The text of both heartbeats; [class] differs. *)
Definition hbeat_text (x : xAPIdent) (class : cstr) (interval pid : Z) : cstr :=
  line "xap-hbeat" ++ line "{" ++ line "v=12" ++ line "hop=1" ++
  str "uid=" ++ uid x ++ [10] ++
  str "class=" ++ class ++ [10] ++
  str "source=" ++ source x ++ [10] ++
  str "interval=" ++ fmt_d interval ++ [10] ++
  str "port=" ++ fmt_d (rxPort x) ++ [10] ++
  str "pid=" ++ ip x ++ str ":" ++ fmt_d pid ++ [10] ++
  line "}".

(** The packet sent. *)
Definition heartbeatHandler (x : xAPIdent) (pid interval : Z) : out cstr :=
  sprintf_buf XAP_DATA_LEN (hbeat_text x (str "xap-hbeat.alive") interval pid).

Definition termHandler (x : xAPIdent) (pid : Z) : out cstr :=
  sprintf_buf XAP_DATA_LEN (hbeat_text x (str "xap-hbeat.stop") XAP_HEARTBEAT_INTERVAL pid).

(** ** init.c: the receive port *)

(** [free p]: [bind] succeeds on port [p].  The loop [for (i=L+1; i < H; i++)]
    with the value of [i] after it. *)
Fixpoint scan_ports (free : Z -> bool) (n : nat) (i : Z) : Z * option Z :=
  match n with
  | O => (i, None)
  | S m => if free i then (i, Some i) else scan_ports free m (i + 1)
  end.

(** Returns [*rxport]. *)
Definition discoverHub (free : Z -> bool) : out Z :=
  if free XAP_PORT_L then Ok XAP_PORT_L else
  let '(i, found) := scan_ports free (Z.to_nat (XAP_PORT_H - (XAP_PORT_L + 1))) (XAP_PORT_L + 1) in
  if XAP_PORT_H <? i then Die
  else Ok (match found with Some p => p | None => XAP_PORT_L end).

(** ** init.c: the broadcast address *)

(** An entry of the interface table; [None] is a failing [ioctl].  Addresses
    are 32-bit words. *)
Record ifreq := mkIfreq {
  ifr_inet : bool;
  ifr_name : cstr;
  ifr_addr : option Z;
  ifr_netmask : option Z;
}.

Definition usable_if (interfaceName : option cstr) (i : ifreq) : bool :=
  ifr_inet i && negb (strcmp0 (str "lo") (ifr_name i)) &&
  match interfaceName with None => true | Some n => strcmp0 (ifr_name i) n end.

(** [addr | ~mask] *)
Definition bcast_of (addr mask : Z) : Z := Z.lor addr (u32 (Z.lnot mask)).

(** [table] is what SIOCGIFCONF returned (at most ten entries are asked for),
    [bcast_ones] the value of the INI key, [bcast_opt] whether the socket option
    can be set.  Returns the address and the broadcast address. *)
Definition discoverBroadcastNetwork (table : option (list ifreq)) (bcast_ones : Z)
    (bcast_opt : bool) (interfaceName : option cstr) : out (Z * Z) :=
  match ll_search (usable_if interfaceName) (match table with Some t => take 10 t | None => [] end) with
  | None => Die
  | Some i =>
      match ifr_addr i with
      | None => Die
      | Some a =>
          b ← (if bcast_ones =? 1 then Ok (2 ^ 32 - 1)
               else match ifr_netmask i with Some m => Ok (bcast_of a m) | None => Die end);
          if bcast_opt then Ok (a, b) else Die
      end
  end.

(** ** init.c: socket listeners *)
Section Sockets.
Context {SB UD : Type}.

Record xAPSocketConnection := mkSocket {
  sc_addr : addr;
  fd : Z;
  sc_user_data : UD;
  sc_callback : SB;
}.

#[global] Instance socket_node : Node xAPSocketConnection := sc_addr.

Definition xapFindSocketListenerByFD (ifd : Z) (l : list xAPSocketConnection) : option xAPSocketConnection :=
  ll_search (fun e => fd e =? ifd) l.

Definition xapDelSocketListener (p : addr) (l : list xAPSocketConnection)
    : out (UD * list xAPSocketConnection) :=
  '(cb, _) ← of_opt UseAfterFree (ll_node p l);
  Ok (sc_user_data cb, ll_delete p l).

(** [None] when the descriptor is invalid. *)
Definition xapAddSocketListener (p : addr) (ifd : Z) (cb : SB) (data : UD)
    (l : list xAPSocketConnection) : option (list xAPSocketConnection) :=
  if ifd <? 0 then None else Some (ll_prepend (mkSocket p ifd data cb) l).

(** ** rx.c: the main loop *)

(** The highest descriptor and the descriptor set. *)
Fixpoint build_select (l : list xAPSocketConnection) (highsock : Z) (socks : list Z) : Z * list Z :=
  match l with
  | [] => (highsock, socks)
  | e :: r => build_select r (if highsock <? fd e then fd e else highsock) (fd e :: socks)
  end.

Definition buildSelectList (l : list xAPSocketConnection) : Z * list Z := build_select l (-1) [].

(** What [select] answers: an interrupt, another error (the sets are left as
    they were), or the descriptors that are ready. *)
Inductive select_result := SelIntr | SelError | SelReady (fds : list Z).

Section Process.
Context {W : Type} (connectionList : W -> list xAPSocketConnection).
(** The callbacks of sockets, and the dispatch of timeouts at a time. *)
Context (run : SB -> Z -> UD -> W -> out W) (timeouts : Z -> W -> out W).

Definition read_body (socks : list Z) (e : xAPSocketConnection) (w : W) : out W :=
  if bool_decide (fd e ∈ socks) then run (sc_callback e) (fd e) (sc_user_data e) w else Ok w.

Definition readSockets (socks : list Z) (w : W) : out W :=
  LL_FOREACH_SAFE connectionList (read_body socks) w.

(** One iteration of the loop of [xapProcess]; [None] leaves the loop. *)
Definition process_step (sel : select_result) (now : Z) (w : W) : out (option W) :=
  let '(_, socks) := buildSelectList (connectionList w) in
  match sel with
  | SelIntr => Ok None
  | SelError => w ← readSockets socks w; w ← timeouts now w; Ok (Some w)
  | SelReady [] => w ← timeouts now w; Ok (Some w)
  | SelReady fds => w ← readSockets fds w; w ← timeouts now w; Ok (Some w)
  end.

End Process.
End Sockets.
Arguments xAPSocketConnection : clear implicits.

(** ** rx.c: packets *)

(** [recvfrom(..., XAP_DATA_LEN-1, ...)]: [None] is an error, otherwise the
    bytes of the datagram.  The frame after [readXapData], and its result. *)
Definition recv_into (f : xAPFrame) (dgram : option (list Z)) : xAPFrame :=
  match dgram with
  | None => mkFrame (-1) (dataPacket f) (parsedMsgCount f) (parsedMsg f)
  | Some b =>
      let b := take (Z.to_nat (XAP_DATA_LEN - 1)) b in
      mkFrame (Z.of_nat (length b)) (b ++ drop (length b) (dataPacket f)) (parsedMsgCount f) (parsedMsg f)
  end.

Definition readXapData (f : xAPFrame) (dgram : option (list Z)) : xAPFrame :=
  let f := recv_into f dgram in
  if 0 <? len f then set_dataPacket (<[Z.to_nat (len f) := 0]> (dataPacket f)) f else f.

Section Handler.
Context {W CB UD : Type} (filterList : W -> list (xAPFilterCallback CB UD)).
Context (gframe : W -> xAPFrame) (set_gframe : xAPFrame -> W -> W) (run : CB -> UD -> W -> out W).

Definition handleXapPacket (dgram : option (list Z)) (w : W) : out W :=
  let w := set_gframe (readXapData (gframe w) dgram) w in
  if 0 <? len (gframe w) then
    match filterList w with
    | [] => Ok w
    | _ =>
        '(f, _) ← parseMsgF (gframe w);
        filterDispatch filterList gframe run (set_gframe f w)
    end
  else Ok w.

End Handler.

(** ** tx.c *)

(** [f0] is the uninitialised local frame.  [None] is a NULL result. *)
Definition fillShortXap (x : xAPIdent) (f0 : xAPFrame) (shortMsg : cstr) : out (option cstr) :=
  '(packet, n) ← strlcpy (dataPacket f0) shortMsg (Z.to_nat XAP_DATA_LEN);
  '(f, _) ← parseMsgF (mkFrame (Z.of_nat n) packet (parsedMsgCount f0) (parsedMsg f0));
  target ← xapGetValueF f (str "xap-header") (Some (str "target"));
  class ← xapGetValueF f (str "xap-header") (Some (str "class"));
  match class with
  | None => Ok None
  | Some class =>
      xapBody ← parsedMsgToRawWithoutSectionF f XAP_DATA_LEN (Some (str "xap-header"));
      let newMsg := line "xap-header" ++ line "{" ++ line "v=12" ++ line "hop=1" ++
        str "uid=" ++ uid x ++ [10] ++ str "class=" ++ class ++ [10] ++
        str "source=" ++ source x ++ [10] in
      newMsg ← match target with
               | Some t => sb_append XAP_DATA_LEN newMsg (str "target=" ++ t ++ [10])
               | None => Ok newMsg
               end;
      newMsg ← sb_append XAP_DATA_LEN newMsg (line "}" ++ xapBody);
      Ok (Some (sb_content XAP_DATA_LEN newMsg))
  end.

(** ** init.c: addresses *)

(** [strlcat] and [strlcpy] on a local array of [N] bytes, at the level of the
    strings it holds ([strlcpy_spec], [strlcat_spec]). *)
Definition cat_to (N : nat) (s t : cstr) : cstr := take (N - 1) (s ++ t).

(** [device] is the argument, or the device id the function computes when the
    argument is NULL. *)
Definition xapBuildAddress (vendor device instance : cstr) : out cstr :=
  last ← of_opt OutOfBounds (List.last (map Some vendor) None);
  let address := cat_to 128 [] vendor in
  let address := if last =? 46 then address else cat_to 128 address (str ".") in
  let address := cat_to 128 address device in
  let address := cat_to 128 address (str ".") in
  Ok (cat_to 128 address instance).

(** [xapInit] up to the registrations: the identity and the two lists, where the
    heartbeat timeout and the packet listener are entered. *)
Definition xapInit {TB SB UD} (p1 p2 : addr) (hb : TB) (rx : SB) (null : UD) (rxSockfd : Z)
    (table : option (list ifreq)) (bcast_ones : Z) (bcast_opt : bool) (free : Z -> bool)
    (ntoa : Z -> cstr) (src : cstr) (u : option cstr) (interfaceName : option cstr)
    : out (xAPIdent * Z * list (xAPTimeoutCallback TB UD) * list (xAPSocketConnection SB UD)) :=
  match u with
  | None => Die
  | Some u =>
      if negb (length u =? 8)%nat then Die else
      '(a, b) ← discoverBroadcastNetwork table bcast_ones bcast_opt interfaceName;
      port ← discoverHub free;
      tl ← xapAddTimeoutAction p1 hb XAP_HEARTBEAT_INTERVAL null [];
      Ok (mkIdent src u port (ntoa a), b, tl,
          match xapAddSocketListener p2 rxSockfd rx null [] with Some l => l | None => [] end)
  end.

(** * Properties *)

(** ** Ports and addresses *)

Lemma scan_ports_spec free n i :
  match scan_ports free n i with
  | (j, Some p) => j = p /\ i <= p < i + Z.of_nat n /\ free p = true /\ forall q, i <= q < p -> free q = false
  | (j, None) => j = i + Z.of_nat n /\ forall q, i <= q < i + Z.of_nat n -> free q = false
  end.
Proof.
  revert i. induction n as [|n IH]; intros i; cbn [scan_ports].
  - split; [lia|]. intros q Hq. lia.
  - destruct (free i) eqn:Hf; [split; [done|]; split; [lia|]; split; [done|]; intros q Hq; lia|].
    specialize (IH (i + 1)). destruct (scan_ports free n (i + 1)) as [j [p|]].
    + destruct IH as (-> & Hp & Hfp & Hq). split; [done|]. split; [lia|]. split; [done|].
      intros q Hq'. destruct (decide (q = i)) as [->|]; [done|]. apply Hq. lia.
    + destruct IH as (-> & Hq). split; [lia|]. intros q Hq'.
      destruct (decide (q = i)) as [->|]; [done|]. apply Hq. lia.
Qed.

(** ** Sockets *)
Section SocketProps.
Context {SB UD : Type}.
Abbreviation socks := (list (xAPSocketConnection SB UD)).

Lemma build_select_spec (l : socks) h s :
  fst (build_select l h s) = fold_left Z.max (map fd l) h /\
  snd (build_select l h s) = rev (map fd l) ++ s.
Proof.
  revert h s. induction l as [|e l IH]; intros h s; [done|]. cbn [build_select map fold_left rev].
  destruct (IH (if h <? fd e then fd e else h) (fd e :: s)) as [-> ->]. split.
  - f_equal. destruct (Z.ltb_spec h (fd e)); lia.
  - by rewrite <- app_assoc.
Qed.

Lemma fold_max_spec l h : h <= fold_left Z.max l h /\ Forall (fun x => x <= fold_left Z.max l h) l /\
  (fold_left Z.max l h = h \/ fold_left Z.max l h ∈ l).
Proof.
  revert h. induction l as [|x l IH]; intros h; cbn [fold_left].
  - split; [lia|]. split; [constructor|by left].
  - destruct (IH (Z.max h x)) as (H1 & H2 & H3). split; [lia|]. split.
    + constructor; [lia|done].
    + destruct H3 as [H3|H3]; [|right; by right]. rewrite H3.
      destruct (Z.max_spec h x) as [[_ ->]|[_ ->]]; [right; left | by left].
Qed.

Section Process.
Context {W : Type} (connectionList : W -> socks) (run : SB -> Z -> UD -> W -> out W).

Definition ready (fds : list Z) (e : xAPSocketConnection SB UD) : bool := bool_decide (fd e ∈ fds).

(** A callback may add listeners and delete its own. *)
Definition socket_callbacks_keep : Prop := forall x w w' pre r,
  connectionList w = pre ++ x :: r -> ll_wf (connectionList w) ->
  run (sc_callback x) (fd x) (sc_user_data x) w = Ok w' ->
  ll_wf (connectionList w') /\ exists pre', connectionList w' = pre' ++ r.

Definition run_socket (e : xAPSocketConnection SB UD) (w : W) : out W :=
  run (sc_callback e) (fd e) (sc_user_data e) w.

Lemma read_keeps fds : socket_callbacks_keep -> keeps_rest connectionList (read_body run fds).
Proof.
  intros Hk x w w' r pre Hg Hwf. unfold read_body. case_bool_decide; [by eapply Hk|].
  intros [= <-]. split; [done|]. exists (pre ++ [x]). by rewrite Hg, app_cons_assoc.
Qed.

Lemma read_iter fds l w :
  iter_all (read_body run fds) l w = iter_all run_socket (List.filter (ready fds) l) w.
Proof.
  revert w. induction l as [|x l IH]; intros w; [done|]. cbn [iter_all List.filter].
  change (read_body run fds x w) with (if ready fds x then run_socket x w else Ok w).
  destruct (ready fds x); cbn [iter_all]; [|by rewrite bind_Ok].
  destruct (run_socket x w); simpl; [apply IH|done..].
Qed.

Lemma readSockets_eq fds w :
  socket_callbacks_keep -> ll_wf (connectionList w) ->
  readSockets connectionList run fds w
  = iter_all run_socket (List.filter (ready fds) (connectionList w)) w.
Proof.
  intros Hk Hwf. unfold readSockets. rewrite LL_FOREACH_SAFE_iter by (done || by apply read_keeps).
  apply read_iter.
Qed.

End Process.

Lemma ready_none (l : socks) : List.filter (ready []) l = [].
Proof.
  induction l as [|x l IH]; [done|]. cbn [List.filter]. unfold ready at 1.
  by rewrite bool_decide_eq_false_2 by (apply not_elem_of_nil).
Qed.

Lemma filter_true {A} (p : A -> bool) l : Forall (fun x => p x = true) l -> List.filter p l = l.
Proof. induction 1 as [|x l Hx _ IH]; [done|]. cbn [List.filter]. by rewrite Hx, IH. Qed.

Lemma ready_all (l : socks) : List.filter (ready (rev (map fd l))) l = l.
Proof.
  apply filter_true, Forall_forall. intros x Hx. apply bool_decide_eq_true_2.
  rewrite list_elem_of_In, <- in_rev. apply in_map. by apply list_elem_of_In.
Qed.

End SocketProps.

(** ** Messages *)

Lemma text_no_nul_app s t : no_nul s -> no_nul t -> no_nul (s ++ t).
Proof. intros. apply Forall_app. done. Qed.

Lemma print_msg_no_nul m : msg_wf m -> no_nul (print_msg m).
Proof.
  intros Hm. unfold print_msg. apply Forall_concat, Forall_map. eapply Forall_impl; [exact Hm|].
  intros b [(Hn & _) Hkv]. unfold print_block. repeat apply text_no_nul_app; [by apply text_no_nul|by repeat constructor| |by repeat constructor].
  unfold print_kvs. apply Forall_concat, Forall_map. eapply Forall_impl; [exact Hkv|].
  intros kv [(Hk & _) Hv]. unfold print_kv.
  repeat apply text_no_nul_app; try (by apply text_no_nul); by repeat constructor.
Qed.

Definition hbeat_block (x : xAPIdent) (class : cstr) (interval pid : Z) : block :=
  mkBlock (str "xap-hbeat")
    [(str "v", str "12"); (str "hop", str "1"); (str "uid", uid x); (str "class", class);
     (str "source", source x); (str "interval", fmt_d interval); (str "port", fmt_d (rxPort x));
     (str "pid", ip x ++ str ":" ++ fmt_d pid)].

Lemma hbeat_print x class i pid : hbeat_text x class i pid = print_msg [hbeat_block x class i pid].
Proof.
  unfold hbeat_text, print_msg, print_block, print_kvs, print_kv, hbeat_block, line.
  cbn [map concat b_name b_kvs fst snd]. rewrite app_nil_r. repeat rewrite <- app_assoc.
  cbn [str app]. reflexivity.
Qed.

Definition ident_wf (x : xAPIdent) : Prop := text_wf (source x) /\ text_wf (uid x) /\ text_wf (ip x).

(** The literals of the messages are text. *)
Lemma text_wf_str (s : cstr) : forallb (fun c => 32 <=? c) s = true -> text_wf s.
Proof.
  intros Hs. apply Forall_forall. intros c Hc. apply forallb_forall with (x := c) in Hs; [lia|].
  by apply list_elem_of_In.
Qed.

Lemma key_wf_str (s : cstr) :
  forallb (fun c => (32 <=? c) && negb (c =? 61)) s
    && match s with c :: _ => printable c && negb (c =? 125) | [] => false end = true ->
  key_wf s.
Proof.
  intros [Hs Hc]%andb_true_iff. split; [|split].
  - apply text_wf_str. apply forallb_forall. intros c Hi. apply forallb_forall with (x := c) in Hs; [lia|done].
  - intros Hi. apply list_elem_of_In in Hi. apply forallb_forall with (x := 61) in Hs; [done|done].
  - destruct s; [done|]. apply andb_true_iff in Hc as [? Hc]. split; [done|]. lia.
Qed.

Lemma name_wf_str (s : cstr) :
  forallb (fun c => (32 <=? c) && negb (c =? 123)) s
    && match s with c :: _ => printable c | [] => false end = true ->
  name_wf s.
Proof.
  intros [Hs Hc]%andb_true_iff. split; [|split].
  - apply text_wf_str. apply forallb_forall. intros c Hi. apply forallb_forall with (x := c) in Hs; [lia|done].
  - intros Hi. apply list_elem_of_In in Hi. apply forallb_forall with (x := 123) in Hs; [done|done].
  - by destruct s.
Qed.

Lemma hbeat_wf x class i pid :
  ident_wf x -> text_wf class -> msg_wf [hbeat_block x class i pid].
Proof.
  intros (Hs & Hu & Hi) Hc. constructor; [|constructor]. split; [by apply name_wf_str|].
  repeat (constructor; [split; [by apply key_wf_str|]|]); cbn [snd];
    try (by apply text_wf_str); try done; try (apply fmt_d_text).
  repeat apply Forall_app_2; [done|by apply text_wf_str|apply fmt_d_text].
Qed.

(** ** Reception *)

Lemma readXapData_eq f b :
  frame_sized f -> (0 < length b <= 1499)%nat ->
  readXapData f (Some b)
  = mkFrame (Z.of_nat (length b)) (b ++ 0 :: drop (S (length b)) (dataPacket f)) (parsedMsgCount f) (parsedMsg f).
Proof.
  intros [Hd Hp] Hb. unfold readXapData, recv_into. rewrite (take_ge b) by (unfold XAP_DATA_LEN; lia).
  cbn [len]. destruct (Z.ltb_spec 0 (Z.of_nat (length b))); [|lia]. unfold set_dataPacket.
  cbn [len dataPacket parsedMsgCount parsedMsg]. f_equal. rewrite Nat2Z.id.
  destruct (drop (length b) (dataPacket f)) as [|c r] eqn:Hr.
  { apply (f_equal length) in Hr. rewrite length_drop in Hr. simpl in Hr. lia. }
  rewrite insert_mid. f_equal. f_equal.
  replace (S (length b)) with (length b + 1)%nat by lia. by rewrite <- drop_drop, Hr.
Qed.

Section HandlerProps.
Context {W CB UD : Type} (filterList : W -> list (xAPFilterCallback CB UD)).
Context (gframe : W -> xAPFrame) (set_gframe : xAPFrame -> W -> W) (run : CB -> UD -> W -> out W).

(** The frame field of the program state. *)
Definition frame_field : Prop :=
  (forall f w, gframe (set_gframe f w) = f) /\ (forall f w, filterList (set_gframe f w) = filterList w) /\
  (forall f g w, set_gframe f (set_gframe g w) = set_gframe f w).

Lemma handle_parsed m w :
  frame_field -> callbacks_keep_list filterList run -> callbacks_keep_frame gframe run ->
  frame_sized (gframe w) -> ll_wf (filterList w) ->
  msg_wf m -> m <> [] -> (length (print_msg m) <= 1499)%nat -> (length (msg_entries m) < 150)%nat ->
  filterList w <> [] ->
  handleXapPacket filterList gframe set_gframe run (Some (print_msg m)) w
  = run_all run (List.filter (cb_match (msg_entries m)) (filterList w))
      (set_gframe (parsed_frame m (0 :: drop (S (length (print_msg m))) (dataPacket (gframe w))) (parsedMsg (gframe w))) w).
Proof.
  intros (Hgs & Hfl & Hss) Hkl Hkf Hsz Hwf Hm Hne HL Hn Hlist. pose proof Hsz as [_ Hpm].
  assert (0 < length (print_msg m))%nat.
  { destruct m as [|b m]; [done|]. unfold print_msg. simpl. unfold print_block. rewrite !length_app. simpl. lia. }
  unfold handleXapPacket. rewrite readXapData_eq by (done || lia).
  rewrite !Hgs, Hfl. cbn [len]. destruct (Z.ltb_spec 0 (Z.of_nat (length (print_msg m)))); [|lia].
  rewrite parse_print by (done || lia). rewrite bind_Ok, Hss.
  destruct (filterList w) as [|cb l] eqn:Hl; [done|]. rewrite <- Hl.
  rewrite <- (Hfl (parsed_frame m (0 :: drop (S (length (print_msg m))) (dataPacket (gframe w))) (parsedMsg (gframe w))) w).
  apply (dispatch_iter _ _ _ _ _ _ _ []); [done|done|rewrite Hgs; by apply parsed_frame_rep|done|by rewrite Hfl, Hl|done].
Qed.

End HandlerProps.

(** ** Completing a short message *)

Definition full_header (x : xAPIdent) (class : cstr) (target : option cstr) : block :=
  mkBlock (str "xap-header")
    ([(str "v", str "12"); (str "hop", str "1"); (str "uid", uid x); (str "class", class);
      (str "source", source x)] ++ match target with Some t => [(str "target", t)] | None => [] end).

Lemma fill_header_text x class target body :
  print_msg (full_header x class target :: body)
  = (line "xap-header" ++ line "{" ++ line "v=12" ++ line "hop=1" ++
     str "uid=" ++ uid x ++ [10] ++ str "class=" ++ class ++ [10] ++ str "source=" ++ source x ++ [10])
    ++ match target with Some t => str "target=" ++ t ++ [10] | None => [] end ++ line "}" ++ print_msg body.
Proof.
  unfold print_msg. cbn [map concat]. unfold print_block, full_header. cbn [b_name b_kvs].
  unfold print_kvs. rewrite map_app, concat_app. unfold line, print_kv.
  destruct target; cbn [map concat fst snd]; repeat rewrite <- app_assoc; rewrite ?app_nil_r; cbn [str app];
    repeat rewrite <- app_assoc; reflexivity.
Qed.

Lemma fill_short_eq x f0 m :
  frame_sized f0 -> msg_wf m -> (length (print_msg m) <= 1499)%nat -> (length (msg_entries m) < 150)%nat ->
  let target := entries_lookup (msg_entries m) (str "xap-header") (Some (str "target")) in
  match entries_lookup (msg_entries m) (str "xap-header") (Some (str "class")) with
  | None => fillShortXap x f0 (print_msg m) = Ok None
  | Some class =>
      let r := full_header x class target :: kept (Some (str "xap-header")) m in
      (length (print_msg r) < 1500)%nat -> fillShortXap x f0 (print_msg m) = Ok (Some (print_msg r))
  end.
Proof.
  intros [Hd Hp] Hm HL Hn. cbv zeta. set (entries_lookup _ _ (Some (str "target"))) as target.
  pose proof (print_msg_no_nul m Hm) as Hnn. unfold fillShortXap.
  rewrite (strlcpy_eq (dataPacket f0) (print_msg m) (Z.to_nat XAP_DATA_LEN)) by (rewrite Hd; unfold XAP_DATA_LEN; lia).
  rewrite bind_Ok. rewrite (take_ge (print_msg m)) by (unfold XAP_DATA_LEN; lia).
  rewrite parse_print by (done || lia). rewrite bind_Ok.
  set (f := parsed_frame m _ _). assert (Hrep : frame_rep f (msg_entries m)) by (by apply parsed_frame_rep).
  rewrite !(get_value_rep f (msg_entries m)) by done. rewrite !bind_Ok.
  fold target. destruct (entries_lookup _ _ (Some (str "class"))) as [class|]; [|done].
  intros Hlen. rewrite fill_header_text in Hlen |- *. subst f.
  set (h := line "xap-header" ++ _) in Hlen |- *.
  assert (Hbody : (length (print_msg (kept (Some (str "xap-header")) m)) < 1500)%nat)
    by (rewrite !length_app in Hlen; lia).
  rewrite raw_parsed_frame; [|done|unfold XAP_DATA_LEN; lia]. rewrite bind_Ok.
  rewrite !length_app in Hlen. unfold XAP_DATA_LEN. destruct target as [t|].
  - rewrite !length_app in Hlen. rewrite sb_append_fits by lia. rewrite bind_Ok. rewrite sb_append_fits by (rewrite !length_app; lia).
    rewrite bind_Ok, sb_content_fits; [by rewrite <- app_assoc|]. rewrite !length_app. lia.
  - rewrite bind_Ok, sb_append_fits by lia. rewrite bind_Ok, sb_content_fits; [done|].
    rewrite !length_app. cbn [length] in Hlen. lia.
Qed.

(** ** The broadcast address *)

Lemma bcast_bits a m i :
  0 <= i < 32 -> Z.testbit (bcast_of a m) i = (Z.testbit a i || negb (Z.testbit m i)).
Proof.
  intros Hi. unfold bcast_of, u32. rewrite Z.lor_spec, Z.mod_pow2_bits_low by lia.
  by rewrite Z.lnot_spec by lia.
Qed.

(** * Claims *)

(** [discoverHub] never gives up, although it has a check for an exhausted
    range: it returns the hub port when that is free, otherwise the first free
    port above it, and when the whole range is taken it reports the hub port,
    which another process holds. *)
Theorem discoverHub_spec (free : Z -> bool) :
  exists p, discoverHub free = Ok p /\ XAP_PORT_L <= p < XAP_PORT_H /\
    ((free p = true /\ forall q, XAP_PORT_L <= q < p -> free q = false) \/
     (p = XAP_PORT_L /\ forall q, XAP_PORT_L <= q < XAP_PORT_H -> free q = false)).
Proof.
  unfold discoverHub, XAP_PORT_L, XAP_PORT_H. destruct (free 3639) eqn:Hf.
  { exists 3639. split; [done|]. split; [lia|]. left. split; [done|]. intros; lia. }
  pose proof (scan_ports_spec free (Z.to_nat (4639 - (3639 + 1))) (3639 + 1)) as Hs.
  destruct (scan_ports free _ _) as [i [p|]].
  - destruct Hs as (-> & Hp & Hfp & Hq). exists p. destruct (Z.ltb_spec 4639 p); [lia|].
    split; [done|]. split; [lia|]. left. split; [done|]. intros q Hq'.
    destruct (decide (q = 3639)) as [->|]; [done|]. apply Hq. lia.
  - destruct Hs as (-> & Hq). exists 3639. destruct (Z.ltb_spec 4639 (3639 + 1 + Z.of_nat (Z.to_nat (4639 - (3639 + 1))))); [lia|].
    split; [done|]. split; [lia|]. right. split; [done|]. intros q Hq'.
    destruct (decide (q = 3639)) as [->|]; [done|]. apply Hq. lia.
Qed.

(** The broadcast address [discoverBroadcastNetwork] computes has, below bit
    32, the bits of the interface address where the netmask is set, and ones
    where it is clear; the interface is the first usable one of the table. *)
Theorem discoverBroadcastNetwork_spec (table : list ifreq) (ones : Z) (opt : bool)
    (name : option cstr) (a b : Z) :
  discoverBroadcastNetwork (Some table) ones opt name = Ok (a, b) -> ones <> 1 ->
  exists i mask, ll_search (usable_if name) (take 10 table) = Some i /\ usable_if name i = true /\
    ifr_addr i = Some a /\ ifr_netmask i = Some mask /\
    forall k, 0 <= k < 32 -> Z.testbit b k = if Z.testbit mask k then Z.testbit a k else true.
Proof.
  unfold discoverBroadcastNetwork. intros H Ho.
  destruct (ll_search _ _) as [i|] eqn:Hs; [|done]. pose proof (ll_search_Some _ _ _ Hs) as [_ Hu].
  destruct (ifr_addr i) as [a'|] eqn:Ha'; [|done].
  destruct (Z.eqb_spec ones 1); [done|]. destruct (ifr_netmask i) as [m|] eqn:Hm; [|done].
  rewrite bind_Ok in H. destruct opt; [|done]. injection H as <- <-. exists i, m.
  split; [done|]. split; [done|]. split; [done|]. split; [done|]. intros k Hk.
  rewrite bcast_bits by done. destruct (Z.testbit m k); [apply orb_false_r|apply orb_true_r].
Qed.

(** 192.168.1.10/24 on [br0], after the loopback interface. *)
Lemma discoverBroadcastNetwork_spec_witness :
  exists i mask, ifr_netmask i = Some mask /\
    forall k, 0 <= k < 32 ->
      Z.testbit 3232236031 k = if Z.testbit mask k then Z.testbit 3232235786 k else true.
Proof.
  destruct (discoverBroadcastNetwork_spec
    [mkIfreq true (str "lo") (Some 2130706433) (Some 4278190080);
     mkIfreq true (str "br0") (Some 3232235786) (Some 4294967040)] 0 true None 3232235786 3232236031)
    as (i & mask & _ & _ & _ & Hm & Hb); [reflexivity|lia|]. exists i, mask. done.
Defined.

(** The descriptor set handed to [select] holds exactly the descriptors of
    the listeners, and the highest descriptor is their maximum, -1 when there
    are none. *)
Theorem buildSelectList_spec {SB UD : Type} (l : list (xAPSocketConnection SB UD)) :
  let '(high, socks) := buildSelectList l in
  (forall d, d ∈ socks <-> d ∈ map fd l) /\ -1 <= high /\ Forall (fun d => d <= high) (map fd l) /\
  (high = -1 \/ high ∈ map fd l).
Proof.
  pose proof (build_select_spec l (-1) []) as [H1 H2]. unfold buildSelectList.
  destruct (build_select l (-1) []) as [high socks]. cbn [fst snd] in H1, H2. subst.
  destruct (fold_max_spec (map fd l) (-1)) as (? & ? & ?). split; [|done].
  intros d. rewrite app_nil_r, !list_elem_of_In, <- in_rev. done.
Qed.

(** When the callbacks delete no listener but their own, one iteration of
    the main loop runs exactly the callbacks whose descriptors are ready, once
    each, and then the timeouts; after a failed [select], whose sets are left
    unchanged, it runs all of them. *)
Theorem process_step_spec {SB UD W : Type} (connectionList : W -> list (xAPSocketConnection SB UD))
    (run : SB -> Z -> UD -> W -> out W) (timeouts : Z -> W -> out W) (sel : select_result) (now : Z) (w : W) :
  socket_callbacks_keep connectionList run -> ll_wf (connectionList w) ->
  process_step connectionList run timeouts sel now w =
  match sel with
  | SelIntr => Ok None
  | SelReady fds =>
      w ← iter_all (run_socket run) (List.filter (ready fds) (connectionList w)) w;
      Some <$> timeouts now w
  | SelError => w ← iter_all (run_socket run) (connectionList w) w; Some <$> timeouts now w
  end.
Proof.
  intros Hk Hwf. unfold process_step. pose proof (build_select_spec (connectionList w) (-1) []) as [_ Hs].
  unfold buildSelectList. destruct (build_select _ _ _) as [high socks]. cbn [snd] in Hs. subst socks.
  destruct sel as [| |[|d fds]]; [done| | |].
  - rewrite readSockets_eq, app_nil_r, ready_all by done. by destruct (iter_all _ _ _).
  - by rewrite ready_none.
  - rewrite readSockets_eq by done. by destruct (iter_all _ _ _).
Qed.

(** Two listeners that log; only descriptor 4 is ready. *)
Lemma process_step_spec_witness :
  process_step (SB := bool) (UD := nat) (fun w => fst w) (fun _ d ud w => Ok (fst w, d :: snd w))
    (fun _ w => Ok w) (SelReady [4]) 0 ([mkSocket 1 3 0%nat true; mkSocket 2 4 0%nat true], [])
  = Ok (Some ([mkSocket 1 3 0%nat true; mkSocket 2 4 0%nat true], [4])).
Proof.
  rewrite (process_step_spec (SB := bool) (UD := nat) (fun w => fst w)).
  - reflexivity.
  - intros x w w' pre r Hg Hwf [= <-]. split; [done|]. exists (pre ++ [x]). cbn [fst]. by rewrite Hg, app_cons_assoc.
  - by apply (bool_decide_eq_true_1 (NoDup _)).
Defined.

(** Reception end to end: for a well-formed message of up to 1499 bytes and
    149 entries, [handleXapPacket] runs exactly the callbacks whose filters match
    the message, in list order, on a frame that denotes the message. *)
Theorem handleXapPacket_spec {W CB UD : Type} (filterList : W -> list (xAPFilterCallback CB UD))
    (gframe : W -> xAPFrame) (set_gframe : xAPFrame -> W -> W) (run : CB -> UD -> W -> out W)
    (m : message) (w : W) :
  frame_field filterList gframe set_gframe ->
  callbacks_keep_list filterList run -> callbacks_keep_frame gframe run ->
  frame_sized (gframe w) -> ll_wf (filterList w) -> filterList w <> [] ->
  msg_wf m -> m <> [] -> (length (print_msg m) <= 1499)%nat -> (length (msg_entries m) < 150)%nat ->
  exists f, frame_rep f (msg_entries m) /\
    handleXapPacket filterList gframe set_gframe run (Some (print_msg m)) w
    = run_all run (List.filter (cb_match (msg_entries m)) (filterList w)) (set_gframe f w).
Proof. intros. eexists. split; [by apply parsed_frame_rep|]. by apply handle_parsed. Qed.

Definition demo_set_frame (f : xAPFrame) (w : dispatch_demo) : dispatch_demo :=
  mkDemo (demo_cbs w) f (demo_log w).

Definition demo_world : dispatch_demo :=
  mkDemo [mkFilterCallback 1 false 5%nat [mkFilter (str "xap-header") (str "class") (str "xAPBSC.*")];
          mkFilterCallback 2 false 6%nat [mkFilter (str "xap-header") (str "class") (str "other")]]
    (load_packet []) [].

(** A callback that logs its user data. *)
Definition demo_log_run (_ : bool) (ud : nat) (w : dispatch_demo) : out dispatch_demo :=
  Ok (mkDemo (demo_cbs w) (demo_frame w) (ud :: demo_log w)).

Lemma handleXapPacket_spec_witness :
  exists f, frame_rep f (msg_entries demo_msg) /\
    handleXapPacket demo_cbs demo_frame demo_set_frame demo_log_run (Some (print_msg demo_msg)) demo_world
    = Ok (mkDemo (demo_cbs demo_world) f [5%nat]).
Proof.
  destruct (handleXapPacket_spec demo_cbs demo_frame demo_set_frame demo_log_run demo_msg demo_world)
    as (f & Hf & Hh).
  - done.
  - intros x w w' pre r Hg Hwf [= <-]. split; [done|]. exists (pre ++ [x]). cbn. by rewrite Hg, app_cons_assoc.
  - intros cb ud w w' es Hrep [= <-]. exists es. split; [done|apply entry_ci_refl].
  - by apply load_packet_sized; simpl; lia.
  - by apply (bool_decide_eq_true_1 (NoDup _)).
  - done.
  - apply demo_msg_wf.
  - done.
  - apply Nat.leb_le. reflexivity.
  - apply Nat.ltb_lt. reflexivity.
  - exists f. split; [exact Hf|]. etransitivity; [exact Hh|].
    assert (Hm : List.filter (cb_match (msg_entries demo_msg)) (demo_cbs demo_world)
      = [mkFilterCallback 1 false 5%nat [mkFilter (str "xap-header") (str "class") (str "xAPBSC.*")]]) by reflexivity.
    rewrite Hm. reflexivity.
Defined.

(** [fillShortXap] on the text of a well-formed message returns NULL when
    the header has no class, and otherwise the message with a complete header
    (version, hop, the program's UID and source, the class, the target if there
    was one) in front of the other sections, whenever that fits the packet. *)
Theorem fillShortXap_spec (x : xAPIdent) (f0 : xAPFrame) (m : message) :
  frame_sized f0 -> msg_wf m -> (length (print_msg m) <= 1499)%nat -> (length (msg_entries m) < 150)%nat ->
  match entries_lookup (msg_entries m) (str "xap-header") (Some (str "class")) with
  | None => fillShortXap x f0 (print_msg m) = Ok None
  | Some class =>
      let r := full_header x class
                 (entries_lookup (msg_entries m) (str "xap-header") (Some (str "target")))
               :: kept (Some (str "xap-header")) m in
      (length (print_msg r) < 1500)%nat -> fillShortXap x f0 (print_msg m) = Ok (Some (print_msg r))
  end.
Proof. exact (fill_short_eq x f0 m). Qed.

Lemma fillShortXap_spec_witness :
  fillShortXap (mkIdent (str "dbzoo.livebox.x") (str "FF00DC00") 3640 (str "10.0.0.1")) (load_packet [])
    (print_msg demo_msg)
  = Ok (Some (print_msg
      [mkBlock (str "xap-header")
         [(str "v", str "12"); (str "hop", str "1"); (str "uid", str "FF00DC00");
          (str "class", str "xAPBSC.query"); (str "source", str "dbzoo.livebox.x"); (str "target", str "a.b.c:>")];
       mkBlock (str "request") []])).
Proof.
  set (x := mkIdent _ _ _ _).
  assert (Hc : entries_lookup (msg_entries demo_msg) (str "xap-header") (Some (str "class"))
    = Some (str "xAPBSC.query")) by reflexivity.
  assert (Ht : entries_lookup (msg_entries demo_msg) (str "xap-header") (Some (str "target"))
    = Some (str "a.b.c:>")) by reflexivity.
  assert (Hk : kept (Some (str "xap-header")) demo_msg = [mkBlock (str "request") []]) by reflexivity.
  pose proof (fillShortXap_spec x (load_packet []) demo_msg) as H. rewrite Hc, Ht, Hk in H. cbv zeta in H.
  apply H.
  - by apply load_packet_sized; simpl; lia.
  - apply demo_msg_wf.
  - apply Nat.leb_le. reflexivity.
  - apply Nat.ltb_lt. reflexivity.
  - apply Nat.ltb_lt. reflexivity.
Defined.
