(* ===== verification/Hub.v ===== *)
(** * The xAP hub (xap-hub/hub.c)

    The hub owns the broadcast port, keeps a table of the local programs that
    announced themselves with heartbeats, relays every packet to the ports that
    are alive and drops a port whose heartbeats stop.  A step of the hub is the
    reception of a datagram or a run of the reaper; the theorems show that the
    table has one entry per port, how long an entry lives, what is relayed, and
    that the heartbeats the library sends ([heartbeatHandler], [termHandler] of
    init.c) connect and disconnect a program. *)

From S2P Require Import Prelude UtList Frame Wire Xap.

Definition reapTimeSecs : Z := 10.

Record hubEntry := mkHub {
  he_addr : addr;
  port : Z;
  he_interval : Z;
  timer : Z;
  is_alive : bool;
}.

#[global] Instance hub_node : Node hubEntry := he_addr.

(** The table, the global frame, and the datagrams handed to [sendto]: port and
    payload. *)
Record hub := mkHubState {
  hubList : list hubEntry;
  gframe : xAPFrame;
  sent : list (Z * list Z);
}.

Definition payload (f : xAPFrame) : list Z := take (Z.to_nat (len f)) (dataPacket f).

(** [LL_FOREACH] whose body does not change the list. *)
Definition hubRelay (h : hub) : hub :=
  mkHubState (hubList h) (gframe h)
    (sent h ++ map (fun e => (u16 (port e), payload (gframe h))) (List.filter is_alive (hubList h))).

Definition has_port (p : Z) (e : hubEntry) : bool := port e =? p.

Definition set_entry (i t : Z) (e : hubEntry) : hubEntry := mkHub (he_addr e) (port e) i t true.

(** [a] is the block a new entry is allocated at. *)
Definition addOrUpdateHubEntry (a : addr) (i_port i_interval : Z) (l : list hubEntry)
    : out (list hubEntry) :=
  let '(e, l) := match ll_search (has_port i_port) l with
                 | Some e => (he_addr e, l)
                 | None => (a, ll_prepend (mkHub a i_port 0 0 false) l)
                 end in
  t ← add_int i_interval i_interval;
  Ok (ll_update e (set_entry i_interval t) l).

Definition reap_entry (interval : Z) (e : hubEntry) : out hubEntry :=
  if is_alive e then
    t ← add_int (timer e) (- interval);
    Ok (mkHub (he_addr e) (port e) (he_interval e) t (negb (t <=? 0)))
  else Ok e.

Fixpoint reapHubConnections (interval : Z) (l : list hubEntry) : out (list hubEntry) :=
  match l with
  | [] => Ok []
  | e :: r =>
      e ← reap_entry interval e;
      r ← reapHubConnections interval r;
      Ok (e :: r)
  end.

(** Returns after the first match. *)
Fixpoint stopHubConnection (p : Z) (l : list hubEntry) : list hubEntry :=
  match l with
  | [] => []
  | e :: r =>
      if port e =? p then mkHub (he_addr e) (port e) (he_interval e) (timer e) false :: r
      else e :: stopHubConnection p r
  end.

(** What a locally sent packet does to the table; [None]: our own heartbeat,
    which is not relayed. *)
Definition local_packet (a : addr) (rxPort : Z) (f : xAPFrame) (l : list hubEntry)
    : out (option (list hubEntry)) :=
  '(f, _) ← parseMsgF f;
  ty ← xapGetTypeF f;
  if ty =? XAP_MSG_HBEAT then
    interval ← xapGetValueF f (str "xap-hbeat") (Some (str "interval"));
    prt ← xapGetValueF f (str "xap-hbeat") (Some (str "port"));
    match prt, interval with
    | Some prt, Some interval =>
        let iport := atoi prt in
        if iport =? rxPort then Ok None else
        class ← xapGetValueF f (str "xap-hbeat") (Some (str "class"));
        if match class with Some c => strcmp0 c (str "xap-hbeat.stop") | None => false end
        then Ok (Some (stopHubConnection iport l))
        else Some <$> addOrUpdateHubEntry a iport (atoi interval) l
    | _, _ => Ok (Some l)
    end
  else Ok (Some l).

(** [local]: the sender's address is the hub's own. *)
Definition xapRxBroadcast (a : addr) (rxPort : Z) (local : bool) (dgram : option (list Z)) (h : hub)
    : out hub :=
  let f := recv_into (gframe h) dgram in
  if len f <=? 0 then Ok (mkHubState (hubList h) f (sent h)) else
  let f := set_dataPacket (<[Z.to_nat (len f) := 0]> (dataPacket f)) f in
  if local then
    r ← local_packet a rxPort f (hubList h);
    match r with
    | None => Ok (mkHubState (hubList h) f (sent h))
    | Some l => Ok (hubRelay (mkHubState l f (sent h)))
    end
  else Ok (hubRelay (mkHubState (hubList h) f (sent h))).

(** ** The hub as a state machine *)

(** [fresh]: [malloc] returns an address no entry has. *)
Inductive hub_step (rxPort : Z) : hub -> hub -> Prop :=
| step_recv h a local dgram h' :
    a ∉ map he_addr (hubList h) ->
    xapRxBroadcast a rxPort local dgram h = Ok h' ->
    hub_step rxPort h h'
| step_reap h l :
    reapHubConnections reapTimeSecs (hubList h) = Ok l ->
    hub_step rxPort h (mkHubState l (gframe h) (sent h)).

Inductive hub_reachable (rxPort : Z) : hub -> Prop :=
| reach_init f : frame_sized f -> hub_reachable rxPort (mkHubState [] f [])
| reach_step h h' : hub_reachable rxPort h -> hub_step rxPort h h' -> hub_reachable rxPort h'.

(** ** The interface between a program and the hub

    A source of heartbeats promises packets the hub can read: their text is
    that of a well-formed message whose first section is a heartbeat with a
    port, an interval and a class. *)
Class HeartbeatSource (S : Type) := {
  hs_packet : S -> out cstr;
  hs_port : S -> Z;
  hs_interval : S -> Z;
  hs_stop : S -> bool;
  hs_valid : S -> Prop;
  hs_law : forall s, hs_valid s -> exists m,
    hs_packet s = Ok (print_msg m) /\ msg_wf m /\
    (0 < length (print_msg m) <= 1499)%nat /\ (length (msg_entries m) < 150)%nat /\
    (exists e es, msg_entries m = e :: es /\ en_section e = str "xap-hbeat") /\
    (forall k v, (k, v) ∈ [(str "port", fmt_d (hs_port s)); (str "interval", fmt_d (hs_interval s))] ->
       entries_lookup (msg_entries m) (str "xap-hbeat") (Some k) = Some v) /\
    (exists c, entries_lookup (msg_entries m) (str "xap-hbeat") (Some (str "class")) = Some c /\
       strcmp0 c (str "xap-hbeat.stop") = hs_stop s) /\
    int_range (hs_port s) /\ int_range (hs_interval s)
}.

(** The library's two senders: the timeout handler and the signal handler. *)
Record hb_sender := mkSender { hb_ident : xAPIdent; hb_pid : Z; hb_ival : Z }.
Record hb_stopper := mkStopper { st_ident : xAPIdent; st_pid : Z }.

(** * Properties *)

(** ** Type of a message *)

Definition type_of_section (s : cstr) : Z :=
  if strcasecmp0 s (str "xap-hbeat") then XAP_MSG_HBEAT
  else if strcasecmp0 s (str "xap-header") then XAP_MSG_ORDINARY
  else if strcasecmp0 s (str "xap-config-request") then XAP_MSG_CONFIG_REQUEST
  else if strcasecmp0 s (str "xap-cache-request") then XAP_MSG_CACHE_REQUEST
  else if strcasecmp0 s (str "xap-cache-reply") then XAP_MSG_CACHE_REPLY
  else if strcasecmp0 s (str "xap-config-reply") then XAP_MSG_CONFIG_REPLY
  else XAP_MSG_UNKNOWN.

Lemma get_type_rep f e es :
  frame_rep f (e :: es) -> xapGetTypeF f = Ok (type_of_section (en_section e)).
Proof.
  unfold frame_rep, xapGetTypeF. intros Hrep.
  destruct (parsedMsg f) as [|el pm] eqn:Hp; [rewrite take_nil in Hrep; inversion Hrep|].
  destruct (parsedMsgCount f) as [|n]; [inversion Hrep|]. cbn [take] in Hrep.
  apply Forall2_cons in Hrep as [((o & Ho & Hs) & _) _]. cbn [Nat.eqb].
  change (el :: pm) with ([el] ++ pm). cbn [app lookup list_lookup of_opt]. rewrite bind_Ok, Ho.
  cbn [deref]. rewrite Hs. done.
Qed.

(** ** The library's heartbeats *)

Lemma hbeat_law x class i pid :
  ident_wf x -> text_wf class -> int_range (rxPort x) -> int_range i ->
  (length (hbeat_text x class i pid) < 1500)%nat ->
  exists m, sprintf_buf XAP_DATA_LEN (hbeat_text x class i pid) = Ok (print_msg m) /\ msg_wf m /\
    (0 < length (print_msg m) <= 1499)%nat /\ (length (msg_entries m) < 150)%nat /\
    (exists e es, msg_entries m = e :: es /\ en_section e = str "xap-hbeat") /\
    (forall k v, (k, v) ∈ [(str "port", fmt_d (rxPort x)); (str "interval", fmt_d i)] ->
       entries_lookup (msg_entries m) (str "xap-hbeat") (Some k) = Some v) /\
    (exists c, entries_lookup (msg_entries m) (str "xap-hbeat") (Some (str "class")) = Some c /\
       c = class).
Proof.
  intros Hx Hc Hp Hi Hlen. exists [hbeat_block x class i pid]. rewrite hbeat_print in Hlen |- *.
  split.
  { unfold sprintf_buf, XAP_DATA_LEN. by destruct (Z.ltb_spec (Z.of_nat (length (print_msg [hbeat_block x class i pid]))) 1500); [|lia]. }
  split; [by apply hbeat_wf|]. split.
  { split; [|lia]. unfold print_msg. simpl. lia. }
  split; [simpl; lia|]. split; [by eexists _, _|]. split; [|by eexists].
  intros k v Hkv. apply elem_of_cons in Hkv as [[= -> ->]|Hkv]; [reflexivity|].
  apply list_elem_of_singleton in Hkv. injection Hkv as -> ->. reflexivity.
Qed.

#[export] Program Instance alive_source : HeartbeatSource hb_sender := {
  hs_packet s := heartbeatHandler (hb_ident s) (hb_pid s) (hb_ival s);
  hs_port s := rxPort (hb_ident s);
  hs_interval s := hb_ival s;
  hs_stop _ := false;
  hs_valid s := ident_wf (hb_ident s) /\ int_range (rxPort (hb_ident s)) /\ int_range (hb_ival s) /\
    (length (hbeat_text (hb_ident s) (str "xap-hbeat.alive") (hb_ival s) (hb_pid s)) < 1500)%nat
}.
Next Obligation.
  intros s (Hx & Hp & Hi & Hl). cbn in *.
  destruct (hbeat_law (hb_ident s) (str "xap-hbeat.alive") (hb_ival s) (hb_pid s)) as (m & H1 & H2 & H3 & H4 & H5 & H6 & c & H7 & ->); [done|by apply text_wf_str|done..|].
  exists m. repeat (split; [done|]). split; [by eexists|]. done.
Qed.

#[export] Program Instance stop_source : HeartbeatSource hb_stopper := {
  hs_packet s := termHandler (st_ident s) (st_pid s);
  hs_port s := rxPort (st_ident s);
  hs_interval _ := XAP_HEARTBEAT_INTERVAL;
  hs_stop _ := true;
  hs_valid s := ident_wf (st_ident s) /\ int_range (rxPort (st_ident s)) /\
    (length (hbeat_text (st_ident s) (str "xap-hbeat.stop") XAP_HEARTBEAT_INTERVAL (st_pid s)) < 1500)%nat
}.
Next Obligation.
  intros s (Hx & Hp & Hl). cbn in *.
  destruct (hbeat_law (st_ident s) (str "xap-hbeat.stop") XAP_HEARTBEAT_INTERVAL (st_pid s)) as (m & H1 & H2 & H3 & H4 & H5 & H6 & c & H7 & ->); [done|by apply text_wf_str|done|done|done|].
  exists m. repeat (split; [done|]). split; [by eexists|]. done.
Qed.

(** ** The table *)

(** One entry per port and per address. *)
Definition hub_inv (l : list hubEntry) : Prop := NoDup (map port l) /\ NoDup (map he_addr l).

Lemma has_port_None p l : ll_search (has_port p) l = None <-> p ∉ map port l.
Proof.
  rewrite ll_search_None. induction l as [|e l IH]; [split; [intros _; apply not_elem_of_nil|constructor]|].
  cbn [map]. rewrite Forall_cons, IH, not_elem_of_cons. unfold has_port.
  rewrite Z.eqb_neq. naive_solver.
Qed.

Lemma update_ports a i t l : map port (ll_update a (set_entry i t) l) = map port l.
Proof. unfold ll_update. rewrite map_map. apply map_ext. intros e. by case_bool_decide. Qed.

Lemma update_addrs a i t l : map he_addr (ll_update a (set_entry i t) l) = map he_addr l.
Proof. unfold ll_update. rewrite map_map. apply map_ext. intros e. by case_bool_decide. Qed.

Lemma addOrUpdate_inv a p i l l' :
  hub_inv l -> a ∉ map he_addr l -> addOrUpdateHubEntry a p i l = Ok l' -> hub_inv l'.
Proof.
  intros [Hp Ha] Hfresh H. unfold addOrUpdateHubEntry in H.
  destruct (ll_search (has_port p) l) as [e|] eqn:Hs; inv_bind H; apply Ok_inj in H; subst l';
    unfold hub_inv; rewrite update_ports, update_addrs; [done|].
  apply has_port_None in Hs. cbn [map]. by split; apply NoDup_cons.
Qed.

Lemma stop_maps p l :
  map port (stopHubConnection p l) = map port l /\ map he_addr (stopHubConnection p l) = map he_addr l.
Proof.
  induction l as [|e l [IH1 IH2]]; [done|]. cbn [stopHubConnection]. destruct (port e =? p); [done|].
  cbn [map]. by rewrite IH1, IH2.
Qed.

Lemma reap_maps i l l' :
  reapHubConnections i l = Ok l' -> map port l' = map port l /\ map he_addr l' = map he_addr l.
Proof.
  revert l'. induction l as [|e l IH]; intros l' H; cbn [reapHubConnections] in H.
  - by injection H as <-.
  - inv_bind H. inv_bind H. injection H as <-. destruct (IH _ Ha0) as [Hp Hx]. cbn [map].
    rewrite Hp, Hx. unfold reap_entry in Ha. destruct (is_alive e); [inv_bind Ha|]; by injection Ha as <-.
Qed.

Lemma local_packet_inv a rx f l l' :
  hub_inv l -> a ∉ map he_addr l -> local_packet a rx f l = Ok (Some l') -> hub_inv l'.
Proof.
  intros Hinv Hfresh H. unfold local_packet in H. inv_bind H. destruct a0 as [f' n]. inv_bind H.
  destruct (a0 =? XAP_MSG_HBEAT); [|by injection H as <-].
  inv_bind H. inv_bind H. destruct a2, a1; try (by injection H as <-).
  destruct (atoi l0 =? rx); [done|]. inv_bind H.
  destruct (match a1 with Some c => _ | None => _ end).
  - injection H as <-. unfold hub_inv. by destruct (stop_maps (atoi l0) l) as [-> ->].
  - destruct (addOrUpdateHubEntry a (atoi l0) (atoi l1) l) as [l2| |] eqn:Hadd; try done.
    injection H as <-. by eapply addOrUpdate_inv.
Qed.

Lemma recv_sized f d : frame_sized f -> frame_sized (recv_into f d).
Proof.
  intros [Hd Hp]. destruct d as [b|]; [|done]. split; [|done]. cbn [recv_into dataPacket].
  rewrite length_app, length_drop. pose proof (length_take b (Z.to_nat (XAP_DATA_LEN - 1))).
  unfold XAP_DATA_LEN in *. lia.
Qed.

Lemma step_inv rx h h' :
  hub_step rx h h' -> hub_inv (hubList h) /\ frame_sized (gframe h) ->
  hub_inv (hubList h') /\ frame_sized (gframe h').
Proof.
  intros Hs [Hinv Hsz]. destruct Hs as [h a local dgram h' Hfresh H|h l H].
  - unfold xapRxBroadcast in H. pose proof (recv_sized _ dgram Hsz) as Hr.
    destruct (len (recv_into (gframe h) dgram) <=? 0); [injection H as <-; exact (conj Hinv Hr)|].
    assert (Hr' : forall i, frame_sized (set_dataPacket (<[i:=0]> (dataPacket (recv_into (gframe h) dgram))) (recv_into (gframe h) dgram))).
    { intros i. destruct Hr. split; cbn [set_dataPacket dataPacket parsedMsg]; [by rewrite length_insert|done]. }
    destruct local; [|injection H as <-; exact (conj Hinv (Hr' _))]. inv_bind H.
    destruct a0 as [l|]; injection H as <-; [|exact (conj Hinv (Hr' _))]. split; [by eapply local_packet_inv|apply Hr'].
  - destruct (reap_maps _ _ _ H) as [Hp Ha]. split; [|done]. unfold hub_inv. cbn [hubList]. by rewrite Hp, Ha.
Qed.

(** ** Lifetime of an entry *)

Fixpoint reaps (n : nat) (l : list hubEntry) : out (list hubEntry) :=
  match n with
  | O => Ok l
  | S m => l ← reapHubConnections reapTimeSecs l; reaps m l
  end.

(** No live timer is close enough to the minimum for the subtraction to overflow. *)
Definition timer_ok (e : hubEntry) : Prop :=
  is_alive e = true -> INT_MIN + reapTimeSecs <= timer e <= INT_MAX.

Lemma reap_entry_total e :
  timer_ok e -> exists e', reap_entry reapTimeSecs e = Ok e' /\ timer_ok e' /\ port e' = port e.
Proof.
  unfold timer_ok, reap_entry, reapTimeSecs, INT_MIN, INT_MAX. destruct (is_alive e) eqn:Ha; [|intros _; exists e; split; [done|]; split; [congruence|done]].
  intros Hok. specialize (Hok eq_refl). rewrite add_int_Ok by (unfold int_range, INT_MIN, INT_MAX; lia).
  rewrite bind_Ok. eexists; split; [done|]. split; [|done]. cbn. intros. lia.
Qed.

Lemma reap_total l :
  Forall timer_ok l ->
  exists l', reapHubConnections reapTimeSecs l = Ok l' /\ Forall timer_ok l' /\
    Forall2 (fun e e' => reap_entry reapTimeSecs e = Ok e') l l'.
Proof.
  induction 1 as [|e l He _ (l' & Hl & Hok & H2)].
  - exists []. repeat split; constructor.
  - destruct (reap_entry_total e He) as (e' & He' & Hok' & _). exists (e' :: l').
    cbn [reapHubConnections]. rewrite He', bind_Ok, Hl, bind_Ok.
    split; [done|]. split; by constructor.
Qed.

(** A dead entry stays as it is. *)
Lemma reaps_dead n l d :
  Forall timer_ok l -> d ∈ l -> is_alive d = false -> exists l', reaps n l = Ok l' /\ d ∈ l'.
Proof.
  revert l. induction n as [|n IH]; intros l Hok Hd Ha; [by exists l|].
  cbn [reaps]. destruct (reap_total l Hok) as (l1 & -> & Hok1 & H2). rewrite bind_Ok.
  apply IH; [done| |done]. apply list_elem_of_lookup in Hd as [k Hk].
  destruct (Forall2_lookup_l _ _ _ _ _ H2 Hk) as (d1 & Hk1 & Hd1).
  unfold reap_entry in Hd1. rewrite Ha in Hd1. injection Hd1 as <-. by eapply list_elem_of_lookup_2.
Qed.

(** [n] runs of the reaper over a live entry. *)
Lemma reaps_entry n l e :
  Forall timer_ok l -> e ∈ l -> is_alive e = true -> 0 < timer e ->
  exists l' e', reaps n l = Ok l' /\ e' ∈ l' /\ port e' = port e /\
    is_alive e' = (reapTimeSecs * Z.of_nat n <? timer e).
Proof.
  revert l e. induction n as [|n IH]; intros l e Hok Hin Ha Ht.
  - exists l, e. repeat split; try done. rewrite Ha. symmetry. apply Z.ltb_lt. lia.
  - cbn [reaps]. destruct (reap_total l Hok) as (l1 & -> & Hok1 & H2). rewrite bind_Ok.
    apply list_elem_of_lookup in Hin as [k Hk].
    destruct (Forall2_lookup_l _ _ _ _ _ H2 Hk) as (e1 & Hk1 & He1).
    pose proof (list_elem_of_lookup_2 _ _ _ Hk1) as Hin1.
    rewrite Forall_forall in Hok. pose proof (Hok e (list_elem_of_lookup_2 _ _ _ Hk) Ha) as Hr.
    unfold reap_entry in He1. rewrite Ha in He1.
    rewrite add_int_Ok in He1 by (unfold int_range, reapTimeSecs, INT_MIN, INT_MAX in *; lia).
    rewrite bind_Ok in He1. injection He1 as <-. unfold reapTimeSecs in *.
    change (- (10)) with (-10) in *. destruct (Z.leb_spec (timer e + -10) 0) as [Hd|Hd]; cbn [negb] in Hin1.
    + destruct (reaps_dead n l1 _ Hok1 Hin1 eq_refl) as (l2 & H & Hin2). eexists l2, _. split; [done|]. split; [exact Hin2|].
      split; [done|]. cbn. symmetry. apply Z.ltb_ge. lia.
    + destruct (IH l1 _ Hok1 Hin1 eq_refl) as (l2 & e2 & H & Hin2 & Hp2 & Ha2); [cbn; lia|].
      exists l2, e2. split; [done|]. split; [done|]. split; [by rewrite Hp2|]. rewrite Ha2. cbn [timer].
      destruct (Z.ltb_spec (10 * Z.of_nat n) (timer e + -10)), (Z.ltb_spec (10 * Z.of_nat (S n)) (timer e)); done || lia.
Qed.

Lemma addOrUpdate_entry a p i l :
  a ∉ map he_addr l -> Forall timer_ok l -> int_range i -> 0 < i <= 2 ^ 30 - 1 ->
  exists l' e, addOrUpdateHubEntry a p i l = Ok l' /\ e ∈ l' /\ port e = p /\ is_alive e = true /\
    timer e = 2 * i /\ Forall timer_ok l'.
Proof.
  intros Hf Hok _ Hi. unfold addOrUpdateHubEntry.
  assert (Hupd : forall b l0 x, Forall timer_ok l0 -> x ∈ l0 -> he_addr x = b -> port x = p ->
    exists e, e ∈ ll_update b (set_entry i (i + i)) l0 /\ port e = p /\ is_alive e = true /\ timer e = 2 * i /\
      Forall timer_ok (ll_update b (set_entry i (i + i)) l0)).
  { intros b l0 x Hl0 Hx Hb Hp. exists (set_entry i (i + i) x). split.
    { unfold ll_update. apply list_elem_of_fmap. exists x. split; [|done].
      by rewrite bool_decide_eq_true_2. }
    split; [done|]. split; [done|]. split; [cbn; lia|]. unfold ll_update. apply Forall_map.
    eapply Forall_impl; [exact Hl0|]. intros y Hy. case_bool_decide; [|done].
    intros _. cbn. unfold INT_MIN, INT_MAX, reapTimeSecs. lia. }
  destruct (ll_search (has_port p) l) as [e|] eqn:Hs;
    rewrite add_int_Ok by (unfold int_range, INT_MIN, INT_MAX; lia); rewrite bind_Ok.
  - apply ll_search_Some in Hs as [Hin Hp]. unfold has_port in Hp.
    destruct (Hupd (he_addr e) l e) as (e' & ?); [done|done|done|lia|]. eexists _, e'. split; [done|]. naive_solver.
  - destruct (Hupd a (ll_prepend (mkHub a p 0 0 false) l) (mkHub a p 0 0 false)) as (e' & ?).
    + constructor; [|done]. by intros [=].
    + left.
    + done.
    + done.
    + eexists _, e'. split; [done|]. naive_solver.
Qed.

(** ** Heartbeats of a source *)

Lemma type_hbeat : type_of_section (str "xap-hbeat") = XAP_MSG_HBEAT.
Proof. reflexivity. Qed.

Lemma rx_frame f b :
  frame_sized f -> (0 < length b <= 1499)%nat ->
  (let g := recv_into f (Some b) in set_dataPacket (<[Z.to_nat (len g) := 0]> (dataPacket g)) g)
  = mkFrame (Z.of_nat (length b)) (b ++ 0 :: drop (S (length b)) (dataPacket f)) (parsedMsgCount f) (parsedMsg f)
  /\ (len (recv_into f (Some b)) <=? 0) = false.
Proof.
  intros Hf Hb. pose proof (readXapData_eq f b Hf Hb) as Hr. unfold readXapData in Hr. cbv zeta in Hr |- *.
  assert (Hl : len (recv_into f (Some b)) = Z.of_nat (length b)).
  { unfold recv_into. cbn [len]. rewrite take_ge; [done|]. unfold XAP_DATA_LEN. lia. }
  rewrite Hl in Hr |- *. destruct (Z.ltb_spec 0 (Z.of_nat (length b))); [|lia]. split; [done|lia].
Qed.

Section Source.
Context {S : Type} `{HeartbeatSource S}.

(** The change of the table a heartbeat asks for. *)
Definition hb_effect (a : addr) (s : S) (l : list hubEntry) : out (list hubEntry) :=
  if hs_stop s then Ok (stopHubConnection (hs_port s) l)
  else addOrUpdateHubEntry a (hs_port s) (hs_interval s) l.

Lemma local_heartbeat a rx s f l msg :
  hs_valid s -> hs_packet s = Ok msg -> frame_sized f ->
  (0 < length msg <= 1499)%nat /\
  local_packet a rx (mkFrame (Z.of_nat (length msg)) (msg ++ 0 :: drop (Datatypes.S (length msg)) (dataPacket f))
      (parsedMsgCount f) (parsedMsg f)) l
  = if hs_port s =? rx then Ok None else Some <$> hb_effect a s l.
Proof.
  intros Hv Hmsg [_ Hpm].
  destruct (hs_law s Hv) as (m & Hp & Hm & HL & Hn & (e & es & Hes & Hsec) & Hkv & (c & Hc & Hstop) & Hpr & Hir).
  rewrite Hp in Hmsg. injection Hmsg as <-. split; [done|]. unfold local_packet.
  rewrite parse_print by (done || lia). rewrite bind_Ok.
  set (g := parsed_frame m _ _). assert (Hrep : frame_rep g (msg_entries m)) by (by apply parsed_frame_rep).
  rewrite (get_type_rep g e es) by (by rewrite <- Hes). rewrite Hsec, type_hbeat, bind_Ok.
  change (XAP_MSG_HBEAT =? XAP_MSG_HBEAT) with true. cbn match.
  rewrite !(get_value_rep g (msg_entries m)) by done. rewrite !bind_Ok.
  rewrite (Hkv (str "interval") (fmt_d (hs_interval s))) by set_solver.
  rewrite (Hkv (str "port") (fmt_d (hs_port s))) by set_solver.
  rewrite !atoi_fmt_d by done. destruct (hs_port s =? rx); [done|].
  rewrite bind_Ok, Hc, Hstop. unfold hb_effect. by destruct (hs_stop s).
Qed.

Lemma hub_heartbeat a rx s h msg :
  hs_valid s -> hs_packet s = Ok msg -> frame_sized (gframe h) ->
  exists f, xapRxBroadcast a rx true (Some msg) h
    = if hs_port s =? rx then Ok (mkHubState (hubList h) f (sent h))
      else l ← hb_effect a s (hubList h); Ok (hubRelay (mkHubState l f (sent h))).
Proof.
  intros Hv Hmsg Hsz. destruct (local_heartbeat a rx s (gframe h) (hubList h) msg Hv Hmsg Hsz) as [HL Hloc].
  destruct (rx_frame (gframe h) msg Hsz HL) as [Hfr Hlen]. cbv zeta in Hfr. unfold xapRxBroadcast. cbv zeta.
  rewrite Hlen, Hfr, Hloc. eexists. destruct (Z.eqb_spec (hs_port s) rx); [done|].
  by destruct (hb_effect a s (hubList h)).
Qed.

End Source.

Lemma stop_dead p l : NoDup (map port l) -> Forall (fun e => port e = p -> is_alive e = false) (stopHubConnection p l).
Proof.
  induction l as [|e l IH]; intros Hnd; [constructor|]. cbn [map] in Hnd. apply NoDup_cons in Hnd as [He Hnd].
  cbn [stopHubConnection]. destruct (Z.eqb_spec (port e) p) as [<-|Hp]; constructor; try done; [|auto].
  apply Forall_forall. intros x Hx Hpx. exfalso. apply He. rewrite <- Hpx. apply list_elem_of_fmap. eauto.
Qed.

(** * Claims *)

(** C4.  In every reachable state of the hub the table has at most one entry per
    port, the entries are distinct blocks, and the frame keeps its size. *)
Theorem hub_reachable_inv (rxPort : Z) (h : hub) :
  hub_reachable rxPort h ->
  NoDup (map port (hubList h)) /\ NoDup (map he_addr (hubList h)) /\ frame_sized (gframe h).
Proof.
  intros Hr. assert (Hi : hub_inv (hubList h) /\ frame_sized (gframe h)).
  { induction Hr as [f Hf|h h' _ IH Hs]; [split; [split; constructor|done]|]. by eapply step_inv. }
  destruct Hi as [[? ?] ?]. done.
Qed.

Lemma hub_reachable_inv_witness :
  exists h, hubList h = [mkHub 1 3640 60 110 true] /\ NoDup (map port (hubList h)).
Proof.
  pose (s := mkSender (mkIdent (str "dbzoo.livebox.x") (str "FF00DC00") 3640 (str "10.0.0.1")) 42 60).
  pose (h0 := mkHubState [] (load_packet []) []).
  pose (msg := print_msg [hbeat_block (hb_ident s) (str "xap-hbeat.alive") 60 42]).
  destruct (xapRxBroadcast 1 3639 true (Some msg) h0) as [h1| |] eqn:H1;
    [|vm_compute in H1; discriminate|vm_compute in H1; discriminate].
  assert (Hl1 : hubList h1 = [mkHub 1 3640 60 120 true]) by (vm_compute in H1; injection H1 as <-; reflexivity).
  exists (mkHubState [mkHub 1 3640 60 110 true] (gframe h1) (sent h1)). split; [done|].
  apply (hub_reachable_inv 3639). apply (reach_step _ h1).
  - apply (reach_step _ h0); [apply reach_init, (load_packet_sized []); simpl; lia|].
    apply (step_recv _ _ 1 true (Some msg)); [apply not_elem_of_nil|done].
  - apply step_reap. rewrite Hl1. reflexivity.
Defined.

(** C28.  A program that announces itself with a positive interval of up to
    2^30-1 seconds is alive exactly while the reaper, which runs every ten
    seconds, has counted less than twice its interval. *)
Theorem hub_entry_lifetime (a : addr) (p i : Z) (l : list hubEntry) (n : nat) :
  a ∉ map he_addr l -> Forall timer_ok l -> 0 < i <= 2 ^ 30 - 1 ->
  exists l' l'' e, addOrUpdateHubEntry a p i l = Ok l' /\ reaps n l' = Ok l'' /\
    e ∈ l'' /\ port e = p /\ is_alive e = (10 * Z.of_nat n <? 2 * i).
Proof.
  intros Hf Hok Hi.
  destruct (addOrUpdate_entry a p i l Hf Hok) as (l' & e & Hl' & He & Hp & Ha & Ht & Hok');
    [unfold int_range, INT_MIN, INT_MAX; lia|done|].
  destruct (reaps_entry n l' e Hok' He Ha) as (l'' & e' & Hl'' & He' & Hp' & Ha'); [lia|].
  exists l', l'', e'. rewrite <- Ht. split; [done|]. split; [done|]. split; [done|]. split; [by rewrite Hp'|done].
Qed.

Lemma hub_entry_lifetime_witness :
  exists l' l'' e, addOrUpdateHubEntry 7 3641 60 [mkHub 1 3640 60 50 true] = Ok l' /\ reaps 12 l' = Ok l'' /\
    e ∈ l'' /\ port e = 3641 /\ is_alive e = false.
Proof.
  apply (hub_entry_lifetime 7 3641 60 [mkHub 1 3640 60 50 true] 12).
  - by apply (bool_decide_eq_true_1 (_ ∉ _)).
  - constructor; [|constructor]. intros _. vm_compute. split; discriminate.
  - lia.
Defined.



(** A heartbeat of any conforming source, sent from the hub's host, has
    exactly the effect its class asks for: it connects or refreshes the sender's
    entry, or disconnects it when it is a stop, and the packet is then relayed;
    with the hub's own port it changes nothing and is not relayed.  After a stop
    no entry of the port is alive. *)
Theorem hub_accepts_heartbeats {S : Type} `{HeartbeatSource S} (a : addr) (rx : Z) (s : S) (h : hub) (msg : cstr) :
  hs_valid s -> hs_packet s = Ok msg -> frame_sized (gframe h) -> NoDup (map port (hubList h)) ->
  (exists f, xapRxBroadcast a rx true (Some msg) h
    = if hs_port s =? rx then Ok (mkHubState (hubList h) f (sent h))
      else l ← (if hs_stop s then Ok (stopHubConnection (hs_port s) (hubList h))
                else addOrUpdateHubEntry a (hs_port s) (hs_interval s) (hubList h));
           Ok (hubRelay (mkHubState l f (sent h)))) /\
  Forall (fun e => port e = hs_port s -> is_alive e = false) (stopHubConnection (hs_port s) (hubList h)).
Proof. intros. split; [by apply (hub_heartbeat a rx s h msg)|by apply stop_dead]. Qed.

(** The library's own heartbeat connects the program that sent it, and its stop
    message disconnects it. *)
Lemma hub_accepts_heartbeats_witness :
  let x := mkIdent (str "dbzoo.livebox.x") (str "FF00DC00") 3640 (str "10.0.0.1") in
  let h := mkHubState [] (load_packet []) [] in
  exists msg f, heartbeatHandler x 42 60 = Ok msg /\
    xapRxBroadcast 1 3639 true (Some msg) h
    = Ok (hubRelay (mkHubState [mkHub 1 3640 60 120 true] f [])).
Proof.
  intros x h. destruct (heartbeatHandler x 42 60) as [msg| |] eqn:Hm;
    [|vm_compute in Hm; discriminate|vm_compute in Hm; discriminate].
  destruct (hub_accepts_heartbeats 1 3639 (mkSender x 42 60) h msg) as [(f & Hf) _].
  - split; [split; [|split]; by apply text_wf_str|]. split; [vm_compute; split; discriminate|].
    split; [vm_compute; split; discriminate|]. vm_compute. lia.
  - done.
  - apply (load_packet_sized []). simpl. lia.
  - constructor.
  - exists msg, f. split; [done|]. rewrite Hf. reflexivity.
Defined.
