(* ===== verification/MinIni.v ===== *)
(** * Configuration files (xaplib2/minIni.c, minGlue.h)

    Every program of the system reads its settings from an INI file with
    [ini_gets] and [ini_getl]; the web interface changes them with [ini_puts].
    A file is its bytes; an open file is the sequence of buffers [fgets] will
    deliver.  The theorems: reading gives the value of the first matching key of
    the first matching section, whatever blank lines and indentation the file
    has; a value that was written is read back, and all other keys keep theirs,
    provided the old entry was written without a blank before its ["="]; numbers
    survive [ini_putl] and [ini_getl] over the whole range of [long]; sections
    are enumerated in order. *)

From S2P Require Import Prelude.

Definition INI_BUFFERSIZE : nat := 512.

(** ** Reading lines *)

(** [fgets] into a buffer with room for [n] characters. *)
Fixpoint fgets (n : nat) (s : list Z) : list Z * list Z :=
  match n, s with
  | S m, c :: r => if c =? 10 then ([c], r) else let '(l, r) := fgets m r in (c :: l, r)
  | _, _ => ([], s)
  end.

(** The strings [ini_read] delivers until the end of the file. *)
Fixpoint read_loop (fuel : nat) (s : list Z) : list cstr :=
  match fuel, s with
  | S f, _ :: _ => let '(l, r) := fgets (INI_BUFFERSIZE - 1) s in c_text l :: read_loop f r
  | _, _ => []
  end.

Definition ini_read (s : list Z) : list cstr := read_loop (length s) s.

(** [char] is signed: bytes from 128 on count as blank. *)
Definition blank (c : Z) : bool := schar c <=? 32.

Definition skipleading (s : cstr) : cstr := skip_while blank s.

(** The string up to [skiptrailing]'s result. *)
Definition striptrailing (s : cstr) : cstr := rev (skip_while blank (rev s)).

Definition save_strncpy (src : cstr) (maxlen : nat) : cstr := take (maxlen - 1) src.

(** [strncasecmp(a,b,n) == 0]; nothing is read for [n = 0]. *)
Definition strnicmp0 (a b : cstr) (n : nat) : bool := strcasecmp0 (take n a) (take n b).

Definition opt_str (s : option cstr) : cstr := match s with Some s => s | None => [] end.
Definition starts (s : cstr) (c : Z) : bool := bool_decide (head s = Some c).

(** ** getkeystring *)

(** The text, the offset of [']'], the counter and the lines left where the
    first loop ends; [None] at the end of the file. *)
Fixpoint find_section (Section : cstr) (idxSection idx : Z) (ls : list cstr) : option (cstr * nat * Z * list cstr) :=
  match ls with
  | [] => None
  | l :: r =>
      let sp := skipleading l in
      match strchr sp 93 with
      | Some ep =>
          if negb (starts sp 91) then find_section Section idxSection idx r
          else if negb ((ep - 1 =? length Section)%nat) || negb (strnicmp0 (drop 1 sp) Section (length Section)) then
            if idx + 1 =? idxSection then Some (sp, ep, idx + 1, r)
            else find_section Section idxSection (idx + 1) r
          else Some (sp, ep, idx, r)
      | None => find_section Section idxSection idx r
      end
  end.

(** The offset of the separator of a line. *)
Definition separator (sp : cstr) : option nat :=
  match strchr sp 61 with Some e => Some e | None => strchr sp 58 end.

(** The text, the offset of the separator and the counter where the second
    loop ends; [None] at the end of the section. *)
Fixpoint find_key (Key : cstr) (idxKey idx : Z) (ls : list cstr) : option (cstr * nat * Z) :=
  match ls with
  | [] => None
  | l :: r =>
      let sp := skipleading l in
      if starts sp 91 then None
      else
        match separator sp with
        | Some ep =>
            if starts sp 59 || starts sp 35 then find_key Key idxKey idx r
            else if negb ((length (striptrailing (take ep sp)) =? length Key)%nat) || negb (strnicmp0 sp Key (length Key)) then
              if idx + 1 =? idxKey then Some (sp, ep, idx + 1) else find_key Key idxKey (idx + 1) r
            else Some (sp, ep, idx)
        | None => find_key Key idxKey idx r
        end
  end.

(** The value behind the separator, without blanks and surrounding quotes. *)
Definition key_value (sp : cstr) (ep : nat) : cstr :=
  let v := striptrailing (skipleading (drop (S ep) sp)) in
  if starts v 34 && bool_decide (last v = Some 34) then removelast (tail v) else v.

(** The second half, in the lines of the section. *)
Definition getentry (Key : option cstr) (idxKey : Z) (size : nat) (ls : list cstr) : option cstr :=
  match find_key (opt_str Key) idxKey (-1) ls with
  | None => None
  | Some (sp, ep, idx) =>
      if 0 <=? idxKey then
        if idx =? idxKey then Some (save_strncpy (striptrailing sp) size) else None
      else Some (save_strncpy (key_value sp ep) size)
  end.

(** [Some] is the contents of [Buffer] after a result of 1. *)
Definition getkeystring (ls : list cstr) (Section Key : option cstr) (idxSection idxKey : Z) (size : nat) : option cstr :=
  let len := length (opt_str Section) in
  if (0 <? len)%nat || (0 <=? idxSection) then
    match find_section (opt_str Section) idxSection (-1) ls with
    | None => None
    | Some (sp, ep, idx, r) =>
        if 0 <=? idxSection then
          if idx =? idxSection then Some (save_strncpy (drop 1 (take ep sp)) size) else None
        else getentry Key idxKey size r
    end
  else getentry Key idxKey size ls.

(** ** Reading values *)

(** [file]: the bytes of the file, [None] when it cannot be opened; [buf]: the
    string in [Buffer] before.  The result and [Buffer] afterwards. *)
Definition ini_gets (Section Key : option cstr) (DefValue buf : cstr) (size : Z) (file : option (list Z)) : Z * cstr :=
  match Key with
  | None => (0, buf)
  | Some _ =>
      if size <=? 0 then (0, buf)
      else
        let b := match file ≫= fun s => getkeystring (ini_read s) Section Key (-1) (-1) (Z.to_nat size) with
                 | Some b => b
                 | None => save_strncpy DefValue (Z.to_nat size)
                 end in
        (Z.of_nat (length b), b)
  end.

Definition ini_getl (Section Key : option cstr) (DefValue : Z) (file : option (list Z)) : Z :=
  let '(len, buff) := ini_gets Section Key [] [] 64 file in
  if len =? 0 then DefValue else atoi buff.

Definition ini_getsection (idx : Z) (buf : cstr) (size : Z) (file : option (list Z)) : Z * cstr :=
  if (size <=? 0) || (idx <? 0) then (0, buf)
  else
    let b := opt_str (file ≫= fun s => getkeystring (ini_read s) None None idx (-1) (Z.to_nat size)) in
    (Z.of_nat (length b), b).

Definition ini_getkey (Section : option cstr) (idx : Z) (buf : cstr) (size : Z) (file : option (list Z)) : Z * cstr :=
  if (size <=? 0) || (idx <? 0) then (0, buf)
  else
    let b := opt_str (file ≫= fun s => getkeystring (ini_read s) Section None (-1) idx (Z.to_nat size)) in
    (Z.of_nat (length b), b).

(** ** Writing values *)

Definition INI_LINETERM : cstr := [10].

(** What is written for a section header and for an entry. *)
Definition writesection (Section : cstr) : cstr :=
  match Section with
  | [] => []
  | _ => 91 :: save_strncpy Section (INI_BUFFERSIZE - 4) ++ [93] ++ INI_LINETERM
  end.

Definition writekey (Key Value : cstr) : cstr :=
  let k := save_strncpy Key (INI_BUFFERSIZE - 3) ++ [61] in
  k ++ save_strncpy Value (INI_BUFFERSIZE - length k - 2) ++ INI_LINETERM.

(** An entry is written only when both are given. *)
Definition entry_text (f : cstr -> cstr -> cstr) (Key Value : option cstr) : cstr :=
  match Key, Value with Some k, Some v => f k v | _, _ => [] end.

Definition section_line (Section sp : cstr) : bool :=
  match strchr sp 93 with
  | Some ep => starts sp 91 && (ep - 1 =? length Section)%nat && strnicmp0 (drop 1 sp) Section (length Section)
  | None => false
  end.

(** The loop that copies up to the section: what it wrote and the lines left, or
    everything when the section is not there. *)
Fixpoint put_section (Section : cstr) (Key Value : option cstr) (count : nat) (w : cstr) (ls : list cstr)
    : cstr * option (list cstr) :=
  match ls with
  | [] => (w ++ entry_text (fun k v => INI_LINETERM ++ writesection Section ++ writekey k v) Key Value, None)
  | l :: r =>
      let sp := skipleading l in
      let mat := section_line Section sp in
      let '(w, count) :=
        if (negb mat || bool_decide (Key <> None)) && (0 <? length sp)%nat
        then (w ++ (if starts sp 91 && (0 <? count)%nat then INI_LINETERM else []) ++ sp, S count)
        else (w, count) in
      if mat then (w, Some r) else put_section Section Key Value count w r
  end.

(** The rest of the file, without blank lines, one before each section. *)
Fixpoint put_rest (ls : list cstr) : cstr :=
  match ls with
  | [] => []
  | l :: r =>
      let sp := skipleading l in
      (if (0 <? length sp)%nat then (if starts sp 91 then INI_LINETERM else []) ++ sp else []) ++ put_rest r
  end.

(** The loop over the entries of the section and what follows it. *)
Fixpoint put_key (Key Value : option cstr) (w : cstr) (ls : list cstr) : cstr :=
  match ls with
  | [] => w ++ entry_text (fun k v => INI_LINETERM ++ writekey k v) Key Value
  | l :: r =>
      let sp := skipleading l in
      let len := length (opt_str Key) in
      let mat := match separator sp with
                 | Some ep => (ep =? len)%nat && strnicmp0 sp (opt_str Key) len
                 | None => false
                 end in
      if starts sp 91 then
        w ++ entry_text (fun k v => k ++ [61] ++ v ++ INI_LINETERM ++ INI_LINETERM) Key Value ++ sp ++ put_rest r
      else if bool_decide (Key <> None) && mat then
        w ++ entry_text writekey Key Value ++ put_rest r
      else put_key Key Value (w ++ (if bool_decide (Key <> None) && (0 <? length sp)%nat then sp else [])) r
  end.

(** The text of the new file. *)
Definition put_file (Section Key Value : option cstr) (ls : list cstr) : cstr :=
  let sec := opt_str Section in
  if (0 <? length sec)%nat then
    match put_section sec Key Value 0 [] ls with
    | (w, None) => w
    | (w, Some r) => put_key Key Value w r
    end
  else put_key Key Value [] ls.

(** Files by name. *)
Abbreviation ini_fs := (gmap (list Z) (list Z)).

(** [None]: the name is empty and the byte before the buffer is overwritten. *)
Definition ini_tempname (source : cstr) (maxlength : nat) : option cstr :=
  match rev (save_strncpy source maxlength) with
  | [] => None
  | _ :: r => Some (rev r ++ [126])
  end.

(** [writable]: the names that can be opened for writing.  The file is read as
    it was when it was opened: it is not the one being written unless its name
    ends with ['~']. *)
Definition ini_puts (Section Key Value : option cstr) (Filename : cstr) (writable : cstr -> bool) (fs : ini_fs) : out (Z * ini_fs) :=
  match fs !! Filename with
  | None =>
      match Key, Value with
      | Some k, Some v =>
          if writable Filename then Ok (1, <[Filename := writesection (opt_str Section) ++ writekey k v]> fs) else Ok (0, fs)
      | _, _ => Ok (1, fs)
      end
  | Some s =>
      tmp ← of_opt OutOfBounds (ini_tempname Filename INI_BUFFERSIZE);
      if writable tmp then
        let fs := <[tmp := put_file Section Key Value (ini_read s)]> fs in
        Ok (1, match fs !! tmp with Some t => <[Filename := t]> (delete tmp (delete Filename fs)) | None => fs end)
      else Ok (0, fs)
  end.

(** ** Numbers *)

(** Digits, least significant first; ["%"] and ["/"] truncate. *)
Fixpoint long_digits (fuel : nat) (value : Z) : cstr :=
  match fuel with
  | O => []
  | S f =>
      let n := Z.rem value 10 in
      (Z.abs n + 48) :: (if Z.quot value 10 =? 0 then [] else long_digits f (Z.quot value 10))
  end.

(** [for (i = 0, j = strlen(str)-1; i < j; i++, j--)]: the swap of the outer
    characters. *)
Fixpoint strreverse_loop (fuel : nat) (i j : Z) (s : cstr) : cstr :=
  match fuel with
  | O => s
  | S f =>
      if i <? j then
        match s !! Z.to_nat i, s !! Z.to_nat j with
        | Some a, Some b => strreverse_loop f (i + 1) (j - 1) (<[Z.to_nat j := a]> (<[Z.to_nat i := b]> s))
        | _, _ => s
        end
      else s
  end.

Definition strreverse (s : cstr) : cstr := strreverse_loop (length s) 0 (Z.of_nat (length s) - 1) s.

(** A [long] of 32 bits has at most ten digits. *)
Definition long2str (value : Z) : cstr :=
  strreverse (long_digits 10 value ++ if value <? 0 then [45] else []).

Definition ini_putl (Section Key : option cstr) (Value : Z) (Filename : cstr) (writable : cstr -> bool) (fs : ini_fs) : out (Z * ini_fs) :=
  ini_puts Section Key (Some (long2str Value)) Filename writable fs.

(** * Properties *)

(** ** Lines *)

Definition file_text (ls : list cstr) : list Z := concat (map (fun l => l ++ [10]) ls).

(** A line, with its end, that one [ini_read] delivers whole. *)
Definition good (l : cstr) : Prop :=
  exists t, l = t ++ [10] /\ 10 ∉ t /\ 0 ∉ t /\ (length t <= 510)%nat.

Lemma fgets_line n t rest : 10 ∉ t -> (length t < n)%nat -> fgets n (t ++ 10 :: rest) = (t ++ [10], rest).
Proof.
  revert n. induction t as [|c t IH]; intros n Ht Hn; destruct n as [|n]; simpl in Hn; [lia| |lia|]; [done|].
  apply not_elem_of_cons in Ht as [Hc Ht]. cbn [app fgets]. destruct (Z.eqb_spec c 10); [done|].
  rewrite IH by (done || lia). done.
Qed.

Lemma c_text_id l : 0 ∉ l -> c_text l = l.
Proof.
  intros Hl. apply take_while_all, Forall_forall. intros c Hc. destruct (Z.eqb_spec c 0); [|done]. by subst.
Qed.

Lemma good_no_nul l : good l -> 0 ∉ l.
Proof. intros (t & -> & _ & H & _). set_solver. Qed.

Lemma read_loop_good L rest f :
  Forall good L -> (length (concat L ++ rest) <= f)%nat ->
  exists f', (length rest <= f')%nat /\ read_loop f (concat L ++ rest) = L ++ read_loop f' rest.
Proof.
  intros HL. revert f. induction HL as [|l L Hl _ IH]; intros f Hf; [by exists f|].
  pose proof (c_text_id l (good_no_nul l Hl)) as Hc. destruct Hl as (t & -> & Ht & _ & Hlen).
  cbn [concat] in *. rewrite <- !app_assoc in *. cbn [app] in *.
  rewrite length_app in Hf. simpl in Hf. destruct f as [|f]; [lia|].
  destruct (IH f ltac:(lia)) as (f' & Hf' & Hr). exists f'. split; [done|].
  cbn [read_loop]. destruct (t ++ 10 :: concat L ++ rest) as [|c q] eqn:E; [by destruct t|]. rewrite <- E.
  rewrite fgets_line by (done || unfold INI_BUFFERSIZE; lia). by rewrite Hc, Hr.
Qed.

Lemma ini_read_good L : Forall good L -> ini_read (concat L) = L.
Proof.
  intros HL. destruct (read_loop_good L [] (length (concat L)) HL) as (f' & _ & Hr); [by rewrite app_nil_r|].
  rewrite app_nil_r in Hr. unfold ini_read. rewrite Hr. destruct f'; by rewrite app_nil_r.
Qed.

(** ** Blanks *)

Lemma skip_while_idem p s : skip_while p (skip_while p s) = skip_while p s.
Proof. induction s as [|c s IH]; [done|]. simpl. destruct (p c) eqn:E; [done|]. simpl. by rewrite E. Qed.

Lemma skip_while_suffix p s : exists a, s = a ++ skip_while p s.
Proof.
  induction s as [|c s [a IH]]; [by exists []|]. simpl. destruct (p c); [|by exists []]. exists (c :: a). by rewrite IH at 1.
Qed.

Lemma skip_while_nil p s : Forall (fun c => p c = true) s -> skip_while p s = [].
Proof. induction 1 as [|c s Hc _ IH]; [done|]. simpl. by rewrite Hc. Qed.

Lemma skip_while_head p s : match s with c :: _ => p c = false | [] => True end -> skip_while p s = s.
Proof. destruct s as [|c s]; [done|]. simpl. by intros ->. Qed.

(** What is left of a line is nothing or a line again. *)
Lemma skipleading_good l : good l -> skipleading l = [] \/ good (skipleading l).
Proof.
  intros (t & -> & H10 & H0 & Hlen). unfold skipleading.
  destruct (skip_while_suffix blank (t ++ [10])) as [a Ha]. set (q := skip_while blank (t ++ [10])) in *. clearbody q.
  destruct (decide (q = [])) as [|Hq]; [by left|]. right. destruct (exists_last Hq) as (t' & c & ->).
  rewrite app_assoc in Ha. apply app_inj_tail in Ha as [-> <-]. exists t'. split; [done|].
  rewrite length_app in Hlen. split; [set_solver|]. split; [set_solver|]. lia.
Qed.

(** The lines that count: without indentation, none empty. *)
Definition norm (ls : list cstr) : list cstr := filter (fun l => l <> []) (map skipleading ls).

Lemma norm_cons l ls : norm (l :: ls) = (if decide (skipleading l = []) then [] else [skipleading l]) ++ norm ls.
Proof.
  unfold norm. cbn [map]. rewrite filter_cons. destruct (decide (skipleading l = [])) as [He|He].
  - rewrite decide_False by (by intros []). done.
  - by rewrite decide_True.
Qed.

Lemma norm_app l1 l2 : norm (l1 ++ l2) = norm l1 ++ norm l2.
Proof. unfold norm. by rewrite map_app, filter_app. Qed.

(** ** What reading means *)

(** A key line of [sp] for the key [k]. *)
Definition is_entry (k sp : cstr) : bool :=
  match separator sp with
  | Some ep => negb (starts sp 59 || starts sp 35) && strcasecmp0 (striptrailing (take ep sp)) k
  | None => false
  end.

Definition entry_value (sp : cstr) : cstr :=
  match separator sp with Some ep => key_value sp ep | None => [] end.

Fixpoint lookup_entry (k : cstr) (ls : list cstr) : option cstr :=
  match ls with
  | [] => None
  | sp :: r => if starts sp 91 then None else if is_entry k sp then Some (entry_value sp) else lookup_entry k r
  end.

Fixpoint lookup_ini (s k : cstr) (ls : list cstr) : option cstr :=
  match ls with
  | [] => None
  | sp :: r => if section_line s sp then lookup_entry k r else lookup_ini s k r
  end.

Lemma striptrailing_prefix s : exists b, s = striptrailing s ++ b.
Proof.
  unfold striptrailing. destruct (skip_while_suffix blank (rev s)) as [a Ha]. exists (rev a).
  rewrite <- rev_app_distr, <- Ha. by rewrite rev_involutive.
Qed.

(** The comparison of [getkeystring] is that of the whole key. *)
Lemma key_compare sp ep k :
  (length (striptrailing (take ep sp)) =? length k)%nat && strnicmp0 sp k (length k)
  = strcasecmp0 (striptrailing (take ep sp)) k.
Proof.
  destruct (striptrailing_prefix (take ep sp)) as [b Hb]. set (q := striptrailing (take ep sp)) in *. clearbody q.
  assert (Hsp : sp = q ++ b ++ drop ep sp) by (by rewrite app_assoc, <- Hb, take_drop).
  unfold strnicmp0. destruct (Nat.eqb_spec (length q) (length k)) as [He|Hne]; cbn [andb].
  - rewrite (take_ge k) by lia. rewrite Hsp, take_app_length' by done. done.
  - symmetry. apply bool_decide_eq_false_2. intros Hm. apply (f_equal length) in Hm. by rewrite !length_map in Hm.
Qed.

Lemma find_key_lookup k ls idx :
  -1 <= idx ->
  match find_key k (-1) idx ls with Some (sp, ep, _) => Some (key_value sp ep) | None => None end = lookup_entry k (norm ls).
Proof.
  revert idx. induction ls as [|l ls IH]; intros idx Hi; [done|]. rewrite norm_cons. cbn [find_key].
  destruct (decide (skipleading l = [])) as [He|He]; [rewrite He; by apply IH|]. cbn [app lookup_entry].
  unfold is_entry, entry_value. destruct (starts (skipleading l) 91); [done|].
  destruct (separator (skipleading l)) as [ep|]; [|by apply IH].
  destruct (starts (skipleading l) 59 || starts (skipleading l) 35); cbn [negb andb]; [by apply IH|].
  rewrite <- negb_andb, key_compare. destruct (strcasecmp0 _ k); cbn [negb]; [done|].
  destruct (Z.eqb_spec (idx + 1) (-1)); [lia|]. apply IH. lia.
Qed.

Lemma find_section_lookup s k ls idx :
  -1 <= idx ->
  match find_section s (-1) idx ls with Some (_, _, _, r) => lookup_entry k (norm r) | None => None end = lookup_ini s k (norm ls).
Proof.
  revert idx. induction ls as [|l ls IH]; intros idx Hi; [done|]. rewrite norm_cons. cbn [find_section].
  destruct (decide (skipleading l = [])) as [He|He]; [rewrite He; by apply IH|]. cbn [app lookup_ini]. unfold section_line.
  destruct (strchr (skipleading l) 93) as [ep|]; [|by apply IH]. destruct (starts (skipleading l) 91); cbn [negb andb]; [|by apply IH].
  rewrite <- negb_andb. destruct ((ep - 1 =? length s)%nat && _); cbn [negb]; [done|].
  destruct (Z.eqb_spec (idx + 1) (-1)); [lia|]. apply IH. lia.
Qed.

Lemma getkeystring_lookup ls s k size :
  s <> [] -> getkeystring ls (Some s) (Some k) (-1) (-1) size = (fun v => save_strncpy v size) <$> lookup_ini s k (norm ls).
Proof.
  intros Hs. unfold getkeystring. cbn [opt_str]. destruct (Nat.ltb_spec 0 (length s)) as [_|H0]; [|by destruct s; simpl in H0; [|lia]].
  cbn [orb]. rewrite <- (find_section_lookup s k ls (-1)) by lia.
  destruct (find_section s (-1) (-1) ls) as [[[[sp ep] idx] r]|]; [|done]. cbn [Z.leb]. change (0 <=? -1) with false. cbv iota.
  unfold getentry. cbn [opt_str]. rewrite <- (find_key_lookup k r (-1)) by lia.
  destruct (find_key k (-1) (-1) r) as [[[sp' ep'] idx']|]; [|done]. change (0 <=? -1) with false. done.
Qed.

(** ** What writing means *)

Definition header_line (s : cstr) : cstr := [91] ++ s ++ [93; 10].
Definition entry_line (k v : cstr) : cstr := k ++ [61] ++ v ++ [10].

(** The line [ini_puts] takes for the entry of [k]. *)
Definition put_match (k sp : cstr) : bool :=
  match separator sp with Some ep => (ep =? length k)%nat && strnicmp0 sp k (length k) | None => false end.

(** The lines afterwards: the entry replaces the old one, or ends its section,
    or comes with a new section at the end of the file. *)
Fixpoint edit_entries (k v : cstr) (ls : list cstr) : list cstr :=
  match ls with
  | [] => [entry_line k v]
  | l :: r =>
      if starts l 91 then entry_line k v :: l :: r
      else if put_match k l then entry_line k v :: r
      else l :: edit_entries k v r
  end.

Fixpoint edit_section (s k v : cstr) (ls : list cstr) : list cstr :=
  match ls with
  | [] => [header_line s; entry_line k v]
  | l :: r => if section_line s l then l :: edit_entries k v r else l :: edit_section s k v r
  end.

Definition ends_nonblank (s : cstr) : Prop := match rev s with c :: _ => blank c = false | [] => True end.
Definition starts_nonblank (s : cstr) : Prop := match s with c :: _ => blank c = false | [] => True end.

(** Names of sections, names of keys and values that can be stored. *)
Record section_ok (s : cstr) : Prop := {
  so_ne : s <> []; so_br : 93 ∉ s; so_nl : 10 ∉ s; so_nul : 0 ∉ s; so_len : (length s <= 500)%nat }.
Record key_ok (k : cstr) : Prop := {
  ko_ne : k <> []; ko_eq : 61 ∉ k; ko_nl : 10 ∉ k; ko_nul : 0 ∉ k;
  ko_start : starts_nonblank k; ko_end : ends_nonblank k;
  ko_first : head k <> Some 91 /\ head k <> Some 59 /\ head k <> Some 35 }.
Record value_ok (v : cstr) : Prop := {
  vo_nl : 10 ∉ v; vo_nul : 0 ∉ v; vo_start : starts_nonblank v; vo_end : ends_nonblank v;
  vo_quotes : ~ (head v = Some 34 /\ last v = Some 34) }.

Lemma skip_self s t : s <> [] -> starts_nonblank s -> skipleading (s ++ t) = s ++ t.
Proof. intros Hs Hn. destruct s as [|c s]; [done|]. apply skip_while_head. exact Hn. Qed.

Lemma entry_line_good k v :
  key_ok k -> value_ok v -> (length k + length v <= 500)%nat -> good (entry_line k v) /\ skipleading (entry_line k v) = entry_line k v.
Proof.
  intros Hk Hv Hl. split; [|apply skip_self; apply Hk]. exists (k ++ 61 :: v). unfold entry_line.
  destruct Hk, Hv. rewrite <- app_assoc. split; [done|]. split; [set_solver|]. split; [set_solver|]. rewrite length_app. simpl. lia.
Qed.

Lemma header_line_good s : section_ok s -> good (header_line s) /\ skipleading (header_line s) = header_line s.
Proof.
  intros []. split; [|done]. exists (91 :: s ++ [93]). unfold header_line. cbn [app]. rewrite <- app_assoc. split; [done|].
  split; [set_solver|]. split; [set_solver|]. simpl. rewrite length_app. simpl. lia.
Qed.

Lemma writekey_line k v : (length k + length v <= 500)%nat -> writekey k v = entry_line k v.
Proof.
  intros Hl. unfold writekey, entry_line, save_strncpy, INI_BUFFERSIZE. rewrite (take_ge k) by lia.
  rewrite take_ge by (rewrite length_app; simpl; lia). by rewrite <- !app_assoc.
Qed.

Lemma writesection_line s : section_ok s -> writesection s = header_line s.
Proof.
  intros Hs. unfold writesection, header_line, save_strncpy, INI_BUFFERSIZE. pose proof (so_ne s Hs). pose proof (so_len s Hs).
  rewrite take_ge by lia. by destruct s.
Qed.

Lemma good_nl : good [10].
Proof. exists []. split; [done|]. split; [set_solver|]. split; [set_solver|]. simpl. lia. Qed.

Lemma norm_self l ls : l <> [] -> skipleading l = l -> norm (l :: ls) = l :: norm ls.
Proof. intros Hl Hs. rewrite norm_cons, Hs, decide_False by done. done. Qed.

Lemma norm_nl ls : norm ([10] :: ls) = norm ls.
Proof. reflexivity. Qed.

(** The copied part of a file. *)
Definition copies (w : cstr) (ls : list cstr) : Prop := exists L, Forall good L /\ w = concat L /\ norm L = ls.

Lemma copies_nil : copies [] [].
Proof. by exists []. Qed.

Lemma copies_app w1 w2 l1 l2 : copies w1 l1 -> copies w2 l2 -> copies (w1 ++ w2) (l1 ++ l2).
Proof.
  intros (L1 & H1 & -> & <-) (L2 & H2 & -> & <-). exists (L1 ++ L2). rewrite concat_app, norm_app. split; [by apply Forall_app|done].
Qed.

Lemma copies_one l : good l -> skipleading l = l -> copies l [l].
Proof.
  intros Hl Hs. exists [l]. split; [by repeat constructor|]. cbn [concat]. rewrite app_nil_r. split; [done|].
  rewrite norm_self; [done| |done]. destruct Hl as (t & -> & _). by destruct t.
Qed.

Lemma copies_nl : copies INI_LINETERM [].
Proof. exists [[10]]. split; [repeat constructor; apply good_nl|done]. Qed.

(** A line as it is copied, after an optional blank line. *)
Lemma copies_line l (b : bool) :
  good l -> copies ((if (0 <? length (skipleading l))%nat then (if b then INI_LINETERM else []) ++ skipleading l else [])) (norm [l]).
Proof.
  intros Hl. rewrite norm_cons. destruct (decide (skipleading l = [])) as [He|He]; [rewrite He; apply copies_nil|].
  destruct (Nat.ltb_spec 0 (length (skipleading l))) as [_|H0]; [|by destruct (skipleading l); [|simpl in H0; lia]].
  rewrite app_nil_r. destruct (skipleading_good l Hl) as [|Hg]; [done|].
  change [skipleading l] with ([] ++ [skipleading l]). apply copies_app; [by destruct b; [apply copies_nl|apply copies_nil]|].
  apply copies_one; [done|]. apply skip_while_idem.
Qed.

Lemma put_rest_copies ls : Forall good ls -> copies (put_rest ls) (norm ls).
Proof.
  induction 1 as [|l ls Hl _ IH]; [apply copies_nil|]. cbn [put_rest]. change (l :: ls) with ([l] ++ ls). rewrite norm_app.
  apply copies_app; [by apply copies_line|done].
Qed.

Section Put.
Context (s k v : cstr) (Hs : section_ok s) (Hk : key_ok k) (Hv : value_ok v) (Hl : (length k + length v <= 500)%nat).

Lemma copies_entry : copies (entry_line k v) [entry_line k v].
Proof using Hk Hv Hl. apply copies_one; by apply entry_line_good. Qed.

Lemma put_key_copies ls w done_ :
  Forall good ls -> copies w done_ -> copies (put_key (Some k) (Some v) w ls) (done_ ++ edit_entries k v (norm ls)).
Proof using Hk Hv Hl.
  intros HL. revert w done_. induction HL as [|l ls Hgl HL IH]; intros w d Hw; cbn [put_key opt_str entry_text].
  - apply copies_app; [done|]. change (edit_entries k v (norm [])) with ([] ++ [entry_line k v]).
    apply copies_app; [apply copies_nl|]. rewrite writekey_line by done. apply copies_entry.
  - rewrite norm_cons. rewrite (bool_decide_eq_true_2 (Some k <> None)) by done. cbn [andb].
    destruct (decide (skipleading l = [])) as [He|He]; [rewrite He; cbn; rewrite app_nil_r; by apply IH|].
    pose proof (copies_line l false Hgl) as Hc. rewrite norm_cons, decide_False in Hc by done.
    destruct (Nat.ltb_spec 0 (length (skipleading l))) as [_|H0]; [|by destruct (skipleading l); [|simpl in H0; lia]].
    cbn [app edit_entries norm map filter] in Hc |- *. rewrite app_nil_r in Hc || idtac.
    fold (put_match k (skipleading l)). destruct (starts (skipleading l) 91); [|destruct (put_match k (skipleading l))].
    + apply copies_app; [done|]. change (entry_line k v :: skipleading l :: norm ls)
        with (([entry_line k v] ++ []) ++ [skipleading l] ++ norm ls).
      replace (k ++ 61 :: v ++ INI_LINETERM ++ INI_LINETERM) with (entry_line k v ++ INI_LINETERM)
        by (unfold entry_line; by rewrite <- !app_assoc).
      apply copies_app; [apply copies_app; [apply copies_entry|apply copies_nl]|].
      apply copies_app; [exact Hc|by apply put_rest_copies].
    + apply copies_app; [done|]. change (entry_line k v :: norm ls) with ([entry_line k v] ++ norm ls).
      rewrite writekey_line by done. apply copies_app; [apply copies_entry|by apply put_rest_copies].
    + change (skipleading l :: edit_entries k v (norm ls)) with ([skipleading l] ++ edit_entries k v (norm ls)).
      rewrite (app_assoc d). apply IH. by apply copies_app.
Qed.

Lemma put_section_copies ls w done_ cnt :
  Forall good ls -> copies w done_ ->
  copies (match put_section s (Some k) (Some v) cnt w ls with (w, None) => w | (w, Some r) => put_key (Some k) (Some v) w r end)
    (done_ ++ edit_section s k v (norm ls)).
Proof using Hs Hk Hv Hl.
  intros HL. revert w done_ cnt. induction HL as [|l ls Hgl HL IH]; intros w d cnt Hw; cbn [put_section entry_text].
  - rewrite writekey_line, writesection_line by done. apply copies_app; [done|].
    change (edit_section s k v (norm [])) with ([] ++ [header_line s] ++ [entry_line k v]).
    apply copies_app; [apply copies_nl|]. apply copies_app; [apply copies_one; by apply header_line_good|apply copies_entry].
  - rewrite norm_cons. rewrite (bool_decide_eq_true_2 (Some k <> None)) by done. rewrite orb_true_r. cbn [andb].
    destruct (decide (skipleading l = [])) as [He|He]; [rewrite He; cbn; by apply IH|].
    pose proof (copies_line l (starts (skipleading l) 91 && (0 <? cnt)%nat) Hgl) as Hc. rewrite norm_cons, decide_False in Hc by done.
    destruct (Nat.ltb_spec 0 (length (skipleading l))) as [_|H0]; [|by destruct (skipleading l); [|simpl in H0; lia]].
    cbn [app edit_section norm map filter] in Hc |- *. destruct (section_line s (skipleading l)).
    + change (skipleading l :: edit_entries k v (norm ls)) with ([skipleading l] ++ edit_entries k v (norm ls)).
      rewrite (app_assoc d). apply put_key_copies; [done|]. by apply copies_app.
    + change (skipleading l :: edit_section s k v (norm ls)) with ([skipleading l] ++ edit_section s k v (norm ls)).
      rewrite (app_assoc d). apply IH. by apply copies_app.
Qed.

(** The lines of the file [ini_puts] writes. *)
Lemma put_file_edit ls :
  Forall good ls -> norm (ini_read (put_file (Some s) (Some k) (Some v) ls)) = edit_section s k v (norm ls).
Proof using Hs Hk Hv Hl.
  intros HL. unfold put_file. cbn [opt_str]. pose proof (so_ne s Hs) as Hne.
  destruct (Nat.ltb_spec 0 (length s)) as [_|H0]; [|by destruct s; [|simpl in H0; lia]].
  destruct (put_section_copies ls [] [] 0 HL copies_nil) as (L & HL' & He & Hn). cbn [app] in Hn. rewrite He.
  by rewrite ini_read_good.
Qed.

End Put.

(** ** Reading after writing *)

Lemma striptrailing_self s : ends_nonblank s -> striptrailing s = s.
Proof. intros H. unfold striptrailing. rewrite skip_while_head by done. apply rev_involutive. Qed.

Lemma striptrailing_nl s : striptrailing (s ++ [10]) = striptrailing s.
Proof. unfold striptrailing. by rewrite rev_app_distr. Qed.

Lemma separator_entry k v : 61 ∉ k -> separator (entry_line k v) = Some (length k).
Proof. intros H. unfold separator, entry_line. cbn [app]. by rewrite strchr_app. Qed.

Lemma starts_entry k v c : k <> [] -> head k <> Some c -> starts (entry_line k v) c = false.
Proof. intros Hk Hc. apply bool_decide_eq_false_2. by destruct k. Qed.

Lemma is_entry_line k v k' : key_ok k -> is_entry k' (entry_line k v) = strcasecmp0 k k'.
Proof.
  intros Hk. unfold is_entry. rewrite separator_entry by apply Hk. destruct (ko_first k Hk) as (_ & H59 & H35).
  rewrite !starts_entry by (done || apply Hk). cbn [orb negb andb]. unfold entry_line. rewrite take_app_length.
  by rewrite striptrailing_self by apply Hk.
Qed.

Lemma entry_line_value k v : key_ok k -> value_ok v -> entry_value (entry_line k v) = v.
Proof.
  intros Hk Hv. unfold entry_value. rewrite separator_entry by apply Hk. unfold key_value, entry_line. cbn [app].
  replace (drop (S (length k)) (k ++ 61 :: v ++ [10])) with (v ++ [10])
    by (rewrite (app_cons_assoc k); symmetry; apply drop_app_length'; rewrite length_app; simpl; lia).
  assert (Hs : striptrailing (skipleading (v ++ [10])) = v).
  { destruct (decide (v = [])) as [->|Hne]; [done|]. rewrite skip_self by (done || apply Hv).
    rewrite striptrailing_nl. apply striptrailing_self, Hv. }
  rewrite Hs. destruct (starts v 34 && bool_decide (last v = Some 34)) eqn:Hq; [|done].
  apply andb_true_iff in Hq as [H1%bool_decide_eq_true_1 H2%bool_decide_eq_true_1]. by destruct (vo_quotes v Hv).
Qed.

Lemma section_header s s' : section_ok s -> section_line s' (header_line s) = strcasecmp0 s s'.
Proof.
  intros Hs. unfold section_line, header_line. cbn [app strchr Z.eqb Pos.eqb].
  change (s ++ [93; 10]) with (s ++ 93 :: [10]). rewrite strchr_app by apply Hs. cbn [fmap option_fmap option_map].
  unfold starts. cbn [head]. rewrite bool_decide_eq_true_2 by done. cbn [andb drop]. rewrite Nat.sub_succ, Nat.sub_0_r.
  unfold strnicmp0. destruct (Nat.eqb_spec (length s) (length s')) as [He|Hne].
  - rewrite (take_ge s') by lia. by rewrite drop_0, take_app_length'.
  - symmetry. apply bool_decide_eq_false_2. intros Hm. apply (f_equal length) in Hm. by rewrite !length_map in Hm.
Qed.

Lemma section_line_bracket s l : section_line s l = true -> starts l 91 = true.
Proof. unfold section_line. destruct (strchr l 93); [|done]. destruct (starts l 91); done. Qed.

Lemma section_line_ci s s' l : strcasecmp0 s s' = true -> section_line s l = section_line s' l.
Proof.
  rewrite strcasecmp0_spec. intros He. assert (Hl : length s = length s').
  { apply (f_equal length) in He. unfold lower in He. by rewrite !length_map in He. }
  unfold section_line, strnicmp0, strcasecmp0. rewrite Hl, (take_ge s), (take_ge s') by lia. unfold lower in He. by rewrite He.
Qed.

Lemma section_line_eq s s' l : section_line s l = true -> section_line s' l = true -> strcasecmp0 s s' = true.
Proof.
  unfold section_line. destruct (strchr l 93) as [ep|]; [|done]. rewrite !andb_true_iff, !Nat.eqb_eq.
  intros [[_ He] H] [[_ He'] H']. unfold strnicmp0 in *. rewrite (take_ge s), (take_ge s') in * by lia.
  rewrite He in He'. rewrite <- He' in H'. rewrite strcasecmp0_spec in *. by rewrite <- H, <- H'.
Qed.

Lemma blank_lower c : blank (tolower c) = blank c.
Proof. unfold blank, schar, tolower. zcase; simpl in *; lia. Qed.

Lemma nonblank_ci s t : strcasecmp0 s t = true -> ends_nonblank t -> ends_nonblank s.
Proof.
  rewrite strcasecmp0_spec. unfold lower, ends_nonblank. intros He. apply (f_equal (@rev Z)) in He. rewrite <- !map_rev in He.
  destruct (rev s) as [|c s'], (rev t) as [|d t']; simpl in He; try done. injection He as Hc _.
  by rewrite <- (blank_lower c), Hc, blank_lower.
Qed.

(** A line taken by [ini_puts] is an entry of no other key. *)
Lemma put_match_entry k k' l : key_ok k -> put_match k l = true -> strcasecmp0 k k' = false -> is_entry k' l = false.
Proof.
  intros Hk Hm Hne. unfold put_match in Hm. unfold is_entry. destruct (separator l) as [ep|]; [|done].
  apply andb_true_iff in Hm as [->%Nat.eqb_eq Hm]. unfold strnicmp0 in Hm. rewrite (take_ge k) in Hm by lia.
  rewrite striptrailing_self by (eapply nonblank_ci; [exact Hm|apply Hk]).
  destruct (strcasecmp0 (take (length k) l) k') eqn:He; [|apply andb_false_r].
  rewrite strcasecmp0_spec in *. assert (strcasecmp0 k k' = true) by (apply strcasecmp0_spec; congruence). congruence.
Qed.

(** No line of the file is an entry of [k] written with a blank before its
    separator. *)
Definition tight (k : cstr) (ls : list cstr) : Prop := Forall (fun l => is_entry k l = true -> put_match k l = true) ls.

Section Edit.
Context (s k v : cstr) (Hs : section_ok s) (Hk : key_ok k) (Hv : value_ok v).

Lemma entry_not_bracket : starts (entry_line k v) 91 = false.
Proof using Hk. apply starts_entry; [apply Hk|]. by destruct (ko_first k Hk). Qed.

Lemma lookup_edit_entries ls : tight k ls -> lookup_entry k (edit_entries k v ls) = Some v.
Proof using Hk Hv.
  assert (He : forall r, lookup_entry k (entry_line k v :: r) = Some v).
  { intros r. cbn [lookup_entry]. rewrite entry_not_bracket, is_entry_line, strcasecmp0_refl by done. by rewrite entry_line_value. }
  induction 1 as [|l ls Hl _ IH]; [apply He|]. cbn [edit_entries]. destruct (starts l 91) eqn:Hb; [apply He|].
  destruct (put_match k l) eqn:Hm; [apply He|]. cbn [lookup_entry]. rewrite Hb.
  destruct (is_entry k l); [by specialize (Hl eq_refl)|done].
Qed.

Lemma lookup_edit_other k' ls : strcasecmp0 k k' = false -> lookup_entry k' (edit_entries k v ls) = lookup_entry k' ls.
Proof using Hk.
  intros Hne. assert (He : forall r, lookup_entry k' (entry_line k v :: r) = lookup_entry k' r).
  { intros r. cbn [lookup_entry]. by rewrite entry_not_bracket, is_entry_line, Hne. }
  induction ls as [|l ls IH]; [apply He|]. cbn [edit_entries]. destruct (starts l 91) eqn:Hb; [apply He|].
  destruct (put_match k l) eqn:Hm.
  - rewrite He. cbn [lookup_entry]. by rewrite Hb, (put_match_entry k k' l).
  - cbn [lookup_entry]. by rewrite Hb, IH.
Qed.

Lemma edit_keeps_entries k' ls : lookup_entry k' (edit_section s k v ls) = lookup_entry k' ls.
Proof using.
  induction ls as [|l ls IH]; [done|]. cbn [edit_section]. destruct (section_line s l) eqn:Hl; cbn [lookup_entry].
  - by rewrite (section_line_bracket s l).
  - by rewrite IH.
Qed.

Lemma edit_keeps_sections s' k' ls :
  strcasecmp0 s s' = false -> lookup_ini s' k' (edit_entries k v ls) = lookup_ini s' k' ls.
Proof using Hk.
  intros Hne. assert (He : section_line s' (entry_line k v) = false).
  { destruct (section_line s' (entry_line k v)) eqn:E; [|done]. apply section_line_bracket in E. by rewrite entry_not_bracket in E. }
  induction ls as [|l ls IH]; cbn [edit_entries]; [cbn [lookup_ini]; by rewrite He|].
  destruct (starts l 91) eqn:Hb; [cbn [lookup_ini]; by rewrite He|].
  assert (Hsl : section_line s' l = false).
  { destruct (section_line s' l) eqn:E; [|done]. apply section_line_bracket in E. congruence. }
  destruct (put_match k l); cbn [lookup_ini]; by rewrite ?He, Hsl, ?IH.
Qed.

Lemma lookup_edit_section ls : tight k ls -> lookup_ini s k (edit_section s k v ls) = Some v.
Proof using Hs Hk Hv.
  intros Ht. induction ls as [|l ls IH]; cbn [edit_section].
  - cbn [lookup_ini]. rewrite section_header, strcasecmp0_refl by done. by apply (lookup_edit_entries []).
  - apply Forall_cons in Ht as [_ Ht]. destruct (section_line s l) eqn:Hl; cbn [lookup_ini]; rewrite Hl; [by apply lookup_edit_entries|].
    by apply IH.
Qed.

Lemma lookup_edit_section_other s' k' ls :
  strcasecmp0 s s' = false \/ strcasecmp0 k k' = false ->
  lookup_ini s' k' (edit_section s k v ls) = lookup_ini s' k' ls.
Proof using Hs Hk.
  intros Hne. destruct (strcasecmp0 s s') eqn:Hss.
  - destruct Hne as [|Hne]; [done|]. induction ls as [|l ls IH]; cbn [edit_section].
    + cbn [lookup_ini]. rewrite section_header, Hss by done. by apply (lookup_edit_other k' []).
    + destruct (section_line s l) eqn:Hl; cbn [lookup_ini]; rewrite <- (section_line_ci s s' l Hss), Hl; [by apply lookup_edit_other|done].
  - induction ls as [|l ls IH]; cbn [edit_section].
    + cbn [lookup_ini]. rewrite section_header, Hss by done.
      destruct (section_line s' (entry_line k v)) eqn:E; [|done]. apply section_line_bracket in E. by rewrite entry_not_bracket in E.
    + destruct (section_line s l) eqn:Hl; cbn [lookup_ini].
      * destruct (section_line s' l) eqn:Hl'; [by rewrite (section_line_eq s s' l Hl Hl') in Hss|]. by apply edit_keeps_sections.
      * destruct (section_line s' l); [by apply edit_keeps_entries|done].
Qed.

End Edit.

(** An entry that only [ini_gets] recognises hides the one that is written. *)
Lemma lookup_edit_hidden s k v old ls :
  lookup_ini s k ls = Some old -> Forall (fun l => put_match k l = false) ls ->
  lookup_ini s k (edit_section s k v ls) = Some old.
Proof.
  intros Hg Hm. assert (He : forall ls, lookup_entry k ls = Some old -> Forall (fun l => put_match k l = false) ls ->
    lookup_entry k (edit_entries k v ls) = Some old).
  { clear. induction ls as [|l ls IH]; [done|]. cbn [lookup_entry edit_entries]. intros Hg [Hl Hm]%Forall_cons.
    destruct (starts l 91) eqn:Hb; [done|]. rewrite Hl. cbn [lookup_entry]. rewrite Hb. destruct (is_entry k l); [done|]. by apply IH. }
  induction Hm as [|l ls Hl Hm IH]; [done|]. cbn [lookup_ini edit_section] in *.
  destruct (section_line s l) eqn:Hs; cbn [lookup_ini]; rewrite Hs; [by apply He|by apply IH].
Qed.

(** ** Numbers *)

Lemma strreverse_loop_mid f a m b i j :
  (length m <= f)%nat -> i = Z.of_nat (length a) -> j = Z.of_nat (length a + length m) - 1 ->
  strreverse_loop f i j (a ++ m ++ b) = a ++ rev m ++ b.
Proof.
  revert a m b i j. induction f as [|f IH]; intros a m b i j Hf -> ->; [by destruct m; [|simpl in Hf; lia]|].
  cbn [strreverse_loop]. destruct m as [|c m]; [destruct (Z.ltb_spec (Z.of_nat (length a)) (Z.of_nat (length a + length (@nil Z)) - 1)); [simpl in *; lia|done]|].
  destruct (decide (m = [])) as [->|Hm].
  { destruct (Z.ltb_spec (Z.of_nat (length a)) (Z.of_nat (length a + length [c]) - 1)); [simpl in *; lia|done]. }
  destruct (exists_last Hm) as (m' & d & ->). clear Hm. cbn [length] in *. rewrite length_app in *. simpl in Hf. cbn [length].
  destruct (Z.ltb_spec (Z.of_nat (length a)) (Z.of_nat (length a + S (length m' + 1)) - 1)); [|lia].
  replace (Z.to_nat (Z.of_nat (length a))) with (length a) by lia.
  replace (Z.to_nat (Z.of_nat (length a + S (length m' + 1)) - 1)) with (length (a ++ c :: m')) by (rewrite length_app; simpl; lia).
  assert (Hsh : a ++ (c :: m' ++ [d]) ++ b = (a ++ c :: m') ++ d :: b) by (cbn [app]; by rewrite <- !app_assoc).
  replace ((a ++ (c :: m' ++ [d]) ++ b) !! length a) with (Some c) by (symmetry; by apply list_lookup_middle).
  rewrite Hsh. replace (((a ++ c :: m') ++ d :: b) !! length (a ++ c :: m')) with (Some d) by (symmetry; by apply list_lookup_middle).
  rewrite <- app_assoc. cbn [app].
  assert (Hins : <[length (a ++ c :: m') := c]> (<[length a := d]> (a ++ c :: m' ++ d :: b)) = (a ++ [d]) ++ m' ++ (c :: b)).
  { assert (Hi : forall (p q : list Z) x y, <[length p := y]> (p ++ x :: q) = p ++ y :: q).
    { intros p q x' y. rewrite insert_app_r_alt by lia. by rewrite Nat.sub_diag. }
    rewrite Hi. replace (length (a ++ c :: m')) with (length (a ++ d :: m')) by (rewrite !length_app; done).
    replace (a ++ d :: m' ++ d :: b) with ((a ++ d :: m') ++ d :: b) by (by rewrite <- app_assoc).
    rewrite Hi. by rewrite <- !app_assoc. }
  rewrite Hins, IH; [|lia|rewrite length_app; simpl; lia|rewrite length_app; simpl; lia].
  cbn [rev]. rewrite rev_app_distr. cbn [rev app]. by rewrite <- !app_assoc.
Qed.

Lemma strreverse_rev s : strreverse s = rev s.
Proof.
  unfold strreverse. pose proof (strreverse_loop_mid (length s) [] s [] 0 (Z.of_nat (length s) - 1)) as H.
  cbn [app] in H. rewrite !app_nil_r in H. by apply H.
Qed.

Lemma long_digits_neg f v : long_digits f (- v) = long_digits f v.
Proof.
  revert v. induction f as [|f IH]; intros v; [done|]. cbn [long_digits].
  rewrite Z.rem_opp_l, Z.quot_opp_l by lia. rewrite Z.abs_opp, IH. f_equal.
  destruct (Z.eqb_spec (- (v ÷ 10)) 0), (Z.eqb_spec (v ÷ 10) 0); done || lia.
Qed.

Lemma long_digits_rev f g n :
  0 <= n < 10 ^ Z.of_nat f -> n < 10 ^ Z.of_nat g -> (0 < f)%nat -> (0 < g)%nat ->
  long_digits f n = map dec_char (digits_rev g 10 n).
Proof.
  revert g n. induction f as [|f IH]; intros g n Hn Hg Hf Hg0; [lia|]. destruct g as [|g]; [lia|]. cbn [long_digits digits_rev].
  rewrite Z.rem_mod_nonneg, Z.quot_div_nonneg by lia.
  pose proof (Z.mod_pos_bound n 10 ltac:(lia)) as Hm. rewrite Z.abs_eq by lia. rewrite Nat2Z.inj_succ, Z.pow_succ_r in Hn, Hg by lia.
  destruct (Z.ltb_spec n 10) as [Hlt|Hge].
  - rewrite Z.div_small, Z.mod_small by lia. cbn [Z.eqb map]. unfold dec_char. by rewrite Z.add_comm.
  - pose proof (Z.div_le_lower_bound n 10 1 ltac:(lia) ltac:(lia)). destruct (Z.eqb_spec (n / 10) 0); [lia|]. cbn [map].
    unfold dec_char at 1. rewrite Z.add_comm. f_equal. apply IH.
    + split; [lia|]. apply Z.div_lt_upper_bound; lia.
    + apply Z.div_lt_upper_bound; lia.
    + destruct f; [simpl in Hn; lia|lia].
    + destruct g; [simpl in Hg; lia|lia].
Qed.

Lemma long2str_fmt v : int_range v -> long2str v = fmt_d v.
Proof.
  unfold int_range, INT_MIN, INT_MAX. intros Hv. unfold long2str. rewrite strreverse_rev, rev_app_distr. unfold fmt_d, digits.
  assert (Hd : forall n, 0 <= n <= 2 ^ 31 -> rev (long_digits 10 n) = map dec_char (rev (digits_rev (S (Z.to_nat (Z.log2 n))) 10 n))).
  { intros n Hn. rewrite map_rev. f_equal. apply long_digits_rev; [cbn; lia|apply digits_fuel; lia|lia|lia]. }
  destruct (Z.ltb_spec v 0) as [Hneg|Hpos]; cbn [rev app].
  - rewrite <- (Hd (- v)) by lia. by rewrite long_digits_neg.
  - rewrite Hd by lia. done.
Qed.

Lemma fmt_d_value n : int_range n -> value_ok (fmt_d n) /\ (1 <= length (fmt_d n) <= 11)%nat.
Proof.
  intros Hn. assert (Hnb : Forall (fun c => blank c = false /\ c <> 34 /\ c <> 10 /\ c <> 0) (fmt_d n)).
  { assert (Hds : forall m, 0 <= m -> Forall (fun c => blank c = false /\ c <> 34 /\ c <> 10 /\ c <> 0) (map dec_char (digits 10 m))).
    { intros m Hm. eapply Forall_impl; [by apply digits_isdigit|]. intros c Hc. unfold isdigit in Hc. unfold blank, schar. zcase; simpl in *; lia. }
    unfold fmt_d. destruct (Z.ltb_spec n 0); [constructor; [done|]|]; apply Hds; lia. }
  assert (Hlen : (1 <= length (fmt_d n) <= 11)%nat).
  { rewrite <- long2str_fmt by done. unfold long2str. rewrite strreverse_rev, length_rev, length_app.
    assert (forall f m, (length (long_digits f m) <= f)%nat) as Hf.
    { induction f as [|f IH]; intros m; [done|]. cbn [long_digits length]. destruct (_ =? 0); [simpl; lia|]. specialize (IH (m ÷ 10)). lia. }
    specialize (Hf 10%nat n). destruct (n <? 0); cbn [length]; cbn [long_digits length] in *; lia. }
  split; [|done]. rewrite Forall_forall in Hnb. split.
  - intros H. by destruct (Hnb _ H) as (_ & _ & ? & _).
  - intros H. by destruct (Hnb _ H) as (_ & _ & _ & ?).
  - unfold starts_nonblank. destruct (fmt_d n) as [|c r]; [done|]. by apply (Hnb c); left.
  - unfold ends_nonblank. destruct (rev (fmt_d n)) as [|c r] eqn:E; [done|]. apply (Hnb c).
    apply list_elem_of_In, in_rev. rewrite E. by left.
  - intros [H _]. destruct (fmt_d n) as [|c r]; [done|]. injection H as ->. destruct (Hnb 34) as (_ & ? & _); [by left|done].
Qed.

(** ** Enumeration *)

Definition section_name (sp : cstr) : option cstr :=
  match strchr sp 93 with Some ep => if starts sp 91 then Some (drop 1 (take ep sp)) else None | None => None end.

Definition section_names (ls : list cstr) : list cstr := omap section_name ls.

Lemma find_section_nth ls idx i :
  -1 <= idx < i -> Forall (fun n => n <> []) (section_names (map skipleading ls)) ->
  match find_section [] i idx ls with
  | Some (sp, ep, j, _) => j = i /\ section_names (map skipleading ls) !! Z.to_nat (i - idx - 1) = Some (drop 1 (take ep sp))
  | None => section_names (map skipleading ls) !! Z.to_nat (i - idx - 1) = None
  end.
Proof.
  revert idx. induction ls as [|l ls IH]; intros idx Hi Hn; [done|]. cbn [find_section map section_names omap list_omap] in *.
  unfold section_name in *. destruct (strchr (skipleading l) 93) as [ep|] eqn:Hep; [|by apply IH].
  destruct (starts (skipleading l) 91) eqn:Hb; cbn [negb]; [|by apply IH].
  apply Forall_cons in Hn as [Hne Hn]. destruct (Nat.eqb_spec (ep - 1) (length (@nil Z))) as [H0|_]; cbn [negb orb].
  { exfalso. apply Hne. apply bool_decide_eq_true_1 in Hb. destruct (skipleading l) as [|c q]; [done|].
    destruct ep as [|[|ep]]; [done|done|simpl in H0; lia]. }
  destruct (Z.eqb_spec (idx + 1) i) as [<-|Hne'].
  - split; [done|]. by replace (Z.to_nat (idx + 1 - idx - 1)) with 0%nat by lia.
  - specialize (IH (idx + 1) ltac:(lia) Hn). replace (Z.to_nat (i - idx - 1)) with (S (Z.to_nat (i - (idx + 1) - 1))) by lia.
    cbn [lookup list_lookup]. exact IH.
Qed.

(** * Theorems *)

(** C34.  Reading a key of a named section, whatever the file contains: the result is
    the value of the first line with that key, in any letter case, between the
    first header of that section and the next header, without surrounding blanks
    and quotes, cut to the size of the buffer; the default when there is none. *)
Theorem ini_gets_spec (s k def buf : cstr) (size : Z) (f : list Z) :
  s <> [] -> 0 < size ->
  ini_gets (Some s) (Some k) def buf size (Some f) =
  let b := take (Z.to_nat size - 1) (default def (lookup_ini s k (norm (ini_read f)))) in (Z.of_nat (length b), b).
Proof.
  intros Hs Hsz. unfold ini_gets. destruct (Z.leb_spec size 0); [lia|]. cbn [mbind option_bind].
  rewrite getkeystring_lookup by done. by destruct (lookup_ini s k (norm (ini_read f))).
Qed.

Definition demo_ini : list Z :=
  file_text [str "; settings"; []; str "[xap]"; str "  Port = 3639"; str "[rf]"; str "devices=2"; str "RF1.on: 'x'"].

Lemma ini_gets_spec_witness : ini_gets (Some (str "XAP")) (Some (str "port")) (str "0") [] 3 (Some demo_ini) = (2, str "36").
Proof. rewrite (ini_gets_spec (str "XAP") (str "port") (str "0") [] 3 demo_ini); [reflexivity|done|lia]. Defined.

(** The result of [ini_puts] on a file of lines. *)
Lemma ini_puts_text (s k v name tmp : cstr) (writable : cstr -> bool) (fs : ini_fs) ls :
  fs !! name = Some (concat ls) -> Forall good ls -> ini_tempname name INI_BUFFERSIZE = Some tmp -> tmp <> name -> writable tmp = true ->
  exists fs', ini_puts (Some s) (Some k) (Some v) name writable fs = Ok (1, fs') /\
    fs' !! name = Some (put_file (Some s) (Some k) (Some v) ls) /\ forall n, n <> name -> n <> tmp -> fs' !! n = fs !! n.
Proof.
  intros Hf Hg Ht Hne Hw. unfold ini_puts. rewrite Hf, Ht. cbn [of_opt]. rewrite bind_Ok, Hw. cbv zeta. rewrite lookup_insert_eq, ini_read_good by done.
  eexists. split; [done|]. split; [by rewrite lookup_insert_eq|]. intros n Hn Hnt.
  by rewrite lookup_insert_ne, !lookup_delete_ne, lookup_insert_ne by done.
Qed.

Lemma ini_read_put s k v ls :
  section_ok s -> key_ok k -> value_ok v -> (length k + length v <= 500)%nat -> Forall good ls ->
  norm (ini_read (put_file (Some s) (Some k) (Some v) ls)) = edit_section s k v (norm ls).
Proof. intros. by apply put_file_edit. Qed.

Lemma ini_gets_lookup s k def buf size f f' :
  s <> [] -> lookup_ini s k (norm (ini_read f)) = lookup_ini s k (norm (ini_read f')) ->
  ini_gets (Some s) (Some k) def buf size (Some f) = ini_gets (Some s) (Some k) def buf size (Some f').
Proof.
  intros Hs He. unfold ini_gets. destruct (size <=? 0); [done|]. cbn [mbind option_bind]. by rewrite !getkeystring_lookup, He.
Qed.

Lemma ini_put_lookup (s k v name tmp : cstr) (writable : cstr -> bool) (fs : ini_fs) (ls : list cstr) :
  fs !! name = Some (concat ls) -> Forall good ls -> ini_tempname name INI_BUFFERSIZE = Some tmp -> tmp <> name -> writable tmp = true ->
  section_ok s -> key_ok k -> value_ok v -> (length k + length v <= 500)%nat -> tight k (norm ls) ->
  exists fs', ini_puts (Some s) (Some k) (Some v) name writable fs = Ok (1, fs') /\
    (forall def buf size, Z.of_nat (length v) < size ->
       ini_gets (Some s) (Some k) def buf size (fs' !! name) = (Z.of_nat (length v), v)) /\
    (forall s' k' def buf size, s' <> [] -> strcasecmp0 s s' = false \/ strcasecmp0 k k' = false ->
       ini_gets (Some s') (Some k') def buf size (fs' !! name) = ini_gets (Some s') (Some k') def buf size (fs !! name)) /\
    forall n, n <> name -> n <> tmp -> fs' !! n = fs !! n.
Proof.
  intros Hf Hg Ht Hne Hw Hs Hk Hv Hl Htight.
  destruct (ini_puts_text s k v name tmp writable fs ls Hf Hg Ht Hne Hw) as (fs' & Hp & Hn & Ho).
  exists fs'. split; [done|]. rewrite Hn, Hf. split; [|split; [|done]].
  - intros def buf size Hsz. unfold ini_gets. destruct (Z.leb_spec size 0); [lia|]. cbn [mbind option_bind].
    rewrite getkeystring_lookup by apply Hs. rewrite ini_read_put, lookup_edit_section by done. cbn [fmap option_fmap option_map].
    unfold save_strncpy. by rewrite take_ge by lia.
  - intros s' k' def buf size Hs' Hne'. apply ini_gets_lookup; [done|].
    by rewrite ini_read_put, ini_read_good, lookup_edit_section_other.
Qed.

(** C13.  A value written with [ini_puts] into a file of lines is what [ini_gets]
    returns for its key afterwards; every other key of every section keeps its
    value; and no other file but the temporary one is touched.  The key must not
    already be there with a blank before its separator. *)
Theorem ini_get_put (s k v name tmp : cstr) (writable : cstr -> bool) (fs : ini_fs) (ls : list cstr) :
  fs !! name = Some (concat ls) -> Forall good ls -> ini_tempname name INI_BUFFERSIZE = Some tmp -> tmp <> name -> writable tmp = true ->
  section_ok s -> key_ok k -> value_ok v -> (length k + length v <= 500)%nat -> tight k (norm ls) ->
  exists fs', ini_puts (Some s) (Some k) (Some v) name writable fs = Ok (1, fs') /\
    (forall def buf size, Z.of_nat (length v) < size ->
       ini_gets (Some s) (Some k) def buf size (fs' !! name) = (Z.of_nat (length v), v)) /\
    (forall s' k' def buf size, s' <> [] -> strcasecmp0 s s' = false \/ strcasecmp0 k k' = false ->
       ini_gets (Some s') (Some k') def buf size (fs' !! name) = ini_gets (Some s') (Some k') def buf size (fs !! name)) /\
    forall n, n <> name -> n <> tmp -> fs' !! n = fs !! n.
Proof. apply ini_put_lookup. Qed.

Definition demo_lines : list cstr := [line "[xap]"; line "port=3639"; []  ++ [10]; line "[rf]"; line "devices=2"].

Lemma demo_lines_good : Forall good demo_lines.
Proof.
  assert (Hg : forall s, bool_decide (10 ∉ str s /\ 0 ∉ str s /\ (length (str s) <= 510)%nat) = true -> good (line s)).
  { intros s Hb. apply bool_decide_eq_true_1 in Hb as (H1 & H2 & H3). exists (str s). done. }
  repeat constructor; try (apply Hg; reflexivity). apply good_nl.
Qed.

Lemma ini_get_put_witness :
  exists fs', ini_puts (Some (str "xap")) (Some (str "port")) (Some (str "1234")) (str "xap.ini") (fun _ => true)
      {[ str "xap.ini" := concat demo_lines ]} = Ok (1, fs') /\
    ini_gets (Some (str "xap")) (Some (str "port")) [] [] 64 (fs' !! str "xap.ini") = (4, str "1234") /\
    ini_gets (Some (str "rf")) (Some (str "devices")) [] [] 64 (fs' !! str "xap.ini") = (1, str "2").
Proof.
  destruct (ini_get_put (str "xap") (str "port") (str "1234") (str "xap.ini") (str "xap.in~") (fun _ => true)
    {[ str "xap.ini" := concat demo_lines ]} demo_lines) as (fs' & Hp & Hg & Ho & _).
  - by rewrite lookup_singleton_eq.
  - exact demo_lines_good.
  - reflexivity.
  - done.
  - reflexivity.
  - split; apply (bool_decide_eq_true_1 _); reflexivity.
  - split; try done; try (apply (bool_decide_eq_true_1 _); reflexivity).
  - split; try done; try (apply (bool_decide_eq_true_1 _); reflexivity).
  - apply Nat.leb_le. reflexivity.
  - apply (bool_decide_eq_true_1 (Forall _ _)). reflexivity.
  - exists fs'. split; [exact Hp|]. split; [apply (Hg [] [] 64); reflexivity|].
    rewrite (Ho (str "rf") (str "devices") [] [] 64); [|done|by left]. rewrite lookup_singleton_eq. reflexivity.
Defined.

(** An entry with a blank before its separator is not recognised by
    [ini_puts], which adds a second one, while [ini_gets] goes on returning the
    first: the value written has no effect. *)
Theorem ini_puts_blank_hidden (s k v name tmp old : cstr) (writable : cstr -> bool) (fs : ini_fs) (ls : list cstr) :
  fs !! name = Some (concat ls) -> Forall good ls -> ini_tempname name INI_BUFFERSIZE = Some tmp -> tmp <> name -> writable tmp = true ->
  section_ok s -> key_ok k -> value_ok v -> (length k + length v <= 500)%nat ->
  lookup_ini s k (norm ls) = Some old -> Forall (fun l => put_match k l = false) (norm ls) ->
  exists fs', ini_puts (Some s) (Some k) (Some v) name writable fs = Ok (1, fs') /\
    forall def buf size, ini_gets (Some s) (Some k) def buf size (fs' !! name) = ini_gets (Some s) (Some k) def buf size (fs !! name).
Proof.
  intros Hf Hg Ht Hne Hw Hs Hk Hv Hl Hold Hm.
  destruct (ini_puts_text s k v name tmp writable fs ls Hf Hg Ht Hne Hw) as (fs' & Hp & Hn & _).
  exists fs'. split; [done|]. rewrite Hn, Hf. intros def buf size. apply ini_gets_lookup; [apply Hs|].
  by rewrite ini_read_put, ini_read_good, (lookup_edit_hidden s k v old), Hold.
Qed.

Lemma ini_puts_blank_hidden_witness :
  exists fs', ini_puts (Some (str "xap")) (Some (str "port")) (Some (str "1234")) (str "xap.ini") (fun _ => true)
      {[ str "xap.ini" := concat [line "[xap]"; line "port = 3639"] ]} = Ok (1, fs') /\
    ini_gets (Some (str "xap")) (Some (str "port")) [] [] 64 (fs' !! str "xap.ini") = (4, str "3639").
Proof.
  destruct (ini_puts_blank_hidden (str "xap") (str "port") (str "1234") (str "xap.ini") (str "xap.in~") (str "3639") (fun _ => true)
    {[ str "xap.ini" := concat [line "[xap]"; line "port = 3639"] ]} [line "[xap]"; line "port = 3639"]) as (fs' & Hp & Hg).
  - by rewrite lookup_singleton_eq.
  - repeat constructor.
    + exists (str "[xap]"). apply (bool_decide_eq_true_1 _). reflexivity.
    + exists (str "port = 3639"). apply (bool_decide_eq_true_1 _). reflexivity.
  - reflexivity.
  - done.
  - reflexivity.
  - split; apply (bool_decide_eq_true_1 _); reflexivity.
  - split; try done; try (apply (bool_decide_eq_true_1 _); reflexivity).
  - split; try done; try (apply (bool_decide_eq_true_1 _); reflexivity).
  - apply Nat.leb_le. reflexivity.
  - reflexivity.
  - apply (bool_decide_eq_true_1 (Forall _ _)). reflexivity.
  - exists fs'. split; [exact Hp|]. rewrite Hg, lookup_singleton_eq. reflexivity.
Defined.

(** A number written with [ini_putl] is read back by [ini_getl], for every
    [long], the smallest one included. *)
Theorem ini_getl_putl (s k name tmp : cstr) (n def : Z) (writable : cstr -> bool) (fs : ini_fs) (ls : list cstr) :
  fs !! name = Some (concat ls) -> Forall good ls -> ini_tempname name INI_BUFFERSIZE = Some tmp -> tmp <> name -> writable tmp = true ->
  section_ok s -> key_ok k -> (length k <= 480)%nat -> tight k (norm ls) -> int_range n ->
  exists fs', ini_putl (Some s) (Some k) n name writable fs = Ok (1, fs') /\ ini_getl (Some s) (Some k) def (fs' !! name) = n.
Proof.
  intros Hf Hg Ht Hne Hw Hs Hk Hl Htight Hn. unfold ini_putl. rewrite long2str_fmt by done. destruct (fmt_d_value n Hn) as [Hv Hlen].
  destruct (ini_puts_text s k (fmt_d n) name tmp writable fs ls Hf Hg Ht Hne Hw) as (fs' & Hp & Hnm & _).
  exists fs'. split; [done|]. rewrite Hnm. unfold ini_getl, ini_gets. cbn [Z.leb mbind option_bind]. change (64 <=? 0) with false. cbv iota.
  rewrite getkeystring_lookup by apply Hs. rewrite ini_read_put, lookup_edit_section by (done || lia). cbn [fmap option_fmap option_map].
  unfold save_strncpy. rewrite take_ge by (change (Z.to_nat 64) with 64%nat; lia).
  destruct (Z.eqb_spec (Z.of_nat (length (fmt_d n))) 0); [lia|]. by apply atoi_fmt_d.
Qed.

Lemma ini_getl_putl_witness :
  exists fs', ini_putl (Some (str "rf")) (Some (str "delay")) INT_MIN (str "xap.ini") (fun _ => true)
      {[ str "xap.ini" := concat demo_lines ]} = Ok (1, fs') /\
    ini_getl (Some (str "rf")) (Some (str "delay")) 0 (fs' !! str "xap.ini") = INT_MIN.
Proof.
  apply (ini_getl_putl (str "rf") (str "delay") (str "xap.ini") (str "xap.in~") INT_MIN 0 (fun _ => true)
    {[ str "xap.ini" := concat demo_lines ]} demo_lines).
  - by rewrite lookup_singleton_eq.
  - exact demo_lines_good.
  - reflexivity.
  - done.
  - reflexivity.
  - split; apply (bool_decide_eq_true_1 _); reflexivity.
  - split; try done; try (apply (bool_decide_eq_true_1 _); reflexivity).
  - apply Nat.leb_le. reflexivity.
  - apply (bool_decide_eq_true_1 (Forall _ _)). reflexivity.
  - unfold int_range, INT_MIN, INT_MAX. lia.
Defined.

(** Counting up from 0, [ini_getsection] returns the names of the sections of
    the file in their order, cut to the buffer, and the empty string behind the
    last one, if no section has the empty name. *)
Theorem ini_getsection_spec (i : Z) (buf : cstr) (size : Z) (f : list Z) :
  0 <= i -> 0 < size -> Forall (fun n => n <> []) (section_names (map skipleading (ini_read f))) ->
  ini_getsection i buf size (Some f) =
  let b := take (Z.to_nat size - 1) (default [] (section_names (map skipleading (ini_read f)) !! Z.to_nat i)) in
  (Z.of_nat (length b), b).
Proof.
  intros Hi Hsz Hn. unfold ini_getsection. destruct (Z.leb_spec size 0), (Z.ltb_spec i 0); try lia. cbn [orb mbind option_bind].
  unfold getkeystring. cbn [opt_str length Nat.ltb Nat.leb orb]. destruct (Z.leb_spec 0 i); [|lia].
  pose proof (find_section_nth (ini_read f) (-1) i ltac:(lia) Hn) as Hf. replace (i - -1 - 1) with i in Hf by lia.
  destruct (find_section [] i (-1) (ini_read f)) as [[[[sp ep] j] r]|].
  - destruct Hf as [-> ->]. rewrite Z.eqb_refl. done.
  - rewrite Hf. cbn. by rewrite take_nil.
Qed.

Lemma ini_getsection_spec_witness :
  ini_getsection 1 [] 30 (Some (concat demo_lines)) = (2, str "rf").
Proof.
  rewrite (ini_getsection_spec 1 [] 30 (concat demo_lines)); [reflexivity|lia|lia|].
  apply (bool_decide_eq_true_1 _). reflexivity.
Defined.
