(* ===== verification/Float.v ===== *)
(** * Floating point numbers of the C library

    [atof], the conversion of a [double] to [float], [float] addition,
    subtraction and comparison, and ["%.1f"], as the temperature sensors of the
    controller use them (xap-livebox/ini.c, [infoEvent1wire]).  The numbers are
    those of the Standard Library's specification of IEEE 754; [double] has 53
    bits and [float] 24, conversions round to nearest, ties to even. *)

From Stdlib Require Import SpecFloat.
From S2P Require Import Prelude.

Definition double_ (s : bool) (q e : Z) (l : location) : spec_float := binary_round_aux 53 1024 s q e l.

(** [m * 10 ^ e], correctly rounded. *)
Definition decimal (s : bool) (m e : Z) : spec_float :=
  match m with
  | Zpos p =>
      if 0 <=? e then binary_round 53 1024 s (Z.to_pos (m * 10 ^ e)) 0
      else let '(q, e, l) := SFdiv_core_binary 53 1024 m 0 (10 ^ (- e)) 0 in double_ s q e l
  | _ => S754_zero s
  end.

(** [m * 2 ^ e], correctly rounded. *)
Definition binary (s : bool) (m e : Z) : spec_float :=
  match m with Zpos p => binary_round 53 1024 s p e | _ => S754_zero s end.

Definition hex_digit (c : Z) : Z := if isdigit c then c - 48 else toupper c - 55.
Definition hex_digits_val (s : cstr) : Z := fold_left (fun a c => a * 16 + hex_digit c) s 0.

(** An exponent: the marker, an optional sign and digits; otherwise 0. *)
Definition exponent (mark : Z) (s : cstr) : Z :=
  match s with
  | c :: r =>
      if tolower c =? mark then
        match r with
        | 45 :: r => - digits_val (take_while isdigit r)
        | 43 :: r => digits_val (take_while isdigit r)
        | _ => digits_val (take_while isdigit r)
        end
      else 0
  | [] => 0
  end.

(** The digits before and after the point, and the rest. *)
Definition split_number (p : Z -> bool) (s : cstr) : cstr * cstr * cstr :=
  let i := take_while p s in
  match drop (length i) s with
  | 46 :: r => let f := take_while p r in (i, f, drop (length f) r)
  | r => (i, [], r)
  end.

Definition starts_ci (lit s : cstr) : bool := bool_decide (lower (take (length lit) s) = lit).

(** A hexadecimal number starts with ["0x"] and a digit. *)
Definition is_hex (s : cstr) : bool :=
  starts_ci (str "0x") s &&
  match drop 2 s with
  | 46 :: c :: _ => isxdigit c
  | c :: _ => isxdigit c
  | [] => false
  end.

(** [strtod], without its end pointer. *)
Definition atof (s : cstr) : spec_float :=
  let s := skip_while isspace s in
  let '(neg, s) := match s with 45 :: r => (true, r) | 43 :: r => (false, r) | _ => (false, s) end in
  if starts_ci (str "inf") s then S754_infinity neg
  else if starts_ci (str "nan") s then S754_nan
  else if is_hex s then
    let '(i, f, r) := split_number isxdigit (drop 2 s) in
    binary neg (hex_digits_val (i ++ f)) (exponent 112 r - 4 * Z.of_nat (length f))
  else
    let '(i, f, r) := split_number isdigit s in
    match i ++ f with
    | [] => S754_zero false
    | ds => decimal neg (digits_val ds) (exponent 101 r - Z.of_nat (length f))
    end.

(** ** [float] *)

Definition to_float (x : spec_float) : spec_float :=
  match x with S754_finite s m e => binary_round 24 128 s m e | _ => x end.
Definition fadd : spec_float -> spec_float -> spec_float := SFadd 24 128.
Definition fsub : spec_float -> spec_float -> spec_float := SFsub 24 128.
Definition flt (x y : spec_float) : bool := SFltb x y.

(** The value in a condition: only the zeros are false. *)
Definition ftrue (x : spec_float) : bool := match x with S754_zero _ => false | _ => true end.
Definition fzero : spec_float := S754_zero false.

(** ** Printing *)

(** [k * m * 2 ^ e], rounded to nearest, ties to even. *)
Definition scaled (k : Z) (m : positive) (e : Z) : Z :=
  if 0 <=? e then k * Zpos m * 2 ^ e
  else
    let d := 2 ^ (- e) in
    let q := (k * Zpos m) / d in
    match Z.compare (2 * ((k * Zpos m) mod d)) d with
    | Lt => q
    | Gt => q + 1
    | Eq => if Z.even q then q else q + 1
    end.

Definition fmt_tenths (t : Z) : cstr := fmt_d (t / 10) ++ [46] ++ fmt_d (t mod 10).
Definition fmt_hundredths (t : Z) : cstr := fmt_d (t / 100) ++ [46] ++ pad0 2 (fmt_d (t mod 100)).

Definition fmt_fixed (zero : cstr) (print : positive -> Z -> cstr) (x : spec_float) : cstr :=
  let sign s (t : cstr) := if s : bool then 45 :: t else t in
  match x with
  | S754_zero s => sign s zero
  | S754_infinity s => sign s (str "inf")
  | S754_nan => str "nan"
  | S754_finite s m e => sign s (print m e)
  end.

(** ["%.1f"] and ["%.2f"] *)
Definition fmt_f1 : spec_float -> cstr := fmt_fixed (str "0.0") (fun m e => fmt_tenths (scaled 10 m e)).
Definition fmt_f2 : spec_float -> cstr := fmt_fixed (str "0.00") (fun m e => fmt_hundredths (scaled 100 m e)).

(** * Properties *)

(** The text of a temperature of [t] tenths of a degree. *)
Definition temperature_text (t : Z) : cstr := if t <? 0 then 45 :: fmt_tenths (- t) else fmt_tenths t.

Example atof_examples :
  fmt_f1 (to_float (atof (str "21.25"))) = str "21.2" /\ fmt_f1 (to_float (atof (str " -7.5C"))) = str "-7.5" /\
  fmt_f1 (to_float (atof (str "1e3"))) = str "1000.0" /\ fmt_f1 (to_float (atof (str "0x1.8p1"))) = str "3.0" /\
  fmt_f2 (to_float (atof (str "10.4"))) = str "10.40" /\ fmt_f2 (to_float (atof (str "-0.005"))) = str "-0.00" /\
  fmt_f1 (to_float (atof (str "?"))) = str "0.0" /\ fmt_f1 (to_float (atof (str "nan"))) = str "nan".
Proof. repeat split; vm_compute; reflexivity. Qed.

(** A sensor reads from -55.0 to 127.0 degrees in steps of a tenth. *)
Definition sensor_range : list Z := map (fun k => Z.of_nat k - 550) (seq 0 1821).

Definition reads_back (t : Z) : bool := strcmp0 (fmt_f1 (to_float (atof (temperature_text t)))) (temperature_text t).

Lemma sensor_reads_back : forallb reads_back sensor_range = true.
Proof. vm_compute. reflexivity. Qed.

Lemma temperature_print t : -550 <= t <= 1270 -> fmt_f1 (to_float (atof (temperature_text t))) = temperature_text t.
Proof.
  intros Ht. pose proof sensor_reads_back as H. rewrite forallb_forall in H.
  specialize (H t). unfold reads_back in H. apply strcmp0_spec. apply H. apply in_map_iff.
  exists (Z.to_nat (t + 550)). split; [lia|]. apply in_seq. lia.
Qed.

(** The readings of sensors whose offset is one degree. *)
Definition one_degree : spec_float := to_float (atof (str "1.0")).

Lemma one_degree_adds_all :
  forallb (fun t => (1260 <? t) || strcmp0 (fmt_f1 (fadd (to_float (atof (temperature_text t))) one_degree)) (temperature_text (t + 10)))
    sensor_range = true.
Proof. vm_compute. reflexivity. Qed.

Lemma one_degree_adds t :
  -550 <= t <= 1260 -> fmt_f1 (fadd (to_float (atof (temperature_text t))) one_degree) = temperature_text (t + 10).
Proof.
  intros Ht. pose proof one_degree_adds_all as H. rewrite forallb_forall in H. specialize (H t). apply strcmp0_spec.
  destruct (Z.ltb_spec 1260 t); [lia|]. apply H. apply in_map_iff. exists (Z.to_nat (t + 550)). split; [lia|]. apply in_seq. lia.
Qed.

Lemma temperature_length_all : forallb (fun t => (length (temperature_text t) <=? 5)%nat) sensor_range = true.
Proof. vm_compute. reflexivity. Qed.

Lemma temperature_length t : -550 <= t <= 1270 -> (length (temperature_text t) <= 5)%nat.
Proof.
  intros Ht. pose proof temperature_length_all as H. rewrite forallb_forall in H. specialize (H t). apply Nat.leb_le, H.
  apply in_map_iff. exists (Z.to_nat (t + 550)). split; [lia|]. apply in_seq. lia.
Qed.

(** Adding to zero keeps a number that is not zero. *)
Lemma fadd_zero_l o : ftrue o = true -> fadd fzero o = o.
Proof. by destruct o. Qed.
