(* ===== verification/Bsc.v ===== *)
(** * Basic Status and Control endpoints (xaplib2/bsc.c, bsc.h)

    An endpoint is a named input or output of a device.  It answers
    [xAPBSC.query], obeys [xAPBSC.cmd] and announces its state with [xAPBSC.info]
    and [xAPBSC.event].  Endpoints are heap blocks to which filter callbacks and
    timeouts point.  The command and event hooks of the application are
    parameters that act on the whole state.  The theorems give the meaning of the
    states, the identifiers handed out, the messages sent (which the parser reads
    back), what a command does, and how often an endpoint reports. *)

From S2P Require Import Prelude UtList Strings Frame Wire Filter Timeout Xap.

Definition BSC_BINARY : Z := 0.
Definition BSC_LEVEL : Z := 1.
Definition BSC_STREAM : Z := 2.
Definition BSC_INPUT : Z := 0.
Definition BSC_OUTPUT : Z := 1.
Definition BSC_STATE_OFF : Z := 0.
Definition BSC_STATE_ON : Z := 1.
Definition BSC_STATE_UNKNOWN : Z := 3.
Definition BSC_INFO_CLASS : cstr := str "xAPBSC.info".
Definition BSC_EVENT_CLASS : cstr := str "xAPBSC.event".
Definition BSC_CMD_CLASS : cstr := str "xAPBSC.cmd".
Definition BSC_QUERY_CLASS : cstr := str "xAPBSC.query".

(** [value[i]], [state[i]] of [bscDecodeState] *)
Definition state_table : list (cstr * Z) :=
  [(str "on", 1); (str "off", 0); (str "true", 1); (str "false", 0); (str "yes", 1); (str "no", 0);
   (str "1", 1); (str "0", 0); (str "toggle", 2)].

Fixpoint decode_loop (msg : cstr) (t : list (cstr * Z)) : Z :=
  match t with
  | [] => -1
  | (v, s) :: r => if strcasecmp0 msg v then s else decode_loop msg r
  end.

Definition bscDecodeState (msg : option cstr) : Z :=
  match msg with None => -1 | Some m => decode_loop m state_table end.

(** ** [sscanf] with ["%d/%d"] *)

(** One ["%d"]: the value and the rest, [None] when there is no number. *)
Definition scan_int (s : cstr) : option (Z * cstr) :=
  let s := skip_while isspace s in
  let '(neg, s) := match s with 45 :: r => (true, r) | 43 :: r => (false, r) | _ => (false, s) end in
  match take_while isdigit s with
  | [] => None
  | ds => Some (clamp_int (if neg : bool then - digits_val ds else digits_val ds), drop (length ds) s)
  end.

(** C division; [None] operands were never assigned. *)
Definition div_int (x y : option Z) : out Z :=
  match x, y with
  | Some x, Some y =>
      if y =? 0 then Undef DivByZero
      else if (x =? INT_MIN) && (y =? -1) then Undef SignedOverflow
      else Ok (Z.quot x y)
  | _, _ => Undef Uninitialised
  end.

Definition bscParseLevel (s : cstr) : out Z :=
  match strchr s 47 with
  | None => Ok 0
  | Some _ =>
      let '(level, range) :=
        match scan_int s with
        | Some (l, 47 :: r) => (Some l, fst <$> scan_int r)
        | Some (l, _) => (Some l, None)
        | None => (None, None)
        end in
      div_int range level
  end.

(** A printed number is read back whole. *)
Lemma take_while_app_stop p s rest :
  Forall (fun c => p c = true) s -> match rest with c :: _ => p c = false | [] => True end ->
  take_while p (s ++ rest) = s.
Proof.
  intros Hs Hr. induction Hs as [|c s Hc _ IH].
  - destruct rest as [|c r]; [done|]. simpl. by rewrite Hr.
  - simpl. by rewrite Hc, IH.
Qed.

Lemma digits_cons n : 0 <= n -> exists c r, map dec_char (digits 10 n) = c :: r /\ isdigit c = true.
Proof.
  intros Hn. pose proof (digits_isdigit n Hn) as Hd. pose proof (digits_nonempty n).
  destruct (digits 10 n) as [|d ds]; [done|]. cbn [map] in *. apply Forall_cons in Hd as [Hd _]. eauto.
Qed.

Lemma scan_int_fmt n rest :
  int_range n -> match rest with c :: _ => isdigit c = false | [] => True end ->
  scan_int (fmt_d n ++ rest) = Some (n, rest).
Proof.
  unfold int_range, INT_MAX, INT_MIN. intros Hn Hr.
  assert (Hds : forall m, 0 <= m -> exists c r, map dec_char (digits 10 m) = c :: r /\ isdigit c = true /\
    take_while isdigit (c :: r ++ rest) = c :: r /\ digits_val (c :: r) = m /\ drop (length (c :: r)) (c :: r ++ rest) = rest).
  { intros m Hm. destruct (digits_cons m Hm) as (c & r & Hc & Hdc). exists c, r.
    pose proof (take_while_app_stop isdigit _ rest (digits_isdigit m Hm) Hr) as Ht.
    pose proof (digits_val_digits m Hm) as Hv. rewrite Hc in *. split; [done|]. split; [done|].
    split; [exact Ht|]. split; [exact Hv|]. exact (drop_app_length (c :: r) rest). }
  unfold fmt_d. destruct (Z.ltb_spec n 0) as [Hneg|Hpos].
  - destruct (Hds (- n) ltac:(lia)) as (c & r & Hc & Hdc & Ht & Hv & Hdr). rewrite Hc. unfold scan_int.
    cbn [app skip_while]. change (isspace 45) with false. cbn match. rewrite Ht. cbv zeta. rewrite Hv, Hdr.
    do 2 f_equal. unfold clamp_int, INT_MIN, INT_MAX. lia.
  - destruct (Hds n Hpos) as (c & r & Hc & Hdc & Ht & Hv & Hdr). rewrite Hc. unfold scan_int.
    unfold isdigit in Hdc. cbn [app skip_while]. replace (isspace c) with false by (unfold isspace; lia).
    assert (Hsign : match c :: r ++ rest with 45 :: r' => (true, r') | 43 :: r' => (false, r') | _ => (false, c :: r ++ rest) end
      = (false, c :: r ++ rest)).
    { destruct (decide (c = 45)) as [->|]; [lia|]. destruct (decide (c = 43)) as [->|]; [lia|].
      repeat case_match; simplify_eq; done. }
    rewrite Hsign, Ht. cbv zeta. rewrite Hv, Hdr. do 2 f_equal. unfold clamp_int, INT_MIN, INT_MAX. lia.
Qed.

(** ** Endpoints *)
Section Bsc.
(** The application's hooks and its own state. *)
Context {CB IB FB TB A : Type}.

Record bscEndpoint := mkEndpoint {
  name : cstr;
  subaddr : option cstr;
  ep_id : cstr;
  io : Z;
  type : Z;
  ep_state : Z;
  text : option cstr;         (* the union of [level] and [text] *)
  cmd : option CB;
  infoEvent : option IB;      (* [None] is [bscInfoEventDefault] *)
  displayText : option cstr;
  last_report : Z;
  ep_uid : option cstr;
  ep_source : option cstr;
}.

(** The callbacks bsc.c registers, and those of the application.  Their user
    data is an endpoint or NULL. *)
Inductive bsc_filter_cb := bscIncomingCmd_cb | bscIncomingQuery_cb | app_filter (f : FB).
Inductive bsc_timeout_cb := bscInfoTimeout_cb | app_timeout (t : TB).

Record bsc := mkBsc {
  endpoints : gmap addr bscEndpoint;
  filters : list (xAPFilterCallback bsc_filter_cb (option addr));
  timeouts : list (xAPTimeoutCallback bsc_timeout_cb (option addr));
  bframe : xAPFrame;
  sent : list cstr;
  id : Z;                     (* [static unsigned char id] *)
  next : addr;
  app_state : A;
}.

Definition set_endpoints (m : gmap addr bscEndpoint) (w : bsc) : bsc :=
  mkBsc m (filters w) (timeouts w) (bframe w) (sent w) (id w) (next w) (app_state w).

Definition get_ep (p : addr) (w : bsc) : out bscEndpoint := of_opt UseAfterFree (endpoints w !! p).
Definition put_ep (p : addr) (e : bscEndpoint) (w : bsc) : bsc := set_endpoints (<[p := e]> (endpoints w)) w.

Definition with_text (t : option cstr) (e : bscEndpoint) : bscEndpoint :=
  mkEndpoint (name e) (subaddr e) (ep_id e) (io e) (type e) (ep_state e) t (cmd e) (infoEvent e)
    (displayText e) (last_report e) (ep_uid e) (ep_source e).
Definition with_display (t : cstr) (e : bscEndpoint) : bscEndpoint :=
  mkEndpoint (name e) (subaddr e) (ep_id e) (io e) (type e) (ep_state e) (text e) (cmd e) (infoEvent e)
    (Some t) (last_report e) (ep_uid e) (ep_source e).
Definition with_state (s : Z) (e : bscEndpoint) : bscEndpoint :=
  mkEndpoint (name e) (subaddr e) (ep_id e) (io e) (type e) s (text e) (cmd e) (infoEvent e)
    (displayText e) (last_report e) (ep_uid e) (ep_source e).
Definition with_report (t : Z) (e : bscEndpoint) : bscEndpoint :=
  mkEndpoint (name e) (subaddr e) (ep_id e) (io e) (type e) (ep_state e) (text e) (cmd e) (infoEvent e)
    (displayText e) t (ep_uid e) (ep_source e).
Definition with_address (u s : cstr) (e : bscEndpoint) : bscEndpoint :=
  mkEndpoint (name e) (subaddr e) (ep_id e) (io e) (type e) (ep_state e) (text e) (cmd e) (infoEvent e)
    (displayText e) (last_report e) (Some u) (Some s).

(** Fully qualified endpoint name, in a buffer of 512 bytes. *)
Definition bscFQEN (target : cstr) (e : bscEndpoint) : cstr :=
  let a := cat_to 512 (cat_to 512 (cat_to 512 [] target) (str ":")) (name e) in
  match subaddr e with Some s => cat_to 512 (cat_to 512 a (str ".")) s | None => a end.

(** [strdup] of a NULL pointer is undefined. *)
Definition bscSetDisplayText (t : option cstr) (e : bscEndpoint) : out bscEndpoint :=
  match t with None => Undef NullDeref | Some t => Ok (with_display t e) end.

Definition bscSetText (t : option cstr) (e : bscEndpoint) : out bscEndpoint :=
  match t with None => Undef NullDeref | Some t => Ok (with_text (Some t) e) end.

Definition bscSetLevel (t : option cstr) (e : bscEndpoint) : out bscEndpoint := bscSetText t e.

(** [state] is a field of two bits. *)
Definition bscSetState (s : Z) (e : bscEndpoint) : bscEndpoint :=
  let istate := if s =? 2 then (if ep_state e =? BSC_STATE_ON then BSC_STATE_OFF else BSC_STATE_ON) else s in
  with_state (Z.land istate 3) e.

Definition bscStateToString (e : bscEndpoint) : out cstr :=
  of_opt OutOfBounds ([str "off"; str "on"; str "?"; str "?"] !! Z.to_nat (ep_state e)).

Definition bscIOToString (e : bscEndpoint) : out cstr :=
  of_opt OutOfBounds ([str "input"; str "output"] !! Z.to_nat (io e)).

(** ["%s"] of a pointer that may be NULL. *)
Definition pstr (s : option cstr) : cstr := match s with Some s => s | None => str "(null)" end.

(** The endpoints of a list, in order; the first with the name and subaddress. *)
Fixpoint bscFindEndpoint (l : list addr) (n : cstr) (sub : option cstr) (w : bsc) : out (option addr) :=
  match l with
  | [] => Ok None
  | p :: r =>
      e ← get_ep p w;
      if strcmp0 (name e) n &&
         match subaddr e, sub with
         | None, None => true
         | Some a, Some b => strcmp0 a b
         | _, _ => false
         end
      then Ok (Some p) else bscFindEndpoint r n sub w
  end.

(** Frees the endpoint with its filters and its first timeout. *)
Definition bscDelEndpoint (p : addr) (w : bsc) : out bsc :=
  _ ← get_ep p w;
  '(fl, _) ← xapDelFilterActionForUserData (Some p) (filters w);
  tl ← match xapFindTimeoutByUserData (Some p) (timeouts w) with
       | Some tc => '(_, l) ← xapDelTimeoutAction (tc_addr tc) (timeouts w); Ok l
       | None => Ok (timeouts w)
       end;
  Ok (mkBsc (delete p (endpoints w)) fl tl (bframe w) (sent w) (id w) (next w) (app_state w)).

(** ** Messages *)

(** [now] is [time(NULL)]. *)
Definition bscInfoEvent (now : Z) (p : addr) (clazz : cstr) (w : bsc) : out bsc :=
  e ← get_ep p w;
  ios ← bscIOToString e;
  sts ← bscStateToString e;
  let t := line "xap-header" ++ line "{" ++ line "v=12" ++ line "hop=1" ++
    str "uid=" ++ pstr (ep_uid e) ++ [10] ++ str "class=" ++ clazz ++ [10] ++
    str "source=" ++ pstr (ep_source e) ++ [10] ++ line "}" ++
    ios ++ line ".state" ++ line "{" ++ str "state=" ++ sts ++ [10] in
  t ← (if type e =? BSC_LEVEL then sb_append XAP_DATA_LEN t (str "level=" ++ pstr (text e) ++ [10])
       else if type e =? BSC_STREAM then sb_append XAP_DATA_LEN t (str "text=" ++ pstr (text e) ++ [10])
       else Ok t);
  t ← match displayText e with
      | Some (d :: ds) => sb_append XAP_DATA_LEN t (str "displaytext=" ++ (d :: ds) ++ [10])
      | _ => Ok t
      end;
  t ← sb_append XAP_DATA_LEN t (line "}");
  if XAP_DATA_LEN <? Z.of_nat (length t) then Ok w
  else
    let w := put_ep p (with_report now e) w in
    Ok (mkBsc (endpoints w) (filters w) (timeouts w) (bframe w) (sent w ++ [sb_content XAP_DATA_LEN t])
          (id w) (next w) (app_state w)).

Section Hooks.
(** What the hooks of the application do. *)
Context (run_cmd : CB -> addr -> bsc -> out bsc) (run_info : IB -> addr -> cstr -> bsc -> out (bool * bsc)).

Definition bscSendInfoEvent (now : Z) (p : addr) (clazz : cstr) (w : bsc) : out bsc :=
  e ← get_ep p w;
  '(ok, w) ← match infoEvent e with None => Ok (true, w) | Some f => run_info f p clazz w end;
  if (ok : bool) then bscInfoEvent now p clazz w else Ok w.

Definition bscSendEvent (now : Z) (p : addr) (w : bsc) : out bsc := bscSendInfoEvent now p BSC_EVENT_CLASS w.
Definition bscSendInfo (now : Z) (p : addr) (w : bsc) : out bsc := bscSendInfoEvent now p BSC_INFO_CLASS w.

Definition bscSendCmdEvent (now : Z) (p : addr) (w : bsc) : out bsc :=
  e ← get_ep p w;
  w ← match cmd e with Some f => run_cmd f p w | None => Ok w end;
  bscSendEvent now p w.

(** [sprintf(section, "output.state.%d", i)] into 16 bytes. *)
Definition cmd_section (i : Z) : out cstr := sprintf_buf 16 (str "output.state." ++ fmt_d i).

(** The loop [for (i=1; i<99; i++)] over the sections of the command. *)
Fixpoint cmd_loop (fuel : nat) (i : Z) (now : Z) (p : addr) (w : bsc) : out bsc :=
  match fuel with
  | O => Ok w
  | S n =>
      section ← cmd_section i;
      st ← xapGetValueF (bframe w) section (Some (str "state"));
      eid ← xapGetValueF (bframe w) section (Some (str "id"));
      match st, eid with
      | Some st, Some eid =>
          e ← get_ep p w;
          if bool_decide (head eid = Some 42) || strcmp0 (ep_id e) eid then
            let e := bscSetState (bscDecodeState (Some st)) e in
            e ← (if type e =? BSC_LEVEL then
                   l ← xapGetValueF (bframe w) section (Some (str "level")); bscSetLevel l e
                 else if type e =? BSC_STREAM then
                   t ← xapGetValueF (bframe w) section (Some (str "text")); bscSetText t e
                 else Ok e);
            w ← bscSendCmdEvent now p (put_ep p e w);
            cmd_loop n (i + 1) now p w
          else cmd_loop n (i + 1) now p w
      | _, _ => Ok w
      end
  end.

Definition bscIncomingCmd (now : Z) (p : addr) (w : bsc) : out bsc :=
  e ← get_ep p w;
  if io e =? BSC_INPUT then Ok w else cmd_loop 98 1 now p w.

Definition bscIncomingQuery (now : Z) (p : addr) (w : bsc) : out bsc := bscSendInfo now p w.

Definition bscInfoTimeout (now interval : Z) (p : addr) (w : bsc) : out bsc :=
  e ← get_ep p w;
  if last_report e =? 0 then bscSendInfo now p w else
  t ← add_int (last_report e) interval;
  if t <=? now then bscSendInfo now p w else Ok w.

(** The callbacks of the lists; those of the application act on the whole state. *)
Context (run_filter : FB -> option addr -> bsc -> out bsc) (run_timeout : TB -> Z -> option addr -> bsc -> out bsc).

Definition run_bsc_filter (now : Z) (c : bsc_filter_cb) (ud : option addr) (w : bsc) : out bsc :=
  match c with
  | bscIncomingCmd_cb => p ← of_opt NullDeref ud; bscIncomingCmd now p w
  | bscIncomingQuery_cb => p ← of_opt NullDeref ud; bscIncomingQuery now p w
  | app_filter f => run_filter f ud w
  end.

Definition run_bsc_timeout (now : Z) (c : bsc_timeout_cb) (interval : Z) (ud : option addr) (w : bsc) : out bsc :=
  match c with
  | bscInfoTimeout_cb => p ← of_opt NullDeref ud; bscInfoTimeout now interval p w
  | app_timeout t => run_timeout t interval ud w
  end.

Definition set_timeouts (l : list (xAPTimeoutCallback bsc_timeout_cb (option addr))) (w : bsc) : bsc :=
  mkBsc (endpoints w) (filters w) l (bframe w) (sent w) (id w) (next w) (app_state w).

(** The dispatch of a received message and of the timeouts to the callbacks. *)
Definition bsc_filterDispatch (now : Z) (w : bsc) : out bsc :=
  filterDispatch filters bframe (run_bsc_filter now) w.
Definition bsc_timeoutDispatch (now : Z) (w : bsc) : out bsc :=
  timeoutDispatch timeouts set_timeouts (run_bsc_timeout now) now w.

End Hooks.

(** ** Creation *)

Definition bscSetEndpointUID (nid : Z) (w : bsc) : bsc :=
  mkBsc (endpoints w) (filters w) (timeouts w) (bframe w) (sent w) (u8 nid) (next w) (app_state w).

Definition bscGetEndpointUID (w : bsc) : Z := id w.

(** [None] is a NULL name.  Returns the new endpoint and the list with it. *)
Definition bscAddEndpoint (head : list addr) (n : option cstr) (sub : option cstr) (dir typ : Z)
    (c : option CB) (ie : option IB) (w : bsc) : out (addr * list addr * bsc) :=
  match n with
  | None => Die
  | Some n =>
      s_id ← sprintf_buf 3 (fmt_X 2 (id w));
      let io_ := Z.land dir 1 in
      let type_ := Z.land typ 3 in
      let st := if io_ =? BSC_INPUT then BSC_STATE_UNKNOWN
                else if typ =? BSC_BINARY then BSC_STATE_OFF else BSC_STATE_ON in
      let e := mkEndpoint n sub s_id io_ type_ st (if type_ =? BSC_BINARY then None else Some (str "?"))
                 c ie None 0 None None in
      let p := next w in
      Ok (p, p :: head,
          mkBsc (<[p := e]> (endpoints w)) (filters w) (timeouts w) (bframe w) (sent w)
            (u8 (id w + 1)) (Pos.succ p) (app_state w))
  end.

(** [strncpy(&uid[6], id, 2)]; a UID of fewer than eight characters would be
    overrun or left without its terminator ([xapInit] refuses it). *)
Definition endpoint_uid (u eid : cstr) : out cstr :=
  if (length u <? 8)%nat then Undef OutOfBounds
  else Ok (take 6 u ++ take 2 eid ++ drop 8 u).

Definition bscAddEndpointFilter (x : xAPIdent) (p : addr) (info_interval : Z) (w : bsc) : out bsc :=
  e ← get_ep p w;
  u ← endpoint_uid (uid x) (ep_id e);
  let src := bscFQEN (source x) e in
  let w := put_ep p (with_address u src e) w in
  let target c := xapAddFilter (xapAddFilter [] (str "xap-header") (str "class") c) (str "xap-header") (str "target") src in
  let '(fl, nx) :=
    if io e =? BSC_OUTPUT
    then (xapAddFilterAction (next w) bscIncomingCmd_cb (target BSC_CMD_CLASS) (Some p) (filters w), Pos.succ (next w))
    else (filters w, next w) in
  let fl := xapAddFilterAction nx bscIncomingQuery_cb (target BSC_QUERY_CLASS) (Some p) fl in
  let nx := Pos.succ nx in
  '(tl, nx) ← (if 0 <? info_interval
               then l ← xapAddTimeoutAction nx bscInfoTimeout_cb info_interval (Some p) (timeouts w); Ok (l, Pos.succ nx)
               else Ok (timeouts w, nx));
  Ok (mkBsc (endpoints w) fl tl (bframe w) (sent w) (id w) nx (app_state w)).

Fixpoint bscAddEndpointFilterList (x : xAPIdent) (l : list addr) (info_interval : Z) (w : bsc) : out bsc :=
  match l with
  | [] => Ok w
  | p :: r => w ← bscAddEndpointFilter x p info_interval w; bscAddEndpointFilterList x r info_interval w
  end.

Fixpoint bscFreeEndpointFilterList (l : list addr) (w : bsc) : out bsc :=
  match l with
  | [] => Ok w
  | p :: r =>
      _ ← get_ep p w;
      bscFreeEndpointFilterList r (set_endpoints (delete p (endpoints w)) w)
  end.

End Bsc.
Arguments bsc : clear implicits.
Arguments bsc_filter_cb : clear implicits.
Arguments bsc_timeout_cb : clear implicits.
Arguments bscEndpoint : clear implicits.

(** * Properties *)

(** ** States *)

Lemma decode_range m : bscDecodeState m = -1 \/ 0 <= bscDecodeState m <= 2.
Proof.
  destruct m as [m|]; [|by left]. cbn. repeat case_match; auto; right; lia.
Qed.

Section Props.
Context {CB IB FB TB A : Type}.
Abbreviation endpoint := (bscEndpoint CB IB).
Abbreviation world := (bsc CB IB FB TB A).

(** The meaning of a decoded value: on, off, the opposite of on, or unknown. *)
Definition apply_state (v old : Z) : Z :=
  if v =? 2 then (if old =? BSC_STATE_ON then BSC_STATE_OFF else BSC_STATE_ON)
  else if v =? -1 then BSC_STATE_UNKNOWN else v.

Lemma set_state_decoded (m : option cstr) (e : endpoint) :
  bscSetState (bscDecodeState m) e = with_state (apply_state (bscDecodeState m) (ep_state e)) e.
Proof.
  unfold bscSetState, apply_state. f_equal. destruct (decode_range m) as [->|Hr]; [done|].
  assert (bscDecodeState m = 0 \/ bscDecodeState m = 1 \/ bscDecodeState m = 2) as [->|[->| ->]] by lia; [done|done|].
  cbn [Z.eqb Pos.eqb]. by destruct (ep_state e =? BSC_STATE_ON).
Qed.

Lemma apply_state_range v old : v = -1 \/ 0 <= v <= 2 -> 0 <= apply_state v old <= 3.
Proof. unfold apply_state, BSC_STATE_UNKNOWN, BSC_STATE_ON, BSC_STATE_OFF. intros. repeat case_match; lia. Qed.

(** ** Messages *)

Definition state_text (s : Z) : cstr := if s =? 0 then str "off" else if s =? 1 then str "on" else str "?".
Definition io_text (d : Z) : cstr := if d =? 0 then str "input" else str "output".

(** The message an endpoint sends. *)
Definition info_msg (e : endpoint) (clazz : cstr) : message :=
  [mkBlock (str "xap-header")
     [(str "v", str "12"); (str "hop", str "1"); (str "uid", pstr (ep_uid e)); (str "class", clazz);
      (str "source", pstr (ep_source e))];
   mkBlock (io_text (io e) ++ str ".state")
     ([(str "state", state_text (ep_state e))] ++
      (if type e =? BSC_LEVEL then [(str "level", pstr (text e))]
       else if type e =? BSC_STREAM then [(str "text", pstr (text e))] else []) ++
      match displayText e with Some (d :: ds) => [(str "displaytext", d :: ds)] | _ => [] end)].

(** The fields of an endpoint are within their bit widths and hold text. *)
Definition fields_ok (e : endpoint) : Prop := 0 <= io e <= 1 /\ 0 <= ep_state e <= 3.
Definition ep_wf (e : endpoint) : Prop :=
  fields_ok e /\ text_wf (pstr (ep_uid e)) /\ text_wf (pstr (ep_source e)) /\ text_wf (pstr (text e)) /\
  text_wf (pstr (displayText e)).

Lemma strings_ok (e : endpoint) :
  fields_ok e -> bscIOToString e = Ok (io_text (io e)) /\ bscStateToString e = Ok (state_text (ep_state e)).
Proof.
  intros [Hio Hst]. unfold bscIOToString, bscStateToString.
  assert (io e = 0 \/ io e = 1) as [->| ->] by lia;
  assert (ep_state e = 0 \/ ep_state e = 1 \/ ep_state e = 2 \/ ep_state e = 3) as [->|[->|[->| ->]]] by lia; done.
Qed.

Lemma info_msg_wf e clazz : ep_wf e -> text_wf clazz -> msg_wf (info_msg e clazz).
Proof.
  intros (_ & Hu & Hs & Ht & Hd) Hc. unfold info_msg. constructor; [|constructor; [|constructor]].
  - split; [by apply name_wf_str|].
    repeat (constructor; [split; [by apply key_wf_str|]|]); try done; by apply text_wf_str.
  - split; [unfold io_text; destruct (io e =? 0); by apply name_wf_str|]. cbn [b_kvs].
    apply Forall_app_2; [constructor; [|constructor]|apply Forall_app_2].
    + split; [by apply key_wf_str|]. unfold state_text. cbn [snd]. repeat case_match; by apply text_wf_str.
    + repeat case_match; repeat constructor; try (by apply key_wf_str); done.
    + destruct (displayText e) as [[|d ds]|]; repeat constructor; try (by apply key_wf_str);
        cbn in *; by apply Forall_cons in Hd as [? ?].
Qed.

(** The text built by the [snprintf] calls. *)
Lemma info_text e clazz :
  print_msg (info_msg e clazz)
  = ((((line "xap-header" ++ line "{" ++ line "v=12" ++ line "hop=1" ++
    str "uid=" ++ pstr (ep_uid e) ++ [10] ++ str "class=" ++ clazz ++ [10] ++
    str "source=" ++ pstr (ep_source e) ++ [10] ++ line "}" ++
    io_text (io e) ++ line ".state" ++ line "{" ++ str "state=" ++ state_text (ep_state e) ++ [10]) ++
    (if type e =? BSC_LEVEL then str "level=" ++ pstr (text e) ++ [10]
     else if type e =? BSC_STREAM then str "text=" ++ pstr (text e) ++ [10] else [])) ++
    match displayText e with Some (d :: ds) => str "displaytext=" ++ (d :: ds) ++ [10] | _ => [] end) ++ line "}").
Proof.
  unfold print_msg, info_msg, print_block, print_kvs, line. cbn [map concat b_name b_kvs].
  rewrite !map_app, !concat_app. unfold print_kv. cbn [map concat fst snd].
  destruct (type e =? BSC_LEVEL), (type e =? BSC_STREAM), (displayText e) as [[|d ds]|];
    cbn [map concat fst snd]; repeat rewrite <- app_assoc; rewrite ?app_nil_r;
    repeat rewrite <- app_assoc; reflexivity.
Qed.

(** The state after a report. *)
Definition reported (now : Z) (p : addr) (e : endpoint) (m : cstr) (w : world) : world :=
  let w := put_ep p (with_report now e) w in
  mkBsc (endpoints w) (filters w) (timeouts w) (bframe w) (sent w ++ [m]) (id w) (next w) (app_state w).

Lemma info_event_eq now p clazz (w : world) e :
  endpoints w !! p = Some e -> fields_ok e -> Z.of_nat (length (print_msg (info_msg e clazz))) <= 1500 ->
  bscInfoEvent now p clazz w = Ok (reported now p e (take 1499 (print_msg (info_msg e clazz))) w).
Proof.
  intros He Hok Hlen. unfold bscInfoEvent, get_ep. rewrite He. cbn [of_opt]. rewrite bind_Ok.
  destruct (strings_ok e Hok) as [-> ->]. rewrite !bind_Ok. rewrite info_text in Hlen |- *.
  set (t0 := line "xap-header" ++ _) in *.
  set (t1 := if type e =? BSC_LEVEL then _ else _) in Hlen |- *.
  set (t2 := match displayText e with Some (d :: ds) => str "displaytext=" ++ _ | _ => [] end) in Hlen |- *.
  rewrite !length_app in Hlen. unfold XAP_DATA_LEN.
  assert (H1 : (if type e =? BSC_LEVEL then sb_append 1500 t0 (str "level=" ++ pstr (text e) ++ [10])
       else if type e =? BSC_STREAM then sb_append 1500 t0 (str "text=" ++ pstr (text e) ++ [10])
       else Ok t0) = Ok (t0 ++ t1)).
  { subst t1. destruct (type e =? BSC_LEVEL); [apply sb_append_fits; lia|].
    destruct (type e =? BSC_STREAM); [apply sb_append_fits; lia|]. by rewrite app_nil_r. }
  rewrite H1, bind_Ok.
  assert (H2 : match displayText e with
      | Some (d :: ds) => sb_append 1500 (t0 ++ t1) (str "displaytext=" ++ (d :: ds) ++ [10])
      | _ => Ok (t0 ++ t1) end = Ok ((t0 ++ t1) ++ t2)).
  { subst t2. destruct (displayText e) as [[|d ds]|]; [by rewrite app_nil_r| |by rewrite app_nil_r].
    apply sb_append_fits. rewrite length_app. lia. }
  rewrite H2, bind_Ok, sb_append_fits by (rewrite !length_app; lia). rewrite bind_Ok.
  destruct (Z.ltb_spec 1500 (Z.of_nat (length (((t0 ++ t1) ++ t2) ++ line "}")))) as [Hlt|_].
  { rewrite !length_app in Hlt. lia. }
  done.
Qed.

(** ** Commands *)

(** The states a command sets on an endpoint: those of the consecutive sections
    [output.state.1], ... that carry a state and an id, as long as both are
    present, whose id is the endpoint's or starts with a star. *)
Fixpoint cmd_states (fuel : nat) (i : Z) (es : list entry) (eid : cstr) : list cstr :=
  match fuel with
  | O => []
  | S n =>
      let sec := str "output.state." ++ fmt_d i in
      match entries_lookup es sec (Some (str "state")), entries_lookup es sec (Some (str "id")) with
      | Some st, Some d =>
          (if bool_decide (head d = Some 42) || strcmp0 eid d then [st] else []) ++ cmd_states n (i + 1) es eid
      | _, _ => []
      end
  end.

(** The endpoint and the events after a sequence of states. *)
Fixpoint after_states (now : Z) (e : endpoint) (l : list cstr) : endpoint * list cstr :=
  match l with
  | [] => (e, [])
  | st :: r =>
      let e1 := with_state (apply_state (bscDecodeState (Some st)) (ep_state e)) e in
      let '(e2, evs) := after_states now (with_report now e1) r in
      (e2, print_msg (info_msg e1 BSC_EVENT_CLASS) :: evs)
  end.

(** A binary endpoint that reports without asking the application and whose
    messages fit a packet. *)
Definition binary_ep (e : endpoint) : Prop :=
  fields_ok e /\ type e = BSC_BINARY /\ infoEvent e = None /\
  (length (pstr (ep_uid e)) + length (pstr (ep_source e)) + length (pstr (displayText e)) <= 1300)%nat.

(** A binary output without hooks. *)
Definition simple_output (e : endpoint) : Prop := binary_ep e /\ io e = BSC_OUTPUT /\ cmd e = None.

Lemma binary_ep_state e v : binary_ep e -> 0 <= v <= 3 -> binary_ep (with_state v e).
Proof. intros ([? ?] & ? & ? & ?) Hv. unfold binary_ep, fields_ok. cbn. auto 10. Qed.

Lemma binary_ep_report e t : binary_ep e -> binary_ep (with_report t e).
Proof. done. Qed.

Lemma simple_output_state e v : simple_output e -> 0 <= v <= 3 -> simple_output (with_state v e).
Proof. intros (Hb & ? & ?) Hv. split; [by apply binary_ep_state|done]. Qed.

Lemma binary_event_fits e : binary_ep e -> (length (print_msg (info_msg e BSC_EVENT_CLASS)) <= 1499)%nat.
Proof.
  intros ([Hio Hst] & Hty & _ & Hlen). rewrite info_text, Hty. rewrite !length_app.
  assert (length (match displayText e with Some (d :: ds) => str "displaytext=" ++ (d :: ds) ++ [10%Z] | _ => [] end)
          <= 13 + length (pstr (displayText e)))%nat.
  { destruct (displayText e) as [[|d ds]|]; cbn [pstr]; rewrite ?length_app; simpl; lia. }
  assert (length (state_text (ep_state e)) <= 3)%nat by (unfold state_text; repeat case_match; simpl; lia).
  assert (length (io_text (io e)) <= 6)%nat by (unfold io_text; repeat case_match; simpl; lia).
  simpl in *. lia.
Qed.

(** The event of such an endpoint. *)
Lemma send_event_eq (run_info : IB -> addr -> cstr -> world -> out (bool * world)) now p (w : world) e :
  endpoints w !! p = Some e -> binary_ep e ->
  bscSendEvent run_info now p w = Ok (reported now p e (print_msg (info_msg e BSC_EVENT_CLASS)) w).
Proof.
  intros He Hb. pose proof Hb as (Hok & Hty & Hi & _). pose proof (binary_event_fits e Hb).
  unfold bscSendEvent, bscSendInfoEvent, get_ep. rewrite He. cbn [of_opt]. rewrite bind_Ok, Hi, bind_Ok.
  rewrite (info_event_eq now p _ w e); [|done|done|lia]. by rewrite take_ge by lia.
Qed.

Lemma cmd_section_ok i : 1 <= i <= 98 -> cmd_section i = Ok (str "output.state." ++ fmt_d i).
Proof.
  intros Hi. unfold cmd_section, sprintf_buf. assert (Hlen : (length (fmt_d i) <= 2)%nat).
  { assert (Hall : forallb (fun n => (length (fmt_d (Z.of_nat n)) <=? 2)%nat) (seq 1 98) = true) by (vm_compute; reflexivity).
    rewrite forallb_forall in Hall. specialize (Hall (Z.to_nat i)). rewrite Z2Nat.id in Hall by lia.
    apply Nat.leb_le, Hall, in_seq. lia. }
  rewrite length_app. change (length (str "output.state.")) with 13%nat.
  by destruct (Z.ltb_spec (Z.of_nat (13 + length (fmt_d i))) 16); [|lia].
Qed.

Section Cmd.
Context (run_cmd : CB -> addr -> world -> out world) (run_info : IB -> addr -> cstr -> world -> out (bool * world)).

(** One event of a simple output. *)
Lemma send_cmd_event now p (w : world) e :
  endpoints w !! p = Some e -> simple_output e ->
  bscSendCmdEvent run_cmd run_info now p w
  = Ok (reported now p e (print_msg (info_msg e BSC_EVENT_CLASS)) w).
Proof.
  intros He (Hb & _ & Hc). unfold bscSendCmdEvent, get_ep. rewrite He. cbn [of_opt]. rewrite bind_Ok, Hc, bind_Ok.
  by apply send_event_eq.
Qed.

(** The world after a run of states. *)
Definition obeyed (p : addr) (r : endpoint * list cstr) (w : world) : world :=
  let w1 := put_ep p (fst r) w in
  mkBsc (endpoints w1) (filters w1) (timeouts w1) (bframe w1) (sent w1 ++ snd r) (id w1) (next w1) (app_state w1).

Lemma obeyed_reported now p e1 m r (w : world) :
  obeyed p r (reported now p e1 m (put_ep p e1 w)) = obeyed p (fst r, m :: snd r) w.
Proof.
  unfold obeyed, reported, put_ep, set_endpoints. cbn [endpoints filters timeouts bframe sent id next app_state fst snd].
  rewrite !insert_insert_eq. f_equal. by rewrite <- app_assoc.
Qed.

Lemma obeyed_nil p e (w : world) : endpoints w !! p = Some e -> obeyed p (e, []) w = w.
Proof.
  intros He. unfold obeyed, put_ep, set_endpoints. cbn [endpoints filters timeouts bframe sent id next app_state fst snd].
  rewrite insert_id by done. rewrite app_nil_r. by destruct w.
Qed.

Lemma cmd_loop_eq fuel i now p (w : world) e es :
  frame_rep (bframe w) es -> endpoints w !! p = Some e -> simple_output e ->
  1 <= i -> i + Z.of_nat fuel <= 99 ->
  cmd_loop run_cmd run_info fuel i now p w
  = Ok (obeyed p (after_states now e (cmd_states fuel i es (ep_id e))) w).
Proof.
  revert i w e. induction fuel as [|n IH]; intros i w e Hrep He Hs Hi Hb; cbn [cmd_loop cmd_states].
  - cbn [after_states]. by rewrite obeyed_nil.
  - rewrite cmd_section_ok, bind_Ok by lia. rewrite !(get_value_rep _ _ _ _ Hrep), !bind_Ok.
    destruct (entries_lookup es _ (Some (str "state"))) as [st|]; [|cbn [after_states]; by rewrite obeyed_nil].
    destruct (entries_lookup es _ (Some (str "id"))) as [d|]; [|cbn [after_states]; by rewrite obeyed_nil].
    unfold get_ep. rewrite He. cbn [of_opt]. rewrite bind_Ok.
    destruct (bool_decide (head d = Some 42) || strcmp0 (ep_id e) d); cbn [app]; [|apply IH; (done || lia)].
    rewrite set_state_decoded. set (v := apply_state _ _).
    assert (Hv : 0 <= v <= 3) by (apply apply_state_range, decode_range).
    set (e1 := with_state v e). assert (Hs1 : simple_output e1) by (by apply simple_output_state).
    assert (Hty : type e1 = BSC_BINARY) by apply Hs1. rewrite Hty. cbn [Z.eqb BSC_BINARY BSC_LEVEL BSC_STREAM].
    rewrite bind_Ok. rewrite (send_cmd_event now p (put_ep p e1 w) e1); [|apply lookup_insert_eq|done].
    rewrite bind_Ok. rewrite (IH (i + 1) _ (with_report now e1)); [|done|apply lookup_insert_eq|done|lia|lia].
    cbn [app after_states]. fold v e1. change (ep_id (with_report now e1)) with (ep_id e).
    destruct (after_states now (with_report now e1) _) as [e2 evs]. by rewrite obeyed_reported.
Qed.

End Cmd.
End Props.

(** ** Identifiers *)

Lemma fmt_X2_inj a b : 0 <= a < 256 -> 0 <= b < 256 -> fmt_X 2 a = fmt_X 2 b -> a = b.
Proof.
  intros Ha Hb He.
  assert (Hnd : NoDup (map (fun n => fmt_X 2 (Z.of_nat n)) (seq 0 256))).
  { apply (bool_decide_eq_true_1 (NoDup _)). vm_compute. reflexivity. }
  assert (Hl : forall x, 0 <= x < 256 ->
    map (fun n => fmt_X 2 (Z.of_nat n)) (seq 0 256) !! Z.to_nat x = Some (fmt_X 2 x)).
  { intros x Hx. rewrite list_lookup_fmap, lookup_seq_lt by lia. simpl. f_equal. f_equal. lia. }
  pose proof (NoDup_lookup _ _ _ _ Hnd (Hl a Ha) (eq_trans (Hl b Hb) (f_equal Some (eq_sym He)))). lia.
Qed.

Lemma fmt_X2_length a : 0 <= a < 256 -> length (fmt_X 2 a) = 2%nat.
Proof.
  intros Ha. assert (Hall : forallb (fun n => (length (fmt_X 2 (Z.of_nat n)) =? 2)%nat) (seq 0 256) = true)
    by (vm_compute; reflexivity).
  rewrite forallb_forall in Hall. specialize (Hall (Z.to_nat a)). rewrite Z2Nat.id in Hall by lia.
  apply Nat.eqb_eq, Hall, in_seq. lia.
Qed.

Section Create.
Context {CB IB FB TB A : Type}.
Abbreviation world := (bsc CB IB FB TB A).

(** Create endpoints one after the other: name, subaddress, direction, type. *)
Fixpoint add_all (l : list (cstr * option cstr * Z * Z)) (head : list addr) (w : world) : out (list addr * world) :=
  match l with
  | [] => Ok (head, w)
  | (n, s, d, t) :: r => '(_, head, w) ← bscAddEndpoint head (Some n) s d t None None w; add_all r head w
  end.

Lemma add_endpoint_eq head n s d t c ie (w : world) :
  0 <= id w < 256 ->
  exists e, bscAddEndpoint head (Some n) s d t c ie w
    = Ok (next w, next w :: head,
          mkBsc (<[next w := e]> (endpoints w)) (filters w) (timeouts w) (bframe w) (sent w)
            (u8 (id w + 1)) (Pos.succ (next w)) (app_state w)) /\ ep_id e = fmt_X 2 (id w).
Proof.
  intros Hid. unfold bscAddEndpoint, sprintf_buf. rewrite fmt_X2_length by done.
  change (Z.of_nat 2 <? 3) with true. cbn match. rewrite bind_Ok. eexists. split; [reflexivity|done].
Qed.

(** The ids the counter hands out from [i]. *)
Fixpoint ids_from (i : Z) (n : nat) : list cstr :=
  match n with O => [] | S m => fmt_X 2 i :: ids_from (u8 (i + 1)) m end.

Definition ids_of (l : list addr) (w : world) : list (option cstr) := map (fun p => ep_id <$> endpoints w !! p) l.

Lemma ids_of_stable l p e (w : world) f t fr s i nx a :
  p ∉ l -> ids_of l (mkBsc (<[p := e]> (endpoints w)) f t fr s i nx a) = ids_of l w.
Proof.
  intros Hp. unfold ids_of. apply map_ext_in. intros q Hq%list_elem_of_In. cbn [endpoints].
  by rewrite lookup_insert_ne by (intros ->; done).
Qed.

Lemma add_all_ids l head (w : world) :
  0 <= id w < 256 -> Forall (fun p => (p < next w)%positive) head ->
  exists head' w', add_all l head w = Ok (head' ++ head, w') /\ length head' = length l /\
    ids_of (rev head') w' = map Some (ids_from (id w) (length l)) /\ ids_of head w' = ids_of head w.
Proof.
  revert head w. induction l as [|[[[n s] d] t] l IH]; intros head w Hid Hh; [by exists [], w|].
  cbn [add_all]. destruct (add_endpoint_eq head n s d t None None w Hid) as (e & -> & He). rewrite bind_Ok.
  set (w1 := mkBsc _ _ _ _ _ _ _ _).
  destruct (IH (next w :: head) w1) as (h' & w' & Hadd & Hlen & Hids & Hold).
  - apply u8_range.
  - constructor; [cbn; lia|]. eapply Forall_impl; [exact Hh|]. intros; cbn in *; lia.
  - exists (h' ++ [next w]), w'. rewrite <- app_assoc. split; [done|].
    split; [rewrite length_app; simpl; lia|]. unfold ids_of in Hold. cbn [map] in Hold. injection Hold as Hn Hold.
    assert (Hnew : endpoints w1 !! next w = Some e) by apply lookup_insert_eq.
    split.
    + rewrite rev_app_distr. cbn [rev app length ids_from map]. unfold ids_of in *. cbn [map].
      f_equal; [rewrite Hn; etransitivity; [exact (f_equal (fmap ep_id) Hnew)|]; cbn; by rewrite He|exact Hids].
    + transitivity (ids_of head w1); [exact Hold|]. apply ids_of_stable.
      intros Hin. rewrite Forall_forall in Hh. specialize (Hh _ Hin). simpl in Hh. lia.
Qed.

Lemma ids_from_lookup i n k : 0 <= i < 256 -> (k < n)%nat -> ids_from i n !! k = Some (fmt_X 2 (u8 (i + Z.of_nat k))).
Proof.
  revert i k. induction n as [|n IH]; intros i k Hi Hk; [lia|]. cbn [ids_from]. destruct k as [|k].
  - cbn. rewrite Z.add_0_r. by rewrite u8_small.
  - cbn [lookup list_lookup]. rewrite IH by (apply u8_range || lia). f_equal. f_equal. unfold u8.
    rewrite Zplus_mod_idemp_l. f_equal. lia.
Qed.

Lemma ids_from_NoDup i n : 0 <= i < 256 -> (n <= 256)%nat -> NoDup (ids_from i n).
Proof.
  intros Hi Hn. apply NoDup_alt. intros j k x Hj Hk.
  assert (Hlen : length (ids_from i n) = n).
  { clear. revert i. induction n as [|n IH]; intros i; [done|]. cbn. by rewrite IH. }
  pose proof (lookup_lt_Some _ _ _ Hj). pose proof (lookup_lt_Some _ _ _ Hk).
  rewrite ids_from_lookup in Hj, Hk by lia. rewrite <- Hk in Hj. injection Hj as Hj.
  apply fmt_X2_inj in Hj; [|apply u8_range..]. unfold u8 in Hj.
  assert (Hd : (Z.of_nat j - Z.of_nat k) mod 256 = 0).
  { replace (Z.of_nat j - Z.of_nat k) with ((i + Z.of_nat j) - (i + Z.of_nat k)) by lia.
    change (2 ^ 8) with 256 in Hj. rewrite Zminus_mod, Hj, Z.sub_diag. done. }
  apply Z.mod_divide in Hd; [|lia]. destruct Hd as [q Hq]. assert (q = 0) by lia. lia.
Qed.

(** ** Addressing *)

Definition header (es : list entry) (k : cstr) : option cstr := entries_lookup es (str "xap-header") (Some k).

(** The filters of an endpoint ask for a class and a target. *)
Definition addressed (es : list entry) (class src : cstr) : bool :=
  match header es (str "class"), header es (str "target") with
  | Some c, Some t => strcasecmp0 class c && xapFilterAddrSubaddress (Some t) src
  | _, _ => false
  end.

Definition ep_filter (c src : cstr) : list xAPFilter :=
  xapAddFilter (xapAddFilter [] (str "xap-header") (str "class") c) (str "xap-header") (str "target") src.

Lemma ep_filter_match es c src :
  58 ∈ src -> c = BSC_CMD_CLASS \/ c = BSC_QUERY_CLASS ->
  chain_match es (ep_filter c src) = addressed es c src.
Proof.
  intros Hsrc Hc. unfold chain_match, ep_filter, xapAddFilter. cbn [forallb]. rewrite andb_true_r.
  unfold filter_match at 1. cbn [f_section f_key f_value]. fold (header es (str "target")).
  assert (Hn : forall s, 58 ∉ s -> strcmp0 src s = false).
  { intros s Hs. apply bool_decide_eq_false_2. intros ->. done. }
  rewrite !Hn by (apply (bool_decide_eq_true_1 (_ ∉ _)); reflexivity).
  assert (Hcv : forall v, compare_value (mkFilter (str "xap-header") (str "target") src) v = xapFilterAddrSubaddress (Some v) src)
    by (intros; reflexivity).
  assert (Hcc : filter_match es (mkFilter (str "xap-header") (str "class") c)
    = match header es (str "class") with Some v => strcasecmp0 c v | None => false end).
  { unfold filter_match. cbn [f_section f_key f_value]. fold (header es (str "class")).
    destruct Hc as [->| ->]; reflexivity. }
  rewrite Hcc. unfold addressed. destruct (header es (str "class")) as [cv|], (header es (str "target")) as [tv|];
    rewrite ?Hcv, ?andb_false_r; try done. apply andb_comm.
Qed.

Lemma cat_to_elem N s t c : c ∈ s -> (length s < N)%nat -> c ∈ cat_to N s t.
Proof. intros Hc Hl. unfold cat_to. rewrite take_app, take_ge by lia. apply elem_of_app. by left. Qed.

Lemma cat_to_length N s t : (0 < N)%nat -> (length (cat_to N s t) < N)%nat.
Proof. intros. unfold cat_to. rewrite length_take. lia. Qed.

Lemma fqen_colon target (e : bscEndpoint CB IB) : (length target <= 510)%nat -> 58 ∈ bscFQEN target e.
Proof.
  intros Hl. assert (H0 : 58 ∈ cat_to 512 (cat_to 512 [] target) (str ":")).
  { unfold cat_to. cbn [app]. rewrite (take_ge target) by lia.
    rewrite take_ge by (rewrite length_app; simpl; lia). apply elem_of_app. right. by left. }
  assert (Hstep : forall s t, 58 ∈ cat_to 512 s t -> forall u, 58 ∈ cat_to 512 (cat_to 512 s t) u).
  { intros s t Hs u. apply cat_to_elem; [done|]. apply cat_to_length. lia. }
  unfold bscFQEN. destruct (subaddr e); auto.
Qed.

(** What a registration adds. *)
Lemma add_filter_eq x p i (w w' : world) e :
  endpoints w !! p = Some e -> bscAddEndpointFilter x p i w = Ok w' ->
  exists q1 q2 u, filters w' =
    mkFilterCallback q1 bscIncomingQuery_cb (Some p) (ep_filter BSC_QUERY_CLASS (bscFQEN (source x) e)) ::
    (if io e =? BSC_OUTPUT
     then mkFilterCallback q2 bscIncomingCmd_cb (Some p) (ep_filter BSC_CMD_CLASS (bscFQEN (source x) e)) :: filters w
     else filters w) /\
    endpoints w' !! p = Some (with_address u (bscFQEN (source x) e) e) /\
    u = take 6 (uid x) ++ take 2 (ep_id e) ++ drop 8 (uid x) /\ (8 <= length (uid x))%nat.
Proof.
  intros He H. unfold bscAddEndpointFilter, get_ep in H. rewrite He in H. cbn [of_opt] in H. rewrite bind_Ok in H.
  unfold endpoint_uid in H. destruct (Nat.ltb_spec (length (uid x)) 8) as [|Hu]; [done|]. rewrite bind_Ok in H.
  cbv zeta in H. destruct (io e =? BSC_OUTPUT);
    inv_bind H; destruct a as [tl nx]; apply Ok_inj in H; subst w'; cbn [filters endpoints put_ep set_endpoints];
    eexists _, (next w), _; (split; [reflexivity|]); (split; [apply lookup_insert_eq|]); done.
Qed.

End Create.

(** * Claims *)

(** C33.  The message an endpoint sends is the text of a well-formed message with
    its UID, the class, its address, its direction and state, and its level or
    text: every receiver's parser reads back exactly these entries.  It is sent
    and the time noted when it fits the packet; at exactly 1500 bytes the size
    check lets it through without its last byte. *)
Theorem bscInfoEvent_spec {CB IB FB TB A : Type} (now : Z) (p : addr) (clazz : cstr) (w : bsc CB IB FB TB A)
    (e : bscEndpoint CB IB) :
  endpoints w !! p = Some e -> ep_wf e -> text_wf clazz ->
  let m := info_msg e clazz in
  msg_wf m /\
  ((length (print_msg m) <= 1500)%nat ->
     bscInfoEvent now p clazz w = Ok (reported now p e (take 1499 (print_msg m)) w)) /\
  ((length (print_msg m) <= 1499)%nat ->
     exists f, parseMsgF (load_packet (take 1499 (print_msg m))) = Ok (f, length (msg_entries m)) /\
       frame_rep f (msg_entries m)).
Proof.
  intros He Hwf Hc m. pose proof (info_msg_wf e clazz Hwf Hc) as Hm. split; [done|]. split.
  - intros Hl. apply info_event_eq; [done|apply Hwf|change (Z.of_nat (length (print_msg m)) <= 1500); lia].
  - intros Hl. rewrite take_ge by done. eexists. split.
    + apply parse_print; [done|unfold m in *; lia| |apply length_replicate]. subst m. unfold info_msg, msg_entries.
      destruct (displayText e) as [[|d ds]|], (type e =? BSC_LEVEL), (type e =? BSC_STREAM); cbn; lia.
    + by apply parsed_frame_rep.
Qed.

Definition demo_ep : bscEndpoint unit unit :=
  mkEndpoint (str "relay") (Some (str "1")) (str "01") BSC_OUTPUT BSC_BINARY BSC_STATE_OFF None None None None 0
    (Some (str "FF00DC01")) (Some (str "dbzoo.livebox.Controller:relay.1")).

Definition demo_bsc (f : xAPFrame) : bsc unit unit unit unit unit := mkBsc {[ 1%positive := demo_ep ]} [] [] f [] 2 2 tt.

Lemma bscInfoEvent_spec_witness :
  exists w', bscInfoEvent 100 1 BSC_EVENT_CLASS (demo_bsc (load_packet [])) = Ok w' /\
    length (sent w') = 1%nat.
Proof.
  destruct (bscInfoEvent_spec 100 1 BSC_EVENT_CLASS (demo_bsc (load_packet [])) demo_ep) as (_ & H & _).
  - reflexivity.
  - split; [unfold fields_ok; cbn; unfold BSC_OUTPUT, BSC_STATE_OFF; lia|]. repeat split; by apply text_wf_str.
  - by apply text_wf_str.
  - eexists. split; [apply H; apply Nat.leb_le; vm_compute; reflexivity|]. reflexivity.
Defined.

(** C10.  A command executed by a binary output without hooks: the endpoint goes
    through the states of the sections addressed to it, in order, up to the
    first section without state or id, and sends one event per section, with the
    state it then has; nothing else changes. *)
Theorem bscIncomingCmd_spec {CB IB FB TB A : Type} (run_cmd : CB -> addr -> bsc CB IB FB TB A -> out (bsc CB IB FB TB A))
    (run_info : IB -> addr -> cstr -> bsc CB IB FB TB A -> out (bool * bsc CB IB FB TB A))
    (now : Z) (p : addr) (w : bsc CB IB FB TB A) (e : bscEndpoint CB IB) (es : list entry) :
  frame_rep (bframe w) es -> endpoints w !! p = Some e -> simple_output e ->
  bscIncomingCmd run_cmd run_info now p w
  = Ok (obeyed p (after_states now e (cmd_states 98 1 es (ep_id e))) w).
Proof.
  intros Hrep He Hs. unfold bscIncomingCmd, get_ep. rewrite He. cbn [of_opt]. rewrite bind_Ok.
  pose proof Hs as (_ & Hio & _). rewrite Hio. cbn [Z.eqb BSC_OUTPUT BSC_INPUT].
  apply cmd_loop_eq; (done || lia).
Qed.

Definition demo_cmd : message :=
  [mkBlock (str "output.state.1") [(str "id", str "01"); (str "state", str "on")];
   mkBlock (str "output.state.2") [(str "id", str "02"); (str "state", str "off")];
   mkBlock (str "output.state.3") [(str "id", str "*"); (str "state", str "toggle")]].

Lemma demo_cmd_wf : msg_wf demo_cmd.
Proof.
  repeat constructor; try (by apply text_wf_str); try (by apply (bool_decide_eq_true_1 (_ ∉ _))); done.
Qed.

Lemma bscIncomingCmd_spec_witness :
  exists w', bscIncomingCmd (fun _ _ w => Ok w) (fun _ _ _ w => Ok (true, w)) 100 1
      (demo_bsc (parsed_frame demo_cmd [0] [])) = Ok w' /\
    length (sent w') = 2%nat /\ (ep_state <$> endpoints w' !! 1%positive) = Some BSC_STATE_OFF.
Proof.
  rewrite (bscIncomingCmd_spec _ _ 100 1 (demo_bsc (parsed_frame demo_cmd [0] [])) demo_ep (msg_entries demo_cmd)).
  - eexists. split; [reflexivity|]. split; reflexivity.
  - exact (parsed_frame_rep demo_cmd [0] [] demo_cmd_wf).
  - reflexivity.
  - split; [|done]. split; [unfold fields_ok; cbn; unfold BSC_OUTPUT, BSC_STATE_OFF; lia|].
    split; [done|]. split; [done|]. apply Nat.leb_le. reflexivity.
Defined.

(** Registering an endpoint makes it reachable under its address: the
    callback for queries matches exactly the messages of class [xAPBSC.query]
    whose target, a pattern, matches the address; an output gets the same for
    [xAPBSC.cmd], an input gets none; its UID is the program's with the last two
    digits replaced by the endpoint's id. *)
Theorem bscAddEndpointFilter_spec {CB IB FB TB A : Type} (x : xAPIdent) (p : addr) (i : Z) (w w' : bsc CB IB FB TB A)
    (e : bscEndpoint CB IB) :
  endpoints w !! p = Some e -> bscAddEndpointFilter x p i w = Ok w' -> (length (source x) <= 510)%nat ->
  let src := bscFQEN (source x) e in
  exists new, filters w' = new ++ filters w /\
    map callback new = bscIncomingQuery_cb :: (if io e =? BSC_OUTPUT then [bscIncomingCmd_cb] else []) /\
    Forall (fun f => user_data f = Some p /\ forall es, cb_match es f =
      addressed es (match callback f with bscIncomingCmd_cb => BSC_CMD_CLASS | _ => BSC_QUERY_CLASS end) src) new /\
    endpoints w' !! p = Some (with_address (take 6 (uid x) ++ take 2 (ep_id e) ++ drop 8 (uid x)) src e).
Proof.
  intros He Hadd Hsrc src. pose proof (fqen_colon (source x) e Hsrc) as Hcolon.
  destruct (add_filter_eq x p i w w' e He Hadd) as (q1 & q2 & u & Hf & Hep & -> & _).
  set (fq := mkFilterCallback q1 (bscIncomingQuery_cb (FB := FB)) (Some p) (ep_filter BSC_QUERY_CLASS src)).
  set (fc := mkFilterCallback q2 (bscIncomingCmd_cb (FB := FB)) (Some p) (ep_filter BSC_CMD_CLASS src)).
  exists (fq :: if io e =? BSC_OUTPUT then [fc] else []). rewrite Hf, Hep.
  assert (Hq : forall es, cb_match es fq = addressed es BSC_QUERY_CLASS src) by (intros; apply ep_filter_match; auto).
  assert (Hc : forall es, cb_match es fc = addressed es BSC_CMD_CLASS src) by (intros; apply ep_filter_match; auto).
  destruct (io e =? BSC_OUTPUT); split; try done; (split; [done|]); split; auto.
Qed.

Definition demo_xap : xAPIdent := mkIdent (str "dbzoo.livebox.Controller") (str "FF00DC00") 3640 (str "10.0.0.1").

Lemma bscAddEndpointFilter_spec_witness :
  exists w', bscAddEndpointFilter demo_xap 1 120 (demo_bsc (load_packet [])) = Ok w' /\ length (filters w') = 2%nat.
Proof.
  eexists. split; [reflexivity|].
  edestruct (bscAddEndpointFilter_spec demo_xap 1 120 (demo_bsc (load_packet [])) _ demo_ep eq_refl eq_refl)
    as (new & Hf & Hn & _); [vm_compute; lia|].
  rewrite Hf, app_nil_r. change (length new) with (length new). rewrite <- (length_map callback), Hn. reflexivity.
Defined.

(** The endpoints created one after the other carry the identifiers of the
    counter in order, and up to 256 of them have distinct ones. *)
Theorem bscAddEndpoint_ids {CB IB FB TB A : Type} (l : list (cstr * option cstr * Z * Z)) (w : bsc CB IB FB TB A) :
  0 <= id w < 256 -> (length l <= 256)%nat ->
  exists head w', add_all l [] w = Ok (head, w') /\ length head = length l /\
    NoDup (ids_of head w') /\
    forall k, (k < length l)%nat ->
      ids_of (rev head) w' !! k = Some (Some (fmt_X 2 (u8 (id w + Z.of_nat k)))).
Proof.
  intros Hid Hl. destruct (add_all_ids l [] w Hid (Forall_nil_2 _)) as (h & w' & Hadd & Hlen & Hids & _).
  exists h, w'. rewrite app_nil_r in Hadd. split; [done|]. split; [done|]. split.
  - apply NoDup_ListNoDup. rewrite <- (rev_involutive (ids_of h w')). apply NoDup_rev.
    unfold ids_of in *. rewrite <- map_rev, Hids. apply NoDup_ListNoDup.
    apply (NoDup_fmap_2 Some). by apply ids_from_NoDup.
  - intros k Hk. rewrite Hids, list_lookup_fmap, ids_from_lookup by done. done.
Qed.

Lemma bscAddEndpoint_ids_witness :
  exists head w', add_all (CB := unit) (IB := unit) (FB := unit) (TB := unit)
      [(str "a", None, BSC_INPUT, BSC_BINARY); (str "b", None, BSC_OUTPUT, BSC_LEVEL)] []
      (mkBsc ∅ [] [] (load_packet []) [] 255 1 tt) = Ok (head, w') /\
    ids_of (rev head) w' !! 1%nat = Some (Some (str "00")).
Proof.
  destruct (bscAddEndpoint_ids (CB := unit) (IB := unit) (FB := unit) (TB := unit)
    [(str "a", None, BSC_INPUT, BSC_BINARY); (str "b", None, BSC_OUTPUT, BSC_LEVEL)]
    (mkBsc ∅ [] [] (load_packet []) [] 255 1 tt)) as (h & w' & H & _ & _ & Hk); [cbn; lia|cbn; lia|].
  exists h, w'. split; [exact H|]. rewrite (Hk 1%nat) by (cbn; lia). reflexivity.
Defined.

(** The level of a message of the form [l/r] is the quotient of the second
    number by the first, the inverse of the ratio the comment describes, and a
    level of zero is a division by zero. *)
Theorem bscParseLevel_spec (l r : Z) :
  0 <= l <= INT_MAX -> 0 <= r <= INT_MAX ->
  bscParseLevel (fmt_d l ++ [47] ++ fmt_d r) = if l =? 0 then Undef DivByZero else Ok (r / l).
Proof.
  intros Hl Hr. unfold bscParseLevel. rewrite scan_int_fmt by (unfold int_range, INT_MIN, INT_MAX in *; done || lia). cbn [app].
  replace (fmt_d r) with (fmt_d r ++ []) by apply app_nil_r.
  rewrite scan_int_fmt by (unfold int_range, INT_MIN, INT_MAX in *; done || lia).
  destruct (strchr _ 47) eqn:Hc.
  - cbn. destruct (Z.eqb_spec l 0); [done|]. rewrite Z.quot_div_nonneg by lia.
    unfold INT_MAX, INT_MIN in *. destruct (Z.eqb_spec r (- 2 ^ 31)); [lia|]. done.
  - apply strchr_None in Hc. exfalso. apply Hc. set_solver.
Qed.

Lemma bscParseLevel_spec_witness :
  bscParseLevel (str "256/512") = Ok 2 /\ bscParseLevel (str "0/512") = Undef DivByZero.
Proof.
  split; [apply (bscParseLevel_spec 256 512)|apply (bscParseLevel_spec 0 512)]; unfold INT_MAX; lia.
Defined.
