(* ===== verification/Urf.v ===== *)
(** * The universal RF receiver (xap-urfrx/urfdecoder.c, rfrx.c)

    A device is described by a hexadecimal string: a table of pulses and a
    packed sequence of table indices.  [initDurationState] expands it to the
    durations to expect, high ones positive and low ones negative, framed by the
    gap between bursts; [URFConsumer] compares the durations the receiver reports
    with them, one at a time; [processSerial] splits the text of the serial line
    into these durations.  The theorems: the expansion is memory safe on every
    string and is the decoding of the packed format; a match is reported exactly
    when the last durations received are those expected; the text is read back
    whatever way it is cut into reads. *)

From S2P Require Import Prelude UtList Strings Frame Wire Filter Timeout Xap Bsc.

Definition MAXENCBITS : Z := 4.
Definition LEADIN : Z := 10000.

(** ** Reading the description *)

(** The value read and the rest of [hexPtr]; [None] is the [longjmp] taken at the
    end of the string. *)
Definition reader (T : Type) : Type := cstr -> out (option (T * cstr)).

#[global] Instance reader_ret : MRet reader := fun T x s => Ok (Some (x, s)).
#[global] Instance reader_bind : MBind reader := fun T U f m s =>
  match m s with
  | Ok (Some (x, r)) => f x r
  | Ok None => Ok None
  | Undef u => Undef u
  | Die => Die
  end.

(** A computation that does not read. *)
Definition lift {T} (m : out T) : reader T := fun s => x ← m; Ok (Some (x, s)).

Definition hexToByte (c : Z) : Z :=
  if negb (isxdigit c) then 255
  else if isdigit c then u8 (c - 48)
  else if isupper c then u8 (c - 65 + 10)
  else u8 (c - 97 + 10).

Definition next_char : reader Z := fun s =>
  match s with [] => Ok None | c :: r => Ok (Some (c, r)) end.

Definition readByte : reader Z :=
  c0 ← next_char; c1 ← next_char; mret (u8 (Z.lor (Z.shiftl (hexToByte c0) 4) (hexToByte c1))).

Definition readWord : reader Z :=
  msb ← readByte; lsb ← readByte; mret (u16 (Z.lor (Z.shiftl msb 8) lsb)).

(** [bitMask], [bitShift] *)
Fixpoint mask_loop (n : nat) (bits m s : Z) : list (Z * Z) :=
  match n with
  | O => []
  | S k => (m, s) :: mask_loop k bits (u8 (Z.shiftl m bits)) (u8 (s + bits))
  end.

(** [pulse[i].hi], [pulse[i].lo] *)
Fixpoint read_pulses (n : nat) : reader (list (Z * Z)) :=
  match n with
  | O => mret []
  | S k => hi ← readWord; lo ← readWord; r ← read_pulses k; mret ((hi, lo) :: r)
  end.

(** An array of [int] from [malloc]; an element is [None] until it is written. *)
Definition store_int (d : list (option Z)) (pos : nat) (v : Z) : out (list (option Z)) :=
  if (pos <? length d)%nat then Ok (<[pos := Some v]> d) else Undef OutOfBounds.

(** [for(j=framesPerByte-1; j>=0 && i>0; j--, i--)] over one byte; [n] is [j+1]. *)
Fixpoint byte_loop (tab pulse : list (Z * Z)) (b : Z) (n i : nat) (d : list (option Z)) (pos : nat)
    : out (nat * list (option Z) * nat) :=
  match n, i with
  | S j, S i' =>
      '(m, s) ← of_opt OutOfBounds (tab !! j);
      let idx := u8 (Z.shiftr (Z.land b m) s) in
      '(hi, lo) ← of_opt OutOfBounds (pulse !! Z.to_nat idx);
      d ← store_int d pos hi;
      d ← store_int d (pos + 1) (- lo);
      byte_loop tab pulse b j i' d (pos + 2)
  | _, _ => Ok (i, d, pos)
  end.

(** [for(i=frames; i>0;)]; the fuel is [frames], each byte uses up a frame. *)
Fixpoint frames_loop (fuel : nat) (tab pulse : list (Z * Z)) (fpb i : nat) (d : list (option Z)) (pos : nat)
    : reader (list (option Z) * nat) :=
  match fuel, i with
  | S f, S _ =>
      b ← readByte;
      '(i, d, pos) ← lift (byte_loop tab pulse b fpb i d pos);
      frames_loop f tab pulse fpb i d pos
  | _, _ => mret (d, pos)
  end.

(** [durState] and [durStateLen]; [None] when the description is refused. *)
Definition initDurationState : reader (option (list (option Z) * Z)) :=
  _ ← readByte;
  bits ← readByte;
  if (bits =? 0) || (MAXENCBITS <? bits) || negb (8 mod bits =? 0) then mret None
  else
    let enc := u8 (Z.shiftl 1 bits) in
    let framesPerByte := 8 / bits in
    let tab := mask_loop (Z.to_nat framesPerByte) bits (u8 (enc - 1)) 0 in
    pulse ← read_pulses (Z.to_nat enc);
    _ ← readByte;
    interburstRepeat ← readByte;
    interburstDelay ← readWord;
    frames ← readByte;
    let len := u16 ((frames + 1) * 2) in
    let d := replicate (Z.to_nat len) None in
    '(d, pos) ← frames_loop (Z.to_nat frames) tab pulse (Z.to_nat framesPerByte) (Z.to_nat frames) d 1;
    d ← lift (store_int d 0 (- interburstRepeat * interburstDelay));
    d ← lift (store_int d pos (- interburstRepeat * interburstDelay));
    mret (Some (d, len)).

Record URFContext := mkURF {
  ctx_e : addr;
  ctx_state : Z;
  durState : list (option Z);
  durStateLen : Z;
  curState : Z;
}.

Definition set_cur (k : Z) (c : URFContext) : URFContext :=
  mkURF (ctx_e c) (ctx_state c) (durState c) (durStateLen c) k.

Definition initURFContext (e : addr) (pattern : cstr) (state : Z) : out (option URFContext) :=
  r ← initDurationState pattern;
  Ok (match r with
      | Some (Some (d, len), _) => Some (mkURF e state d len 0)
      | _ => None
      end).

(** ** Matching *)

(** [x < y * .8] on [int]s: the product in [double] rounds to [4y/5] when this is
    an integer and is off by far less than [1/5] otherwise. *)
Definition pctCompare (newval oldval : Z) : out Z :=
  if (newval =? INT_MIN) || (oldval =? INT_MIN) then Undef SignedOverflow
  else
    let newval := Z.abs newval in
    let oldval := Z.abs oldval in
    Ok (if 5 * newval <? 4 * oldval then 0 else if 5 * oldval <? 4 * newval then 2 else 1).

(** [durState[i]] *)
Definition expected (c : URFContext) (i : Z) : out Z :=
  v ← of_opt OutOfBounds (durState c !! Z.to_nat i);
  of_opt Uninitialised v.

Section Urf.
Context {CB IB FB TB A : Type}.
Context (run_info : IB -> addr -> cstr -> bsc CB IB FB TB A -> out (bool * bsc CB IB FB TB A)).

Definition URFConsumer (now : Z) (durstate : Z) (c : URFContext) (w : bsc CB IB FB TB A)
    : out (bool * URFContext * bsc CB IB FB TB A) :=
  need ← expected c (curState c);
  close ← (if (durstate <=? - LEADIN) && (curState c =? 0) then Ok true
           else r ← pctCompare durstate need; Ok (r =? 1));
  if (close : bool) then
    let c := set_cur (u16 (curState c + 1)) c in
    e ← get_ep (ctx_e c) w;
    if curState c =? durStateLen c - 1 then
      let c := set_cur 0 c in
      w ← bscSendEvent run_info now (ctx_e c) (put_ep (ctx_e c) (bscSetState (ctx_state c) e) w);
      Ok (true, c, w)
    else Ok (false, c, w)
  else
    let c := set_cur 0 c in
    if durstate <=? - LEADIN
    then _ ← get_ep (ctx_e c) w; Ok (false, set_cur (u16 (curState c + 1)) c, w)
    else Ok (false, c, w).

Definition URFReset (c : URFContext) : URFContext := set_cur 0 c.

(** ** The serial line *)

Record urfrx := mkUrfrx {
  decoderList : list URFContext;
  buff : cstr;                 (* [buff[0 .. buff_cnt-1]] *)
  bw : bsc CB IB FB TB A;
}.

Definition addDecoder (c : option URFContext) (w : urfrx) : urfrx :=
  match c with
  | None => w
  | Some c => mkUrfrx (decoderList w ++ [c]) (buff w) (bw w)
  end.

(** [LL_FOREACH(decoderList, decoder) URFConsumer(decoder->ctx, durState)] *)
Fixpoint consume_all (now durstate : Z) (l : list URFContext) (w : bsc CB IB FB TB A)
    : out (list URFContext * bsc CB IB FB TB A) :=
  match l with
  | [] => Ok ([], w)
  | c :: r =>
      '(_, c, w) ← URFConsumer now durstate c w;
      '(r, w) ← consume_all now durstate r w;
      Ok (c :: r, w)
  end.

(** [sizeof(buff)] is 10: the character after the tenth and the terminator of ten
    characters are written beyond it.  [sscanf] leaves [durState] as it was when
    the text is no number; at first it is not initialised. *)
Fixpoint processSerial (now : Z) (data : cstr) (dur : option Z) (w : urfrx) : out urfrx :=
  match data with
  | [] => Ok w
  | c :: r =>
      if isdigit c || (c =? 45) then
        if (length (buff w) <? 10)%nat
        then processSerial now r dur (mkUrfrx (decoderList w) (buff w ++ [c]) (bw w))
        else Undef OutOfBounds
      else if (length (buff w) =? 0)%nat then processSerial now r dur w
      else if (length (buff w) <? 10)%nat then
        let dur := match scan_int (buff w) with Some (v, _) => Some v | None => dur end in
        v ← of_opt Uninitialised dur;
        '(l, b) ← consume_all now v (decoderList w) (bw w);
        processSerial now r dur (mkUrfrx l [] b)
      else Undef OutOfBounds
  end.

(** The text after the magic string of a virtual serial port. *)
Definition vSerialHandler (now : Z) (w : urfrx) : out urfrx :=
  data ← xapGetValueF (bframe (bw w)) (str "serial.received") (Some (str "data"));
  match data with
  | None => Ok w
  | Some d => if strncmp0 5 d (str "RFRX ") then processSerial now (drop 5 d) None w else Ok w
  end.

(** The reads of a real port, each of at most 299 bytes. *)
Fixpoint serialInputHandler (now : Z) (reads : list cstr) (w : urfrx) : out urfrx :=
  match reads with
  | [] => Ok w
  | d :: r => w ← processSerial now d None w; serialInputHandler now r w
  end.

End Urf.
Arguments urfrx : clear implicits.

(** * Properties *)

(** ** The description *)

(** The format: [bits] per index, the pulse table, the gap, and the indices of
    the pulses in sending order, packed with the first in the high bits. *)
Record urf_desc := mkDesc {
  d_version : Z;
  d_bits : Z;
  d_pulses : list (Z * Z);
  d_bursts : Z;
  d_repeat : Z;
  d_delay : Z;
  d_codes : list Z;
}.

Definition hex_byte (b : Z) : cstr := [hex_char_up (b / 16); hex_char_up (b mod 16)].
Definition hex_word (w : Z) : cstr := hex_byte (w / 256) ++ hex_byte (w mod 256).

(** Digits of base [2^bits], most significant first. *)
Definition pack (bits : Z) (l : list Z) : Z := fold_left (fun acc x => acc * 2 ^ bits + x) l 0.
Fixpoint unpack (bits : Z) (n : nat) (b : Z) : list Z :=
  match n with O => [] | S m => unpack bits m (b / 2 ^ bits) ++ [b mod 2 ^ bits] end.

(** Bytes of [fpb] codes, the last one filled with zeros. *)
Fixpoint pack_bytes (fuel : nat) (bits : Z) (fpb : nat) (l : list Z) : list Z :=
  match fuel, l with
  | S f, _ :: _ =>
      pack bits (take fpb l ++ replicate (fpb - length (take fpb l)) 0) :: pack_bytes f bits fpb (drop fpb l)
  | _, _ => []
  end.

Definition print_desc (d : urf_desc) : cstr :=
  hex_byte (d_version d) ++ hex_byte (d_bits d) ++
  concat (map (fun p => hex_word (fst p) ++ hex_word (snd p)) (d_pulses d)) ++
  hex_byte (d_bursts d) ++ hex_byte (d_repeat d) ++ hex_word (d_delay d) ++
  hex_byte (Z.of_nat (length (d_codes d))) ++
  concat (map hex_byte (pack_bytes (length (d_codes d)) (d_bits d) (Z.to_nat (8 / d_bits d)) (d_codes d))).

(** What a code stands for. *)
Definition code_durations (pulses : list (Z * Z)) (x : Z) : list Z :=
  match pulses !! Z.to_nat x with Some (hi, lo) => [hi; - lo] | None => [] end.

Definition durations (d : urf_desc) : list Z :=
  let gap := - d_repeat d * d_delay d in
  gap :: concat (map (code_durations (d_pulses d)) (d_codes d)) ++ [gap].

Definition word_wf (p : Z * Z) : Prop := 0 <= fst p < 65536 /\ 0 <= snd p < 65536.
Definition desc_wf (d : urf_desc) : Prop :=
  is_byte (d_version d) /\ d_bits d ∈ [1; 2; 4] /\ Z.of_nat (length (d_pulses d)) = 2 ^ d_bits d /\
  Forall word_wf (d_pulses d) /\ is_byte (d_bursts d) /\ is_byte (d_repeat d) /\ 0 <= d_delay d < 65536 /\
  (length (d_codes d) <= 255)%nat /\ Forall (fun x => 0 <= x < 2 ^ d_bits d) (d_codes d).

(** *** Reading *)

Lemma rbind_Some {T U} (m : reader T) (f : T -> reader U) s x r :
  m s = Ok (Some (x, r)) -> (m ≫= f) s = f x r.
Proof. intros H. unfold mbind, reader_bind. by rewrite H. Qed.

Lemma hex_byte_read b rest : is_byte b -> readByte (hex_byte b ++ rest) = Ok (Some (b, rest)).
Proof.
  intros Hb. assert (Hall : forallb (fun n =>
    bool_decide (u8 (Z.lor (Z.shiftl (hexToByte (hex_char_up (Z.of_nat n / 16))) 4)
                       (hexToByte (hex_char_up (Z.of_nat n mod 16)))) = Z.of_nat n)) (seq 0 256) = true)
    by (vm_compute; reflexivity).
  rewrite forallb_forall in Hall. specialize (Hall (Z.to_nat b)). unfold is_byte in Hb.
  rewrite Z2Nat.id in Hall by lia. specialize (Hall ltac:(apply in_seq; lia)).
  apply bool_decide_eq_true in Hall.
  unfold readByte, mbind, reader_bind, hex_byte. cbn [app next_char]. unfold mret, reader_ret.
  do 3 f_equal. exact Hall.
Qed.

Lemma readByte_cases s :
  readByte s = Ok None \/ exists b r, readByte s = Ok (Some (b, r)) /\ is_byte b.
Proof.
  destruct s as [|c0 [|c1 r]]; [by left|by left|]. right. eexists _, r. split; [reflexivity|]. apply u8_range.
Qed.

Lemma byte_lor a b : is_byte a -> is_byte b -> Z.lor (Z.shiftl a 8) b = a * 256 + b.
Proof.
  unfold is_byte. intros Ha Hb. rewrite Z.shiftl_mul_pow2 by lia. change (2 ^ 8) with 256.
  symmetry. rewrite <- Z.lxor_lor; [apply Z.add_nocarry_lxor|]; change 256 with (2 ^ 8);
    rewrite <- Z.shiftl_mul_pow2 by lia; apply Z.bits_inj'; intros n Hn; rewrite Z.land_spec, Z.bits_0;
    (destruct (Z.ltb_spec n 8); [rewrite Z.shiftl_spec_low by lia; done|]);
    rewrite (Z.bits_above_log2 b n), andb_false_r; try done; try lia;
    (destruct (decide (b = 0)) as [->|]; [simpl; lia|]; apply Z.log2_lt_pow2; [lia|];
     apply Z.lt_le_trans with (2 ^ 8); [simpl; lia|apply Z.pow_le_mono_r; lia]).
Qed.

Lemma hex_word_read w rest : 0 <= w < 65536 -> readWord (hex_word w ++ rest) = Ok (Some (w, rest)).
Proof.
  intros Hw. assert (Hq : is_byte (w / 256)) by (split; [apply Z.div_pos|apply Z.div_lt_upper_bound]; lia).
  assert (Hr : is_byte (w mod 256)) by (apply Z.mod_pos_bound; lia).
  unfold readWord, hex_word. rewrite <- app_assoc. rewrite (rbind_Some _ _ _ _ _ (hex_byte_read _ _ Hq)).
  rewrite (rbind_Some _ _ _ _ _ (hex_byte_read _ _ Hr)). unfold mret, reader_ret. do 3 f_equal.
  rewrite byte_lor by done. unfold u16. rewrite Z.mod_small; [|pose proof (Z.div_mod w 256); lia].
  pose proof (Z.div_mod w 256). lia.
Qed.

Lemma readWord_cases s :
  readWord s = Ok None \/ exists w r, readWord s = Ok (Some (w, r)) /\ 0 <= w < 65536.
Proof.
  unfold readWord, mbind, reader_bind.
  destruct (readByte_cases s) as [->|(a & r & -> & Ha)]; [by left|].
  destruct (readByte_cases r) as [->|(b & r' & -> & Hb)]; [by left|].
  right. eexists _, r'. split; [reflexivity|]. apply Z.mod_pos_bound. lia.
Qed.

Lemma read_pulses_print l rest :
  Forall word_wf l ->
  read_pulses (length l) (concat (map (fun p => hex_word (fst p) ++ hex_word (snd p)) l) ++ rest)
  = Ok (Some (l, rest)).
Proof.
  intros Hl. induction Hl as [|[hi lo] l [Hhi Hlo] _ IH]; [done|]. cbn [length read_pulses map concat fst snd] in *.
  rewrite <- !app_assoc.
  rewrite (rbind_Some _ _ _ _ _ (hex_word_read _ _ Hhi)), (rbind_Some _ _ _ _ _ (hex_word_read _ _ Hlo)).
  by rewrite (rbind_Some _ _ _ _ _ IH).
Qed.

Lemma read_pulses_cases n s :
  read_pulses n s = Ok None \/ exists l r, read_pulses n s = Ok (Some (l, r)) /\ length l = n /\ Forall word_wf l.
Proof.
  revert s. induction n as [|n IH]; intros s; [right; by exists [], s|]. cbn [read_pulses].
  unfold mbind, reader_bind.
  destruct (readWord_cases s) as [->|(hi & r1 & -> & Hhi)]; [by left|].
  destruct (readWord_cases r1) as [->|(lo & r2 & -> & Hlo)]; [by left|].
  destruct (IH r2) as [->|(l & r & -> & <- & Hl)]; [by left|]. right. eexists _, r. split; [reflexivity|].
  split; [done|]. by constructor.
Qed.

(** *** Packed indices *)

(** The indices [byte_loop] takes from a byte, in its order. *)
Definition idx_at (tab : list (Z * Z)) (b : Z) (j : nat) : Z :=
  match tab !! j with Some (m, s) => u8 (Z.shiftr (Z.land b m) s) | None => 0 end.
Definition idxs (tab : list (Z * Z)) (b : Z) (n : nat) : list Z := map (idx_at tab b) (rev (seq 0 n)).

Definition tab_of (bits : Z) : list (Z * Z) :=
  mask_loop (Z.to_nat (8 / bits)) bits (u8 (u8 (Z.shiftl 1 bits) - 1)) 0.

Lemma idxs_unpack bits b :
  bits ∈ [1; 2; 4] -> is_byte b ->
  idxs (tab_of bits) b (Z.to_nat (8 / bits)) = unpack bits (Z.to_nat (8 / bits)) b.
Proof.
  intros Hbits Hb.
  assert (Hall : forallb (fun bits => forallb (fun n =>
      bool_decide (idxs (tab_of bits) (Z.of_nat n) (Z.to_nat (8 / bits)) = unpack bits (Z.to_nat (8 / bits)) (Z.of_nat n)))
      (seq 0 256)) [1; 2; 4] = true) by (vm_compute; reflexivity).
  rewrite forallb_forall in Hall. specialize (Hall bits ltac:(by apply list_elem_of_In)). cbv beta in Hall.
  rewrite forallb_forall in Hall. unfold is_byte in Hb.
  specialize (Hall (Z.to_nat b) ltac:(apply in_seq; lia)). rewrite Z2Nat.id in Hall by lia.
  by apply bool_decide_eq_true in Hall.
Qed.

Lemma pack_snoc bits l x : pack bits (l ++ [x]) = pack bits l * 2 ^ bits + x.
Proof. unfold pack. by rewrite fold_left_app. Qed.

Lemma unpack_pack bits l :
  0 <= bits -> Forall (fun x => 0 <= x < 2 ^ bits) l -> unpack bits (length l) (pack bits l) = l.
Proof.
  intros Hb. induction l as [|x l IH] using rev_ind; intros Hl; [done|].
  apply Forall_app in Hl as [Hl Hx]. apply Forall_cons in Hx as [Hx _].
  rewrite length_app, Nat.add_1_r. cbn [unpack]. rewrite pack_snoc.
  rewrite Z.div_add_l, Z.div_small, Z.add_0_r, IH by (lia || done). f_equal. f_equal.
  rewrite Z.add_comm, Z_mod_plus_full. by apply Z.mod_small.
Qed.

Lemma pack_range bits l :
  0 <= bits -> Forall (fun x => 0 <= x < 2 ^ bits) l -> 0 <= pack bits l < 2 ^ (bits * Z.of_nat (length l)).
Proof.
  intros Hb. induction l as [|x l IH] using rev_ind; intros Hl; [rewrite Z.mul_0_r; cbn; lia|].
  apply Forall_app in Hl as [Hl Hx]. apply Forall_cons in Hx as [Hx _]. specialize (IH Hl).
  rewrite pack_snoc, length_app, Nat.add_1_r, Nat2Z.inj_succ, Z.mul_succ_r, Z.pow_add_r by lia. nia.
Qed.

(** *** The loops *)

Lemma store_next pre (k : nat) v : 
  store_int (pre ++ replicate (S k) None) (length pre) v = Ok ((pre ++ [Some v]) ++ replicate k None).
Proof.
  unfold store_int. destruct (Nat.ltb_spec (length pre) (length (pre ++ replicate (S k) None))) as [|Hl].
  - f_equal. cbn [replicate]. rewrite insert_app_r_alt, Nat.sub_diag by lia. cbn. by rewrite <- app_assoc.
  - rewrite length_app, length_replicate in Hl. lia.
Qed.

Definition somes (l : list Z) : list (option Z) := map Some l.

Lemma byte_loop_eq tab pulse b n i pre k :
  (n <= length tab)%nat -> Forall (fun x => (Z.to_nat x < length pulse)%nat) (idxs tab b n) ->
  (2 * min n i <= k)%nat ->
  byte_loop tab pulse b n i (pre ++ replicate k None) (length pre)
  = Ok ((i - min n i)%nat,
        (pre ++ somes (concat (map (code_durations pulse) (take i (idxs tab b n))))) ++ replicate (k - 2 * min n i) None,
        (length pre + 2 * min n i)%nat).
Proof.
  revert i pre k. induction n as [|n IH]; intros i pre k Htab Hidx Hk.
  - cbn [byte_loop]. cbn. rewrite take_nil. cbn. by rewrite app_nil_r, Nat.sub_0_r, !Nat.add_0_r, Nat.sub_0_r.
  - destruct i as [|i]; [cbn; by rewrite app_nil_r, !Nat.sub_0_r, !Nat.add_0_r|].
    unfold idxs in Hidx |- *. rewrite seq_S, Nat.add_0_l, rev_app_distr in Hidx |- *. cbn [rev app map] in Hidx |- *.
    apply Forall_cons in Hidx as [Hx Hidx]. cbn [byte_loop take].
    destruct (tab !! n) as [[m s]|] eqn:Htn; [|apply lookup_ge_None in Htn; lia].
    assert (Hi : idx_at tab b n = u8 (Z.shiftr (Z.land b m) s)) by (unfold idx_at; by rewrite Htn).
    rewrite Hi in Hx. cbn [of_opt map]. rewrite Hi, bind_Ok.
    destruct (pulse !! Z.to_nat (u8 (Z.shiftr (Z.land b m) s))) as [[hi lo]|] eqn:Hp;
      [|apply lookup_ge_None in Hp; lia].
    assert (Hc : code_durations pulse (u8 (Z.shiftr (Z.land b m) s)) = [hi; - lo]) by (unfold code_durations; by rewrite Hp).
    cbn [of_opt concat]. rewrite Hc, bind_Ok. destruct k as [|[|k]]; [lia|lia|].
    rewrite store_next, bind_Ok.
    replace (length pre + 1)%nat with (length (pre ++ [Some hi])) by (rewrite length_app; simpl; lia).
    rewrite store_next, bind_Ok.
    replace (length pre + 2)%nat with (length ((pre ++ [Some hi]) ++ [Some (- lo)])) by (rewrite !length_app; simpl; lia).
    rewrite IH; [|lia|done|lia]. rewrite !length_app. cbn [length]. f_equal. f_equal; [f_equal|lia].
    + unfold somes. cbn [app map]. rewrite <- !app_assoc. cbn [app]. f_equal. do 2 f_equal. f_equal. f_equal. lia.
Qed.

Section Frames.
Context (bits : Z) (pulse : list (Z * Z)).
Context (Hbits : bits ∈ [1; 2; 4]) (Hpulse : Z.of_nat (length pulse) = 2 ^ bits).
Abbreviation fpb := (Z.to_nat (8 / bits)).
Abbreviation tab := (tab_of bits).

Lemma bits_cases : bits = 1 \/ bits = 2 \/ bits = 4.
Proof. clear Hpulse. revert Hbits. rewrite !elem_of_cons, elem_of_nil. tauto. Qed.

Lemma fpb_pos : (1 <= fpb <= 8)%nat /\ bits * Z.of_nat fpb = 8 /\ length tab = fpb.
Proof. destruct bits_cases as [->|[->| ->]]; (split; [split; apply Nat.leb_le; reflexivity|split; reflexivity]). Qed.

Lemma unpack_range n b : Forall (fun x => 0 <= x < 2 ^ bits) (unpack bits n b).
Proof.
  assert (0 < 2 ^ bits) by (destruct bits_cases as [->|[->| ->]]; cbn; lia).
  revert b. induction n as [|n IH]; intros b; [constructor|]. cbn [unpack].
  apply Forall_app. split; [apply IH|]. constructor; [by apply Z.mod_pos_bound|constructor].
Qed.

Lemma codes_length l :
  Forall (fun x => 0 <= x < 2 ^ bits) l -> length (concat (map (code_durations pulse) l)) = (2 * length l)%nat.
Proof.
  intros Hl. induction Hl as [|x l Hx _ IH]; [done|]. cbn [map concat length]. rewrite length_app, IH.
  unfold code_durations. destruct (pulse !! Z.to_nat x) as [[hi lo]|] eqn:Hp; [cbn; lia|].
  apply lookup_ge_None in Hp. lia.
Qed.

(** The work on one byte. *)
Lemma byte_eq b i pre k :
  is_byte b -> (2 * i <= k)%nat ->
  byte_loop tab pulse b fpb i (pre ++ replicate k None) (length pre)
  = Ok ((i - fpb)%nat,
        (pre ++ somes (concat (map (code_durations pulse) (take i (unpack bits fpb b))))) ++ replicate (k - 2 * min fpb i) None,
        length (pre ++ somes (concat (map (code_durations pulse) (take i (unpack bits fpb b)))))).
Proof.
  intros Hb Hk. destruct fpb_pos as (Hf & _ & Ht). rewrite byte_loop_eq; [|lia| |lia].
  - rewrite idxs_unpack by done. f_equal. f_equal; [f_equal; lia|].
    rewrite length_app. unfold somes. rewrite length_map, codes_length by apply Forall_take, unpack_range.
    rewrite length_take. f_equal. f_equal. assert (forall n x, length (unpack bits n x) = n) as ->; [|lia].
    clear. induction n as [|n IH]; intros x; [done|]. cbn [unpack]. rewrite length_app, IH. simpl. lia.
  - rewrite idxs_unpack by done. eapply Forall_impl; [apply unpack_range|]. intros x Hx. cbv beta in Hx. lia.
Qed.

Lemma frames_S f i d pos s :
  frames_loop (S f) tab pulse fpb (S i) d pos s
  = (b ← readByte; '(i, d, pos) ← lift (byte_loop tab pulse b fpb (S i) d pos); frames_loop f tab pulse fpb i d pos) s.
Proof. reflexivity. Qed.

Lemma frames_print fuel codes pre rest :
  Forall (fun x => 0 <= x < 2 ^ bits) codes -> (length codes <= fuel)%nat ->
  frames_loop fuel tab pulse fpb (length codes) (pre ++ replicate (2 * length codes + 1) None) (length pre)
    (concat (map hex_byte (pack_bytes fuel bits fpb codes)) ++ rest)
  = Ok (Some (((pre ++ somes (concat (map (code_durations pulse) codes))) ++ [None],
               (length pre + 2 * length codes)%nat), rest)).
Proof.
  destruct fpb_pos as (Hf & H8 & _). revert codes pre.
  induction fuel as [|fuel IH]; intros codes pre Hc Hl; (destruct codes as [|c cs];
    [cbn; by rewrite app_nil_r, Nat.add_0_r|]); [simpl in Hl; lia|].
  cbn [pack_bytes map concat]. set (l := c :: cs) in *.
  set (chunk := take fpb l ++ replicate (fpb - length (take fpb l)) 0).
  assert (Hcl : length chunk = fpb) by (subst chunk; rewrite length_app, length_replicate, length_take; lia).
  assert (Hcr : Forall (fun x => 0 <= x < 2 ^ bits) chunk).
  { apply Forall_app. split; [by apply Forall_take|]. apply Forall_replicate.
    destruct bits_cases as [->|[->| ->]]; cbn; lia. }
  assert (Hb0 : 0 <= bits) by (destruct bits_cases as [->|[->| ->]]; lia).
  pose proof (unpack_pack bits chunk Hb0 Hcr) as Hun. rewrite Hcl in Hun.
  pose proof (pack_range bits chunk Hb0 Hcr) as Hpr. rewrite Hcl, H8 in Hpr.
  rewrite <- (app_assoc (hex_byte _)). change (length l) with (S (length cs)) at 1. rewrite frames_S.
  rewrite (rbind_Some _ _ _ _ _ (hex_byte_read (pack bits chunk) _ Hpr)).
  change (S (length cs)) with (length l). unfold lift, mbind at 1, reader_bind at 1.
  rewrite byte_eq by (done || lia). rewrite Hun. cbn [mbind out_bind].
  assert (Htake : take (length l) chunk = take fpb l).
  { subst chunk. destruct (decide (length l <= fpb)%nat).
    - rewrite (take_ge l fpb) by done. by rewrite take_app_length.
    - assert (fpb - length (take fpb l) = 0)%nat as -> by (rewrite length_take; lia).
      cbn [replicate]. rewrite app_nil_r. apply take_ge. rewrite length_take. lia. }
  rewrite Htake. set (pre' := pre ++ somes _).
  replace (length l - fpb)%nat with (length (drop fpb l)) by apply length_drop.
  replace (2 * length l + 1 - 2 * min fpb (length l))%nat with (2 * length (drop fpb l) + 1)%nat
    by (rewrite length_drop; lia).
  rewrite IH; [|by apply Forall_drop|rewrite length_drop; simpl; simpl in Hl; lia].
  assert (Hpl : length pre' = (length pre + 2 * min fpb (length l))%nat).
  { subst pre'. rewrite length_app. unfold somes. rewrite length_map, codes_length by (by apply Forall_take).
    by rewrite length_take. }
  rewrite Hpl, length_drop. do 2 f_equal. f_equal. f_equal; [|lia].
  subst pre'. unfold somes. rewrite <- !app_assoc. f_equal. rewrite app_assoc, <- map_app, <- concat_app, <- map_app.
  by rewrite take_drop.
Qed.

Lemma frames_safe fuel i pre s :
  (i <= fuel)%nat ->
  frames_loop fuel tab pulse fpb i (pre ++ replicate (2 * i + 1) None) (length pre) s = Ok None \/
  exists vs r, length vs = (2 * i)%nat /\
    frames_loop fuel tab pulse fpb i (pre ++ replicate (2 * i + 1) None) (length pre) s
    = Ok (Some (((pre ++ somes vs) ++ [None], (length pre + 2 * i)%nat), r)).
Proof.
  destruct fpb_pos as (Hf & _ & _). revert i pre s. induction fuel as [|fuel IH]; intros i pre s Hi.
  - replace i with 0%nat by lia. right. exists [], s. split; [done|]. cbn. by rewrite app_nil_r, Nat.add_0_r.
  - destruct i as [|i]; [right; exists [], s; split; [done|]; cbn; by rewrite app_nil_r, Nat.add_0_r|].
    rewrite frames_S. set (n := S i) in *. unfold mbind, reader_bind.
    destruct (readByte_cases s) as [->|(b & r & -> & Hb)]; [by left|].
    unfold lift. rewrite byte_eq by (done || lia). cbn [mbind out_bind].
    set (xs := take n (unpack bits fpb b)). set (ws := concat (map (code_durations pulse) xs)).
    assert (Hws : length ws = (2 * min fpb n)%nat).
    { subst ws xs. rewrite codes_length by apply Forall_take, unpack_range. rewrite length_take.
      assert (forall n x, length (unpack bits n x) = n) as ->; [|lia].
      clear. induction n as [|n IH]; intros x; [done|]. cbn [unpack]. rewrite length_app, IH. simpl. lia. }
    replace (2 * n + 1 - 2 * min fpb n)%nat with (2 * (n - fpb) + 1)%nat by lia.
    destruct (IH (n - fpb)%nat (pre ++ somes ws) r ltac:(lia)) as [->|(vs & r' & Hvs & ->)]; [by left|].
    right. exists (ws ++ vs), r'. split; [rewrite length_app; lia|].
    unfold somes. rewrite map_app, length_app, length_map, Hws, !app_assoc. do 2 f_equal. f_equal. f_equal. lia.
Qed.

End Frames.

(** *** The whole description *)

Lemma bits_ok bits :
  bits ∈ [1; 2; 4] ->
  (bits =? 0) || (MAXENCBITS <? bits) || negb (8 mod bits =? 0) = false /\ u8 (Z.shiftl 1 bits) = 2 ^ bits.
Proof. intros Hb. by destruct (bits_cases bits Hb) as [->|[->| ->]]. Qed.

Lemma bits_check bits :
  is_byte bits -> (bits =? 0) || (MAXENCBITS <? bits) || negb (8 mod bits =? 0) = false -> bits ∈ [1; 2; 4].
Proof.
  unfold is_byte, MAXENCBITS. intros Hb H.
  assert (bits = 0 \/ bits = 1 \/ bits = 2 \/ bits = 3 \/ bits = 4 \/ 4 < bits) as [->|[->|[->|[->|[->|?]]]]] by lia;
    try discriminate H; [set_solver|set_solver|set_solver|].
  destruct (Z.ltb_spec 4 bits); [|lia]. by rewrite orb_true_r in H.
Qed.

(** The allocation and the two stores of the gap. *)
Lemma frame_alloc (n : nat) :
  (n <= 255)%nat -> replicate (Z.to_nat (u16 ((Z.of_nat n + 1) * 2))) (@None Z) = [None] ++ replicate (2 * n + 1) None.
Proof.
  intros Hn. unfold u16. rewrite Z.mod_small by lia.
  replace (Z.to_nat ((Z.of_nat n + 1) * 2)) with (S (2 * n + 1)) by lia. done.
Qed.

Lemma gap_stores vs g :
  (d ← store_int (([None] ++ somes vs) ++ [None]) 0 g; store_int d (1 + length vs) g) = Ok (somes (g :: vs ++ [g])).
Proof.
  cbn [app]. unfold store_int. cbn [length]. destruct (Nat.ltb_spec 0 (S (length (somes vs ++ [None])))); [|lia].
  rewrite bind_Ok. change (<[0%nat := Some g]> (None :: somes vs ++ [None])) with (Some g :: somes vs ++ [None]).
  cbn [length]. destruct (Nat.ltb_spec (1 + length vs) (S (length (somes vs ++ [None])))) as [_|Hl].
  - change (<[(1 + length vs)%nat := Some g]> (Some g :: somes vs ++ [None]))
      with (Some g :: <[length vs := Some g]> (somes vs ++ [None])).
    unfold somes. rewrite insert_app_r_alt, length_map, Nat.sub_diag by (rewrite length_map; lia).
    cbn [map]. by rewrite map_app.
  - unfold somes in Hl. rewrite length_app, length_map in Hl. simpl in Hl. lia.
Qed.

Lemma init_print d rest :
  desc_wf d ->
  initDurationState (print_desc d ++ rest)
  = Ok (Some (Some (somes (durations d), Z.of_nat (2 * length (d_codes d) + 2)), rest)).
Proof.
  intros (Hv & Hb & Hpl & Hp & Hbu & Hr & Hd & Hn & Hc). destruct (bits_ok _ Hb) as [Hchk Henc].
  unfold initDurationState, print_desc. rewrite <- !app_assoc.
  rewrite (rbind_Some _ _ _ _ _ (hex_byte_read _ _ Hv)).
  assert (Hbb : is_byte (d_bits d)) by (unfold is_byte; destruct (bits_cases _ Hb) as [->|[->| ->]]; lia).
  rewrite (rbind_Some _ _ _ _ _ (hex_byte_read _ _ Hbb)), Hchk, Henc.
  replace (Z.to_nat (2 ^ d_bits d)) with (length (d_pulses d)) by lia. cbv zeta.
  rewrite (rbind_Some _ _ _ _ _ (read_pulses_print _ _ Hp)).
  rewrite (rbind_Some _ _ _ _ _ (hex_byte_read _ _ Hbu)), (rbind_Some _ _ _ _ _ (hex_byte_read _ _ Hr)).
  rewrite (rbind_Some _ _ _ _ _ (hex_word_read _ _ Hd)).
  assert (Hnb : is_byte (Z.of_nat (length (d_codes d)))) by (unfold is_byte; lia).
  rewrite (rbind_Some _ _ _ _ _ (hex_byte_read _ _ Hnb)), Nat2Z.id, frame_alloc by done.
  pose proof (frames_print (d_bits d) (d_pulses d) Hb Hpl (length (d_codes d)) (d_codes d) [None] rest Hc (le_n _)) as Hf.
  unfold tab_of in Hf. rewrite Henc in Hf. rewrite (rbind_Some _ _ _ _ _ Hf).
  set (vs := concat (map (code_durations (d_pulses d)) (d_codes d))).
  assert (Hvs : length vs = (2 * length (d_codes d))%nat) by (by apply (codes_length (d_bits d))).
  pose proof (gap_stores vs (- d_repeat d * d_delay d)) as Hg.
  change (length [None]) with 1%nat. rewrite <- Hvs. unfold mbind, reader_bind, lift.
  destruct (store_int _ 0 _) as [d0| |]; cbn [mbind out_bind] in *; [|done|done]. rewrite Hg. cbn [mbind out_bind].
  unfold mret, reader_ret, durations. fold vs. do 5 f_equal. unfold u16. rewrite Z.mod_small by lia. lia.
Qed.

Lemma init_safe s :
  exists r, initDurationState s = Ok r /\
    match r with
    | Some (Some (d, len), _) => exists ds, d = somes ds /\ Z.of_nat (length ds) = len /\ 2 <= len <= 512
    | _ => True
    end.
Proof.
  unfold initDurationState, mbind, reader_bind.
  destruct (readByte_cases s) as [->|(v & s1 & -> & Hv)]; [by exists None|].
  destruct (readByte_cases s1) as [->|(bits & s2 & -> & Hbits)]; [by exists None|].
  destruct ((bits =? 0) || (MAXENCBITS <? bits) || negb (8 mod bits =? 0)) eqn:Hchk; [by exists (Some (None, s2))|].
  apply bits_check in Hchk; [|done]. destruct (bits_ok _ Hchk) as [_ Henc]. cbv zeta.
  destruct (read_pulses_cases (Z.to_nat (u8 (Z.shiftl 1 bits))) s2) as [->|(pulse & s3 & -> & Hpl & _)]; [by exists None|].
  destruct (readByte_cases s3) as [->|(bu & s4 & -> & _)]; [by exists None|].
  destruct (readByte_cases s4) as [->|(rep & s5 & -> & _)]; [by exists None|].
  destruct (readWord_cases s5) as [->|(del & s6 & -> & _)]; [by exists None|].
  destruct (readByte_cases s6) as [->|(fr & s7 & -> & Hfr)]; [by exists None|]. unfold is_byte in Hfr.
  assert (Hfa := frame_alloc (Z.to_nat fr) ltac:(lia)). rewrite Z2Nat.id in Hfa by lia. rewrite Hfa.
  assert (Hpulse : Z.of_nat (length pulse) = 2 ^ bits) by (rewrite Hpl, Henc, Z2Nat.id; [done|apply Z.pow_nonneg; lia]).
  destruct (frames_safe bits pulse Hchk Hpulse (Z.to_nat fr) (Z.to_nat fr) [None] s7 (le_n _))
    as [Hf|(vs & r & Hvs & Hf)]; unfold tab_of in Hf; change (length [@None Z]) with 1%nat in Hf; rewrite Hf; [by exists None|].
  pose proof (gap_stores vs (- rep * del)) as Hg. rewrite <- Hvs. unfold lift.
  destruct (store_int _ 0 _) as [d0| |]; cbn [mbind out_bind] in *; [|done|done]. rewrite Hg. cbn [mbind out_bind].
  eexists. split; [reflexivity|]. exists (- rep * del :: vs ++ [- rep * del]). split; [done|].
  unfold u16. rewrite Z.mod_small by lia. cbn [length]. rewrite length_app. simpl. lia.
Qed.

(** ** Matching *)

Definition within (x y : Z) : bool := (4 * Z.abs y <=? 5 * Z.abs x) && (4 * Z.abs x <=? 5 * Z.abs y).

(** A duration fits position [k] of the pattern: it is within the tolerance, or
    it is the lead-in at the start. *)
Definition fits (ds : list Z) (k : nat) (d : Z) : bool :=
  ((d <=? - LEADIN) && (k =? 0)%nat) || match ds !! k with Some y => within d y | None => false end.

(** One duration: whether it completes the pattern, and the next position. *)
Definition pat_step (ds : list Z) (k : nat) (d : Z) : bool * nat :=
  if fits ds k d
  then if (S k =? length ds - 1)%nat then (true, 0%nat) else (false, S k)
  else (false, if d <=? - LEADIN then 1%nat else 0%nat).

Fixpoint pat_run (ds : list Z) (k : nat) (l : list Z) : list bool * nat :=
  match l with
  | [] => ([], k)
  | d :: r =>
      let '(m, k) := pat_step ds k d in
      let '(ms, k) := pat_run ds k r in (m :: ms, k)
  end.

(** A sequence of durations that fits the pattern from its start. *)
Definition matches (ds : list Z) (l : list Z) : Prop := forall i d, l !! i = Some d -> fits ds i d = true.

Lemma matches_snoc ds l d : matches ds l -> fits ds (length l) d = true -> matches ds (l ++ [d]).
Proof.
  intros Hm Hd i x Hi. apply lookup_app_Some in Hi as [Hi|[Hi Hx]]; [by apply Hm|].
  destruct (i - length l)%nat as [|j] eqn:Hj; [|done]. injection Hx as <-. by replace i with (length l) by lia.
Qed.

Lemma drop_snoc (h : list Z) d n : (n <= length h)%nat -> drop n (h ++ [d]) = drop n h ++ [d].
Proof. intros. rewrite drop_app. by replace (n - length h)%nat with 0%nat by lia. Qed.

(** A position is backed by the durations just received. *)
Definition backed (ds : list Z) (h : list Z) (k : nat) : Prop :=
  (k <= length h)%nat /\ (k < length ds - 1)%nat /\ matches ds (drop (length h - k) h).

Lemma backed_fits ds h k d :
  backed ds h k -> fits ds k d = true ->
  matches ds (drop (length (h ++ [d]) - S k) (h ++ [d])) /\ (S k <= length (h ++ [d]))%nat.
Proof.
  intros (Hk & _ & Hm) Hd. rewrite length_app. cbn [length]. split; [|lia].
  replace (length h + 1 - S k)%nat with (length h - k)%nat by lia. rewrite drop_snoc by lia.
  apply matches_snoc; [done|]. rewrite length_drop. by replace (length h - (length h - k))%nat with k by lia.
Qed.

Lemma backed_step ds h k d :
  backed ds h k -> backed ds (h ++ [d]) (snd (pat_step ds k d)).
Proof.
  intros Hb. pose proof Hb as (Hk & Hn & Hm). unfold pat_step.
  assert (H0 : (0 < length ds - 1)%nat -> backed ds (h ++ [d]) 0).
  { intros. split; [lia|]. split; [done|]. rewrite Nat.sub_0_r, drop_all. done. }
  destruct (fits ds k d) eqn:Hf.
  - destruct (Nat.eqb_spec (S k) (length ds - 1)); cbn [snd]; [apply H0; lia|].
    destruct (backed_fits _ _ _ _ Hb Hf). split; [done|]. split; [lia|done].
  - destruct (Z.leb_spec d (- LEADIN)) as [Hl|]; cbn [snd]; [|apply H0; lia].
    assert (Hk0 : k <> 0%nat).
    { intros ->. unfold fits in Hf. by rewrite (proj2 (Z.leb_le _ _) Hl) in Hf. }
    split; [rewrite length_app; simpl; lia|]. split; [lia|].
    replace (length (h ++ [d]) - 1)%nat with (length h) by (rewrite length_app; simpl; lia).
    rewrite drop_app_length. intros [|i] x Hi; [|done]. injection Hi as <-.
    unfold fits. by rewrite (proj2 (Z.leb_le _ _) Hl).
Qed.

(** Nothing is reported that was not received. *)
Lemma pat_sound ds l h k j :
  backed ds h k -> fst (pat_run ds k l) !! j = Some true ->
  exists pre b, h ++ take (S j) l = pre ++ b /\ length b = (length ds - 1)%nat /\ matches ds b.
Proof.
  revert h k j. induction l as [|d l IH]; intros h k j Hb Hj; [done|]. cbn [pat_run] in Hj.
  pose proof (backed_step ds h k d Hb) as Hb'. destruct (pat_step ds k d) as [m k'] eqn:Hs. cbn [snd] in Hb'.
  destruct (pat_run ds k' l) as [ms k''] eqn:Hr. cbn [fst] in Hj. destruct j as [|j].
  - injection Hj as ->. unfold pat_step in Hs. destruct (fits ds k d) eqn:Hf; [|done].
    destruct (Nat.eqb_spec (S k) (length ds - 1)) as [He|]; [|done].
    destruct (backed_fits _ _ _ _ Hb Hf) as [Hm Hl]. cbn [take]. rewrite take_0.
    exists (take (length (h ++ [d]) - S k) (h ++ [d])), (drop (length (h ++ [d]) - S k) (h ++ [d])).
    rewrite take_drop. split; [done|]. split; [rewrite length_drop; lia|done].
  - destruct (IH (h ++ [d]) k' j Hb') as (pre & b & He & Hl); [by rewrite Hr|].
    exists pre, b. split; [|done]. rewrite <- He, <- app_assoc. done.
Qed.

(** Nothing that was received whole is missed. *)
Lemma pat_track ds b k :
  (forall i d, b !! i = Some d -> fits ds (k + i) d = true) -> (k + length b = length ds - 1)%nat -> b <> [] ->
  fst (pat_run ds k b) !! (length b - 1)%nat = Some true.
Proof.
  revert k. induction b as [|d b IH]; intros k Hf Hl Hne; [done|]. cbn [pat_run].
  unfold pat_step. pose proof (Hf 0%nat d eq_refl) as Hd. rewrite Nat.add_0_r in Hd. rewrite Hd.
  simpl in Hl. destruct (Nat.eqb_spec (S k) (length ds - 1)).
  - destruct b; [|simpl in *; lia]. by destruct (pat_run ds 0 []).
  - specialize (IH (S k)). destruct (pat_run ds (S k) b) as [ms k']. cbn [fst length] in *.
    assert (Hb : b <> []) by (intros ->; simpl in Hl; lia).
    destruct b as [|d' b]; [done|]. cbn [length] in *. replace (S (S (length b)) - 1)%nat with (S (length b)) by lia.
    cbn [lookup list_lookup]. replace (length b) with (S (length b) - 1)%nat by lia.
    apply IH; [|lia|done]. intros i x Hi. specialize (Hf (S i) x Hi). by rewrite Nat.add_succ_comm.
Qed.

Lemma pat_run_app ds k l1 l2 :
  pat_run ds k (l1 ++ l2)
  = let '(m1, k1) := pat_run ds k l1 in let '(m2, k2) := pat_run ds k1 l2 in (m1 ++ m2, k2).
Proof.
  revert k. induction l1 as [|d l1 IH]; intros k; cbn [app pat_run]; [by destruct (pat_run ds k l2)|].
  destruct (pat_step ds k d) as [m k']. rewrite IH. destruct (pat_run ds k' l1) as [m1 k1].
  by destruct (pat_run ds k1 l2).
Qed.

Lemma pat_run_length ds k l : length (fst (pat_run ds k l)) = length l.
Proof.
  revert k. induction l as [|d l IH]; intros k; [done|]. cbn [pat_run]. destruct (pat_step ds k d) as [m k'].
  specialize (IH k'). destruct (pat_run ds k' l). cbn in *. by rewrite IH.
Qed.

Lemma pat_run_bound ds h k l : backed ds h k -> (snd (pat_run ds k l) < length ds - 1)%nat.
Proof.
  revert h k. induction l as [|d l IH]; intros h k Hb; [by destruct Hb as (_ & ? & _)|]. cbn [pat_run].
  pose proof (backed_step ds h k d Hb) as Hb'. destruct (pat_step ds k d) as [m k']. cbn [snd] in Hb'.
  specialize (IH _ _ Hb'). by destruct (pat_run ds k' l).
Qed.

(** The pulses inside the pattern are shorter than any lead-in. *)
Definition short_pulses (ds : list Z) : Prop :=
  forall i y, (0 < i < length ds - 1)%nat -> ds !! i = Some y -> 5 * Z.abs y < 4 * LEADIN.

Lemma pat_complete ds k b d0 r :
  (k < length ds - 1)%nat -> short_pulses ds -> b = d0 :: r -> d0 <= - LEADIN -> length b = (length ds - 1)%nat ->
  matches ds b -> fst (pat_run ds k b) !! (length b - 1)%nat = Some true.
Proof.
  intros Hk Hs -> Hd Hl Hm. destruct k as [|k]; [by apply pat_track|].
  assert (Hf : fits ds (S k) d0 = false).
  { unfold fits. rewrite andb_false_r. cbn [orb]. destruct (ds !! S k) as [y|] eqn:Hy; [|done].
    specialize (Hs (S k) y ltac:(lia) Hy). unfold within, LEADIN in *. lia. }
  cbn [pat_run]. unfold pat_step. rewrite Hf, (proj2 (Z.leb_le _ _) Hd).
  assert (Hr : r <> []) by (intros ->; simpl in Hl; lia).
  pose proof (pat_track ds r 1) as Ht. destruct (pat_run ds 1 r) as [ms k']. cbn [fst length] in *.
  destruct r as [|d1 r]; [done|]. cbn [length] in *. replace (S (S (length r)) - 1)%nat with (S (length r)) by lia.
  cbn [lookup list_lookup]. replace (length r) with (S (length r) - 1)%nat by lia.
  apply Ht; [|lia|done]. intros i x Hi. apply (Hm (S i) x Hi).
Qed.

(** ** The consumer *)

(** A decoder at position [k] of the pattern [ds]. *)
Definition ctx_rep (c : URFContext) (ds : list Z) (k : nat) : Prop :=
  durState c = somes ds /\ durStateLen c = Z.of_nat (length ds) /\ curState c = Z.of_nat k /\
  (k < length ds - 1)%nat /\ (length ds <= 512)%nat /\ Forall (fun y => INT_MIN < y) ds /\ 0 <= ctx_state c <= 1.

Lemma ctx_rep_cur c ds k k' :
  ctx_rep c ds k -> (k' < length ds - 1)%nat -> ctx_rep (set_cur (Z.of_nat k') c) ds k'.
Proof. intros (? & ? & ? & ? & ? & ? & ?) Hk. unfold ctx_rep. cbn. auto 10. Qed.

Lemma pctCompare_eq x y : INT_MIN < x -> INT_MIN < y -> exists r, pctCompare x y = Ok r /\ (r =? 1) = within x y.
Proof.
  intros Hx Hy. unfold pctCompare, within. destruct (Z.eqb_spec x INT_MIN); [lia|].
  destruct (Z.eqb_spec y INT_MIN); [lia|]. cbn [orb]. eexists. split; [reflexivity|]. repeat case_match; lia.
Qed.

Section Consumer.
Context {CB IB FB TB A : Type}.
Context (run_info : IB -> addr -> cstr -> bsc CB IB FB TB A -> out (bool * bsc CB IB FB TB A)).
Abbreviation world := (bsc CB IB FB TB A).

(** The endpoint takes the state of the decoder and reports it. *)
Definition matched (now : Z) (c : URFContext) (e : bscEndpoint CB IB) (w : world) : world :=
  let e1 := with_state (ctx_state c) e in
  reported now (ctx_e c) e1 (print_msg (info_msg e1 BSC_EVENT_CLASS)) (put_ep (ctx_e c) e1 w).

Lemma set_state_plain (e : bscEndpoint CB IB) s : 0 <= s <= 1 -> bscSetState s e = with_state s e.
Proof. intros Hs. by assert (s = 0 \/ s = 1) as [->| ->] by lia. Qed.

Lemma consumer_eq now d c ds k (w : world) e :
  ctx_rep c ds k -> endpoints w !! ctx_e c = Some e -> binary_ep e -> INT_MIN < d ->
  URFConsumer run_info now d c w
  = let '(m, k') := pat_step ds k d in
    Ok (m, set_cur (Z.of_nat k') c, if m then matched now c e w else w).
Proof.
  intros (Hd & Hlen & Hcur & Hk & Hl & Hmin & Hst) He Hb Hdm. unfold URFConsumer.
  destruct (ds !! k) as [y|] eqn:Hy; [|apply lookup_ge_None in Hy; lia].
  assert (Hexp : expected c (curState c) = Ok y).
  { unfold expected, somes in *. rewrite Hd, Hcur, Nat2Z.id, list_lookup_fmap, Hy. done. }
  rewrite Hexp, bind_Ok, Hcur.
  assert (Hfit : (if (d <=? - LEADIN) && (Z.of_nat k =? 0) then Ok true else r ← pctCompare d y; Ok (r =? 1)) = Ok (fits ds k d)).
  { unfold fits. rewrite Hy. replace (Z.of_nat k =? 0) with (k =? 0)%nat by (destruct k; done).
    destruct ((d <=? - LEADIN) && (k =? 0)%nat); [done|].
    rewrite Forall_lookup in Hmin. destruct (pctCompare_eq d y Hdm (Hmin k y Hy)) as (r & -> & Hr).
    rewrite bind_Ok. by rewrite Hr. }
  rewrite Hfit, bind_Ok. unfold pat_step, get_ep. cbn [ctx_e set_cur durStateLen curState ctx_state].
  destruct (fits ds k d).
  - rewrite He. cbn [of_opt]. rewrite bind_Ok, Hlen. unfold u16. rewrite Z.mod_small by lia.
    destruct (Z.eqb_spec (Z.of_nat k + 1) (Z.of_nat (length ds) - 1)), (Nat.eqb_spec (S k) (length ds - 1)); try lia.
    + rewrite set_state_plain by done. rewrite (send_event_eq run_info now (ctx_e c) _ (with_state (ctx_state c) e)).
      * rewrite bind_Ok. done.
      * apply lookup_insert_eq.
      * apply binary_ep_state; [done|lia].
    + f_equal. f_equal. f_equal. unfold set_cur. cbn. f_equal. lia.
  - destruct (d <=? - LEADIN); [|done]. rewrite He. cbn [of_opt]. rewrite bind_Ok. done.
Qed.

(** A sequence of durations, with the results of the calls. *)
Fixpoint consume_list (now : Z) (l : list Z) (c : URFContext) (w : world) : out (list bool * URFContext * world) :=
  match l with
  | [] => Ok ([], c, w)
  | d :: r =>
      '(m, c, w) ← URFConsumer run_info now d c w;
      '(ms, c, w) ← consume_list now r c w;
      Ok (m :: ms, c, w)
  end.

Definition events (m : cstr) (ms : list bool) : list cstr := concat (map (fun b : bool => if b then [m] else []) ms).

Lemma consume_list_eq now l c ds k (w : world) e :
  ctx_rep c ds k -> (exists h, backed ds h k) -> endpoints w !! ctx_e c = Some e -> binary_ep e ->
  Forall (fun d => INT_MIN < d) l ->
  exists w', consume_list now l c w = Ok (fst (pat_run ds k l), set_cur (Z.of_nat (snd (pat_run ds k l))) c, w') /\
    sent w' = sent w ++
      events (print_msg (info_msg (with_state (ctx_state c) e) BSC_EVENT_CLASS)) (fst (pat_run ds k l)).
Proof.
  intros Hrep Hbk. revert c k w e Hrep Hbk. induction l as [|d l IH]; intros c k w e Hrep [h Hbk] He Hb Hl.
  - exists w. cbn. rewrite app_nil_r. split; [|done]. pose proof Hrep as (_ & _ & <- & _). by destruct c.
  - apply Forall_cons in Hl as [Hd Hl]. cbn [consume_list pat_run].
    rewrite (consumer_eq now d c ds k w e) by done. pose proof (backed_step ds h k d Hbk) as Hbk'.
    destruct (pat_step ds k d) as [m k'] eqn:Hs. rewrite bind_Ok. cbn [snd] in Hbk'.
    pose proof (ctx_rep_cur c ds k k' Hrep) as Hrep'. pose proof Hbk' as (_ & Hk' & _). specialize (Hrep' Hk').
    set (w1 := if m then matched now c e w else w).
    set (e1 := if m then with_report now (with_state (ctx_state c) e) else e).
    assert (He1 : endpoints w1 !! ctx_e c = Some e1) by (subst w1 e1; destruct m; [apply lookup_insert_eq|done]).
    assert (Hb1 : binary_ep e1).
    { subst e1. destruct m; [|done]. apply binary_ep_report, binary_ep_state; [done|]. destruct Hrep as (_&_&_&_&_&_&?). lia. }
    destruct (IH (set_cur (Z.of_nat k') c) k' w1 e1 Hrep' (ex_intro (fun h => backed ds h k') (h ++ [d]) Hbk') He1 Hb1 Hl) as (w' & Hc & Hsent).
    rewrite Hc, bind_Ok. destruct (pat_run ds k' l) as [ms k'']. cbn [fst snd] in *. exists w'. split; [done|].
    rewrite Hsent. unfold events. cbn [map concat ctx_state set_cur]. subst w1 e1. destruct m; [|done].
    cbn [sent matched reported]. rewrite <- app_assoc. done.
Qed.

End Consumer.

(** ** The serial line *)

(** Numbers in decimal, each followed by a comma; nine characters fit [buff]. *)
Definition serial_text (ns : list Z) : cstr := concat (map (fun n => fmt_d n ++ [44]) ns).
Definition number_ok (n : Z) : Prop := int_range n /\ (length (fmt_d n) <= 9)%nat.
Definition num_char (c : Z) : bool := isdigit c || (c =? 45).

Lemma fmt_d_chars n : Forall (fun c => num_char c = true) (fmt_d n).
Proof.
  assert (Hd : forall m, 0 <= m -> Forall (fun c => num_char c = true) (map dec_char (digits 10 m))).
  { intros m Hm. eapply Forall_impl; [by apply digits_isdigit|]. intros c Hc. unfold num_char. by rewrite Hc. }
  unfold fmt_d. destruct (Z.ltb_spec n 0); [constructor; [done|]|]; apply Hd; lia.
Qed.

Lemma fmt_d_nonempty n : fmt_d n <> [].
Proof.
  unfold fmt_d. destruct (n <? 0); [done|]. pose proof (digits_nonempty n). by destruct (digits 10 n).
Qed.

Section Serial.
Context {CB IB FB TB A : Type}.
Context (run_info : IB -> addr -> cstr -> bsc CB IB FB TB A -> out (bool * bsc CB IB FB TB A)).
Abbreviation world := (bsc CB IB FB TB A).

(** Every number goes to every decoder, in order. *)
Fixpoint consume_numbers (now : Z) (ns : list Z) (l : list URFContext) (b : world) : out (list URFContext * world) :=
  match ns with
  | [] => Ok (l, b)
  | n :: r => '(l, b) ← consume_all run_info now n l b; consume_numbers now r l b
  end.

Lemma consume_numbers_app now ns1 ns2 l b :
  consume_numbers now (ns1 ++ ns2) l b = ('(l, b) ← consume_numbers now ns1 l b; consume_numbers now ns2 l b).
Proof.
  revert l b. induction ns1 as [|n ns1 IH]; intros l b; [done|]. cbn [app consume_numbers].
  rewrite bind_assoc. destruct (consume_all run_info now n l b) as [[l' b']| |]; [|done|done]. cbn. apply IH.
Qed.

Lemma accumulate now s dur (w : urfrx CB IB FB TB A) rest :
  Forall (fun c => num_char c = true) s -> (length (buff w) + length s <= 9)%nat ->
  processSerial run_info now (s ++ rest) dur w
  = processSerial run_info now rest dur (mkUrfrx (decoderList w) (buff w ++ s) (bw w)).
Proof.
  intros Hs. revert w. induction Hs as [|c s Hc Hs IH]; intros w Hl.
  - cbn [app]. rewrite app_nil_r. by destruct w.
  - cbn [app processSerial]. unfold num_char in Hc. rewrite Hc. simpl in Hl.
    destruct (Nat.ltb_spec (length (buff w)) 10); [|lia]. rewrite IH by (cbn; rewrite length_app; simpl; lia).
    cbn [decoderList buff bw]. by rewrite <- app_assoc.
Qed.

Lemma finish now n dur (w : urfrx CB IB FB TB A) rest :
  buff w = fmt_d n -> number_ok n ->
  processSerial run_info now (44 :: rest) dur w
  = ('(l, b) ← consume_all run_info now n (decoderList w) (bw w);
     processSerial run_info now rest (Some n) (mkUrfrx l [] b)).
Proof.
  intros Hb [Hn Hl]. cbn [processSerial]. change (isdigit 44 || (44 =? 45)) with false. cbn match.
  pose proof (fmt_d_nonempty n). rewrite Hb.
  destruct (Nat.eqb_spec (length (fmt_d n)) 0) as [H0|]; [by destruct (fmt_d n)|].
  destruct (Nat.ltb_spec (length (fmt_d n)) 10); [|lia].
  pose proof (scan_int_fmt n [] Hn I) as Hsc. rewrite app_nil_r in Hsc. by rewrite Hsc.
Qed.

(** A read of the middle of the text: the complete numbers are consumed, the
    digits of the next one wait in [buff].  [q] is what the buffer held. *)
Lemma read_part now ns data rest dur (w : urfrx CB IB FB TB A) :
  Forall number_ok ns -> Forall (fun c => num_char c = true) (buff w) ->
  buff w ++ data ++ rest = serial_text ns ->
  exists ns1 ns2 q, ns = ns1 ++ ns2 /\ q ++ rest = serial_text ns2 /\ Forall (fun c => num_char c = true) q /\
    processSerial run_info now data dur w
    = ('(l, b) ← consume_numbers now ns1 (decoderList w) (bw w); Ok (mkUrfrx l q b)).
Proof.
  intros Hns. revert data dur w. induction Hns as [|n ns Hn Hns IH]; intros data dur w Hq He.
  - cbn in He. apply app_nil in He as [Hb He]. apply app_nil in He as [-> ->].
    exists [], [], []. cbn. split; [done|]. split; [done|]. split; [constructor|]. rewrite <- Hb. by destruct w.
  - unfold serial_text in He. cbn [map concat] in He. fold (serial_text ns) in He. rewrite <- app_assoc in He. cbn [app] in He.
    assert (Hbl : exists s, fmt_d n = buff w ++ s /\ data ++ rest = s ++ 44 :: serial_text ns).
    { apply app_eq_inv in He as [(k & Hk & Hd)|(k & Hk & Hd)]; [|by exists k].
      destruct k as [|c k]; [exists []; rewrite !app_nil_r in *; done|]. exfalso.
      cbn in Hd. injection Hd as <- _. rewrite Hk in Hq. apply Forall_app in Hq as [_ Hq]. by apply Forall_cons in Hq as [? _]. }
    destruct Hbl as (s & Hs & Hd). pose proof (fmt_d_chars n) as Hch. rewrite Hs in Hch.
    apply Forall_app in Hch as [_ Hsc]. destruct Hn as [Hnr Hnl]. pose proof Hnl as Hnl'.
    rewrite Hs, length_app in Hnl'.
    apply app_eq_inv, or_comm in Hd as [(k & -> & Hk)|(k & -> & Hk)].
    + exists [], (n :: ns), (buff w ++ data). split; [done|].
      split; [unfold serial_text; cbn [map concat]; rewrite Hs, Hk, <- !app_assoc; done|].
      apply Forall_app in Hsc as [Hda _]. split; [by apply Forall_app|].
      rewrite length_app in Hnl'. rewrite <- (app_nil_r data) at 1. rewrite accumulate by (done || lia). done.
    + destruct k as [|c k].
      * exists [], (n :: ns), (buff w ++ s). split; [done|]. cbn in Hk.
        split; [unfold serial_text; cbn [map concat]; rewrite Hs, <- !app_assoc, <- Hk; done|].
        split; [by apply Forall_app|]. rewrite accumulate by (done || lia). done.
      * cbn in Hk. injection Hk as <- Hk. rewrite accumulate by (done || lia).
        rewrite (finish now n) by (done || by split). cbn [decoderList bw].
        destruct (consume_all run_info now n (decoderList w) (bw w)) as [[l b]|u|] eqn:Hca; cbn [mbind out_bind].
        -- destruct (IH k (Some n) (mkUrfrx l [] b)) as (ns1 & ns2 & q & -> & Hr & Hqq & Hp); [constructor|done|].
           exists (n :: ns1), ns2, q. split; [done|]. split; [done|]. split; [done|].
           rewrite Hp. cbn [consume_numbers]. by rewrite Hca.
        -- destruct (IH k (Some n) (mkUrfrx [] [] (bw w))) as (ns1 & ns2 & q & -> & Hr & Hqq & _); [constructor|done|].
           exists (n :: ns1), ns2, q. repeat (split; [done|]). cbn [consume_numbers]. by rewrite Hca.
        -- destruct (IH k (Some n) (mkUrfrx [] [] (bw w))) as (ns1 & ns2 & q & -> & Hr & Hqq & _); [constructor|done|].
           exists (n :: ns1), ns2, q. repeat (split; [done|]). cbn [consume_numbers]. by rewrite Hca.
Qed.

Lemma read_all now reads ns (w : urfrx CB IB FB TB A) :
  Forall number_ok ns -> Forall (fun c => num_char c = true) (buff w) ->
  buff w ++ concat reads = serial_text ns ->
  serialInputHandler run_info now reads w
  = ('(l, b) ← consume_numbers now ns (decoderList w) (bw w); Ok (mkUrfrx l [] b)).
Proof.
  revert ns w. induction reads as [|d reads IH]; intros ns w Hns Hq He.
  - cbn in He. rewrite app_nil_r in He. destruct ns as [|n ns].
    + cbn in He. cbn. rewrite <- He. by destruct w.
    + exfalso. rewrite He in Hq. unfold serial_text in Hq. cbn [map concat] in Hq.
      apply Forall_app in Hq as [Hq _]. apply Forall_app in Hq as [_ Hq]. by apply Forall_cons in Hq as [? _].
  - cbn [concat serialInputHandler] in *.
    destruct (read_part now ns d (concat reads) None w Hns Hq He) as (ns1 & ns2 & q & -> & Hr & Hqq & ->).
    apply Forall_app in Hns as [_ Hns2]. rewrite consume_numbers_app, !bind_assoc.
    destruct (consume_numbers now ns1 (decoderList w) (bw w)) as [[l b]| |]; [|done|done]. cbn [mbind out_bind].
    by rewrite (IH ns2 (mkUrfrx l q b)).
Qed.

End Serial.

(** * Claims *)

(** The description of a device is read without leaving an array, whatever the
    string: the answer is a refusal, or a pattern of two up to 512 durations all
    of which are written; the position is the start. *)
Theorem initURFContext_safe (e : addr) (pattern : cstr) (state : Z) :
  exists r, initURFContext e pattern state = Ok r /\
    match r with
    | None => True
    | Some c => ctx_e c = e /\ ctx_state c = state /\ curState c = 0 /\
        exists ds, durState c = somes ds /\ durStateLen c = Z.of_nat (length ds) /\ 2 <= durStateLen c <= 512
    end.
Proof.
  unfold initURFContext. destruct (init_safe pattern) as (r & -> & Hr). rewrite bind_Ok.
  eexists. split; [reflexivity|]. destruct r as [[[[d len]|] s]|]; [|done|done].
  destruct Hr as (ds & -> & Hl & Hb). cbn. repeat (split; [done|]). by exists ds.
Qed.

(** C14.  The expansion of a description is its meaning: for every well-formed one
    (one, two or four bits per pulse, up to 255 pulses), the decoder built from
    its hexadecimal text expects the gap, the high and low time of every pulse in
    order, and the gap. *)
Theorem initURFContext_print (d : urf_desc) (e : addr) (state : Z) :
  desc_wf d -> initURFContext e (print_desc d) state
  = Ok (Some (mkURF e state (somes (durations d)) (Z.of_nat (2 * length (d_codes d) + 2)) 0)).
Proof.
  intros Hd. unfold initURFContext. pose proof (init_print d [] Hd) as H. rewrite app_nil_r in H. by rewrite H.
Qed.

(** A device with one bit per pulse. *)
Definition demo_desc : urf_desc :=
  mkDesc 1 1 [(378, 1079); (1120, 352)] 1 1 10000 [0; 1; 0; 0; 0; 0; 0; 0; 0; 0; 0; 1].

Lemma demo_desc_wf : desc_wf demo_desc.
Proof.
  unfold desc_wf, demo_desc. cbn [d_version d_bits d_pulses d_bursts d_repeat d_delay d_codes].
  split; [unfold is_byte; lia|]. split; [by left|]. split; [done|].
  split; [repeat constructor; cbn; lia|]. split; [unfold is_byte; lia|]. split; [unfold is_byte; lia|].
  split; [lia|]. split; [cbn; lia|]. repeat constructor; lia.
Qed.

Lemma initURFContext_print_witness :
  initURFContext 1 (str "0101017A043704600160010127100C4010") 0
  = Ok (Some (mkURF 1 0 (somes (durations demo_desc)) 26 0)).
Proof. exact (initURFContext_print demo_desc 1 0 demo_desc_wf). Defined.


Definition demo_rf : bscEndpoint unit unit :=
  mkEndpoint (str "rf") (Some (str "1")) (str "01") BSC_INPUT BSC_BINARY BSC_STATE_UNKNOWN None None None None 0
    (Some (str "FF00EE01")) (Some (str "dbzoo.livebox.urfrx:rf.1")).

Definition demo_rf_world : bsc unit unit unit unit unit := mkBsc {[ 1%positive := demo_rf ]} [] [] (load_packet []) [] 2 2 tt.


(** The text of the serial line reaches the decoders whole: however the
    operating system cuts the text of a list of numbers (of up to nine
    characters each) into reads, the decoders consume these numbers, in order. *)
Theorem serialInputHandler_spec {CB IB FB TB A : Type}
    (run_info : IB -> addr -> cstr -> bsc CB IB FB TB A -> out (bool * bsc CB IB FB TB A))
    (now : Z) (reads : list cstr) (ns : list Z) (w : urfrx CB IB FB TB A) :
  Forall number_ok ns -> buff w = [] -> concat reads = serial_text ns ->
  serialInputHandler run_info now reads w
  = ('(l, b) ← consume_numbers run_info now ns (decoderList w) (bw w); Ok (mkUrfrx l [] b)).
Proof. intros Hns Hb He. apply read_all; [done|by rewrite Hb|by rewrite Hb]. Qed.

Lemma serialInputHandler_spec_witness :
  serialInputHandler (CB := unit) (IB := unit) (fun _ _ _ w => Ok (true, w)) 100 [str "38"; str "0,-1"; str "100,"]
    (mkUrfrx [] [] demo_rf_world) = Ok (mkUrfrx [] [] demo_rf_world).
Proof.
  rewrite (serialInputHandler_spec (CB := unit) (IB := unit) (fun _ _ _ w => Ok (true, w)) 100 _ [380; -1100]); try reflexivity.
  repeat constructor; unfold INT_MIN, INT_MAX; try lia; apply Nat.leb_le; reflexivity.
Defined.

(** A number of ten characters overruns the buffer of the serial line, and so
    does any longer one: the check comes after the store and compares with the
    size of the array instead of its last index. *)
Theorem processSerial_overflow {CB IB FB TB A : Type}
    (run_info : IB -> addr -> cstr -> bsc CB IB FB TB A -> out (bool * bsc CB IB FB TB A))
    (now : Z) (w : urfrx CB IB FB TB A) (s : cstr) (c : Z) (rest : cstr) (dur : option Z) :
  buff w = [] -> Forall (fun c => num_char c = true) s -> length s = 10%nat ->
  processSerial run_info now (s ++ c :: rest) dur w = Undef OutOfBounds.
Proof.
  intros Hb Hs Hl. destruct s as [|x s] using rev_ind; [done|]. clear IHs. rewrite length_app in Hl. simpl in Hl.
  apply Forall_app in Hs as [Hs Hx]. apply Forall_cons in Hx as [Hx _].
  rewrite <- app_assoc. rewrite accumulate by (done || rewrite Hb; simpl; lia).
  cbn [app processSerial buff]. unfold num_char in Hx. rewrite Hx, Hb. cbn [app].
  destruct (Nat.ltb_spec (length s) 10); [|lia]. cbn [buff]. rewrite length_app. simpl.
  destruct (isdigit c || (c =? 45)).
  - by destruct (Nat.ltb_spec (length s + 1) 10); [lia|].
  - destruct (Nat.eqb_spec (length s + 1) 0); [lia|]. by destruct (Nat.ltb_spec (length s + 1) 10); [lia|].
Qed.

Lemma processSerial_overflow_witness :
  processSerial (CB := unit) (IB := unit) (fun _ _ _ w => Ok (true, w)) 100 (str "1000000000,") None
    (mkUrfrx [] [] demo_rf_world) = Undef OutOfBounds.
Proof.
  apply (processSerial_overflow (CB := unit) (IB := unit) _ 100 (mkUrfrx [] [] demo_rf_world) (str "1000000000") 44 [] None);
    [done|by repeat constructor|done].
Defined.
