(* ===== verification/Termios.v ===== *)
(** * Attributes of serial lines

    The flags of [termios.h] that the programs with a serial line set, and the
    two words of a line's attributes that hold them. *)

From S2P Require Import Prelude.

(** Flags of [termios.h] (Linux). *)
Definition CS5 : Z := 0.
Definition CS6 : Z := 16.
Definition CS7 : Z := 32.
Definition CS8 : Z := 48.
Definition CSTOPB : Z := 64.
Definition CREAD : Z := 128.
Definition PARENB : Z := 256.
Definition PARODD : Z := 512.
Definition CLOCAL : Z := 2048.
Definition IGNPAR : Z := 4.
Definition PARMRK : Z := 8.
Definition INPCK : Z := 16.
Definition IXON : Z := 1024.
Definition IXOFF : Z := 4096.

(** Speeds. *)
Definition B2400 : Z := 11.
Definition B9600 : Z := 13.
Definition B57600 : Z := 4097.

Record termios := mkTermios { c_iflag : Z; c_cflag : Z }.
