(* ===== verification/Serial.v ===== *)
(** * Serial ports on the bus (xap-serial/serial.c)

    The program opens serial devices on request, sends every line a device
    delivers as a [Serial.Received] message and writes the data of
    [Serial.Send] messages to the device.  Ports are heap blocks in a list;
    [sBuff] is a heap buffer that grows.  What the operating system answers
    (opened descriptors, locks, bytes read, bytes written) is an argument.  The
    theorems: whatever the device sends, the buffer is never overrun; the lines
    of a device are reported one by one however they are cut into reads;
    [unescape] undoes the escaping of any bytes within its buffer; setting up
    and closing keep one port per device; and a port whose set-up was refused
    half-way makes the next close dereference NULL. *)

From S2P Require Import Prelude UtList Strings Frame Wire Filter Timeout Xap Bsc Urf Termios.

(** ** Devices *)

(** [sBuff] holds the bytes below [sPos]; those above are never read. *)
Record serialPort := mkPort {
  sp_addr : addr;
  device : cstr;
  speed : option Z;
  tios : termios;
  sp_fd : Z;
  sBuff : list Z;
  sLen : Z;
}.

#[global] Instance port_node : Node serialPort := sp_addr.

Definition sPos (p : serialPort) : Z := Z.of_nat (length (sBuff p)).

Definition set_buff (b : list Z) (n : Z) (p : serialPort) : serialPort :=
  mkPort (sp_addr p) (device p) (speed p) (tios p) (sp_fd p) b n.
Definition set_tios (t : termios) (p : serialPort) : serialPort :=
  mkPort (sp_addr p) (device p) (speed p) t (sp_fd p) (sBuff p) (sLen p).
Definition set_speed (s : Z) (p : serialPort) : serialPort :=
  mkPort (sp_addr p) (device p) (Some s) (tios p) (sp_fd p) (sBuff p) (sLen p).

Inductive rx_cb := xapSerialRx_cb.

(** [wire]: bytes written to descriptors; [ttys]: attributes set on them. *)
Record serial := mkSerial {
  serialList : list serialPort;
  connections : list (xAPSocketConnection rx_cb addr);
  sframe : xAPFrame;
  wire : list (Z * cstr);
  ttys : list (Z * Z * termios);
  sent : list cstr;
  snext : addr;
}.

Definition set_ports (l : list serialPort) (w : serial) : serial :=
  mkSerial l (connections w) (sframe w) (wire w) (ttys w) (sent w) (snext w).
Definition send (m : cstr) (w : serial) : serial :=
  mkSerial (serialList w) (connections w) (sframe w) (wire w) (ttys w) (sent w ++ [m]) (snext w).

Section Program.
Context (x : xAPIdent).

Definition comms_header : cstr :=
  line "xap-header" ++ line "{" ++ line "v=12" ++ line "hop=1" ++
  str "uid=" ++ uid x ++ [10] ++ line "class=Serial.Comms" ++ str "source=" ++ source x ++ [10] ++ line "}".

(** [text] is the formatted message. *)
Definition serialError (text : cstr) (w : serial) : out serial :=
  t ← sprintf_buf XAP_DATA_LEN (comms_header ++ line "Serial.Error" ++ line "{" ++ str "text=");
  t ← sb_append XAP_DATA_LEN t text;
  t ← sb_append XAP_DATA_LEN t ([10] ++ line "}");
  if Z.of_nat (length t) <? XAP_DATA_LEN then Ok (send t w) else Ok w.

Definition received_text (dev data : cstr) : cstr :=
  comms_header ++ line "Serial.Received" ++ line "{" ++ str "port=" ++ dev ++ [10] ++ str "data=" ++ data ++ [10] ++ line "}".

Definition processSerialCommand (p : serialPort) (w : serial) : out serial :=
  let t := received_text (device p) (c_text (sBuff p)) in
  if XAP_DATA_LEN <? Z.of_nat (length t) then serialError (str "Buffer overflow") w
  else Ok (send (sb_content XAP_DATA_LEN t) w).

(** One character; the store is at [sPos]. *)
Definition rx_char (ch : Z) (p : serialPort) (w : serial) : out (serialPort * serial) :=
  if sPos p <? sLen p then
    if (ch =? 13) || (ch =? 10) then
      w ← (if sPos p =? 0 then Ok w else processSerialCommand p w);
      Ok (set_buff [] (sLen p) p, w)
    else
      let b := sBuff p ++ [ch] in
      if Z.of_nat (length b) =? sLen p then
        if XAP_DATA_LEN <? sLen p then Ok (p, w)
        else Ok (set_buff b (u32 (sLen p * 2)) p, w)
      else Ok (set_buff b (sLen p) p, w)
  else Undef OutOfBounds.

Fixpoint rx_loop (data : list Z) (p : serialPort) (w : serial) : out (serialPort * serial) :=
  match data with
  | [] => Ok (p, w)
  | ch :: r => '(p, w) ← rx_char ch p w; rx_loop r p w
  end.

(** [data]: what [read] delivered, at most 512 bytes; nothing on an error. *)
Definition xapSerialRx (a : addr) (data : list Z) (w : serial) : out serial :=
  '(p, _) ← of_opt UseAfterFree (ll_node a (serialList w));
  '(p, w) ← rx_loop (take 512 data) p w;
  Ok (set_ports (ll_update a (fun _ => p) (serialList w)) w).

Definition findDevice (d : cstr) (w : serial) : option serialPort :=
  ll_search (fun p => strcmp0 (device p) d) (serialList w).

(** A NULL listener is dereferenced. *)
Definition closeSerialPort (port : option cstr) (w : serial) : out serial :=
  match port with
  | None => Ok w
  | Some d =>
      match findDevice d w with
      | None => Ok w
      | Some p =>
          l ← of_opt NullDeref (xapFindSocketListenerByFD (sp_fd p) (connections w));
          '(_, socks) ← xapDelSocketListener (sc_addr l) (connections w);
          Ok (mkSerial (ll_delete (sp_addr p) (serialList w)) socks (sframe w) (wire w) (ttys w) (sent w) (snext w))
      end
  end.

Definition serial_value (sec k : string) (w : serial) : out (option cstr) :=
  xapGetValueF (sframe w) (str sec) (Some (str k)).

Definition xapSerialClose (w : serial) : out serial :=
  port ← serial_value "serial.close" "port" w; closeSerialPort port w.

(** ** Set-up *)

Definition baud_table : list (Z * Z) :=
  [(50, 1); (75, 2); (110, 3); (134, 4); (150, 5); (200, 6); (300, 7); (600, 8); (1200, 9); (1800, 10);
   (2400, 11); (4800, 12); (9600, 13); (19200, 14); (38400, 15); (57600, 4097); (115200, 4098)].

Fixpoint baud_speed (b : Z) (t : list (Z * Z)) : option Z :=
  match t with [] => None | (n, s) :: r => if b =? n then Some s else baud_speed b r end.

(** The port after a step, and how the function ends there if it does: silently
    or with an error message. *)
Definition conf : Type := serialPort * option (option cstr).

Definition ok (p : serialPort) : out conf := Ok (p, None).
Definition bad (p : serialPort) (msg : cstr) : out conf := Ok (p, Some (Some msg)).

Definition conf_baud (s_baud : cstr) (p : serialPort) : out conf :=
  match baud_speed (atoi s_baud) baud_table with
  | Some s => ok (set_speed s p)
  | None => bad p (str "Invalid speed " ++ s_baud)
  end.

Definition with_i (i : Z) (p : serialPort) : serialPort := set_tios (mkTermios i (c_cflag (tios p))) p.
Definition with_c (c : Z) (p : serialPort) : serialPort := set_tios (mkTermios (c_iflag (tios p)) c) p.
Definition or_i (f : Z) (p : serialPort) := with_i (Z.lor (c_iflag (tios p)) f) p.
Definition clear_i (f : Z) (p : serialPort) := with_i (Z.ldiff (c_iflag (tios p)) f) p.
Definition or_c (f : Z) (p : serialPort) := with_c (Z.lor (c_cflag (tios p)) f) p.
Definition clear_c (f : Z) (p : serialPort) := with_c (Z.ldiff (c_cflag (tios p)) f) p.

Definition conf_flow (s_flow : cstr) (p : serialPort) : out conf :=
  if strcasecmp0 (str "none") s_flow then ok (clear_i (Z.lor IXOFF IXON) p)
  else if strcasecmp0 (str "xonxoff") s_flow then ok (or_i (Z.lor IXOFF IXON) p)
  else bad p (str "Invalid value flow=" ++ s_flow).

Definition conf_parity (s_parity : cstr) (p : serialPort) : out conf :=
  if strcasecmp0 (str "none") s_parity then ok (clear_c (Z.lor PARENB PARODD) (or_i IGNPAR p))
  else if strcasecmp0 (str "even") s_parity then
    ok (clear_c PARODD (or_c PARENB (or_i INPCK (clear_i (Z.lor IGNPAR PARMRK) p))))
  else if strcasecmp0 (str "odd") s_parity then
    ok (or_c (Z.lor PARENB PARODD) (or_i INPCK (clear_i (Z.lor IGNPAR PARMRK) p)))
  else Ok (p, Some None).

Definition conf_stop (s_stop : cstr) (p : serialPort) : out conf :=
  if atoi s_stop =? 1 then ok (clear_c CSTOPB p)
  else if atoi s_stop =? 2 then ok (or_c CSTOPB p)
  else bad p (str "Invalid value stop=" ++ s_stop).

Definition conf_bits (s_bits : cstr) (p : serialPort) : out conf :=
  if atoi s_bits =? 5 then ok (or_c CS5 p)
  else if atoi s_bits =? 6 then ok (or_c CS6 p)
  else if atoi s_bits =? 7 then ok (or_c CS7 p)
  else if atoi s_bits =? 8 then ok (or_c CS8 p)
  else bad p (str "Invalid value databit=" ++ s_bits).

(** One step of the configuration; a missing value is a NULL pointer. *)
Definition conf_step (f : cstr -> serialPort -> out conf) (v : option cstr) (c : conf) : out conf :=
  match c with
  | (p, None) => v ← of_opt NullDeref v; f v p
  | _ => Ok c
  end.

(** What [open], [flock] and [fcntl] answer. *)
Record open_answer := mkOpen { o_fd : option Z; o_flock : bool; o_fcntl : bool }.

Definition initial_tios : termios := mkTermios 1 (Z.lor 2147483648 (Z.lor 15 (Z.lor CS8 (Z.lor CREAD CLOCAL)))).

(** The five steps of the configuration. *)
Definition configure (s_baud s_flow s_parity s_stop s_bits : option cstr) (p : serialPort) : out conf :=
  c ← conf_step conf_baud s_baud (p, None);
  c ← conf_step conf_flow s_flow c;
  c ← conf_step conf_parity s_parity c;
  c ← conf_step conf_stop s_stop c;
  conf_step conf_bits s_bits c.

(** What follows a successful [open]. *)
Definition setup_rest (dev : cstr) (fd : Z) (s_baud s_flow s_parity s_stop s_bits : option cstr) (w : serial) : out serial :=
  let p := mkPort (snext w) dev None (mkTermios 0 (Z.lor CREAD CLOCAL)) fd [] 32 in
  let t := ttys w ++ [(fd, 15, initial_tios)] in
  '(q, e) ← configure s_baud s_flow s_parity s_stop s_bits p;
  let l := ll_update (sp_addr q) (fun _ => q) (serialList w ++ [p]) in
  let w1 := mkSerial l (connections w) (sframe w) (wire w) t (sent w) (Pos.succ (snext w)) in
  match e with
  | Some (Some m) => serialError m w1
  | Some None => Ok w1
  | None =>
      sp ← of_opt Uninitialised (speed q);
      Ok (mkSerial l (match xapAddSocketListener (Pos.succ (snext w)) fd xapSerialRx_cb (sp_addr q) (connections w) with
                      | Some l => l | None => connections w end) (sframe w) (wire w) (t ++ [(fd, sp, tios q)]) (sent w)
            (Pos.succ (Pos.succ (snext w))))
  end.

Definition xapSerialSetup (o : open_answer) (w : serial) : out serial :=
  s_port ← serial_value "serial.setup" "port" w;
  s_baud ← serial_value "serial.setup" "baud" w;
  s_stop ← serial_value "serial.setup" "stop" w;
  s_databits ← serial_value "serial.setup" "databits" w;
  s_parity ← serial_value "serial.setup" "parity" w;
  s_flow ← serial_value "serial.setup" "flow" w;
  w ← closeSerialPort s_port w;
  match o_fd o with
  | None => serialError (str "Error opening Device " ++ pstr s_port) w
  | Some fd =>
      if negb (o_flock o) then serialError (str "Serial port " ++ pstr s_port ++ str " in use") w
      else if negb (o_fcntl o) then serialError (str "Error Setting O_NONBLOCK on device " ++ pstr s_port) w
      else dev ← of_opt NullDeref s_port; setup_rest dev fd s_baud s_flow s_parity s_stop s_databits w
  end.

(** ** Transmission *)

(** An answer of [write]: bytes taken, would block, another error. *)
Inductive write_ev := Wrote (n : nat) | WouldBlock | WriteErr.

(** [for(i=1; i<retries; i++)]: the answers of the attempts left. *)
Fixpoint write_loop (n : nat) (os : nat -> write_ev) (k : nat) (msg : cstr) : Z * cstr :=
  match n with
  | O => (-1, [])
  | S m => match os k with
           | WouldBlock => write_loop m os (S k) msg
           | WriteErr => (-1, [])
           | Wrote b => let b := Nat.min b (length msg) in (Z.of_nat b, take b msg)
           end
  end.

(** The result and the bytes that went out. *)
Definition sendSerialMsg (os : nat -> write_ev) (msg : cstr) : Z * cstr := write_loop 5 os 0 msg.

(** The digits after [\x] and of an octal number: at most [n], the value and the
    rest. *)
Fixpoint hex_digits (n : nat) (oval : Z) (s : cstr) : Z * cstr :=
  match n, s with
  | S m, ch :: r =>
      if isxdigit ch then
        hex_digits m (Z.lor (Z.shiftl oval 4) (if 65 <=? ch then toupper ch - 65 + 10 else ch - 48)) r
      else (oval, s)
  | _, _ => (oval, s)
  end.

Definition isoctal (ch : Z) : bool := isdigit ch && negb (ch =? 56) && negb (ch =? 57).

Fixpoint oct_digits (n : nat) (oval : Z) (s : cstr) : Z * cstr :=
  match n, s with
  | S m, ch :: r => if isoctal ch then oct_digits m (Z.lor (Z.shiftl oval 3) (ch - 48)) r else (oval, s)
  | _, _ => (oval, s)
  end.

(** The character an escape stands for, after the backslash. *)
Definition escape_char (ch : Z) (r : cstr) : Z * cstr :=
  if ch =? 97 then (7, r) else if ch =? 98 then (8, r) else if ch =? 102 then (12, r)
  else if ch =? 110 then (10, r) else if ch =? 114 then (13, r) else if ch =? 116 then (9, r)
  else if ch =? 118 then (11, r) else if ch =? 92 then (92, r)
  else if ch =? 120 then hex_digits 2 0 r
  else if isoctal ch then oct_digits 2 (ch - 48) r
  else (ch, r).

(** The bytes stored; every round consumes a character. *)
Fixpoint unescape_loop (fuel : nat) (s : cstr) : list Z :=
  match fuel, s with
  | S f, ch :: r =>
      if ch =? 92 then
        match r with
        | [] => []
        | e :: r => let '(v, r) := escape_char e r in u8 v :: unescape_loop f r
        end
      else u8 ch :: unescape_loop f r
  | _, _ => []
  end.

(** Into a buffer of [size] bytes, the terminator included. *)
Definition unescape (size : nat) (s : cstr) : out (list Z) :=
  let b := unescape_loop (length s) s in
  if (length b <? size)%nat then Ok b else Undef OutOfBounds.

Definition xapSerialTx (os : nat -> write_ev) (w : serial) : out serial :=
  port ← serial_value "serial.send" "port" w;
  data ← serial_value "serial.send" "data" w;
  p ← match port, serialList w with
      | Some d, _ => Ok (findDevice d w)
      | None, [] => Ok None
      | None, _ => Undef NullDeref
      end;
  match p with
  | None => serialError (str "Device " ++ pstr port ++ str " not configured") w
  | Some p =>
      d ← of_opt NullDeref data;
      b ← unescape (length d + 1) d;
      let '(_, out) := sendSerialMsg os b in
      Ok (mkSerial (serialList w) (connections w) (sframe w) (wire w ++ [(sp_fd p, out)]) (ttys w) (sent w) (snext w))
  end.

(** ** Registration *)

Definition setup_filter : list xAPFilter :=
  fold_left (fun f kv => xapAddFilter f (fst (fst kv)) (snd (fst kv)) (snd kv))
    [(str "xap-header", str "target", source x); (str "xap-header", str "class", str "Serial.Comms");
     (str "Serial.Setup", str "port", XAP_FILTER_ANY); (str "Serial.Setup", str "baud", XAP_FILTER_ANY);
     (str "Serial.Setup", str "stop", XAP_FILTER_ANY); (str "Serial.Setup", str "databits", XAP_FILTER_ANY);
     (str "Serial.Setup", str "parity", XAP_FILTER_ANY); (str "Serial.Setup", str "flow", XAP_FILTER_ANY)] [].

Definition send_filter : list xAPFilter :=
  fold_left (fun f kv => xapAddFilter f (fst (fst kv)) (snd (fst kv)) (snd kv))
    [(str "xap-header", str "target", source x); (str "xap-header", str "class", str "Serial.Comms");
     (str "Serial.Send", str "port", XAP_FILTER_ANY); (str "Serial.Send", str "data", XAP_FILTER_ANY)] [].

Definition close_filter : list xAPFilter :=
  fold_left (fun f kv => xapAddFilter f (fst (fst kv)) (snd (fst kv)) (snd kv))
    [(str "xap-header", str "target", source x); (str "xap-header", str "class", str "Serial.Comms");
     (str "Serial.Close", str "port", XAP_FILTER_ANY)] [].

End Program.

(** * Properties *)

(** ** Reception *)

Definition sizes : list Z := [32; 64; 128; 256; 512; 1024; 2048].
Definition port_wf (p : serialPort) : Prop := sPos p < sLen p /\ sLen p ∈ sizes.

Lemma sizes_cases n : n ∈ sizes -> n = 32 \/ n = 64 \/ n = 128 \/ n = 256 \/ n = 512 \/ n = 1024 \/ n = 2048.
Proof. unfold sizes. rewrite !elem_of_cons, elem_of_nil. tauto. Qed.

Lemma sizes_double n : n ∈ sizes -> n <= XAP_DATA_LEN -> u32 (n * 2) = n * 2 /\ n * 2 ∈ sizes.
Proof.
  unfold XAP_DATA_LEN. intros Hn Hl. destruct (sizes_cases n Hn) as [->|[->|[->|[->|[->|[->| ->]]]]]]; try lia;
    (split; [done|]); unfold sizes; set_solver.
Qed.

Section Rx.
Context (x : xAPIdent).
Context (Hx : (length (uid x) + length (source x) <= 1000)%nat).

Lemma header_length : (length (comms_header x) <= 1100)%nat.
Proof using Hx. unfold comms_header. rewrite !length_app. simpl. lia. Qed.

Lemma serialError_ok text :
  (length text <= 200)%nat -> exists m, forall w, serialError x text w = Ok (send m w).
Proof using Hx.
  intros Ht. unfold serialError, sprintf_buf, sb_append, XAP_DATA_LEN. pose proof header_length as Hh.
  set (h := comms_header x) in *. clearbody h.
  set (t0 := h ++ line "Serial.Error" ++ line "{" ++ str "text=").
  assert (H0 : (length t0 <= 1130)%nat) by (subst t0; rewrite !length_app; simpl; lia). clearbody t0.
  exists ((t0 ++ text) ++ [10] ++ line "}"). intros w.
  destruct (Z.ltb_spec (Z.of_nat (length t0)) 1500); [|lia]. rewrite bind_Ok.
  destruct (Z.leb_spec (Z.of_nat (length t0)) 1500); [|lia]. rewrite bind_Ok.
  assert (Hap : length (t0 ++ text) = (length t0 + length text)%nat) by apply length_app.
  destruct (Z.leb_spec (Z.of_nat (length (t0 ++ text))) 1500); [|lia]. rewrite bind_Ok.
  destruct (Z.ltb_spec (Z.of_nat (length ((t0 ++ text) ++ [10] ++ line "}"))) 1500) as [|Hl]; [done|].
  rewrite length_app, Hap in Hl. simpl in Hl. lia.
Qed.

Lemma command_ok p : exists m, forall w, processSerialCommand x p w = Ok (send m w).
Proof using Hx.
  unfold processSerialCommand. destruct (XAP_DATA_LEN <? _); [apply serialError_ok; simpl; lia|eauto].
Qed.

(** Every character is stored inside the buffer. *)
Lemma rx_char_ok ch p :
  port_wf p -> exists n b ms, port_wf (set_buff b n p) /\
    forall w, rx_char x ch p w = Ok (set_buff b n p, fold_left (fun w m => send m w) ms w).
Proof using Hx.
  intros [Hp Hs]. unfold rx_char. destruct (Z.ltb_spec (sPos p) (sLen p)); [|lia].
  assert (Hsz : 32 <= sLen p) by (destruct (sizes_cases _ Hs) as [->|[->|[->|[->|[->|[->| ->]]]]]]; lia).
  destruct ((ch =? 13) || (ch =? 10)).
  - assert (Hw : port_wf (set_buff [] (sLen p) p)) by (split; [unfold sPos; cbn; lia|done]).
    destruct (sPos p =? 0); [by exists (sLen p), [], []|].
    destruct (command_ok p) as [m Hm]. exists (sLen p), [], [m]. split; [done|]. intros w. by rewrite Hm.
  - unfold sPos in Hp. destruct (Z.eqb_spec (Z.of_nat (length (sBuff p ++ [ch]))) (sLen p)) as [He|Hne].
    + destruct (Z.ltb_spec XAP_DATA_LEN (sLen p)).
      * exists (sLen p), (sBuff p), []. split; by destruct p.
      * destruct (sizes_double (sLen p) Hs ltac:(lia)) as [-> Hin]. exists (sLen p * 2), (sBuff p ++ [ch]), [].
        split; [|done]. split; [unfold sPos; cbn; lia|done].
    + exists (sLen p), (sBuff p ++ [ch]), []. split; [|done]. split; [|done].
      unfold sPos. cbn. rewrite length_app in Hne |- *. simpl in *. lia.
Qed.

Lemma rx_loop_ok data p :
  port_wf p -> exists n b ms, port_wf (set_buff b n p) /\
    forall w, rx_loop x data p w = Ok (set_buff b n p, fold_left (fun w m => send m w) ms w).
Proof using Hx.
  revert p. induction data as [|ch data IH]; intros p Hp.
  - exists (sLen p), (sBuff p), []. split; by destruct p.
  - destruct (rx_char_ok ch p Hp) as (n & b & ms & Hp' & Hc).
    destruct (IH _ Hp') as (n' & b' & ms' & Hp'' & Hl).
    exists n', b', (ms ++ ms'). split; [done|]. intros w. cbn [rx_loop]. rewrite Hc, bind_Ok, Hl, fold_left_app. done.
Qed.

Lemma rx_loop_app d1 d2 p w :
  rx_loop x (d1 ++ d2) p w = ('(p, w) ← rx_loop x d1 p w; rx_loop x d2 p w).
Proof.
  revert p w. induction d1 as [|ch d1 IH]; intros p w; [done|]. cbn [app rx_loop]. rewrite bind_assoc.
  destruct (rx_char x ch p w) as [[p' w']| |]; [|done|done]. cbn. apply IH.
Qed.

(** ** Lines *)

Definition line_char (c : Z) : Prop := c <> 0 /\ c <> 10 /\ c <> 13.
Definition dev_line (dev l : cstr) : Prop :=
  Forall line_char l /\ (length (received_text x dev l) <= 1499)%nat.

Lemma received_length dev l :
  length (received_text x dev l) = (length (comms_header x) + length dev + length l + 32)%nat.
Proof.
  unfold received_text. set (h := comms_header x). clearbody h.
  rewrite !length_app. change (length (line "Serial.Received")) with 16%nat. change (length (line "{")) with 2%nat.
  change (length (str "port=")) with 5%nat. change (length (str "data=")) with 5%nat.
  change (length (line "}")) with 2%nat. change (length [10]) with 1%nat. lia.
Qed.

Lemma header_min : (58 <= length (comms_header x))%nat.
Proof. unfold comms_header. rewrite !length_app. simpl. lia. Qed.

(** The characters of a line collect in the buffer, which grows. *)
Lemma rx_collect s p w :
  port_wf p -> Forall line_char s -> (length (sBuff p) + length s <= 2047)%nat ->
  exists n, rx_loop x s p w = Ok (set_buff (sBuff p ++ s) n p, w) /\ port_wf (set_buff (sBuff p ++ s) n p).
Proof.
  intros Hp Hs. revert p Hp. induction Hs as [|ch s (H0 & H10 & H13) Hs IH]; intros p Hp Hl.
  - exists (sLen p). rewrite app_nil_r. split; by destruct p.
  - pose proof Hp as [Hpos Hsz]. unfold sPos in Hpos. simpl in Hl. cbn [rx_loop]. unfold rx_char, sPos.
    destruct (Z.ltb_spec (Z.of_nat (length (sBuff p))) (sLen p)); [|lia].
    destruct (Z.eqb_spec ch 13) as [|_]; [done|]. destruct (Z.eqb_spec ch 10) as [|_]; [done|]. cbn [orb].
    assert (Hstep : exists n, (if Z.of_nat (length (sBuff p ++ [ch])) =? sLen p then
        if XAP_DATA_LEN <? sLen p then Ok (p, w) else Ok (set_buff (sBuff p ++ [ch]) (u32 (sLen p * 2)) p, w)
        else Ok (set_buff (sBuff p ++ [ch]) (sLen p) p, w)) = Ok (set_buff (sBuff p ++ [ch]) n p, w) /\
        port_wf (set_buff (sBuff p ++ [ch]) n p)).
    { destruct (Z.eqb_spec (Z.of_nat (length (sBuff p ++ [ch]))) (sLen p)) as [He|Hne].
      - destruct (Z.ltb_spec XAP_DATA_LEN (sLen p)) as [Hbig|].
        + rewrite length_app in He. simpl in He. unfold XAP_DATA_LEN in Hbig.
          destruct (sizes_cases _ Hsz) as [?|[?|[?|[?|[?|[?|?]]]]]]; lia.
        + destruct (sizes_double (sLen p) Hsz ltac:(lia)) as [-> Hin]. exists (sLen p * 2). split; [done|].
          split; [unfold sPos; cbn; destruct (sizes_cases _ Hsz) as [?|[?|[?|[?|[?|[?|?]]]]]]; lia|done].
      - exists (sLen p). split; [done|]. split; [|done]. unfold sPos. cbn. rewrite length_app in Hne |- *. simpl in *. lia. }
    destruct Hstep as (n & -> & Hp'). rewrite bind_Ok.
    destruct (IH _ Hp') as (n' & Hr & Hw); [cbn; rewrite length_app; simpl; lia|]. cbn [sBuff set_buff] in Hr, Hw.
    rewrite <- app_assoc in Hr, Hw. cbn [app] in Hr, Hw. exists n'. split; [exact Hr|exact Hw].
Qed.

Lemma c_text_line l : Forall line_char l -> c_text l = l.
Proof.
  intros Hl. unfold c_text. apply take_while_all. eapply Forall_impl; [exact Hl|]. intros c (H0 & _).
  by destruct (Z.eqb_spec c 0).
Qed.

(** The messages of a list of lines; empty ones are skipped. *)
Definition reports (dev : cstr) (ls : list cstr) : list cstr :=
  concat (map (fun l => match l with [] => [] | _ => [received_text x dev l] end) ls).

Definition lines_text (ls : list cstr) : cstr := concat (map (fun l => l ++ [10]) ls).

Lemma rx_line l p w :
  port_wf p -> sBuff p = [] -> dev_line (device p) l ->
  exists n, rx_loop x (l ++ [10]) p w = Ok (set_buff [] n p, fold_left (fun w m => send m w) (reports (device p) [l]) w) /\
    port_wf (set_buff [] n p).
Proof.
  intros Hp Hb [Hl Hlen]. rewrite rx_loop_app.
  assert (Hll : (length l <= 1410)%nat).
  { pose proof (received_length (device p) l). pose proof header_min. lia. }
  destruct (rx_collect l p w Hp Hl) as (n & -> & Hp'); [rewrite Hb; simpl; lia|]. rewrite bind_Ok, Hb. cbn [app rx_loop].
  exists n. pose proof Hp' as [Hpos Hsz]. rewrite Hb in Hpos, Hsz. cbn [app] in *. unfold rx_char.
  destruct (Z.ltb_spec (sPos (set_buff l n p)) (sLen (set_buff l n p))); [|lia]. cbn [orb Z.eqb Pos.eqb].
  split; [|split; [unfold sPos; cbn; destruct (sizes_cases _ Hsz) as [?|[?|[?|[?|[?|[?|?]]]]]]; cbn in *; lia|done]].
  unfold sPos. cbn [sBuff set_buff]. unfold reports. cbn [map concat]. rewrite app_nil_r. destruct l as [|c l]; [done|].
  destruct (Z.eqb_spec (Z.of_nat (length (c :: l))) 0) as [H0|_]; [simpl in H0; lia|].
  unfold processSerialCommand. cbn [device sBuff set_buff]. rewrite c_text_line by done.
  destruct (Z.ltb_spec XAP_DATA_LEN (Z.of_nat (length (received_text x (device p) (c :: l))))) as [Hb'|_];
    [unfold XAP_DATA_LEN in Hb'; lia|].
  unfold sb_content. rewrite take_ge by (unfold XAP_DATA_LEN; lia). done.
Qed.

Lemma rx_lines ls p w :
  port_wf p -> sBuff p = [] -> Forall (dev_line (device p)) ls ->
  exists n, rx_loop x (lines_text ls) p w = Ok (set_buff [] n p, fold_left (fun w m => send m w) (reports (device p) ls) w) /\
    port_wf (set_buff [] n p).
Proof.
  intros Hp Hb Hls. revert p w Hp Hb Hls. induction ls as [|l ls IH]; intros p w Hp Hb Hls.
  - exists (sLen p). cbn. rewrite <- Hb. split; by destruct p.
  - apply Forall_cons in Hls as [Hl Hls]. unfold lines_text. cbn [map concat]. rewrite rx_loop_app.
    destruct (rx_line l p w Hp Hb Hl) as (n & -> & Hp'). rewrite bind_Ok.
    destruct (IH _ (fold_left (fun w m => send m w) (reports (device p) [l]) w) Hp' eq_refl Hls) as (n' & Hr & Hw).
    exists n'. unfold lines_text in Hr. rewrite Hr. cbn [device set_buff]. split; [|done].
    rewrite <- fold_left_app. do 3 f_equal. unfold reports. cbn [map concat]. rewrite app_nil_r. done.
Qed.

End Rx.

(** ** Reads *)

Definition sends (ms : list cstr) (w : serial) : serial := fold_left (fun w m => send m w) ms w.

Lemma sends_eq ms w :
  sends ms w = mkSerial (serialList w) (connections w) (sframe w) (wire w) (ttys w) (sent w ++ ms) (snext w).
Proof.
  revert w. induction ms as [|m ms IH]; intros w; [cbn; rewrite app_nil_r; by destruct w|].
  unfold sends in *. cbn [fold_left]. rewrite IH. cbn. by rewrite <- app_assoc.
Qed.

(** The descriptor becomes readable several times. *)
Fixpoint rx_reads (x : xAPIdent) (a : addr) (reads : list (list Z)) (w : serial) : out serial :=
  match reads with
  | [] => Ok w
  | d :: r => w ← xapSerialRx x a d w; rx_reads x a r w
  end.

(** Reads are transparent: the characters reach the port as one sequence. *)
Lemma rx_reads_eq x a reads w p nx :
  (length (uid x) + length (source x) <= 1000)%nat -> Forall (fun d => (length d <= 512)%nat) reads ->
  ll_node a (serialList w) = Some (p, nx) -> port_wf p ->
  exists n b ms w' nx', rx_reads x a reads w = Ok w' /\
    (forall v, rx_loop x (concat reads) p v = Ok (set_buff b n p, sends ms v)) /\
    ll_node a (serialList w') = Some (set_buff b n p, nx') /\ port_wf (set_buff b n p) /\ sent w' = sent w ++ ms.
Proof.
  intros Hx. revert w p nx. induction reads as [|d reads IH]; intros w p nx Hr Hn Hp.
  - exists (sLen p), (sBuff p), [], w, nx. cbn. rewrite app_nil_r.
    assert (set_buff (sBuff p) (sLen p) p = p) as -> by (by destruct p). done.
  - apply Forall_cons in Hr as [Hd Hr]. cbn [rx_reads concat]. unfold xapSerialRx. rewrite Hn. cbn [of_opt].
    rewrite bind_Ok, take_ge by done. destruct (rx_loop_ok x Hx d p Hp) as (n1 & b1 & ms1 & Hp1 & Hl1).
    rewrite Hl1, bind_Ok. fold (sends ms1 w). rewrite sends_eq. cbn [serialList].
    set (p1 := set_buff b1 n1 p) in *.
    set (w1 := mkSerial (serialList w) (connections w) (sframe w) (wire w) (ttys w) (sent w ++ ms1) (snext w)).
    pose proof (ll_node_update a p1 (serialList w) nx p Hn (proj2 (ll_node_elem a (serialList w) p nx Hn))) as Hn1.
    destruct (IH (set_ports (ll_update a (fun _ => p1) (serialList w)) w1) p1 nx Hr Hn1 Hp1)
      as (n & b & ms & w' & nx' & Hrx & Hloop & Hnode & Hwf & Hsent).
    exists n, b, (ms1 ++ ms), w', nx'. split; [exact Hrx|].
    split; [|split; [exact Hnode|split; [exact Hwf|rewrite Hsent; subst w1; cbn [sent set_ports]; by rewrite <- app_assoc]]].
    intros v. rewrite rx_loop_app, Hl1, bind_Ok. subst p1. rewrite Hloop. unfold sends. by rewrite fold_left_app.
Qed.

(** ** Escapes *)

(** An escaping of arbitrary bytes as printable text. *)
Definition escape_byte (b : Z) : cstr :=
  if b =? 92 then [92; 92] else if (32 <=? b) && (b <? 127) then [b] else 92 :: 120 :: hex_byte b.
Definition escape (bs : list Z) : cstr := concat (map escape_byte bs).

Lemma hex_pair b r : is_byte b -> hex_digits 2 0 (hex_byte b ++ r) = (b, r).
Proof.
  intros Hb. set (val c := if 65 <=? c then toupper c - 65 + 10 else c - 48).
  assert (Hall : forallb (fun n => let h := hex_char_up (Z.of_nat n / 16) in let l := hex_char_up (Z.of_nat n mod 16) in
    isxdigit h && isxdigit l && (Z.lor (Z.shiftl (Z.lor (Z.shiftl 0 4) (val h)) 4) (val l) =? Z.of_nat n)) (seq 0 256) = true)
    by (vm_compute; reflexivity).
  rewrite forallb_forall in Hall. unfold is_byte in Hb. specialize (Hall (Z.to_nat b) ltac:(apply in_seq; lia)).
  rewrite Z2Nat.id in Hall by lia. cbv zeta in Hall. apply andb_true_iff in Hall as [Hx Hv].
  apply andb_true_iff in Hx as [Hh Hl]. apply Z.eqb_eq in Hv.
  unfold hex_byte. cbn [app hex_digits]. rewrite Hh, Hl. fold (val (hex_char_up (b / 16))) (val (hex_char_up (b mod 16))).
  by rewrite Hv.
Qed.

Lemma unescape_byte f b r :
  is_byte b -> unescape_loop (S f) (escape_byte b ++ r) = b :: unescape_loop f r.
Proof.
  intros Hb. assert (Hu : u8 b = b) by (apply u8_small; done). unfold escape_byte.
  destruct (Z.eqb_spec b 92) as [->|Hne]; [done|].
  destruct ((32 <=? b) && (b <? 127)) eqn:Hp.
  - cbn [app unescape_loop]. destruct (Z.eqb_spec b 92); [done|]. by rewrite Hu.
  - cbn [app unescape_loop Z.eqb Pos.eqb]. unfold escape_char. cbn [Z.eqb Pos.eqb]. rewrite hex_pair by done. by rewrite Hu.
Qed.

Lemma unescape_escape bs f : bytes_wf bs -> (length bs <= f)%nat -> unescape_loop f (escape bs) = bs.
Proof.
  intros Hb. revert f. induction Hb as [|b bs Hb _ IH]; intros f Hf; [by destruct f|].
  destruct f as [|f]; simpl in Hf; [lia|]. unfold escape. cbn [map concat]. rewrite unescape_byte by done.
  f_equal. apply IH. lia.
Qed.

Lemma escape_length bs : (length bs <= length (escape bs))%nat.
Proof.
  induction bs as [|b bs IH]; [done|]. unfold escape in *. cbn [map concat length]. rewrite length_app.
  assert (1 <= length (escape_byte b))%nat by (unfold escape_byte; repeat case_match; cbn; lia). lia.
Qed.

Lemma hex_digits_length n o s : (length (snd (hex_digits n o s)) <= length s)%nat.
Proof.
  revert o s. induction n as [|n IH]; intros o s; [done|]. destruct s as [|c s]; [done|]. cbn [hex_digits].
  destruct (isxdigit c); [|done]. etransitivity; [apply IH|]. cbn. lia.
Qed.

Lemma oct_digits_length n o s : (length (snd (oct_digits n o s)) <= length s)%nat.
Proof.
  revert o s. induction n as [|n IH]; intros o s; [done|]. destruct s as [|c s]; [done|]. cbn [oct_digits].
  destruct (isoctal c); [|done]. etransitivity; [apply IH|]. cbn. lia.
Qed.

Lemma escape_char_length c r : (length (snd (escape_char c r)) <= length r)%nat.
Proof.
  unfold escape_char. repeat (case_match; [done || apply hex_digits_length || apply oct_digits_length|]). done.
Qed.

(** Unescaped data is never longer, so it fits the buffer allocated for it. *)
Lemma unescape_fits f s : (length (unescape_loop f s) <= length s)%nat.
Proof.
  revert s. induction f as [|f IH]; intros s; [cbn; lia|]. destruct s as [|c s]; [done|]. cbn [unescape_loop].
  destruct (c =? 92).
  - destruct s as [|e s]; [cbn; lia|]. pose proof (escape_char_length e s). destruct (escape_char e s) as [v r].
    cbn [length snd] in *. specialize (IH r). lia.
  - cbn [length]. specialize (IH s). lia.
Qed.

(** ** The list of ports *)

(** One port per device, listeners and ports at distinct addresses below the
    allocator's next one, every buffer within its bounds. *)
Definition serial_wf (w : serial) : Prop :=
  ll_wf (serialList w) /\ NoDup (map device (serialList w)) /\ ll_wf (connections w) /\
  Forall (fun p => (sp_addr p < snext w)%positive) (serialList w) /\
  Forall (fun s => (sc_addr s < snext w)%positive) (connections w) /\ Forall port_wf (serialList w).

Lemma findDevice_split d w p :
  findDevice d w = Some p -> exists l1 l2, serialList w = l1 ++ p :: l2 /\ device p = d.
Proof.
  intros Hf. apply ll_search_Some in Hf as [Hin Hd]. apply strcmp0_spec in Hd.
  apply list_elem_of_split in Hin as (l1 & l2 & ->). eauto.
Qed.

Lemma findDevice_None d w : findDevice d w = None <-> d ∉ map device (serialList w).
Proof.
  unfold findDevice. rewrite ll_search_None, Forall_forall. rewrite list_elem_of_fmap. split.
  - intros H (p & -> & Hin). specialize (H p Hin). cbv beta in H. by rewrite strcmp0_refl in H.
  - intros H p Hin. apply bool_decide_eq_false_2. intros <-. apply H. eauto.
Qed.

Lemma close_wf d w w' :
  serial_wf w -> closeSerialPort (Some d) w = Ok w' -> serial_wf w' /\ d ∉ map device (serialList w') /\
    snext w' = snext w /\ sframe w' = sframe w.
Proof.
  intros Hwf Hc. unfold closeSerialPort in Hc. destruct (findDevice d w) as [p|] eqn:Hf.
  - destruct (findDevice_split d w p Hf) as (l1 & l2 & Hl & <-). pose proof Hwf as (Hw & Hd & Hs & Hb & Hsb & Hp).
    inv_bind Hc. inv_bind Hc. destruct a0 as [ud socks]. apply Ok_inj in Hc. subst w'. cbn [serialList snext sframe connections].
    unfold xapDelSocketListener in Ha0. inv_bind Ha0. destruct a0 as [cb nx]. apply Ok_inj in Ha0. injection Ha0 as _ <-.
    rewrite Hl in *. pose proof (ll_wf_before _ _ _ Hw) as Hbef.
    change (sp_addr p) with (node_addr p). rewrite ll_delete_app by done.
    rewrite map_app in Hd. cbn [map] in Hd. apply NoDup_app in Hd as (Hd1 & Hd2 & Hd3). apply NoDup_cons in Hd3 as [Hd3 Hd4].
    assert (Hsub : sublist (l1 ++ l2) (l1 ++ p :: l2)) by (apply sublist_app; [done|by constructor]).
    split; [|split; [|done]].
    + unfold serial_wf. cbn [serialList snext connections]. split; [|split; [|split; [by apply ll_delete_wf|]]].
      * eapply sublist_NoDup; [exact Hw|]. by apply (fmap_sublist node_addr).
      * rewrite map_app. apply NoDup_app. split; [done|]. split; [|done]. intros y Hy Hy2. by apply (Hd2 y Hy), elem_of_cons; right.
      * split; [eapply Forall_sublist; [exact Hsub|exact Hb]|].
        split; [eapply Forall_sublist; [apply ll_delete_sublist|exact Hsb]|]. eapply Forall_sublist; [exact Hsub|exact Hp].
    + rewrite map_app, elem_of_app. intros [Hy|Hy]; [|done]. apply (Hd2 _ Hy). by left.
  - apply Ok_inj in Hc. subst w'. split; [done|]. by apply findDevice_None in Hf.
Qed.

(** The configuration changes attributes only. *)
Definition same_port (p q : serialPort) : Prop :=
  sp_addr q = sp_addr p /\ device q = device p /\ sp_fd q = sp_fd p /\ sBuff q = sBuff p /\ sLen q = sLen p.

Definition keeps_port (f : cstr -> serialPort -> out conf) : Prop :=
  forall v p q e, f v p = Ok (q, e) -> same_port p q.

Ltac keeps := intros v p q e H; repeat case_match; apply Ok_inj in H; injection H as <- _; done.

Lemma conf_baud_keeps : keeps_port conf_baud.
Proof. unfold conf_baud, ok, bad. keeps. Qed.
Lemma conf_flow_keeps : keeps_port conf_flow.
Proof. unfold conf_flow, ok, bad. keeps. Qed.
Lemma conf_parity_keeps : keeps_port conf_parity.
Proof. unfold conf_parity, ok, bad. keeps. Qed.
Lemma conf_stop_keeps : keeps_port conf_stop.
Proof. unfold conf_stop, ok, bad. keeps. Qed.
Lemma conf_bits_keeps : keeps_port conf_bits.
Proof. unfold conf_bits, ok, bad. keeps. Qed.

Lemma conf_step_keeps f v c q e p :
  keeps_port f -> same_port p (fst c) -> conf_step f v c = Ok (q, e) -> same_port p q.
Proof.
  intros Hf Hc H. destruct c as [r [e'|]]; cbn in *; [by apply Ok_inj in H; injection H as <- _|].
  inv_bind H. apply Hf in H. destruct H as (?&?&?&?&?), Hc as (?&?&?&?&?). repeat split; congruence.
Qed.

Lemma ll_update_last (l : list serialPort) p q :
  Forall (fun r => (sp_addr r < sp_addr p)%positive) l -> ll_update (sp_addr p) (fun _ => q) (l ++ [p]) = l ++ [q].
Proof.
  intros Hl. unfold ll_update. rewrite map_app. cbn [map]. change (node_addr p) with (sp_addr p).
  rewrite bool_decide_eq_true_2 by done. f_equal. rewrite <- (map_id l) at 2. apply map_ext_in.
  intros r Hr%list_elem_of_In. rewrite Forall_forall in Hl. specialize (Hl r Hr). cbv beta in Hl.
  change (node_addr r) with (sp_addr r). rewrite bool_decide_eq_false_2; [done|]. lia.
Qed.

Section Invariant.
Context (x : xAPIdent).

Lemma error_wf t w w' : serial_wf w -> serialError x t w = Ok w' -> serial_wf w'.
Proof.
  intros Hwf H. unfold serialError in H. inv_bind H. inv_bind H. inv_bind H.
  destruct (_ <? XAP_DATA_LEN); apply Ok_inj in H; by subst w'.
Qed.

(** A fresh port at the end of the list. *)
Lemma append_wf w p socks fr wi tt se :
  serial_wf w -> device p ∉ map device (serialList w) -> sp_addr p = snext w -> port_wf p ->
  ll_wf socks -> Forall (fun s => (sc_addr s < Pos.succ (Pos.succ (snext w)))%positive) socks ->
  serial_wf (mkSerial (serialList w ++ [p]) socks fr wi tt se (Pos.succ (Pos.succ (snext w)))).
Proof.
  intros (Hw & Hd & _ & Hb & _ & Hp) Hdev Ha Hpw Hs Hsb. unfold serial_wf, ll_wf. cbn [serialList snext connections].
  rewrite !map_app. cbn [map]. split; [|split; [|split; [done|split; [|split; [done|]]]]].
  - apply NoDup_app. split; [done|]. split; [|apply NoDup_singleton]. intros y Hy Hy2.
    apply list_elem_of_singleton in Hy2. subst y. apply list_elem_of_fmap in Hy as (r & Hr & Hin).
    rewrite Forall_forall in Hb. specialize (Hb r Hin). cbv beta in Hb. change (node_addr p) with (sp_addr p) in Hr.
    change (node_addr r) with (sp_addr r) in Hr. lia.
  - apply NoDup_app. split; [done|]. split; [|apply NoDup_singleton]. intros y Hy Hy2.
    apply list_elem_of_singleton in Hy2. by subst y.
  - apply Forall_app. split; [|constructor; [lia|constructor]]. eapply Forall_impl; [exact Hb|]. intros r Hr. simpl in *. lia.
  - apply Forall_app. split; [done|]. by constructor.
Qed.

Lemma wf_next w w' :
  serial_wf w -> serialList w' = serialList w -> connections w' = connections w -> (snext w <= snext w')%positive ->
  serial_wf w'.
Proof.
  intros (Hw & Hd & Hs & Hb & Hsb & Hp) Hl Hc Hn. unfold serial_wf. rewrite Hl, Hc. repeat (split; [done|]).
  split; [eapply Forall_impl; [exact Hb|]|split; [eapply Forall_impl; [exact Hsb|]|done]]; intros r Hr; cbv beta in *; lia.
Qed.

Lemma configure_keeps b f pa s d p q e : configure b f pa s d p = Ok (q, e) -> same_port p q.
Proof.
  unfold configure. intros H. inv_bind H. destruct a as [q1 e1]. inv_bind H. destruct a as [q2 e2].
  inv_bind H. destruct a as [q3 e3]. inv_bind H. destruct a as [q4 e4].
  eapply conf_step_keeps; [apply conf_bits_keeps| |exact H].
  eapply conf_step_keeps; [apply conf_stop_keeps| |exact Ha2].
  eapply conf_step_keeps; [apply conf_parity_keeps| |exact Ha1].
  eapply conf_step_keeps; [apply conf_flow_keeps| |exact Ha0].
  eapply conf_step_keeps; [apply conf_baud_keeps| |exact Ha]. done.
Qed.

Lemma setup_rest_wf dev fd b f pa st d w w' :
  serial_wf w -> dev ∉ map device (serialList w) -> setup_rest x dev fd b f pa st d w = Ok w' -> serial_wf w'.
Proof.
  intros Hwf Hdev H. pose proof Hwf as (_ & _ & Hs & Hb & Hsb & _). unfold setup_rest in H. cbv zeta in H.
  set (p := mkPort (snext w) dev None _ fd [] 32) in H. inv_bind H. destruct a as [q e].
  apply configure_keeps in Ha as (Ha & Hd & _ & Hbu & Hl). rewrite Ha, ll_update_last in H by exact Hb.
  assert (Hq : port_wf q) by (split; [unfold sPos; rewrite Hbu, Hl; done|rewrite Hl; by left]).
  assert (Hdq : device q ∉ map device (serialList w)) by (by rewrite Hd).
  assert (Hsb' : Forall (fun s => (sc_addr s < Pos.succ (Pos.succ (snext w)))%positive) (connections w)).
  { eapply Forall_impl; [exact Hsb|]. intros r Hr. cbv beta in *. lia. }
  assert (Hw1 : forall fr wi tt se, serial_wf (mkSerial (serialList w ++ [q]) (connections w) fr wi tt se (Pos.succ (snext w)))).
  { intros. pose proof (append_wf w q (connections w) fr wi tt se Hwf Hdq Ha Hq Hs Hsb') as (H1 & H2 & H3 & H4 & H5 & H6).
    split; [done|]. split; [done|]. split; [done|]. split; [|split; [|done]].
    - cbn [serialList snext]. apply Forall_app. split; [|constructor; [rewrite Ha; cbn; lia|constructor]].
      eapply Forall_impl; [exact Hb|]. intros r Hr. cbv beta in *. lia.
    - eapply Forall_impl; [exact Hsb|]. intros r Hr. cbv beta in *. cbn. lia. }
  destruct e as [[m|]|].
  - by apply error_wf in H.
  - apply Ok_inj in H. subst w'. apply Hw1.
  - inv_bind H. apply Ok_inj in H. subst w'. apply append_wf; try done.
    + unfold xapAddSocketListener. destruct (fd <? 0); [done|]. unfold ll_wf, ll_prepend. cbn [map].
      apply NoDup_cons. split; [|done]. intros Hin. apply list_elem_of_fmap in Hin as (r & Hr & Hin).
      rewrite Forall_forall in Hsb. specialize (Hsb r Hin). cbv beta in Hsb.
      change (node_addr r) with (sc_addr r) in Hr. cbn in Hr. lia.
    + unfold xapAddSocketListener. destruct (fd <? 0); [done|]. constructor; [cbn; lia|done].
Qed.

Lemma setup_wf o w w' : serial_wf w -> xapSerialSetup x o w = Ok w' -> serial_wf w'.
Proof.
  intros Hwf H. unfold xapSerialSetup in H. do 6 inv_bind H. inv_bind H. rename a5 into w1, Ha5 into Hcl.
  assert (Hw1 : serial_wf w1 /\ match a with Some d => d ∉ map device (serialList w1) | None => True end).
  { destruct a as [d|]; [|by apply Ok_inj in Hcl; subst w1]. apply close_wf in Hcl; [|done]. naive_solver. }
  destruct Hw1 as [Hw1 Hdev]. destruct (o_fd o) as [fd|]; [|by apply error_wf in H].
  destruct (negb (o_flock o)); [by apply error_wf in H|]. destruct (negb (o_fcntl o)); [by apply error_wf in H|].
  inv_bind H. apply of_opt_Ok in Ha5. subst a. by apply setup_rest_wf in H.
Qed.

End Invariant.

(** ** Runs of the program *)

(** One event: a descriptor is readable, a message of one of the three kinds is
    handled, a new message replaces the frame. *)
Inductive serial_step (x : xAPIdent) : serial -> serial -> Prop :=
| step_rx a data w w' : xapSerialRx x a data w = Ok w' -> serial_step x w w'
| step_setup o w w' : xapSerialSetup x o w = Ok w' -> serial_step x w w'
| step_close w w' : xapSerialClose w = Ok w' -> serial_step x w w'
| step_tx os w w' : xapSerialTx x os w = Ok w' -> serial_step x w w'
| step_frame f w : serial_step x w (mkSerial (serialList w) (connections w) f (wire w) (ttys w) (sent w) (snext w)).

Definition serial_start (w : serial) : Prop := serialList w = [] /\ connections w = [].

Lemma rx_wf x a data w w' :
  (length (uid x) + length (source x) <= 1000)%nat -> serial_wf w -> xapSerialRx x a data w = Ok w' -> serial_wf w'.
Proof.
  intros Hx Hwf H. pose proof Hwf as (Hw & Hd & Hs & Hb & Hsb & Hp). unfold xapSerialRx in H. inv_bind H.
  destruct a0 as [p nx]. apply of_opt_Ok in Ha0. destruct (ll_node_elem _ _ _ _ Ha0) as [Hin Hpa].
  assert (Hpw : port_wf p) by (rewrite Forall_forall in Hp; by apply Hp).
  destruct (rx_loop_ok x Hx (take 512 data) p Hpw) as (n & b & ms & Hp' & Hl).
  rewrite Hl, bind_Ok in H. apply Ok_inj in H. subst w'. fold (sends ms w). rewrite sends_eq.
  unfold serial_wf. cbn [serialList connections snext set_ports]. unfold ll_wf in *.
  assert (Hg : forall (B : Type) (g : serialPort -> B), (forall q, g (set_buff b n q) = g q) ->
    map g (ll_update a (fun _ => set_buff b n p) (serialList w)) = map g (serialList w)).
  { intros B g Hg. unfold ll_update. rewrite map_map. apply map_ext_in. intros q Hq%list_elem_of_In.
    destruct (decide (node_addr q = a)) as [He|He]; [|by rewrite bool_decide_eq_false_2].
    rewrite bool_decide_eq_true_2 by done. rewrite Hg. f_equal. symmetry.
    apply (ll_wf_inj (serialList w)); [done|done|done|]. exact (eq_trans He (eq_sym Hpa)). }
  rewrite !Hg by done. split; [done|split; [done|split; [done|]]].
  assert (HF : forall P : serialPort -> Prop, P (set_buff b n p) -> Forall P (serialList w) ->
    Forall P (ll_update a (fun _ => set_buff b n p) (serialList w))).
  { intros P HP HA. unfold ll_update. apply Forall_map. eapply Forall_impl; [exact HA|]. intros q Hq.
    by destruct (bool_decide _). }
  split; [apply HF; [|done]|split; [done|by apply HF]]. rewrite Forall_forall in Hb. exact (Hb p Hin).
Qed.

Lemma tx_wf x os w w' : serial_wf w -> xapSerialTx x os w = Ok w' -> serial_wf w'.
Proof.
  intros Hwf H. unfold xapSerialTx in H. do 3 inv_bind H. destruct a1 as [p|]; [|by apply error_wf in H].
  do 2 inv_bind H. destruct (sendSerialMsg os a2) as [rv o]. apply Ok_inj in H. subst w'.
  by apply (wf_next w).
Qed.

Lemma step_wf x w w' :
  (length (uid x) + length (source x) <= 1000)%nat -> serial_wf w -> serial_step x w w' -> serial_wf w'.
Proof.
  intros Hx Hwf Hst. destruct Hst as [a data w w' H|o w w' H|w w' H|os w w' H|f w].
  - by apply rx_wf in H.
  - by apply setup_wf in H.
  - unfold xapSerialClose in H. inv_bind H. destruct a as [d|]; [by apply close_wf in H as [H _]|].
    apply Ok_inj in H. by subst w'.
  - by apply tx_wf in H.
  - by apply (wf_next w).
Qed.

Lemma steps_wf x w w' :
  (length (uid x) + length (source x) <= 1000)%nat -> rtc (serial_step x) w w' -> serial_wf w -> serial_wf w'.
Proof. intros Hx Hr. induction Hr; [done|]. eauto using step_wf. Qed.

Lemma start_wf w : serial_start w -> serial_wf w.
Proof. intros [Hl Hc]. unfold serial_wf, ll_wf. rewrite Hl, Hc. repeat split; constructor. Qed.

Lemma write_loop_takes n j k os bs m :
  (k < n)%nat -> (forall i, (i < k)%nat -> os (j + i)%nat = WouldBlock) -> os (j + k)%nat = Wrote m -> (length bs <= m)%nat ->
  exists rv, write_loop n os j bs = (rv, bs).
Proof.
  revert j k. induction n as [|n IH]; intros j k Hk Hb Hw Hm; [lia|]. cbn [write_loop]. destruct k as [|k].
  - rewrite Nat.add_0_r in Hw. rewrite Hw. rewrite Nat.min_r by done. rewrite take_ge by done. eauto.
  - replace (os j) with WouldBlock by (rewrite <- (Hb 0%nat) by lia; f_equal; lia). apply (IH (S j) k); [lia| | |done].
    + intros i Hi. rewrite <- (Hb (S i)) by lia. f_equal. lia.
    + rewrite <- Hw. f_equal. lia.
Qed.

Lemma write_loop_blocks n j os bs :
  (forall i, (i < n)%nat -> os (j + i)%nat = WouldBlock) -> write_loop n os j bs = (-1, []).
Proof.
  revert j. induction n as [|n IH]; intros j Hb; [done|]. cbn [write_loop].
  replace (os j) with WouldBlock by (rewrite <- (Hb 0%nat) by lia; f_equal; lia). apply IH. intros i Hi. rewrite <- (Hb (S i)) by lia. f_equal. lia.
Qed.

(** ** Examples *)

Definition demo_ident : xAPIdent := mkIdent (str "dbzoo.livebox.Serial") (str "FF00D500") 4000 (str "10.0.0.1").

Definition setup_msg (baud : string) : message :=
  [mkBlock (str "Serial.Setup") [(str "port", str "/dev/ttyUSB0"); (str "baud", str baud); (str "stop", str "1");
     (str "databits", str "8"); (str "parity", str "none"); (str "flow", str "none")]].
Definition send_msg : message :=
  [mkBlock (str "Serial.Send") [(str "port", str "/dev/ttyUSB0"); (str "data", escape [104; 105; 10])]].

Lemma setup_msg_wf : msg_wf (setup_msg "9600") /\ msg_wf (setup_msg "9601").
Proof.
  split; repeat constructor; try (by apply text_wf_str); try (by apply (bool_decide_eq_true_1 (_ ∉ _))); done.
Qed.

Lemma send_msg_wf : msg_wf send_msg.
Proof.
  repeat constructor; try (by apply text_wf_str); try (by apply (bool_decide_eq_true_1 (_ ∉ _))); try done.
  all: try (change (escape [104; 105; 10]) with (str "hi\x0A"); by apply text_wf_str).
Qed.

Definition demo_serial (m : message) : serial := mkSerial [] [] (parsed_frame m [0] []) [] [] [] 1.
Definition demo_port : serialPort := mkPort 1 (str "/dev/ttyUSB0") (Some 13) (mkTermios 4 2224) 7 [] 32.
Definition open_serial (m : message) : serial :=
  mkSerial [demo_port] [mkSocket 2 7 1%positive xapSerialRx_cb] (parsed_frame m [0] []) [] [] [] 3.

Lemma demo_setup :
  exists tt, xapSerialSetup demo_ident (mkOpen (Some 7) true true) (demo_serial (setup_msg "9600")) =
    Ok (mkSerial [demo_port] [mkSocket 2 7 1%positive xapSerialRx_cb] (parsed_frame (setup_msg "9600") [0] []) [] tt [] 3).
Proof. eexists. vm_compute. reflexivity. Qed.

(** ** Theorems *)

(** C7.  In every run of the program, whatever the devices deliver and whatever is
    asked over the bus, the list of ports holds one block per device, every
    receive buffer is within the memory allocated for it, and reading from any
    listed port returns: no input makes [xapSerialRx] write outside [sBuff]. *)
Theorem serial_reachable_wf x w0 w :
  (length (uid x) + length (source x) <= 1000)%nat -> serial_start w0 -> rtc (serial_step x) w0 w ->
  serial_wf w /\ forall p data, p ∈ serialList w -> exists w', xapSerialRx x (sp_addr p) data w = Ok w'.
Proof.
  intros Hx Hs Hr. assert (Hwf : serial_wf w) by eauto using steps_wf, start_wf. split; [done|].
  intros p data Hin. pose proof Hwf as (Hw & _ & _ & _ & _ & Hp). rewrite Forall_forall in Hp.
  destruct (rx_loop_ok x Hx (take 512 data) p (Hp p Hin)) as (n & b & ms & _ & Hl).
  apply list_elem_of_split in Hin as (l1 & l2 & Hsl). rewrite Hsl in Hw. unfold xapSerialRx. rewrite Hsl.
  change (sp_addr p) with (node_addr p). rewrite ll_node_app by (by eapply ll_wf_before). cbn [of_opt]. rewrite bind_Ok.
  rewrite Hl, bind_Ok. eauto.
Qed.

Lemma serial_reachable_wf_witness :
  exists w, rtc (serial_step demo_ident) (demo_serial (setup_msg "9600")) w /\
    exists w', xapSerialRx demo_ident 1 (str "junk") w = Ok w'.
Proof.
  destruct demo_setup as [tt Hs]. eexists. split; [eapply rtc_l; [exact (step_setup _ _ _ _ Hs)|reflexivity]|].
  refine (proj2 (serial_reachable_wf demo_ident (demo_serial (setup_msg "9600")) _ _ _ _) demo_port _ _).
  - apply Nat.leb_le. reflexivity.
  - done.
  - eapply rtc_l; [exact (step_setup _ _ _ _ Hs)|reflexivity].
  - by left.
Defined.

(** C17.  A device that sends lines ended by ["\n"], cut into reads of up to 512 bytes
    in any way: every line that is not empty is sent as one [Serial.Received]
    message with the name of the port, in order, nothing else is sent, and the
    port's buffer is empty again. *)
Theorem xapSerialRx_lines x a reads ls w p nx :
  (length (uid x) + length (source x) <= 1000)%nat -> Forall (fun d => (length d <= 512)%nat) reads ->
  concat reads = lines_text ls -> ll_node a (serialList w) = Some (p, nx) -> port_wf p -> sBuff p = [] ->
  Forall (dev_line x (device p)) ls ->
  exists w' n nx', rx_reads x a reads w = Ok w' /\ sent w' = sent w ++ reports x (device p) ls /\
    ll_node a (serialList w') = Some (set_buff [] n p, nx').
Proof.
  intros Hx Hr Hc Hn Hp Hb Hls.
  destruct (rx_reads_eq x a reads w p nx Hx Hr Hn Hp) as (n & b & ms & w' & nx' & Hrx & Hloop & Hnode & _ & Hsent).
  destruct (rx_lines x Hx ls p w Hp Hb Hls) as (n' & Hl & _). rewrite Hc in Hloop. specialize (Hloop w).
  rewrite Hl in Hloop. apply Ok_inj in Hloop. fold (sends (reports x (device p) ls) w) in Hloop.
  rewrite !sends_eq in Hloop. injection Hloop as Hnn Hbb Hms. subst b n'. apply app_inv_head in Hms. subst ms. eauto 6.
Qed.

Lemma xapSerialRx_lines_witness :
  exists w', rx_reads demo_ident 1 [str "on"; [10]; str "off" ++ [10]] (open_serial []) = Ok w' /\
    sent w' = [received_text demo_ident (str "/dev/ttyUSB0") (str "on"); received_text demo_ident (str "/dev/ttyUSB0") (str "off")].
Proof.
  destruct (xapSerialRx_lines demo_ident 1 [str "on"; [10]; str "off" ++ [10]] [str "on"; str "off"] (open_serial []) demo_port None)
    as (w' & n & nx' & Hrx & Hs & _).
  - apply Nat.leb_le. reflexivity.
  - repeat constructor; apply Nat.leb_le; reflexivity.
  - reflexivity.
  - reflexivity.
  - split; [done|by left].
  - reflexivity.
  - repeat constructor; try done; apply Nat.leb_le; reflexivity.
  - exists w'. split; [exact Hrx|]. rewrite Hs. reflexivity.
Defined.

(** C32.  A [Serial.Send] for an open port whose data is any sequence of bytes in
    escaped form writes exactly these bytes to the port's descriptor, in one
    [write], if the device takes them at one of the five attempts and would have
    blocked at the earlier ones; nothing is written when all five would block. *)
Theorem xapSerialTx_spec x os w es d p bs :
  frame_rep (sframe w) es -> entries_lookup es (str "serial.send") (Some (str "port")) = Some d ->
  entries_lookup es (str "serial.send") (Some (str "data")) = Some (escape bs) -> bytes_wf bs ->
  findDevice d w = Some p ->
  (forall k n, (k < 5)%nat -> (forall j, (j < k)%nat -> os j = WouldBlock) -> os k = Wrote n -> (length bs <= n)%nat ->
     exists w', xapSerialTx x os w = Ok w' /\ wire w' = wire w ++ [(sp_fd p, bs)] /\ sent w' = sent w) /\
  ((forall j, (j < 5)%nat -> os j = WouldBlock) ->
     exists w', xapSerialTx x os w = Ok w' /\ wire w' = wire w ++ [(sp_fd p, [])] /\ sent w' = sent w).
Proof.
  intros Hf Hport Hdata Hbs Hp. assert (Htx : xapSerialTx x os w = let '(_, o) := sendSerialMsg os bs in
    Ok (mkSerial (serialList w) (connections w) (sframe w) (wire w ++ [(sp_fd p, o)]) (ttys w) (sent w) (snext w))).
  { unfold xapSerialTx, serial_value. rewrite !(get_value_rep _ es) by done. rewrite Hport, Hdata, !bind_Ok, Hp.
    cbn [of_opt]. rewrite !bind_Ok. unfold unescape. pose proof (unescape_fits (length (escape bs)) (escape bs)) as Hfit.
    destruct (Nat.ltb_spec (length (unescape_loop (length (escape bs)) (escape bs))) (length (escape bs) + 1)); [|lia].
    rewrite bind_Ok, unescape_escape by (done || apply escape_length). done. }
  rewrite Htx. unfold sendSerialMsg. split.
  - intros k n Hk Hblk Hw Hn.
    destruct (write_loop_takes 5 0 k os bs n Hk Hblk Hw Hn) as [rv ->]. eauto.
  - intros Hblk. rewrite (write_loop_blocks 5 0 os bs Hblk). eauto.
Qed.

Lemma xapSerialTx_spec_witness :
  exists w', xapSerialTx demo_ident (fun k => if (k =? 2)%nat then Wrote 3 else WouldBlock) (open_serial send_msg) = Ok w' /\
    wire w' = [(7, str "hi" ++ [10])].
Proof.
  destruct (xapSerialTx_spec demo_ident (fun k => if (k =? 2)%nat then Wrote 3 else WouldBlock) (open_serial send_msg)
    (msg_entries send_msg) (str "/dev/ttyUSB0") demo_port (str "hi" ++ [10])) as [H _].
  - exact (parsed_frame_rep send_msg [0] [] send_msg_wf).
  - reflexivity.
  - reflexivity.
  - repeat constructor; done.
  - reflexivity.
  - destruct (H 2%nat 3%nat) as (w' & H1 & H2 & _); [lia| |reflexivity|simpl; lia|].
    + intros j Hj. destruct j as [|[|j]]; [reflexivity|reflexivity|lia].
    + exists w'. split; [exact H1|exact H2].
Defined.

(** A [Serial.Setup] with a speed that is not in the table: the port is entered
    in the list before the speed is looked at and stays there without a
    listener, so the next request to close it, or to set it up again,
    dereferences NULL. *)
Theorem xapSerialSetup_refused x fd w es d b :
  (length (uid x) + length (source x) <= 1000)%nat -> serial_wf w -> frame_rep (sframe w) es ->
  entries_lookup es (str "serial.setup") (Some (str "port")) = Some d -> findDevice d w = None ->
  entries_lookup es (str "serial.setup") (Some (str "baud")) = Some b -> (length b <= 100)%nat ->
  baud_speed (atoi b) baud_table = None -> xapFindSocketListenerByFD fd (connections w) = None ->
  exists w', xapSerialSetup x (mkOpen (Some fd) true true) w = Ok w' /\ serial_wf w' /\
    map device (serialList w') = map device (serialList w) ++ [d] /\
    closeSerialPort (Some d) w' = Undef NullDeref /\
    forall o, xapSerialSetup x o w' = Undef NullDeref.
Proof.
  intros Hx Hwf Hf Hport Hd Hbaud Hbl Hsp Hfd.
  destruct (serialError_ok x Hx (str "Invalid speed " ++ b)) as [m Hm]; [rewrite length_app; simpl; lia|].
  pose proof Hwf as (_ & _ & _ & Hb & _).
  assert (Hs : exists w', xapSerialSetup x (mkOpen (Some fd) true true) w = Ok w' /\
    serialList w' = serialList w ++ [mkPort (snext w) d None (mkTermios 0 (Z.lor CREAD CLOCAL)) fd [] 32] /\
    connections w' = connections w /\ sframe w' = sframe w).
  { unfold xapSerialSetup, serial_value. rewrite !(get_value_rep _ es) by done. rewrite Hport, Hbaud, !bind_Ok.
    unfold closeSerialPort. rewrite Hd, bind_Ok. cbn [o_fd o_flock o_fcntl negb of_opt]. rewrite bind_Ok.
    unfold setup_rest, configure. cbn [conf_step of_opt]. rewrite bind_Ok. unfold conf_baud, bad. rewrite Hsp. rewrite !bind_Ok.
    repeat (cbn [conf_step]; rewrite bind_Ok). cbn [sp_addr]. rewrite Hm. eexists. split; [done|]. cbn [send serialList connections sframe].
    split; [|done]. by rewrite (ll_update_last (serialList w) (mkPort (snext w) d None _ fd [] 32)). }
  destruct Hs as (w' & Hs & Hl & Hc & Hfr).
  assert (Hcl : closeSerialPort (Some d) w' = Undef NullDeref).
  { unfold closeSerialPort, findDevice. rewrite Hl. rewrite ll_search_app. fold (findDevice d w). rewrite Hd.
    cbn [ll_search device]. rewrite strcmp0_refl. cbn [sp_fd]. rewrite Hc, Hfd. done. }
  exists w'. split; [done|]. split; [by apply setup_wf in Hs|]. split; [by rewrite Hl, map_app|]. split; [done|].
  intros o. unfold xapSerialSetup, serial_value. rewrite Hfr, !(get_value_rep _ es) by done. rewrite Hport, Hbaud, !bind_Ok.
  by rewrite Hcl.
Qed.

Lemma xapSerialSetup_refused_witness :
  exists w', xapSerialSetup demo_ident (mkOpen (Some 7) true true) (demo_serial (setup_msg "9601")) = Ok w' /\
    closeSerialPort (Some (str "/dev/ttyUSB0")) w' = Undef NullDeref.
Proof.
  destruct (xapSerialSetup_refused demo_ident 7 (demo_serial (setup_msg "9601")) (msg_entries (setup_msg "9601"))
    (str "/dev/ttyUSB0") (str "9601")) as (w' & Hs & _ & _ & Hc & _).
  - apply Nat.leb_le. reflexivity.
  - apply start_wf. done.
  - exact (parsed_frame_rep (setup_msg "9601") [0] [] (proj2 setup_msg_wf)).
  - reflexivity.
  - reflexivity.
  - reflexivity.
  - apply Nat.leb_le. reflexivity.
  - reflexivity.
  - reflexivity.
  - exists w'. split; [exact Hs|exact Hc].
Defined.

(** An error message whose header and text together exceed the 1500 bytes of
    [serialError]'s buffer makes it pass a negative size to the second
    [snprintf] and write outside the buffer; a [Serial.Send] for an unknown port
    with a name of more than 1400 characters does so. *)
Theorem serialError_overflow x os w es d :
  frame_rep (sframe w) es -> entries_lookup es (str "serial.send") (Some (str "port")) = Some d ->
  findDevice d w = None -> (length (uid x) + length (source x) <= 1000)%nat -> (1400 < length d)%nat ->
  xapSerialTx x os w = Undef OutOfBounds.
Proof.
  intros Hf Hport Hd Hx Hlen. unfold xapSerialTx, serial_value. rewrite !(get_value_rep _ es) by done.
  rewrite Hport, !bind_Ok, Hd. unfold serialError, sprintf_buf, sb_append, XAP_DATA_LEN, pstr.
  pose proof (header_length x Hx) as Hh. pose proof (header_min x) as Hmin.
  set (h := comms_header x) in *. clearbody h.
  set (t0 := h ++ line "Serial.Error" ++ line "{" ++ str "text=").
  assert (H0 : (length h + 20 <= length t0 <= length h + 30)%nat) by (subst t0; rewrite !length_app; simpl; lia). clearbody t0.
  destruct (Z.ltb_spec (Z.of_nat (length t0)) 1500); [|lia]. rewrite bind_Ok.
  destruct (Z.leb_spec (Z.of_nat (length t0)) 1500); [|lia]. rewrite bind_Ok.
  destruct (Z.leb_spec (Z.of_nat (length (t0 ++ str "Device " ++ d ++ str " not configured"))) 1500) as [Hl|]; [|done].
  rewrite !length_app in Hl. simpl in Hl. lia.
Qed.

Lemma serialError_overflow_witness :
  exists w, xapSerialTx demo_ident (fun _ => WouldBlock) w = Undef OutOfBounds.
Proof.
  set (d := repeat 97 1401).
  set (m := [mkBlock (str "Serial.Send") [(str "port", d)]] : message).
  assert (Hm : msg_wf m).
  { repeat constructor; try (by apply text_wf_str); try done; try (by apply (bool_decide_eq_true_1 (_ ∉ _))). }
  exists (demo_serial m). apply (serialError_overflow demo_ident _ _ (msg_entries m) d).
  - exact (parsed_frame_rep m [0] [] Hm).
  - reflexivity.
  - reflexivity.
  - apply Nat.leb_le. reflexivity.
  - apply Nat.leb_le. reflexivity.
Defined.
