(* ===== verification/Livebox.v ===== *)
(** * The controller (xap-livebox/serial.c, livebox.c, ini.c)

    The program that owns the AVR board: inputs, relays, RF transmitter, LCD,
    one-wire sensors and I2C port expanders are BSC endpoints.  Lines from the
    AVR are split into words and change endpoints; commands to endpoints become
    lines to the AVR.  The state of the program is the application state of
    [Bsc]: the list of endpoints, their user data, the firmware version, the
    receive buffer and what was written to the AVR.  The contents of the INI file
    are a parameter.  The creation of endpoints from the INI file and the one-wire
    timeouts are in [Controller]. *)

From Stdlib Require Import SpecFloat.
From S2P Require Import Prelude UtList Strings Frame Wire Filter Timeout Xap MinIni Float Bsc Urf Termios.

(** ** State *)

Record tempSensor := mkSensor {
  lastSerialEvent : Z;
  romid : cstr;
  hysteresis : spec_float;
  offset : spec_float;
  sensor_label : option cstr;
  prevValue : cstr;
}.
Record ppeEndpoint := mkPPE { i2cAddr : Z; ppe_section : Z }.

(** [userData] of an endpoint *)
Inductive user_data := TempSensor (t : tempSensor) | Ppe (p : ppeEndpoint).

Record unassignedROMID := mkROMID { u_romid : cstr; temperature : cstr }.

(** The hooks of the endpoints. *)
Inductive lb_cmd := cmdRelay_cb | cmdLCD_cb | cmdRF_cb | cmdURF_cb | cmdPPEpin_cb | cmdPPEbyte_cb.
Inductive lb_info := infoEventBinary_cb | infoEvent1wire_cb.

(** The filter actions and the timeouts the controller registers itself. *)
Inductive lb_filter := rfXmit_cb | rfXmitPacked_cb.
Inductive lb_timeout := timeoutCheck1wire_cb | timeoutReport1wire_cb.
#[export] Instance lb_timeout_eq_dec : EqDecision lb_timeout.
Proof. solve_decision. Defined.

(** [cmdbuf]: the bytes of [cmd] below [pos]; [tx]: the strings written to the
    serial line; [tty]: the attributes set on it. *)
Record livebox := mkLivebox {
  endpointList : list addr;
  userData : gmap addr user_data;
  major_firmware : Z;
  minor_firmware : Z;
  gSerialfd : Z;
  cmdbuf : list Z;
  tx : list cstr;
  tty : list (Z * termios);
  unassignedROMIDList : list unassignedROMID;
}.

Abbreviation world := (bsc lb_cmd lb_info lb_filter lb_timeout livebox).
Abbreviation endpoint := (bscEndpoint lb_cmd lb_info).

Definition set_app (a : livebox) (w : world) : world :=
  mkBsc (endpoints w) (filters w) (timeouts w) (bframe w) (sent w) (id w) (next w) a.

Definition set_list (l : list addr) (a : livebox) : livebox :=
  mkLivebox l (userData a) (major_firmware a) (minor_firmware a) (gSerialfd a) (cmdbuf a) (tx a) (tty a) (unassignedROMIDList a).
Definition set_user (m : gmap addr user_data) (a : livebox) : livebox :=
  mkLivebox (endpointList a) m (major_firmware a) (minor_firmware a) (gSerialfd a) (cmdbuf a) (tx a) (tty a) (unassignedROMIDList a).
Definition set_firmware (mj mn : Z) (a : livebox) : livebox :=
  mkLivebox (endpointList a) (userData a) mj mn (gSerialfd a) (cmdbuf a) (tx a) (tty a) (unassignedROMIDList a).
Definition set_fd (fd : Z) (t : termios) (a : livebox) : livebox :=
  mkLivebox (endpointList a) (userData a) (major_firmware a) (minor_firmware a) fd (cmdbuf a) (tx a) (tty a ++ [(fd, t)]) (unassignedROMIDList a).
Definition set_cmdbuf (b : list Z) (a : livebox) : livebox :=
  mkLivebox (endpointList a) (userData a) (major_firmware a) (minor_firmware a) (gSerialfd a) b (tx a) (tty a) (unassignedROMIDList a).
Definition set_tx (t : list cstr) (a : livebox) : livebox :=
  mkLivebox (endpointList a) (userData a) (major_firmware a) (minor_firmware a) (gSerialfd a) (cmdbuf a) t (tty a) (unassignedROMIDList a).
Definition set_unassigned (l : list unassignedROMID) (a : livebox) : livebox :=
  mkLivebox (endpointList a) (userData a) (major_firmware a) (minor_firmware a) (gSerialfd a) (cmdbuf a) (tx a) (tty a) l.

Definition on_app (f : livebox -> livebox) (w : world) : world := set_app (f (app_state w)) w.

Definition firmwareMajor (w : world) : Z := major_firmware (app_state w).
Definition firmwareMinor (w : world) : Z := minor_firmware (app_state w).
Definition setFirmwareVersion (mj mn : Z) (w : world) : world := on_app (set_firmware mj mn) w.

Definition serialSend (buf : cstr) (w : world) : world :=
  if 0 <? gSerialfd (app_state w)
  then on_app (fun a => set_tx (tx a ++ [snprintf 128 ([10] ++ buf ++ [10])]) a) w
  else w.

(** ** Hooks *)

Section Hooks.
(** The contents of the INI file. *)
Context (inifile : option (list Z)).

(** [*e->displayText] is set in a block of 64 bytes. *)
Definition infoEventLabeled (p : addr) (prefix value : cstr) (w : world) : out (bool * world) :=
  e ← get_ep p w;
  let key := snprintf 30 (prefix ++ pstr (subaddr e) ++ str ".label") in
  let '(n, buf) := ini_gets (Some (name e)) (Some key) [] [] 64 inifile in
  let t := if 0 <? n then snprintf 64 (buf ++ [32] ++ value) else [] in
  Ok (true, put_ep p (with_display t e) w).

Definition infoEventBinary (p : addr) (clazz : cstr) (w : world) : out (bool * world) :=
  e ← get_ep p w;
  sts ← bscStateToString e;
  infoEventLabeled p (name e) sts w.

Definition cmdRelay (p : addr) (w : world) : out world :=
  e ← get_ep p w;
  sts ← bscStateToString e;
  Ok (serialSend (snprintf 30 (sts ++ [32] ++ pstr (subaddr e))) w).

Definition cmdLCD (p : addr) (w : world) : out world :=
  e ← get_ep p w;
  Ok (serialSend (snprintf 128 (str "lcd " ++ pstr (text e))) w).

Definition cmdRF (p : addr) (w : world) : out world :=
  e ← get_ep p w;
  sub ← of_opt NullDeref (subaddr e);
  i ← add_int (atoi sub) 4;
  sts ← bscStateToString e;
  Ok (serialSend (snprintf 30 (sts ++ [32] ++ fmt_d i)) w).

Definition cmdURF (p : addr) (w : world) : out world :=
  e ← get_ep p w;
  sts ← bscStateToString e;
  let relay_key := snprintf 10 (str "rf" ++ pstr (subaddr e) ++ str "." ++ sts) in
  let '(n, rf) := ini_gets (Some (str "rf")) (Some relay_key) [] [] 256 inifile in
  if negb (n =? 0) then Ok (serialSend (cat_to 256 (str "urf ") rf) w)
  else Ok (put_ep p (bscSetState BSC_STATE_UNKNOWN e) w).

(** The data of an expander's endpoint. *)
Definition ppe_data (p : addr) (w : world) : out ppeEndpoint :=
  match userData (app_state w) !! p with Some (Ppe d) => Ok d | _ => Undef NullDeref end.
Definition sensor_data (p : addr) (w : world) : out tempSensor :=
  match userData (app_state w) !! p with Some (TempSensor t) => Ok t | _ => Undef NullDeref end.

(** [strrchr(e->subaddr,'.')+1]; without a dot the pointer is invalid. *)
Definition cmdPPEpin (p : addr) (w : world) : out world :=
  e ← get_ep p w;
  sub ← of_opt NullDeref (subaddr e);
  dot ← of_opt NullDeref (strrchr sub 46);
  d ← ppe_data p w;
  let inv := if ep_state e =? BSC_STATE_ON then BSC_STATE_OFF else BSC_STATE_ON in
  Ok (serialSend (snprintf 32 (str "i2c P" ++ fmt_X 2 (i2cAddr d) ++ drop (S dot) sub ++ fmt_d inv)) w).

Definition cmdPPEbyte (p : addr) (w : world) : out world :=
  e ← get_ep p w;
  t ← of_opt NullDeref (text e);
  match t with
  | [c0; c1] =>
      if isxdigit c0 && isxdigit c1 then
        d ← ppe_data p w;
        Ok (serialSend (snprintf 32 (str "i2c B" ++ fmt_X 2 (i2cAddr d) ++ t)) w)
      else Ok w
  | _ => Ok w
  end.

Definition put_sensor (p : addr) (t : tempSensor) (w : world) : world :=
  on_app (fun a => set_user (<[p := TempSensor t]> (userData a)) a) w.

(** The reading of a sensor after calibration, and the endpoint with its text:
    [buf] has six bytes. *)
Definition calibrate (t : tempSensor) (txt : cstr) (e : endpoint) : spec_float * endpoint :=
  let new := to_float (atof txt) in
  if ftrue (offset t)
  then let new := fadd new (offset t) in (new, with_text (Some (snprintf 6 (fmt_f1 new))) e)
  else (new, e).

(** Is the reading to be reported? *)
Definition out_of_band (t : tempSensor) (new : spec_float) : bool :=
  let old := to_float (atof (prevValue t)) in
  flt (fadd old (hysteresis t)) new || flt new (fsub old (hysteresis t)).

Definition infoEvent1wire (p : addr) (clazz : cstr) (w : world) : out (bool * world) :=
  e ← get_ep p w;
  t ← sensor_data p w;
  txt ← of_opt NullDeref (text e);
  let '(new, e) := calibrate t txt e in
  if strcmp0 clazz BSC_INFO_CLASS || out_of_band t new || (last_report e =? 0) then
    let txt := pstr (text e) in
    let e := match sensor_label t with
             | Some l => with_display (snprintf 64 (l ++ [32] ++ txt)) e
             | None => e
             end in
    Ok (true, put_sensor p
      (mkSensor (lastSerialEvent t) (romid t) (hysteresis t) (offset t) (sensor_label t) (take 5 txt))
      (put_ep p e w))
  else Ok (false, put_ep p e w).

Definition run_cmd (c : lb_cmd) (p : addr) (w : world) : out world :=
  match c with
  | cmdRelay_cb => cmdRelay p w
  | cmdLCD_cb => cmdLCD p w
  | cmdRF_cb => cmdRF p w
  | cmdURF_cb => cmdURF p w
  | cmdPPEpin_cb => cmdPPEpin p w
  | cmdPPEbyte_cb => cmdPPEbyte p w
  end.

Definition run_info (i : lb_info) (p : addr) (clazz : cstr) (w : world) : out (bool * world) :=
  match i with
  | infoEventBinary_cb => infoEventBinary p clazz w
  | infoEvent1wire_cb => infoEvent1wire p clazz w
  end.

(** ** RF messages *)

Definition rf_value (k : string) (w : world) : out (option cstr) := xapGetValueF (bframe w) (str "rf") (Some (str k)).

Definition rfXmit (w : world) : out world :=
  pulseDef ← rf_value "pulsedef" w;
  b ← rf_value "burstcount" w; b ← of_opt NullDeref b;
  u ← rf_value "interburstDelay" w; u ← of_opt NullDeref u;
  let burst := u8 (atoi b) in
  let interburstUs := u32 (atoi u) in
  let interburstIter := u32 (interburstUs / 65535 + 1) in
  let interburstDelay := interburstUs / interburstIter in
  f ← rf_value "frames" w; f ← of_opt NullDeref f;
  let frames := u8 (atoi f) in
  hexStream ← rf_value "stream" w;
  Ok (serialSend (snprintf 256 (str "urf 01" ++ pstr pulseDef ++ fmt_x 2 burst ++ fmt_x 2 interburstIter ++
                    fmt_x 4 interburstDelay ++ fmt_x 2 frames ++ pstr hexStream)) w).

Definition rfXmitPacked (w : world) : out world :=
  d ← rf_value "data" w; d ← of_opt NullDeref d;
  Ok (serialSend (cat_to 256 (str "urf ") d) w).

(** ** Lines from the AVR *)

Definition serin_firmware_rev (argv : list cstr) (w : world) : out world :=
  v ← of_opt OutOfBounds (argv !! 1%nat);
  match strchr v 46 with
  | None => Ok (on_app (set_firmware (atoi v) 0) w)
  | Some dot => Ok (on_app (set_firmware (atoi (take dot v)) (atoi (drop (S dot) v))) w)
  end.

(** An endpoint takes a state and announces it. *)
Definition set_and_send (now s : Z) (p : addr) (w : world) : out world :=
  e ← get_ep p w;
  bscSendEvent run_info now p (put_ep p (bscSetState s e) w).

(** [for(i=0; i<4; i++)] *)
Fixpoint input_loop (n : nat) (i : Z) (now old new : Z) (w : world) : out world :=
  match n with
  | O => Ok w
  | S m =>
      let bit := i + 2 in
      w ← (if Z.testbit (Z.lxor old new) bit then
             e ← bscFindEndpoint (endpointList (app_state w)) (str "input") (Some [49 + i]) w;
             match e with
             | Some p => set_and_send now (if Z.testbit new bit then BSC_STATE_ON else BSC_STATE_OFF) p w
             | None => Ok w
             end
           else Ok w);
      input_loop m (i + 1) now old new w
  end.

Definition serin_input (now : Z) (argv : list cstr) (w : world) : out world :=
  o ← of_opt OutOfBounds (argv !! 1%nat);
  n ← of_opt OutOfBounds (argv !! 2%nat);
  input_loop 4 0 now (atoi o) (atoi n) w.

Fixpoint find_romid (l : list addr) (nm rid : cstr) (w : world) : out (option addr) :=
  match l with
  | [] => Ok None
  | p :: r =>
      e ← get_ep p w;
      if strcmp0 (name e) nm then
        t ← sensor_data p w;
        if strcmp0 (romid t) rid then Ok (Some p) else find_romid r nm rid w
      else find_romid r nm rid w
  end.

Definition findROMID (nm rid : cstr) (w : world) : out (option addr) := find_romid (endpointList (app_state w)) nm rid w.

(** The temperature of the first entry with the ROM id. *)
Fixpoint set_temperature (rid t : cstr) (l : list unassignedROMID) : list unassignedROMID :=
  match l with
  | [] => []
  | u :: r => if strcmp0 (u_romid u) rid then mkROMID (u_romid u) t :: r else u :: set_temperature rid t r
  end.

(** [romid] holds 19 bytes, [temperature] 6. *)
Definition note_unassigned (rid t : cstr) (l : list unassignedROMID) : list unassignedROMID :=
  if existsb (fun u => strcmp0 (u_romid u) rid) l then set_temperature rid (take 5 t) l
  else mkROMID (take 18 rid) (take 5 t) :: l.

Definition serin_1wire (now : Z) (argv : list cstr) (w : world) : out world :=
  a1 ← of_opt OutOfBounds (argv !! 1%nat);
  temp ← of_opt OutOfBounds (argv !! 2%nat);
  let rid := if (16 <? length a1)%nat then take 16 a1 else a1 in
  e ← (if 1 <? firmwareMajor w then findROMID (str "1wire") rid w
       else bscFindEndpoint (endpointList (app_state w)) (str "1wire") (Some a1) w);
  match e with
  | None => if 1 <? firmwareMajor w then Ok (on_app (fun a => set_unassigned (note_unassigned rid temp (unassignedROMIDList a)) a) w)
            else Ok w
  | Some p =>
      e ← get_ep p w;
      e ← bscSetText (Some temp) (bscSetState BSC_STATE_ON e);
      w ← bscSendEvent run_info now p (put_ep p e w);
      _ ← get_ep p w;
      t ← sensor_data p w;
      Ok (put_sensor p (mkSensor now (romid t) (hysteresis t) (offset t) (sensor_label t) (prevValue t)) w)
  end.

Fixpoint find_ppe (l : list addr) (ad : Z) (sub : option cstr) (w : world) : out (option addr) :=
  match l with
  | [] => Ok None
  | p :: r =>
      e ← get_ep p w;
      if strcmp0 (name e) (str "ppe") then
        d ← ppe_data p w;
        if i2cAddr d =? ad then
          match sub with
          | None => Ok (Some p)
          | Some s => a ← of_opt NullDeref (subaddr e); if strcmp0 a s then Ok (Some p) else find_ppe r ad sub w
          end
        else find_ppe r ad sub w
      else find_ppe r ad sub w
  end.

Definition findPPEendpoint (ad : Z) (sub : option cstr) (w : world) : out (option addr) :=
  find_ppe (endpointList (app_state w)) ad sub w.

(** [for(pin=0; pin<8; pin++)] *)
Fixpoint ppe_loop (n : nat) (pin now ad section oldi newi : Z) (w : world) : out world :=
  match n with
  | O => Ok w
  | S m =>
      w ← (if Z.testbit (Z.lxor oldi newi) pin then
             e ← findPPEendpoint ad (Some (snprintf 10 (fmt_d section ++ [46] ++ fmt_d pin))) w;
             p ← of_opt NullDeref e;
             set_and_send now (if Z.testbit newi pin then BSC_STATE_ON else BSC_STATE_OFF) p w
           else Ok w);
      ppe_loop m (pin + 1) now ad section oldi newi w
  end.

Definition serin_ppe (now : Z) (argv : list cstr) (w : world) : out world :=
  a1 ← of_opt OutOfBounds (argv !! 1%nat);
  a2 ← of_opt OutOfBounds (argv !! 2%nat);
  a3 ← of_opt OutOfBounds (argv !! 3%nat);
  let ad := atoi a1 in
  e ← findPPEendpoint ad None w;
  match e with
  | None => Ok w
  | Some p =>
      e ← get_ep p w;
      if type e =? BSC_STREAM then
        e ← bscSetText (Some a3) e;
        bscSendEvent run_info now p (put_ep p e w)
      else
        d ← ppe_data p w;
        ppe_loop 8 0 now ad (ppe_section d) (atoi a2) (atoi a3) w
  end.

(** The words of a command: every blank or comma ends one. *)
Definition stop (c : Z) : bool := isspace c || (c =? 44).

(** The [argc] words stored so far; [argv] has eight elements and the ninth is
    stored before the number is checked. *)
Fixpoint tokenize (fuel : nat) (s : cstr) (argv : list cstr) : out (list cstr) :=
  match fuel, s with
  | S f, _ :: _ =>
      if (length argv <? 8)%nat then
        let t := take_while (fun c => negb (stop c)) s in
        tokenize f (drop (S (length t)) s) (argv ++ [t])
      else Undef OutOfBounds
  | _, _ => Ok argv
  end.

(** The table [cmd]: names, minimal numbers of arguments, functions. *)
Definition dispatch (now : Z) (argv : list cstr) (w : world) : out world :=
  match argv with
  | [] => Ok w
  | c :: args =>
      let run (n : nat) (f : list cstr -> world -> out world) :=
        if (length args <? n)%nat then Ok w else f argv w in
      if strcmp0 c (str "input") then run 2%nat (serin_input now)
      else if strcmp0 c (str "1wire") then run 2%nat (serin_1wire now)
      else if strcmp0 c (str "i2c-ppe") then run 3%nat (serin_ppe now)
      else if strcmp0 c (str "rev") then run 1%nat serin_firmware_rev
      else Ok w
  end.

Definition processSerialCommand (now : Z) (a_cmd : cstr) (w : world) : out world :=
  if bool_decide (head a_cmd = Some 62) then Die
  else argv ← tokenize (length a_cmd) a_cmd []; dispatch now argv w.

(** One character; [cmd] has 128 bytes. *)
Definition input_char (now ch : Z) (w : world) : out world :=
  let b := cmdbuf (app_state w) in
  if (length b <? 128)%nat then
    if (ch =? 13) || (ch =? 10) then
      w ← (if (0 <? length b)%nat then processSerialCommand now (c_text b) w else Ok w);
      Ok (on_app (set_cmdbuf []) w)
    else Ok (on_app (set_cmdbuf (b ++ [ch])) w)
  else Undef OutOfBounds.

Fixpoint input_chars (now : Z) (data : list Z) (w : world) : out world :=
  match data with
  | [] => Ok w
  | ch :: r => w ← input_char now ch w; input_chars now r w
  end.

(** [data]: what [read] delivered, [None] for an error.  The result is the value
    of [read]. *)
Definition serialInputHandler (now : Z) (data : option (list Z)) (w : world) : out (Z * world) :=
  match data with
  | None => Ok (-1, w)
  | Some d => let d := take 128 d in w ← input_chars now d w; Ok (Z.of_nat (length d), w)
  end.

(** [while(inBytes == 0 && retries > 0)]; [reads]: the answers of [read]. *)
Fixpoint version_loop (retries k : nat) (now : Z) (reads : nat -> option (list Z)) (w : world) : out world :=
  match retries with
  | O => Ok w
  | S r =>
      '(n, w) ← serialInputHandler now (reads k) (serialSend (str "version") w);
      if n =? 0 then version_loop r (S k) now reads w else Ok w
  end.

Definition getFirmwareVersion (now : Z) (reads : nat -> option (list Z)) (w : world) : out world :=
  version_loop 3 0 now reads w.

(** [fd]: the result of [open]. *)
Definition setupSerialPort (fd baud now : Z) (reads : nat -> option (list Z)) (w : world) : out (Z * world) :=
  if fd <? 0 then Ok (-1, w)
  else
    let t := mkTermios (Z.lor IGNPAR (Z.lor IXON IXOFF)) (Z.lor baud (Z.lor CS8 (Z.lor CLOCAL CREAD))) in
    w ← getFirmwareVersion now reads (on_app (set_fd fd t) w);
    Ok (fd, w).

End Hooks.

(** ** Creation of endpoints *)

(** A new endpoint in [endpointList]. *)
Definition add_endpoint (n : string) (sub : option cstr) (dir typ : Z) (c : option lb_cmd) (i : option lb_info) (w : world)
    : out (addr * world) :=
  '(p, l, w) ← bscAddEndpoint (endpointList (app_state w)) (Some (str n)) sub dir typ c i w;
  Ok (p, on_app (set_list l) w).

Definition setup_i2c_ppe (ad : Z) (w : world) : world := serialSend (snprintf 10 (str "i2c M" ++ fmt_X 2 ad)) w.
Definition reset_i2c_ppe (w : world) : world := serialSend (str "i2c R") w.

(** [sscanf] with ["%x"] on at most four characters. *)
Definition hex_val (c : Z) : Z := if isdigit c then c - 48 else toupper c - 55.
Definition scan_hex (s : cstr) : option Z :=
  let s := skip_while isspace s in
  let '(neg, s) := match s with 45 :: r => (true, r) | 43 :: r => (false, r) | _ => (false, s) end in
  let s := match s with 48 :: x :: r => if (x =? 120) || (x =? 88) then r else s | _ => s end in
  match take_while isxdigit s with
  | [] => None
  | ds => let v := fold_left (fun a c => a * 16 + hex_val c) ds 0 in Some (if neg : bool then - v else v)
  end.

Section Ini.
Context (inifile : option (list Z)).

(** An endpoint of an expander, with the data they share. *)
Definition add_ppe (sub : cstr) (typ : Z) (c : lb_cmd) (ud : ppeEndpoint) (w : world) : out world :=
  '(p, w) ← add_endpoint "ppe" (Some (snprintf 30 sub)) BSC_OUTPUT typ (Some c) None w;
  Ok (on_app (fun a => set_user (<[p := Ppe ud]> (userData a)) a) w).

Fixpoint add_pins (n : nat) (pin section : Z) (ud : ppeEndpoint) (w : world) : out world :=
  match n with
  | O => Ok w
  | S m =>
      w ← add_ppe (fmt_d section ++ [46] ++ fmt_d pin) BSC_BINARY cmdPPEpin_cb ud w;
      add_pins m (pin + 1) section ud w
  end.

(** [section]: the name of the section; its first three characters are ["ppe"]. *)
Definition addPPEendpoints (section : cstr) (w : world) : out world :=
  let n := atoi (drop 3 section) in
  if (n <? 1) || (8 <? n) then Ok w
  else
    let '(k, s_addr) := ini_gets (Some section) (Some (str "address")) [] [] 5 inifile in
    if k =? 0 then Ok w
    else
      ad ← of_opt Uninitialised (scan_hex s_addr);
      if (ad <? 64) || (126 <? ad) || (Z.rem ad 2 =? 1) then Ok w
      else
        let '(k, mode) := ini_gets (Some section) (Some (str "mode")) [] [] 5 inifile in
        if k =? 0 then Ok w
        else
          let w := bscSetEndpointUID ((n - 1) * 8 + 32) w in
          let ud := mkPPE (u8 ad) (u8 n) in
          if strcasecmp0 mode (str "byte") then
            w ← add_ppe (fmt_d n) BSC_STREAM cmdPPEbyte_cb ud w;
            Ok (setup_i2c_ppe ad w)
          else if strcasecmp0 mode (str "pin") then
            w ← add_pins 8 0 n ud w;
            Ok (setup_i2c_ppe ad w)
          else Ok w.

Definition firmwareVersionOverride (w : world) : world :=
  let '(_, b) := ini_gets (Some (str "hardware")) (Some (str "major")) [] [] 3 inifile in
  let mj := atoi b in
  let '(_, b) := ini_gets (Some (str "hardware")) (Some (str "minor")) [] [] 3 inifile in
  let mn := atoi b in
  if negb (mj =? 0) then setFirmwareVersion mj mn w else w.

End Ini.

(** The endpoints of the board, in [main]. *)
Fixpoint board_loop (n : nat) (nm : string) (i : Z) (dir : Z) (c : option lb_cmd) (w : world) : out world :=
  match n with
  | O => Ok w
  | S m =>
      '(_, w) ← add_endpoint nm (Some [48 + i]) dir BSC_BINARY c (Some infoEventBinary_cb) w;
      board_loop m nm (i + 1) dir c w
  end.

Definition board_endpoints (w : world) : out (addr * world) :=
  '(lcd, w) ← add_endpoint "lcd" None BSC_OUTPUT BSC_STREAM (Some cmdLCD_cb) None w;
  w ← board_loop 4 "input" 1 BSC_INPUT None w;
  w ← board_loop 4 "relay" 1 BSC_OUTPUT (Some cmdRelay_cb) (bscSetEndpointUID 96 w);
  Ok (lcd, w).

(** * Properties *)

(** ** Words *)

Fixpoint join (ws : list cstr) : cstr :=
  match ws with
  | [] => []
  | [t] => t
  | t :: r => t ++ 32 :: join r
  end.

Definition word (t : cstr) : Prop := t <> [] /\ Forall (fun c => stop c = false) t.

Lemma word_taken t rest :
  word t -> match rest with c :: _ => stop c = true | [] => True end -> take_while (fun c => negb (stop c)) (t ++ rest) = t.
Proof.
  intros [_ Ht] Hr. apply take_while_app_stop; [|by destruct rest; [|rewrite Hr]].
  eapply Forall_impl; [exact Ht|]. by intros c ->.
Qed.

Lemma tokenize_join ws argv f :
  Forall word ws -> (length (join ws) <= f)%nat ->
  tokenize f (join ws) argv = if (length argv + length ws <=? 8)%nat then Ok (argv ++ ws)
                              else if (length ws =? 0)%nat then Ok argv else Undef OutOfBounds.
Proof.
  intros Hw. revert argv f. induction Hw as [|t ws Ht Hw IH]; intros argv f Hf.
  - cbn [join length]. rewrite Nat.eqb_refl, app_nil_r. destruct f; by destruct (_ <=? _)%nat.
  - pose proof Ht as [Hne _]. assert (Hcase : join (t :: ws) = t ++ match ws with [] => [] | _ => 32 :: join ws end).
    { destruct ws; [by rewrite app_nil_r|done]. }
    rewrite Hcase in *. set (rest := match ws with [] => [] | _ => 32 :: join ws end) in *.
    destruct t as [|c t]; [done|]. destruct f as [|f]; [simpl in Hf; lia|]. cbn [app tokenize].
    change (c :: t ++ rest) with ((c :: t) ++ rest). rewrite word_taken by (done || by destruct ws).
    assert (Hd : drop (S (length (c :: t))) ((c :: t) ++ rest) = join ws).
    { subst rest. rewrite drop_app_ge by lia. replace (S (length (c :: t)) - length (c :: t))%nat with 1%nat by lia. by destruct ws. }
    rewrite Hd. cbn [length]. destruct (Nat.ltb_spec (length argv) 8).
    + rewrite IH; [|cbn [app length] in Hf; rewrite length_app in Hf; subst rest; destruct ws; cbn [join length] in *; lia].
      rewrite length_app. cbn [length]. replace (length argv + 1 + length ws)%nat with (length argv + S (length ws))%nat by lia.
      destruct (Nat.leb_spec (length argv + S (length ws)) 8); [by rewrite <- app_assoc|].
      cbn [Nat.eqb]. destruct (Nat.eqb_spec (length ws) 0); [lia|done].
    + destruct (Nat.leb_spec (length argv + S (length ws)) 8); [lia|]. done.
Qed.

Lemma word_fmt_d n : word (fmt_d n).
Proof.
  assert (Hd : forall m, 0 <= m -> Forall (fun c => stop c = false) (map dec_char (digits 10 m))).
  { intros m Hm. eapply Forall_impl; [by apply digits_isdigit|]. intros c Hc. unfold isdigit in Hc. unfold stop, isspace. lia. }
  unfold fmt_d. destruct (Z.ltb_spec n 0).
  - split; [done|]. constructor; [done|]. apply Hd. lia.
  - split; [|by apply Hd]. pose proof (digits_nonempty n). by destruct (digits 10 n).
Qed.

Lemma word_str (s : string) : bool_decide (str s <> [] /\ Forall (fun c => stop c = false) (str s)) = true -> word (str s).
Proof. by intros H%bool_decide_eq_true_1. Qed.

(** ** Announcements *)

Section Announce.
Context (ini : option (list Z)).

(** The display text of an endpoint of the board. *)
Definition label_of (e : endpoint) : cstr :=
  let '(n, buf) := ini_gets (Some (name e)) (Some (snprintf 30 (name e ++ pstr (subaddr e) ++ str ".label"))) [] [] 64 ini in
  if 0 <? n then snprintf 64 (buf ++ [32] ++ state_text (ep_state e)) else [].

Definition labeled (e : endpoint) : endpoint := with_display (label_of e) e.

(** A binary endpoint of the board. *)
Definition board_ep (e : endpoint) : Prop :=
  fields_ok e /\ type e = BSC_BINARY /\ infoEvent e = Some infoEventBinary_cb /\
  (length (pstr (ep_uid e)) + length (pstr (ep_source e)) <= 1200)%nat.

Definition event_of (e : endpoint) : cstr := print_msg (info_msg (labeled e) BSC_EVENT_CLASS).

Lemma label_length e : (length (label_of e) <= 63)%nat.
Proof.
  unfold label_of. destruct (ini_gets _ _ _ _ _ _) as [n buf]. destruct (0 <? n); [|simpl; lia].
  unfold snprintf. rewrite length_take. lia.
Qed.

Lemma event_fits e : board_ep e -> (length (event_of e) <= 1499)%nat.
Proof.
  intros (Hok & Hty & _ & Hlen). pose proof (label_length e) as Hl.
  set (e' := mkEndpoint (CB := lb_cmd) (IB := lb_info) (name e) (subaddr e) (ep_id e) (io e) (type e) (ep_state e) (text e) (cmd e) None
    (Some (label_of e)) (last_report e) (ep_uid e) (ep_source e)).
  change (event_of e) with (print_msg (info_msg e' BSC_EVENT_CLASS)). apply binary_event_fits.
  split; [done|]. split; [done|]. split; [done|]. subst e'. cbn [ep_uid ep_source displayText]. change (pstr (Some (label_of e))) with (label_of e). lia.
Qed.

(** The world after an endpoint took a state and announced it. *)
Definition announced (now : Z) (p : addr) (e : endpoint) (w : world) : world :=
  mkBsc (<[p := with_report now (labeled e)]> (endpoints w)) (filters w) (timeouts w) (bframe w) (sent w ++ [event_of e])
    (id w) (next w) (app_state w).

Lemma board_ep_state e s : board_ep e -> 0 <= s <= 3 -> board_ep (with_state s e).
Proof. intros ([? ?] & ? & ? & ?) Hs. unfold board_ep, fields_ok. cbn. auto 10. Qed.

Lemma infoEventBinary_eq p e clazz (w : world) :
  endpoints w !! p = Some e -> fields_ok e -> infoEventBinary ini p clazz w = Ok (true, put_ep p (labeled e) w).
Proof.
  intros He Hok. unfold infoEventBinary, infoEventLabeled, get_ep. rewrite He. cbn [of_opt]. rewrite !bind_Ok.
  destruct (strings_ok e Hok) as [_ ->]. rewrite !bind_Ok. unfold labeled, label_of. by destruct (ini_gets _ _ _ _ _ _).
Qed.

Lemma send_board now p e (w : world) :
  endpoints w !! p = Some e -> board_ep e -> bscSendEvent (run_info ini) now p w = Ok (announced now p e w).
Proof.
  intros He Hb. pose proof Hb as (Hok & Hty & Hi & _). pose proof (event_fits e Hb) as Hf.
  unfold bscSendEvent, bscSendInfoEvent, get_ep. rewrite He. cbn [of_opt]. rewrite bind_Ok, Hi. cbn [run_info].
  rewrite (infoEventBinary_eq p e) by done. rewrite bind_Ok, (info_event_eq now p _ _ (labeled e)).
  - unfold reported, announced, put_ep, set_endpoints. cbn [endpoints filters timeouts bframe sent id next app_state].
    rewrite insert_insert_eq. fold (event_of e). rewrite take_ge by lia. done.
  - unfold put_ep, set_endpoints. cbn [endpoints]. apply lookup_insert_eq.
  - exact Hok.
  - fold (event_of e). lia.
Qed.

Lemma set_and_send_eq now (b : bool) p e (w : world) :
  endpoints w !! p = Some e -> board_ep e ->
  set_and_send ini now (if b then BSC_STATE_ON else BSC_STATE_OFF) p w
  = Ok (announced now p (with_state (Z.b2z b) e) w).
Proof.
  intros He Hb. unfold set_and_send, get_ep. rewrite He. cbn [of_opt]. rewrite bind_Ok.
  assert (Hs : bscSetState (if b then BSC_STATE_ON else BSC_STATE_OFF) e = with_state (Z.b2z b) e) by (by destruct b).
  rewrite Hs, (send_board now p (with_state (Z.b2z b) e)).
  - unfold announced, put_ep, set_endpoints. cbn [endpoints filters timeouts bframe sent id next app_state]. by rewrite insert_insert_eq.
  - unfold put_ep, set_endpoints. cbn [endpoints]. apply lookup_insert_eq.
  - apply board_ep_state; [done|]. destruct b; simpl; lia.
Qed.

(** ** Inputs *)

(** Announcements do not move endpoints. *)
Lemma find_announced l n sub now p e e0 (w : world) :
  endpoints w !! p = Some e0 -> name e = name e0 -> subaddr e = subaddr e0 ->
  bscFindEndpoint l n sub (announced now p e w) = bscFindEndpoint l n sub w.
Proof.
  intros He Hn Hs. induction l as [|q l IH]; [done|]. cbn [bscFindEndpoint]. unfold get_ep, announced. cbn [endpoints].
  destruct (decide (q = p)) as [->|Hne].
  - rewrite lookup_insert_eq, He. cbn [of_opt]. rewrite !bind_Ok. cbn [name subaddr labeled with_report with_display].
    rewrite Hn, Hs, <- IH. done.
  - rewrite lookup_insert_ne by done. destruct (endpoints w !! q); [|done]. cbn [of_opt]. rewrite !bind_Ok, <- IH. done.
Qed.

Lemma find_sub l n sub p (w : world) :
  bscFindEndpoint l n (Some sub) w = Ok (Some p) -> exists e, endpoints w !! p = Some e /\ subaddr e = Some sub.
Proof.
  induction l as [|q l IH]; [done|]. cbn [bscFindEndpoint]. intros H. inv_bind H. apply of_opt_Ok in Ha.
  destruct (strcmp0 (name a) n && _) eqn:Hm; [|by apply IH].
  apply Ok_inj in H. injection H as ->. exists a. split; [done|]. apply andb_true_iff in Hm as [_ Hm].
  destruct (subaddr a) as [s|]; [|done]. apply strcmp0_spec in Hm. by subst.
Qed.

(** Input [i] of the board is the endpoint [e] at [p]. *)
Definition input_at (w : world) (i : Z) (p : addr) (e : endpoint) : Prop :=
  bscFindEndpoint (endpointList (app_state w)) (str "input") (Some [49 + i]) w = Ok (Some p) /\
  endpoints w !! p = Some e /\ board_ep e.

Lemma input_at_distinct w i j p q e f : input_at w i p e -> input_at w j q f -> i <> j -> p <> q.
Proof.
  intros (H1 & He & _) (H2 & Hf & _) Hne ->. apply find_sub in H1 as (e1 & He1 & Hs1). apply find_sub in H2 as (e2 & He2 & Hs2).
  assert (e1 = e2) as -> by congruence. rewrite Hs1 in Hs2. injection Hs2. lia.
Qed.

Lemma input_at_announced w i j p q e f now s :
  input_at w i p e -> input_at w j q f -> i <> j -> input_at (announced now p (with_state s e) w) j q f.
Proof.
  intros Hi Hj Hne. pose proof (input_at_distinct w i j p q e f Hi Hj Hne) as Hpq. destruct Hi as (_ & He & _), Hj as (Hq & Hf & Hb).
  split; [|split; [|done]].
  - change (app_state (announced now p (with_state s e) w)) with (app_state w). by rewrite (find_announced _ _ _ _ _ _ e).
  - unfold announced. cbn [endpoints]. by rewrite lookup_insert_ne.
Qed.

Section Inputs.
Context (now old new : Z) (P : Z -> addr) (E : Z -> endpoint).

Definition input_changed (i : Z) : bool := Z.testbit (Z.lxor old new) (i + 2).
Definition input_new (i : Z) : endpoint := with_state (Z.b2z (Z.testbit new (i + 2))) (E i).

(** The endpoints and the messages after the inputs of a list. *)
Definition inputs_events (l : list Z) : list cstr :=
  concat (map (fun i => if input_changed i then [event_of (input_new i)] else []) l).

Definition inputs_after (l : list Z) (m : gmap addr endpoint) : gmap addr endpoint :=
  fold_left (fun m i => if input_changed i then <[P i := with_report now (labeled (input_new i))]> m else m) l m.

Lemma input_loop_eq n i (w : world) :
  (forall j, i <= j < i + Z.of_nat n -> input_at w j (P j) (E j)) ->
  input_loop ini n i now old new w
  = Ok (mkBsc (inputs_after (seqZ i (Z.of_nat n)) (endpoints w)) (filters w) (timeouts w) (bframe w)
          (sent w ++ inputs_events (seqZ i (Z.of_nat n))) (id w) (next w) (app_state w)).
Proof.
  revert i w. induction n as [|n IH]; intros i w Hin.
  - cbn. rewrite app_nil_r. by destruct w.
  - rewrite seqZ_cons by lia. replace (Z.pred (Z.of_nat (S n))) with (Z.of_nat n) by lia. replace (Z.succ i) with (i + 1) by lia.
    cbn [input_loop]. unfold inputs_events, inputs_after. cbn [map concat fold_left]. fold (input_changed i).
    destruct (input_changed i); [|rewrite bind_Ok; apply IH; intros j Hj; apply Hin; lia].
    pose proof (Hin i ltac:(lia)) as Hi. pose proof Hi as (Hf & He & Hb). rewrite Hf, bind_Ok.
    rewrite (set_and_send_eq now _ (P i) (E i)), bind_Ok by done. rewrite IH.
    + unfold announced at 1 2 3 4 5 6 7 8. cbn [endpoints filters timeouts bframe sent id next app_state]. by rewrite <- app_assoc.
    + intros j Hj. apply (input_at_announced w i j (P i) (P j) (E i)); [done|apply Hin; lia|lia].
Qed.

End Inputs.
End Announce.

(** ** Reads *)

Section Reads.
Context (ini : option (list Z)) (now : Z).

(** The line becomes readable several times. *)
Fixpoint input_reads (reads : list (list Z)) (w : world) : out world :=
  match reads with
  | [] => Ok w
  | d :: r => '(_, w) ← serialInputHandler ini now (Some d) w; input_reads r w
  end.

(** The commands of a list of lines, one after the other; empty ones are
    skipped.  The buffer holds the line while it is executed. *)
Fixpoint avr_lines (ls : list cstr) (w : world) : out world :=
  match ls with
  | [] => Ok w
  | l :: r =>
      w ← match l with
          | [] => Ok w
          | _ => processSerialCommand ini now l (on_app (set_cmdbuf l) w)
          end;
      avr_lines r (on_app (set_cmdbuf []) w)
  end.

Lemma input_chars_app d1 d2 w :
  input_chars ini now (d1 ++ d2) w = (w ← input_chars ini now d1 w; input_chars ini now d2 w).
Proof.
  revert w. induction d1 as [|c d1 IH]; intros w; [done|]. cbn [app input_chars]. rewrite bind_assoc.
  destruct (input_char ini now c w); [|done|done]. cbn. apply IH.
Qed.

Lemma input_reads_chars reads w :
  Forall (fun d => (length d <= 128)%nat) reads -> input_reads reads w = input_chars ini now (concat reads) w.
Proof.
  intros Hr. revert w. induction Hr as [|d reads Hd _ IH]; intros w; [done|]. cbn [input_reads concat].
  unfold serialInputHandler. rewrite take_ge by done. rewrite input_chars_app.
  destruct (input_chars ini now d w); [|done|done]. cbn. apply IH.
Qed.

Definition avr_char (c : Z) : Prop := c <> 0 /\ c <> 10 /\ c <> 13.

Lemma on_app_twice f g w : on_app f (on_app g w) = on_app (fun a => f (g a)) w.
Proof. reflexivity. Qed.

(** The characters of a line collect in [cmd]. *)
Lemma input_collect l w :
  Forall avr_char l -> (length (cmdbuf (app_state w)) + length l <= 128)%nat ->
  input_chars ini now l w = Ok (on_app (set_cmdbuf (cmdbuf (app_state w) ++ l)) w).
Proof.
  intros Hl. revert w. induction Hl as [|c l (H0 & H10 & H13) _ IH]; intros w Hlen.
  - cbn. rewrite app_nil_r. by destruct w as [? ? ? ? ? ? ? []].
  - cbn [input_chars length] in *. unfold input_char. destruct (Nat.ltb_spec (length (cmdbuf (app_state w))) 128); [|lia].
    destruct (Z.eqb_spec c 13), (Z.eqb_spec c 10); try done. cbn [orb]. rewrite bind_Ok, IH.
    + cbn [cmdbuf set_cmdbuf on_app app_state set_app]. rewrite <- app_assoc. done.
    + cbn. rewrite length_app. simpl. lia.
Qed.

Lemma c_text_avr l : Forall avr_char l -> c_text l = l.
Proof.
  intros Hl. apply c_text_id. intros H0. rewrite Forall_forall in Hl. by destruct (Hl 0 H0).
Qed.

Lemma input_lines ls w :
  Forall (fun l => Forall avr_char l /\ (length l <= 127)%nat) ls -> cmdbuf (app_state w) = [] ->
  input_chars ini now (file_text ls) w = avr_lines ls w.
Proof.
  intros Hls. revert w. induction Hls as [|l ls [Hl Hlen] _ IH]; intros w Hb; [done|].
  unfold file_text. cbn [map concat avr_lines]. rewrite input_chars_app, input_chars_app, input_collect by (done || rewrite Hb; simpl; lia).
  rewrite bind_Ok, Hb. cbn [app input_chars]. unfold input_char. cbn [cmdbuf set_cmdbuf on_app app_state set_app].
  destruct (Nat.ltb_spec (length l) 128); [|lia]. cbn [orb Z.eqb Pos.eqb]. rewrite c_text_avr by done.
  destruct l as [|c l].
  - cbn [length Nat.ltb Nat.leb]. rewrite !bind_Ok. rewrite <- IH by done. unfold file_text. done.
  - cbn [length Nat.ltb Nat.leb]. fold (on_app (set_cmdbuf (c :: l)) w).
    destruct (processSerialCommand ini now (c :: l) (on_app (set_cmdbuf (c :: l)) w)) as [w'| |]; [|done|done].
    rewrite !bind_Ok. rewrite <- IH by done. unfold file_text. done.
Qed.

End Reads.

(** ** Examples *)

Definition demo_input (sub : string) (i : string) : endpoint :=
  mkEndpoint (str "input") (Some (str sub)) (str i) BSC_INPUT BSC_BINARY BSC_STATE_UNKNOWN None None (Some infoEventBinary_cb)
    None 0 (Some (str "FF00DB01")) (Some (str "dbzoo.livebox.Controller:input")).

Definition demo_livebox : livebox := mkLivebox [4; 3; 2; 1]%positive ∅ 1 0 5 [] [] [] [].
Definition demo_world : world :=
  mkBsc (<[1%positive := demo_input "1" "01"]> (<[2%positive := demo_input "2" "02"]> (<[3%positive := demo_input "3" "03"]>
    {[4%positive := demo_input "4" "04"]}))) [] [] (load_packet []) [] 5 5 demo_livebox.
Definition demo_addr (i : Z) : addr := Z.to_pos (i + 1).
Definition demo_eps (i : Z) : endpoint :=
  if i =? 0 then demo_input "1" "01" else if i =? 1 then demo_input "2" "02" else if i =? 2 then demo_input "3" "03" else demo_input "4" "04".

(** * Theorems *)

(** C16.  The AVR's report of its inputs: on the line ["input o n"] every input whose
    bit (2 to 5) differs between [o] and [n] takes the new value and announces it
    with one event, in the order of the inputs; the others, and all other
    endpoints, are left as they are. *)
Theorem input_line_spec (ini : option (list Z)) (now old new : Z)
    (P : Z -> addr) (E : Z -> endpoint) (w : world) :
  int_range old -> int_range new -> (forall i, 0 <= i < 4 -> input_at w i (P i) (E i)) ->
  exists w', processSerialCommand ini now (join [str "input"; fmt_d old; fmt_d new]) w = Ok w' /\
    sent w' = sent w ++ inputs_events ini old new E [0; 1; 2; 3] /\ app_state w' = app_state w /\
    (forall i, 0 <= i < 4 -> endpoints w' !! P i =
       Some (if input_changed old new i then with_report now (labeled ini (input_new new E i)) else E i)) /\
    (forall q, (forall i, 0 <= i < 4 -> q <> P i) -> endpoints w' !! q = endpoints w !! q).
Proof.
  intros Ho Hn Hin. unfold processSerialCommand. rewrite bool_decide_eq_false_2 by done.
  rewrite tokenize_join; [|repeat constructor; try apply word_fmt_d; by apply word_str|done].
  cbn [length Nat.add Nat.leb app]. rewrite bind_Ok. unfold dispatch. rewrite strcmp0_refl. cbn [length Nat.ltb Nat.leb].
  unfold serin_input. cbn [lookup list_lookup of_opt]. rewrite !bind_Ok, !atoi_fmt_d by done.
  rewrite (input_loop_eq ini now old new P E 4 0 w) by (intros j Hj; apply Hin; lia).
  eexists. split; [reflexivity|]. cbn [sent app_state endpoints]. split; [done|]. split; [done|].
  change (seqZ 0 (Z.of_nat 4)) with [0; 1; 2; 3]. unfold inputs_after. cbn [fold_left].
  assert (Hd : forall i j, 0 <= i < 4 -> 0 <= j < 4 -> i <> j -> P i <> P j).
  { intros i j Hi Hj Hne. by apply (input_at_distinct w i j (P i) (P j) (E i) (E j)); [apply Hin|apply Hin|]. }
  assert (He : forall i, 0 <= i < 4 -> endpoints w !! P i = Some (E i)) by (intros i Hi; by apply Hin).
  split.
  - intros i Hi. assert (i = 0 \/ i = 1 \/ i = 2 \/ i = 3) as [->|[->|[->| ->]]] by lia;
      destruct (input_changed old new 0), (input_changed old new 1), (input_changed old new 2), (input_changed old new 3);
      repeat first [rewrite lookup_insert_eq | rewrite lookup_insert_ne by (apply Hd; lia)]; by rewrite ?He by lia.
  - intros q Hq. destruct (input_changed old new 0), (input_changed old new 1), (input_changed old new 2), (input_changed old new 3);
      repeat (rewrite lookup_insert_ne by (intros <-; eapply Hq; [|reflexivity]; lia)); done.
Qed.

Lemma input_line_spec_witness :
  exists w', processSerialCommand None 100 (join [str "input"; fmt_d 4; fmt_d 8]) demo_world = Ok w' /\
    (ep_state <$> endpoints w' !! 1%positive) = Some BSC_STATE_OFF /\ (ep_state <$> endpoints w' !! 2%positive) = Some BSC_STATE_ON /\
    length (sent w') = 2%nat.
Proof.
  destruct (input_line_spec None 100 4 8 demo_addr demo_eps demo_world) as (w' & Hp & Hs & _ & He & _).
  - unfold int_range, INT_MIN, INT_MAX. lia.
  - unfold int_range, INT_MIN, INT_MAX. lia.
  - intros i Hi. assert (i = 0 \/ i = 1 \/ i = 2 \/ i = 3) as [->|[->|[->| ->]]] by lia;
      (split; [reflexivity|split; [reflexivity|]]); repeat split; try (cbn; unfold BSC_INPUT, BSC_STATE_UNKNOWN; lia);
      apply Nat.leb_le; reflexivity.
  - exists w'. split; [exact Hp|]. split; [|split].
    + pose proof (He 0 ltac:(lia)) as H0. change (demo_addr 0) with 1%positive in H0. rewrite H0. reflexivity.
    + pose proof (He 1 ltac:(lia)) as H1. change (demo_addr 1) with 2%positive in H1. rewrite H1. reflexivity.
    + rewrite Hs. unfold inputs_events. cbn [map concat]. reflexivity.
Defined.

(** However the AVR's lines of up to 127 characters are cut into reads of up to
    128 bytes, they are executed one by one, in order, each as a whole. *)
Theorem serialInputHandler_lines (ini : option (list Z)) (now : Z)
    (reads : list (list Z)) (ls : list cstr) (w : world) :
  Forall (fun d => (length d <= 128)%nat) reads -> concat reads = file_text ls ->
  Forall (fun l => Forall avr_char l /\ (length l <= 127)%nat) ls -> cmdbuf (app_state w) = [] ->
  input_reads ini now reads w = avr_lines ini now ls w.
Proof. intros Hr Hc Hl Hb. rewrite input_reads_chars, Hc by done. by apply input_lines. Qed.

Lemma serialInputHandler_lines_witness :
  exists w', input_reads None 100 [str "re"; str "v 2."; str "5" ++ [10]] demo_world = Ok w' /\
    firmwareMajor w' = 2 /\ firmwareMinor w' = 5.
Proof.
  rewrite (serialInputHandler_lines None 100 [str "re"; str "v 2."; str "5" ++ [10]] [str "rev 2.5"] demo_world).
  - eexists. split; [reflexivity|]. split; reflexivity.
  - repeat constructor; apply Nat.leb_le; reflexivity.
  - reflexivity.
  - repeat constructor; try done; apply Nat.leb_le; reflexivity.
  - reflexivity.
Defined.

(** A line of 128 characters or more makes [serialInputHandler] write behind the
    128 bytes of [cmd]. *)
Theorem serialInputHandler_overflow (ini : option (list Z)) (now : Z)
    (reads : list (list Z)) (l : cstr) (c : Z) (rest : list Z) (w : world) :
  Forall (fun d => (length d <= 128)%nat) reads -> concat reads = l ++ c :: rest -> Forall avr_char l -> length l = 128%nat ->
  cmdbuf (app_state w) = [] -> input_reads ini now reads w = Undef OutOfBounds.
Proof.
  intros Hr Hc Hl Hlen Hb. rewrite input_reads_chars, Hc by done. rewrite input_chars_app, input_collect by (done || rewrite Hb, Hlen; simpl; lia).
  rewrite bind_Ok, Hb. cbn [app input_chars]. unfold input_char. cbn [cmdbuf set_cmdbuf on_app app_state set_app]. by rewrite Hlen.
Qed.

Lemma serialInputHandler_overflow_witness :
  input_reads None 100 [repeat 65 128; [10]] demo_world = Undef OutOfBounds.
Proof.
  apply (serialInputHandler_overflow None 100 [repeat 65 128; [10]] (repeat 65 128) 10 [] demo_world).
  - repeat constructor; apply Nat.leb_le; reflexivity.
  - reflexivity.
  - repeat constructor; done.
  - reflexivity.
  - reflexivity.
Defined.

(** A command of nine words or more makes [processSerialCommand] store behind
    the eight elements of [argv]: the number is checked after the store. *)
Theorem processSerialCommand_overflow (ini : option (list Z)) (now : Z)
    (ws : list cstr) (w : world) :
  Forall word ws -> (9 <= length ws)%nat -> head (join ws) <> Some 62 ->
  processSerialCommand ini now (join ws) w = Undef OutOfBounds.
Proof.
  intros Hw Hlen Hp. unfold processSerialCommand. rewrite bool_decide_eq_false_2 by done. rewrite tokenize_join by done.
  cbn [length Nat.add]. destruct (Nat.leb_spec (length ws) 8); [lia|]. destruct (Nat.eqb_spec (length ws) 0); [lia|]. done.
Qed.

Lemma processSerialCommand_overflow_witness :
  processSerialCommand None 100 (str "a b c d e f g h i") demo_world = Undef OutOfBounds.
Proof.
  apply (processSerialCommand_overflow None 100
    [str "a"; str "b"; str "c"; str "d"; str "e"; str "f"; str "g"; str "h"; str "i"] demo_world).
  - repeat constructor; done.
  - apply Nat.leb_le. reflexivity.
  - done.
Defined.

(** [serialSend] writes a line of up to 125 characters between two line ends;
    of a longer one it writes the first 126 characters and no line end, although
    the commands for the RF transmitter may be 255 characters long. *)
Theorem serialSend_spec (buf : cstr) (w : world) :
  0 < gSerialfd (app_state w) ->
  tx (app_state (serialSend buf w)) = tx (app_state w) ++
    [if (length buf <=? 125)%nat then [10] ++ buf ++ [10] else [10] ++ take 126 buf].
Proof.
  intros Hfd. unfold serialSend. destruct (Z.ltb_spec 0 (gSerialfd (app_state w))); [|lia]. cbn. do 2 f_equal.
  unfold snprintf. cbn [Nat.sub]. destruct (Nat.leb_spec (length buf) 125).
  - rewrite take_ge; [done|]. cbn [length app]. rewrite length_app. simpl. lia.
  - cbn [app take]. f_equal. by rewrite take_app_le by lia.
Qed.

Lemma serialSend_spec_witness :
  tx (app_state (serialSend (str "report") demo_world)) = [line "" ++ line "report"] /\
  tx (app_state (serialSend (repeat 48 200) demo_world)) = [[10] ++ repeat 48 126].
Proof.
  split.
  - rewrite (serialSend_spec (str "report") demo_world); [reflexivity|cbn; lia].
  - rewrite (serialSend_spec (repeat 48 200) demo_world); [reflexivity|cbn; lia].
Defined.
