(* ===== verification/Controller.v ===== *)
(** * The controller's endpoints (xap-livebox/ini.c, livebox.c)

    The creation of endpoints from the INI file (one-wire sensors, RF devices,
    port expanders), the reload of the one-wire sensors, the one-wire timeouts,
    and the start of the program, on the state of [Livebox].  The theorems: the
    reports of a sensor and its calibration, that a reload leaves no filter or
    timeout of a freed endpoint behind, and what the limits of the INI file do. *)

From Stdlib Require Import SpecFloat.
From S2P Require Import Prelude UtList Strings Frame Wire Filter Timeout Xap MinIni Float Bsc Urf Termios Livebox.

#[export] Instance bsc_timeout_cb_eq_dec {TB} `{EqDecision TB} : EqDecision (bsc_timeout_cb TB).
Proof. solve_decision. Defined.

(** ** One-wire timeouts *)

(** [lastSerialEvent + interval] *)
Definition timeoutCheck1wire (now interval : Z) (ud : option addr) (w : world) : out world :=
  p ← of_opt NullDeref ud;
  e ← get_ep p w;
  t ← sensor_data p w;
  limit ← add_int (lastSerialEvent t) interval;
  if limit <? now
  then e ← bscSetText (Some (str "?")) (bscSetState BSC_STATE_UNKNOWN e); Ok (put_ep p e w)
  else Ok w.

Definition timeoutReport1wire (w : world) : world :=
  if (firmwareMajor w =? 1) && (firmwareMinor w =? 0) then serialSend (str "report") w
  else serialSend (str "report 1wire") w.

Definition run_timeout (now : Z) (c : lb_timeout) (interval : Z) (ud : option addr) (w : world) : out world :=
  match c with
  | timeoutCheck1wire_cb => timeoutCheck1wire now interval ud w
  | timeoutReport1wire_cb => Ok (timeoutReport1wire w)
  end.

Definition run_filter (c : lb_filter) (ud : option addr) (w : world) : out world :=
  match c with rfXmit_cb => rfXmit w | rfXmitPacked_cb => rfXmitPacked w end.

(** A new block of [malloc] for a timeout or a filter action. *)
Definition add_timeout (c : lb_timeout) (ival : Z) (ud : option addr) (w : world) : out world :=
  l ← xapAddTimeoutAction (next w) (app_timeout c) ival ud (timeouts w);
  Ok (mkBsc (endpoints w) (filters w) l (bframe w) (sent w) (id w) (Pos.succ (next w)) (app_state w)).

Definition add_filter (c : lb_filter) (f : list xAPFilter) (w : world) : world :=
  mkBsc (endpoints w) (xapAddFilterAction (next w) (app_filter c) f None (filters w)) (timeouts w) (bframe w) (sent w)
    (id w) (Pos.succ (next w)) (app_state w).

Inductive add_mode := IMMEDIATE | DELAYED.

Section Ini.
(** The contents of the INI file and the identity of the program. *)
Context (inifile : option (list Z)) (x : xAPIdent).

(** ** One-wire sensors *)

Definition sensor_key (i : Z) (what : string) : cstr := snprintf 30 (str "sensor" ++ fmt_d i ++ str what).
Definition sensor_value (i : Z) (what : string) (default : cstr) (size : Z) : cstr :=
  snd (ini_gets (Some (str "1wire")) (Some (sensor_key i what)) default [] size inifile).

(** The rounds of the loop over the sensors; [t]: the timeout in minutes. *)
Fixpoint sensor_loop (n : nat) (i t : Z) (mode : add_mode) (w : world) : out world :=
  match n with
  | O => Ok w
  | S m =>
      let rid := take 16 (sensor_value i ".romid" [] 19) in
      if (1 <? firmwareMajor w) && (length rid <? 16)%nat then sensor_loop m (i + 1) t mode w
      else
        '(p, w) ← add_endpoint "1wire" (Some (snprintf 30 (fmt_d i))) BSC_INPUT BSC_STREAM None (Some infoEvent1wire_cb) w;
        let h := to_float (atof (sensor_value i ".hysteresis" (str "0") 30)) in
        let o := to_float (atof (sensor_value i ".offset" (str "0") 30)) in
        let l := sensor_value i ".label" [] 30 in
        let s := mkSensor 0 (if 1 <? firmwareMajor w then rid else []) (if flt fzero h then h else fzero) o
                   (match l with [] => None | _ => Some l end) [] in
        let w := put_sensor p s w in
        w ← (if 0 <? t then ival ← mul_int t 60; add_timeout timeoutCheck1wire_cb ival (Some p) w else Ok w);
        w ← match mode with IMMEDIATE => bscAddEndpointFilter x p 120 w | DELAYED => Ok w end;
        sensor_loop m (i + 1) t mode w
  end.

(** The number of sensors asked for, at most [maxDevices]. *)
Definition sensor_count (w : world) : Z :=
  Z.min (ini_getl (Some (str "1wire")) (Some (str "devices")) (-1) inifile) (if 1 <? firmwareMajor w then 31 else 15).

Definition addOneWireIniEndpoints (mode : add_mode) (w : world) : out (Z * world) :=
  let n := sensor_count w in
  let w := bscSetEndpointUID 128 w in
  let t := ini_getl (Some (str "1wire")) (Some (str "timeout")) (-1) inifile in
  w ← sensor_loop (Z.to_nat n) 1 t mode w;
  w ← (if 0 <? t then ival ← mul_int t 60; ival ← add_int ival (-10); add_timeout timeoutReport1wire_cb ival None w else Ok w);
  Ok (n, w).

(** ** Reload *)

(** The body of the loop for a one-wire endpoint. *)
Definition del_sensor (p : addr) (w : world) : out world :=
  let w := on_app (fun a => set_list (filter (fun q => q <> p) (endpointList a)) a) w in
  w ← match xapFindTimeoutByUserData (Some p) (timeouts w) with
      | Some cb => '(_, l) ← xapDelTimeoutAction (tc_addr cb) (timeouts w); Ok (set_timeouts l w)
      | None => Ok w
      end;
  w ← bscDelEndpoint p w;
  _ ← sensor_data p w;
  Ok (on_app (fun a => set_user (delete p (userData a)) a) w).

(** [LL_FOREACH_SAFE(endpointList, e, tmp)]: the body removes [e] only. *)
Fixpoint del_sensors (l : list addr) (w : world) : out world :=
  match l with
  | [] => Ok w
  | p :: r =>
      e ← get_ep p w;
      w ← (if strcmp0 (name e) (str "1wire") then del_sensor p w else Ok w);
      del_sensors r w
  end.

Definition resetOneWireEndpoints (w : world) : out world :=
  let w := if 1 <? firmwareMajor w then on_app (set_unassigned []) w else w in
  let w := serialSend (str "1wirereset") w in
  w ← del_sensors (endpointList (app_state w)) w;
  '(_, l) ← xapDelTimeoutActionByFunc (app_timeout timeoutReport1wire_cb) (timeouts w);
  '(n, w) ← addOneWireIniEndpoints IMMEDIATE (set_timeouts l w);
  Ok (if 0 <? n then timeoutReport1wire w else w).

(** ** RF devices *)

(** The code of a device in one state is written to the AVR. *)
Definition rf_code (section : cstr) (i j : Z) (w : world) : world :=
  let key := snprintf 30 (str "rf" ++ fmt_d i ++ [46] ++ (if j =? 0 then str "off" else str "on")) in
  let '(n, rf) := ini_gets (Some section) (Some key) [] [] 20 inifile in
  if n =? 0 then w
  else serialSend (snprintf 40 (str "rf " ++ fmt_X 2 (i + 4) ++ fmt_d j ++ rf)) w.

(** [for(i = 1; i <= devices; i++)], single RF transmitter *)
Fixpoint rf_loop (n : nat) (i : Z) (section : cstr) (w : world) : out world :=
  match n with
  | O => Ok w
  | S m =>
      '(_, w) ← add_endpoint "rf" (Some (snprintf 30 (fmt_d i))) BSC_OUTPUT BSC_BINARY (Some cmdRF_cb) (Some infoEventBinary_cb) w;
      rf_loop m (i + 1) section (rf_code section i 1 (rf_code section i 0 w))
  end.

(** Universal RF transmitter: here [buff] has three bytes. *)
Fixpoint urf_loop (n : nat) (i : Z) (w : world) : out world :=
  match n with
  | O => Ok w
  | S m =>
      '(_, w) ← add_endpoint "rf" (Some (snprintf 3 (fmt_d i))) BSC_OUTPUT BSC_BINARY (Some cmdURF_cb) (Some infoEventBinary_cb) w;
      urf_loop m (i + 1) w
  end.

(** The limits the source computes are stored in a variable it does not use. *)
Definition rf_devices (section : cstr) : nat :=
  Z.to_nat (ini_getl (Some section) (Some (str "devices")) (-1) inifile).

(** ** The INI file *)

(** One section; the delays are not modelled. *)
Definition ini_section (section : cstr) (w : world) : out world :=
  if strncmp0 3 (str "ppe") section then addPPEendpoints inifile section w
  else if strcmp0 (str "1wire") section then '(_, w) ← addOneWireIniEndpoints DELAYED w; Ok w
  else if (firmwareMajor w =? 1) && strcmp0 (str "rf") section then
    rf_loop (rf_devices section) 1 section (bscSetEndpointUID 160 w)
  else if (1 <? firmwareMajor w) && strcmp0 (str "rf") section then
    urf_loop (rf_devices section) 1 (bscSetEndpointUID 160 w)
  else Ok w.

(** [for (s = 0; ini_getsection(s, ...) > 0; s++)]: a file has fewer sections
    than characters. *)
Fixpoint section_loop (fuel : nat) (s : Z) (w : world) : out world :=
  match fuel with
  | O => Ok w
  | S f =>
      let '(n, section) := ini_getsection s [] 30 inifile in
      if 0 <? n then w ← ini_section section w; section_loop f (s + 1) w else Ok w
  end.

Definition addIniEndpoints (w : world) : out world :=
  section_loop (S (length (default [] inifile))) 0 (reset_i2c_ppe (firmwareVersionOverride inifile w)).

(** ** Start *)

Definition rf_xmit_filter (keys : list string) : list xAPFilter :=
  fold_left (fun f k => xapAddFilter f (str "rf") (str k) XAP_FILTER_ANY) keys
    (xapAddFilter (xapAddFilter [] (str "xap-header") (str "target") (source x)) (str "xap-header") (str "class") (str "rf.xmit")).

(** [main] between the set-up of the serial port and the main loop. *)
Definition controller_setup (now : Z) (w : world) : out world :=
  '(lcd, w) ← board_endpoints w;
  w ← addIniEndpoints w;
  w ← bscAddEndpointFilterList x (endpointList (app_state w)) 120 w;
  let w := if 1 <? firmwareMajor w then
             add_filter rfXmitPacked_cb (rf_xmit_filter ["data"])
               (add_filter rfXmit_cb (rf_xmit_filter ["pulsedef"; "burstcount"; "interburstdelay"; "frames"; "stream"]) w)
           else w in
  e ← get_ep lcd w;
  e ← bscSetText (Some (ip x)) e;
  w ← bscSendCmdEvent (run_cmd inifile) (run_info inifile) now lcd (put_ep lcd e w);
  Ok (serialSend (str "report") w).

(** What the main loop does with a message and with the clock. *)
Definition on_message (now : Z) (w : world) : out world :=
  bsc_filterDispatch (run_cmd inifile) (run_info inifile) run_filter now w.
Definition on_clock (now : Z) (w : world) : out world :=
  bsc_timeoutDispatch (run_info inifile) (run_timeout now) now w.

End Ini.
