(* ===== verification/RfLink.v ===== *)
(** * Transmitter and receiver (xap-livebox/livebox.c, xap-urfrx/urfdecoder.c)

    [rfXmit] turns the parts of an [rf.xmit] message into the packed description
    that the AVR sends; the receiver's decoder reads the same format.  The
    theorem composes the two: what the controller writes for a description is
    decoded to that description, with the gap between bursts rounded as the
    16-bit field requires. *)

From S2P Require Import Prelude UtList Strings Frame Wire Filter Timeout Xap MinIni Bsc Urf Termios Livebox.

(** ** The case of digits does not matter *)

Definition same_digit (c d : Z) : Prop := hexToByte c = hexToByte d.

(** Results of reading two texts that differ in the case of digits. *)
Definition same_result {T} (r r' : out (option (T * cstr))) : Prop :=
  match r, r' with
  | Ok (Some (v, s)), Ok (Some (v', s')) => v = v' /\ Forall2 same_digit s s'
  | Ok None, Ok None => True
  | Undef u, Undef u' => u = u'
  | Die, Die => True
  | _, _ => False
  end.

Definition case_blind {T} (m : reader T) : Prop := forall s s', Forall2 same_digit s s' -> same_result (m s) (m s').

Lemma blind_bind {T U} (m : reader T) (f : T -> reader U) :
  case_blind m -> (forall v, case_blind (f v)) -> case_blind (m ≫= f).
Proof.
  intros Hm Hf s s' Hs. specialize (Hm s s' Hs). unfold mbind, reader_bind.
  destruct (m s) as [[[v t]|]| |], (m s') as [[[v' t']|]| |]; simpl in Hm |- *; try done.
  destruct Hm as [-> Ht]. by apply Hf.
Qed.

Lemma blind_ret {T} (v : T) : case_blind (mret v).
Proof. by intros s s' Hs. Qed.

Lemma blind_lift {T} (m : out T) : case_blind (lift m).
Proof. intros s s' Hs. unfold lift. by destruct m. Qed.

Lemma blind_readByte : case_blind readByte.
Proof.
  intros s s' Hs. unfold readByte, mbind, reader_bind. destruct Hs as [|c d s s' Hc Hs]; [done|].
  destruct Hs as [|c' d' s s' Hc' Hs]; [done|]. cbn. split; [|done]. by rewrite Hc, Hc'.
Qed.

Create HintDb blind.
#[export] Hint Resolve blind_bind blind_ret blind_lift blind_readByte : blind.

Lemma blind_readWord : case_blind readWord.
Proof. unfold readWord. eauto with blind. Qed.

Lemma blind_read_pulses n : case_blind (read_pulses n).
Proof. induction n; cbn [read_pulses]; auto 8 using blind_readWord with blind. Qed.

Lemma blind_frames f tab pulse fpb i d pos : case_blind (frames_loop f tab pulse fpb i d pos).
Proof.
  revert i d pos. induction f as [|f IH]; intros [|i] d pos; cbn [frames_loop]; try apply blind_ret.
  apply blind_bind; [apply blind_readByte|]. intros b. apply blind_bind; [apply blind_lift|]. intros [[i' d'] pos']. apply IH.
Qed.

Lemma blind_init : case_blind initDurationState.
Proof.
  unfold initDurationState. apply blind_bind; [apply blind_readByte|intros _]. apply blind_bind; [apply blind_readByte|intros bits].
  destruct (_ || _ || _); [apply blind_ret|]. cbv zeta. apply blind_bind; [apply blind_read_pulses|intros pulse].
  apply blind_bind; [apply blind_readByte|intros _]. apply blind_bind; [apply blind_readByte|intros rep].
  apply blind_bind; [apply blind_readWord|intros delay]. apply blind_bind; [apply blind_readByte|intros frames].
  apply blind_bind; [apply blind_frames|]. intros [d pos]. auto 6 with blind.
Qed.

Lemma init_case e st s s' : Forall2 same_digit s s' -> initURFContext e s st = initURFContext e s' st.
Proof.
  intros Hs. unfold initURFContext. pose proof (blind_init s s' Hs) as H.
  destruct (initDurationState s) as [[[[[d n]|] t]|]| |], (initDurationState s') as [[[[[d' n']|] t']|]| |]; simpl in H |- *;
    naive_solver.
Qed.

(** ** Printed fields *)

Lemma same_digit_refl s : Forall2 same_digit s s.
Proof. induction s; by constructor. Qed.

Lemma digits_rev_fuel f g n :
  0 <= n < 16 ^ Z.of_nat f -> n < 16 ^ Z.of_nat g -> (0 < f)%nat -> (0 < g)%nat -> digits_rev f 16 n = digits_rev g 16 n.
Proof.
  revert g n. induction f as [|f IH]; intros [|g] n Hn Hg Hf Hg0; [lia|lia|lia|]. cbn [digits_rev].
  destruct (Z.ltb_spec n 16); [done|]. f_equal. rewrite Nat2Z.inj_succ, Z.pow_succ_r in Hn, Hg by lia. apply IH.
  - split; [apply Z.div_pos; lia|]. apply Z.div_lt_upper_bound; lia.
  - apply Z.div_lt_upper_bound; lia.
  - destruct f; [simpl in Hn; lia|lia].
  - destruct g; [simpl in Hg; lia|lia].
Qed.

Lemma digits_step n : 16 <= n -> digits 16 n = digits 16 (n / 16) ++ [n mod 16].
Proof.
  intros Hn. unfold digits at 1. cbn [digits_rev]. destruct (Z.ltb_spec n 16); [lia|]. cbn [rev]. unfold digits. do 2 f_equal.
  pose proof (Z.div_le_lower_bound n 16 1 ltac:(lia) ltac:(lia)).
  assert (Hl : 4 <= Z.log2 n) by (apply (Z.log2_le_mono 16 n); lia). destruct (Z.to_nat (Z.log2 n)) as [|k] eqn:E; [lia|].
  apply digits_rev_fuel; [split; [lia|]|apply digits_fuel; lia|lia|lia].
  apply Z.div_lt_upper_bound; [lia|]. pose proof (digits_fuel 16 n ltac:(lia) ltac:(lia)) as Hf. rewrite E in Hf.
  rewrite Nat2Z.inj_succ, Z.pow_succ_r in Hf by lia. lia.
Qed.

(** The last [k] digits. *)
Fixpoint nibbles (h : Z -> Z) (k : nat) (n : Z) : cstr :=
  match k with O => [] | S m => nibbles h m (n / 16) ++ [h (n mod 16)] end.

Lemma nibbles_0 h k : h 0 = 48 -> nibbles h k 0 = replicate k 48.
Proof.
  intros Hh. induction k as [|k IH]; [done|]. cbn [nibbles]. rewrite Z.div_0_l, Z.mod_0_l, IH, Hh by lia.
  by rewrite <- replicate_cons_app.
Qed.

Lemma pad_nibbles h k n : h 0 = 48 -> 0 <= n < 16 ^ Z.of_nat (S k) -> pad0 (S k) (map h (digits 16 n)) = nibbles h (S k) n.
Proof.
  intros Hh. revert n. induction k as [|k IH]; intros n Hn.
  - unfold digits. cbn [digits_rev]. destruct (Z.ltb_spec n 16); [|simpl in Hn; lia]. cbn. by rewrite Z.mod_small by lia.
  - cbn [nibbles]. destruct (Z.ltb_spec n 16) as [Hlt|Hge].
    + rewrite (Z.div_small n 16), (Z.mod_small n 16) by lia.
      assert (Hd : digits 16 n = [n]) by (unfold digits; cbn [digits_rev]; destruct (Z.ltb_spec n 16); [done|lia]).
      rewrite Hd. unfold pad0. cbn [map length Nat.sub].
      change (nibbles h k (0 / 16) ++ [h (0 mod 16)]) with (nibbles h (S k) 0). by rewrite nibbles_0.
    + rewrite digits_step, map_app by lia. cbn [map].
      change (nibbles h k (n / 16 / 16) ++ [h (n / 16 mod 16)]) with (nibbles h (S k) (n / 16)).
      rewrite <- IH.
      * unfold pad0. rewrite length_app. cbn [length]. rewrite app_assoc. do 3 f_equal. lia.
      * rewrite Nat2Z.inj_succ, Z.pow_succ_r in Hn by lia. split; [apply Z.div_pos; lia|]. apply Z.div_lt_upper_bound; lia.
Qed.

Lemma fmt_x_nibbles k n : 0 <= n < 16 ^ Z.of_nat (S k) -> n < 2 ^ 32 -> fmt_x (S k) n = nibbles hex_char_lo (S k) n.
Proof. intros Hn H32. unfold fmt_x. rewrite u32_small by lia. by apply pad_nibbles. Qed.

Lemma digit_case d : 0 <= d < 16 -> same_digit (hex_char_lo d) (hex_char_up d).
Proof.
  intros Hd. assert (Hall : forallb (fun n => hexToByte (hex_char_lo (Z.of_nat n)) =? hexToByte (hex_char_up (Z.of_nat n))) (seq 0 16) = true)
    by reflexivity.
  rewrite forallb_forall in Hall. specialize (Hall (Z.to_nat d) ltac:(apply in_seq; lia)). rewrite Z2Nat.id in Hall by lia.
  by apply Z.eqb_eq in Hall.
Qed.

Lemma nibbles_case k n : Forall2 same_digit (nibbles hex_char_lo k n) (nibbles hex_char_up k n).
Proof.
  revert n. induction k as [|k IH]; intros n; cbn [nibbles]; [done|]. apply Forall2_app; [apply IH|].
  constructor; [|done]. apply digit_case, Z.mod_pos_bound. lia.
Qed.

Lemma fmt_x2_digits b : is_byte b -> Forall2 same_digit (fmt_x 2 b) (hex_byte b).
Proof.
  unfold is_byte. intros Hb. rewrite fmt_x_nibbles by (simpl; lia).
  replace (hex_byte b) with (nibbles hex_char_up 2 b); [apply nibbles_case|]. unfold hex_byte. cbn [nibbles app].
  rewrite (Z.mod_small (b / 16)); [done|]. split; [apply Z.div_pos; lia|]. apply Z.div_lt_upper_bound; lia.
Qed.

Lemma fmt_x4_digits n : 0 <= n < 65536 -> Forall2 same_digit (fmt_x 4 n) (hex_word n).
Proof.
  intros Hn. rewrite fmt_x_nibbles by (simpl; lia).
  replace (hex_word n) with (nibbles hex_char_up 4 n); [apply nibbles_case|]. unfold hex_word, hex_byte. cbn [nibbles app].
  assert (H1 : n / 16 / 16 / 16 mod 16 = n / 256 / 16) by (Z.to_euclidean_division_equations; lia).
  assert (H2 : n / 16 / 16 mod 16 = n / 256 mod 16) by (Z.to_euclidean_division_equations; lia).
  assert (H3 : n / 16 mod 16 = n mod 256 / 16) by (Z.to_euclidean_division_equations; lia).
  assert (H4 : n mod 16 = n mod 256 mod 16) by (Z.to_euclidean_division_equations; lia).
  by rewrite H1, H2, H3, H4.
Qed.

(** ** The composition *)

(** The description with a gap of [us] microseconds: a number of delays of 16
    bits. *)
Definition with_gap (us : Z) (d : urf_desc) : urf_desc :=
  let n := us / 65535 + 1 in mkDesc 1 (d_bits d) (d_pulses d) (d_bursts d) n (us / n) (d_codes d).

(** The fields of the message. *)
Definition pulse_field (d : urf_desc) : cstr :=
  hex_byte (d_bits d) ++ concat (map (fun p => hex_word (fst p) ++ hex_word (snd p)) (d_pulses d)).
Definition stream_field (d : urf_desc) : cstr :=
  concat (map hex_byte (pack_bytes (length (d_codes d)) (d_bits d) (Z.to_nat (8 / d_bits d)) (d_codes d))).

Definition rf_entry (es : list entry) (k : string) (v : cstr) : Prop := entries_lookup es (str "rf") (Some (str k)) = Some v.

Lemma gap_bounds us : 0 <= us < 255 * 65535 ->
  1 <= us / 65535 + 1 <= 255 /\ 0 <= us / (us / 65535 + 1) < 65536 /\
  (us / 65535 + 1) * (us / (us / 65535 + 1)) <= us < (us / 65535 + 1) * (us / (us / 65535 + 1)) + (us / 65535 + 1).
Proof.
  intros Hu. pose proof (Z.div_mod us 65535 ltac:(lia)) as Hd. pose proof (Z.mod_pos_bound us 65535 ltac:(lia)).
  set (n := us / 65535) in *. assert (0 <= n < 255) by lia. pose proof (Z.div_mod us (n + 1) ltac:(lia)) as Hq.
  pose proof (Z.mod_pos_bound us (n + 1) ltac:(lia)). split; [lia|]. split; [|lia].
  split; [apply Z.div_pos; lia|]. apply Z.div_lt_upper_bound; lia.
Qed.

Lemma with_gap_wf us d : 0 <= us < 255 * 65535 -> desc_wf d -> desc_wf (with_gap us d).
Proof.
  intros Hu (_ & Hb & Hl & Hp & Hbu & _ & _ & Hn & Hc). destruct (gap_bounds us Hu) as (H1 & H2 & _).
  unfold desc_wf, with_gap. cbn. unfold is_byte in *. repeat (split; [first [done|lia]|]). done.
Qed.

(** C12.  An [rf.xmit] message with the fields of a description and a gap of up to 16.7
    seconds is passed to the AVR as one line, if this fits its 125 characters;
    the text of that line is, to the decoder of the receiver, the description
    with the gap divided into [n] equal delays, which is less than [n]
    microseconds short of the one asked for. *)
Theorem rfXmit_decodes (es : list entry) (d : urf_desc) (us : Z) (e : addr) (st : Z) (w : world) :
  frame_rep (bframe w) es -> desc_wf d -> 0 <= us < 255 * 65535 -> 0 < gSerialfd (app_state w) ->
  rf_entry es "pulsedef" (pulse_field d) -> rf_entry es "burstcount" (fmt_d (d_bursts d)) ->
  rf_entry es "interburstDelay" (fmt_d us) -> rf_entry es "frames" (fmt_d (Z.of_nat (length (d_codes d)))) ->
  rf_entry es "stream" (stream_field d) -> (length (print_desc (with_gap us d)) <= 121)%nat ->
  exists w' t, rfXmit w = Ok w' /\ tx (app_state w') = tx (app_state w) ++ [[10] ++ str "urf " ++ t ++ [10]] /\
    initURFContext e t st
    = Ok (Some (mkURF e st (somes (durations (with_gap us d))) (Z.of_nat (2 * length (d_codes d) + 2)) 0)) /\
    d_repeat (with_gap us d) * d_delay (with_gap us d) <= us
      < d_repeat (with_gap us d) * d_delay (with_gap us d) + d_repeat (with_gap us d).
Proof.
  intros Hf Hd Hu Hfd Hp Hb Hi Hn Hs Hlen. pose proof (with_gap_wf us d Hu Hd) as Hwf.
  destruct (gap_bounds us Hu) as (Hit & Hdl & Hgap). pose proof Hd as (_ & _ & _ & _ & Hbu & _ & _ & Hcl & _).
  unfold is_byte in Hbu. set (n := us / 65535 + 1) in *.
  set (t := str "01" ++ pulse_field d ++ fmt_x 2 (d_bursts d) ++ fmt_x 2 n ++ fmt_x 4 (us / n) ++
            fmt_x 2 (Z.of_nat (length (d_codes d))) ++ stream_field d).
  assert (Ht : Forall2 same_digit t (print_desc (with_gap us d))).
  { subst t. unfold print_desc, with_gap. cbn [d_version d_bits d_pulses d_bursts d_repeat d_delay d_codes]. fold n.
    change (hex_byte 1) with (str "01"). unfold pulse_field. rewrite <- !app_assoc.
    do 3 (apply Forall2_app; [apply same_digit_refl|]).
    do 2 (apply Forall2_app; [apply fmt_x2_digits; unfold is_byte; lia|]). apply Forall2_app; [apply fmt_x4_digits; lia|].
    apply Forall2_app; [apply fmt_x2_digits; unfold is_byte; lia|apply same_digit_refl]. }
  assert (HL : (length t <= 121)%nat) by (by rewrite (Forall2_length _ _ _ Ht)).
  assert (Hrf : rfXmit w = Ok (serialSend (str "urf " ++ t) w)).
  { unfold rfXmit, rf_value. rewrite !(get_value_rep _ es) by done. rewrite Hp, Hb, Hi, Hn, Hs. cbn [of_opt pstr].
    repeat (rewrite bind_Ok; cbn [of_opt pstr]). rewrite !atoi_fmt_d by (unfold int_range, INT_MIN, INT_MAX; lia).
    rewrite (u32_small us), !u8_small by lia. fold n. rewrite (u32_small n) by lia. do 2 f_equal. unfold snprintf.
    change (str "urf 01") with (str "urf " ++ str "01"). rewrite <- app_assoc.
    fold t. apply take_ge. rewrite length_app. change (length (str "urf ")) with 4%nat. lia. }
  exists (serialSend (str "urf " ++ t) w), t. split; [done|]. split; [|split; [|exact Hgap]].
  - unfold serialSend. destruct (Z.ltb_spec 0 (gSerialfd (app_state w))); [|lia]. cbn [on_app app_state set_app tx set_tx].
    do 2 f_equal. unfold snprintf. rewrite <- app_assoc. apply take_ge. clearbody t. rewrite !length_app. change (length (str "urf ")) with 4%nat. cbn [length]. lia.
  - rewrite (init_case e st t _ Ht). unfold initURFContext. pose proof (init_print (with_gap us d) [] Hwf) as Hpr.
    rewrite app_nil_r in Hpr. by rewrite Hpr.
Qed.

Definition demo_rf : urf_desc := mkDesc 1 1 [(378, 1079); (1120, 352)] 4 1 10000 [0; 1; 0; 0; 0; 0; 0; 0; 0; 0; 0; 1].

Definition rf_msg : message :=
  [mkBlock (str "rf") [(str "pulsedef", pulse_field demo_rf); (str "burstcount", fmt_d 4); (str "interburstdelay", fmt_d 100000);
     (str "frames", fmt_d 12); (str "stream", stream_field demo_rf)]].

Lemma rf_msg_wf : msg_wf rf_msg.
Proof.
  assert (H : rf_msg = [mkBlock (str "rf") [(str "pulsedef", str "01017A043704600160"); (str "burstcount", str "4");
    (str "interburstdelay", str "100000"); (str "frames", str "12"); (str "stream", str "4010")]]) by (vm_compute; reflexivity).
  rewrite H. repeat constructor; try (by apply text_wf_str); try (by apply (bool_decide_eq_true_1 (_ ∉ _))); done.
Qed.

Lemma rfXmit_decodes_witness :
  exists w' t c, rfXmit (mkBsc ∅ [] [] (parsed_frame rf_msg [0] []) [] 0 1 demo_livebox) = Ok w' /\
    initURFContext 1 t 1 = Ok (Some c) /\ durState c !! 0%nat = Some (Some (-100000)).
Proof.
  destruct (rfXmit_decodes (msg_entries rf_msg) demo_rf 100000 1 1 (mkBsc ∅ [] [] (parsed_frame rf_msg [0] []) [] 0 1 demo_livebox))
    as (w' & t & H1 & _ & H2 & _).
  - exact (parsed_frame_rep rf_msg [0] [] rf_msg_wf).
  - apply (bool_decide_eq_true_1 _). reflexivity.
  - lia.
  - reflexivity.
  - reflexivity.
  - reflexivity.
  - reflexivity.
  - reflexivity.
  - reflexivity.
  - apply Nat.leb_le. reflexivity.
  - eexists w', t, _. split; [exact H1|]. split; [exact H2|]. reflexivity.
Defined.
