(* ===== verification/Server.v ===== *)
(** * Requests of the web pages (xap-livebox/server.c)

    The web server asks the controller over a local socket: the state of an
    endpoint, actions on endpoints, the firmware version, the unassigned sensors,
    text for the LCD, raw commands for the AVR.  The command handler, which
    splits a request with [strtok] and answers with a string, is modelled.  The theorems: a list of
    actions executes each in order, and the answers and failures of the other
    requests, on every input. *)

From S2P Require Import Prelude UtList Strings Frame Wire Filter Timeout Xap MinIni Bsc Urf Termios Livebox Controller.

(** [strtok]: the token and what follows its separator. *)
Definition strtok (sep : Z) (s : cstr) : option (cstr * cstr) :=
  match skip_while (fun c => c =? sep) s with
  | [] => None
  | c :: r => let t := take_while (fun c => negb (c =? sep)) (c :: r) in Some (t, drop (S (length t)) (c :: r))
  end.

(** [strtok(NULL, "")]: the rest, NULL when nothing is left. *)
Definition strtok_rest (s : cstr) : option cstr := match s with [] => None | _ => Some s end.

Section Server.
Context (inifile : option (list Z)) (x : xAPIdent).

Definition find_endpoint (name_ : option cstr) (sub : option cstr) (w : world) : out (option addr) :=
  match name_, endpointList (app_state w) with
  | _, [] => Ok None
  | None, _ => Undef NullDeref
  | Some n, l => bscFindEndpoint l n sub w
  end.

(** The string answered; NULL is dereferenced by the caller.  [args] is NULL
    when the request has none, and [strtok] then finds nothing. *)
Definition msg_query (args : option cstr) (w : world) : out (option cstr) :=
  let t := args ≫= strtok 46 in
  let '(name_, sub) := match t with Some (n, r) => (Some n, strtok_rest r) | None => (None, None) end in
  e ← find_endpoint name_ sub w;
  match e with
  | Some p =>
      e ← get_ep p w;
      if type e =? BSC_BINARY then s ← bscStateToString e; Ok (Some s) else Ok (text e)
  | None => Ok (Some (str "bad endpoint"))
  end.

(** The parts of [name.subaddr,state]. *)
Definition action_parts (tuple : cstr) : option (cstr * option cstr * option cstr) :=
  match strtok 46 tuple with
  | None => None
  | Some (n, r) =>
      match strtok 44 r with
      | None => Some (n, None, None)
      | Some (sub, r) => Some (n, Some sub, fst <$> strtok 32 r)
      end
  end.

(** The loop over the tuples of a request; a round uses up a character. *)
Fixpoint action_loop (fuel : nat) (now : Z) (arg : cstr) (w : world) : out (cstr * world) :=
  match fuel, strtok 32 arg with
  | S f, Some (tuple, rest) =>
      match action_parts tuple with
      | Some (n, sub, Some state) =>
          e ← find_endpoint (Some n) sub w;
          w ← match e with
              | Some p =>
                  e ← get_ep p w;
                  bscSendCmdEvent (run_cmd inifile) (run_info inifile) now p
                    (put_ep p (bscSetState (bscDecodeState (Some state)) e) w)
              | None => Ok w
              end;
          action_loop f now rest w
      | _ => Ok (str "malformed argument", w)
      end
  | _, _ => Ok (str "ok", w)
  end.

(** Without an argument [strtok_r] starts from an uninitialised pointer. *)
Definition msg_action (now : Z) (arg : option cstr) (w : world) : out (cstr * world) :=
  match arg with
  | None => Undef Uninitialised
  | Some a => action_loop (length a) now a w
  end.

Definition rom_row (u : unassignedROMID) : cstr :=
  str "<tr><td>" ++ u_romid u ++ str "</td><td>" ++ temperature u ++ str "</td></tr>".

(** The [snprintf] calls into 1024 bytes. *)
Fixpoint rom_rows (l : list unassignedROMID) (t : cstr) : out cstr :=
  match l with
  | [] => Ok t
  | u :: r => t ← sb_append 1024 t (rom_row u); rom_rows r t
  end.

Definition rom_title : cstr := str "Unassigned 1wire ROM ID's<table><tr><th>ROM ID</th><th>Temp</th></tr>".

Definition buildListOfUnassignedROMS (w : world) : out cstr :=
  match unassignedROMIDList (app_state w) with
  | [] => Ok (str "All 1wire ROM ID's assigned")
  | l => t ← rom_rows l rom_title; Ok (cat_to 1024 (sb_content 1024 t) (str "</table>"))
  end.

(** The answer, [None] for a NULL or indeterminate pointer, and the state. *)
Definition msg_handler (now : Z) (a_cmd : cstr) (w : world) : out (option cstr * world) :=
  match strtok 32 a_cmd with
  | None => Undef NullDeref
  | Some (cmd_, rest) =>
      let args := strtok_rest rest in
      if strcmp0 cmd_ (str "query") then r ← msg_query args w; Ok (r, w)
      else if strcmp0 cmd_ (str "version") then
        r ← sprintf_buf 4 (fmt_d (firmwareMajor w) ++ [46] ++ fmt_d (firmwareMinor w)); Ok (Some r, w)
      else if strcmp0 cmd_ (str "1wirereset") then w ← resetOneWireEndpoints inifile x w; Ok (Some (str "ok"), w)
      else if strcmp0 cmd_ (str "1wireroms") then r ← buildListOfUnassignedROMS w; Ok (Some r, w)
      else if strcmp0 cmd_ (str "action") then '(r, w) ← msg_action now args w; Ok (Some r, w)
      else if strcmp0 cmd_ (str "AVR") then Ok (None, serialSend (pstr args) w)
      else if strcmp0 cmd_ (str "lcd") then
        e ← find_endpoint (Some (str "lcd")) None w;
        match e with
        | Some p =>
            e ← get_ep p w;
            e ← bscSetText args e;
            w ← bscSendCmdEvent (run_cmd inifile) (run_info inifile) now p (put_ep p e w);
            Ok (Some (str "ok"), w)
        | None => Ok (Some (str "ok"), w)
        end
      else Ok (Some (str "fail"), w)
  end.

(** The bytes sent for a request: the answer with its terminator. *)
Definition svr_answer (now : Z) (request : cstr) (w : world) : out (list Z * world) :=
  '(r, w) ← msg_handler now request w;
  r ← of_opt Uninitialised r;
  Ok (r ++ [0], w).

End Server.

(** * Properties *)

Lemma strtok_token sep t rest :
  t <> [] -> sep ∉ t -> match rest with c :: _ => c = sep | [] => True end -> strtok sep (t ++ rest) = Some (t, drop 1 rest).
Proof.
  intros Hne Hs Hr. destruct t as [|c t]; [done|]. apply not_elem_of_cons in Hs as [Hc Hs]. unfold strtok.
  rewrite skip_while_head by (cbn [app]; by apply Z.eqb_neq). cbn [app]. change (c :: t ++ rest) with ((c :: t) ++ rest).
  assert (Htw : take_while (fun c => negb (c =? sep)) ((c :: t) ++ rest) = c :: t).
  { apply take_while_app_stop; [|destruct rest as [|d r]; [done|subst d; by rewrite Z.eqb_refl]].
    apply Forall_forall. intros d Hd. destruct (Z.eqb_spec d sep) as [->|]; [|done]. set_solver. }
  rewrite Htw. do 2 f_equal. rewrite drop_app_ge by lia. by replace (S (length (c :: t)) - length (c :: t))%nat with 1%nat by lia.
Qed.

(** An action on an endpoint. *)
Record action := mkAction { a_name : cstr; a_sub : cstr; a_state : cstr }.

Definition action_text (a : action) : cstr := a_name a ++ [46] ++ a_sub a ++ [44] ++ a_state a.
Definition action_ok (a : action) : Prop :=
  a_name a <> [] /\ a_sub a <> [] /\ a_state a <> [] /\ 46 ∉ a_name a /\ 44 ∉ a_sub a /\
  32 ∉ a_name a /\ 32 ∉ a_sub a /\ 32 ∉ a_state a.

Lemma action_parts_text a : action_ok a -> action_parts (action_text a) = Some (a_name a, Some (a_sub a), Some (a_state a)).
Proof.
  intros (Hn & Hs & Ht & H46 & H44 & _ & _ & H32). unfold action_parts, action_text. cbn [app].
  rewrite (strtok_token 46 (a_name a)) by done. cbn [drop]. rewrite drop_0, (strtok_token 44 (a_sub a)) by done. cbn [drop]. rewrite drop_0.
  rewrite <- (app_nil_r (a_state a)) at 1. by rewrite (strtok_token 32 (a_state a)).
Qed.

Lemma action_text_word a : action_ok a -> action_text a <> [] /\ 32 ∉ action_text a.
Proof. intros (Hn & _ & _ & _ & _ & H1 & H2 & H3). unfold action_text. split; [by destruct (a_name a)|]. set_solver. Qed.

Section Actions.
Context (ini : option (list Z)) (now : Z).

(** The meaning of an action: an endpoint that exists takes the state, executes
    its command and announces itself. *)
Definition do_action (a : action) (w : world) : out world :=
  e ← find_endpoint (Some (a_name a)) (Some (a_sub a)) w;
  match e with
  | Some p =>
      e ← get_ep p w;
      bscSendCmdEvent (run_cmd ini) (run_info ini) now p (put_ep p (bscSetState (bscDecodeState (Some (a_state a))) e) w)
  | None => Ok w
  end.

Fixpoint do_actions (l : list action) (w : world) : out world :=
  match l with [] => Ok w | a :: r => w ← do_action a w; do_actions r w end.

Lemma strtok_join t ts :
  t <> [] -> 32 ∉ t -> strtok 32 (join (t :: ts)) = Some (t, join ts).
Proof.
  intros Hne Hs. destruct ts as [|t' ts].
  - cbn [join]. rewrite <- (app_nil_r t) at 1. by rewrite strtok_token.
  - change (join (t :: t' :: ts)) with (t ++ 32 :: join (t' :: ts)). rewrite strtok_token by done. cbn [drop]. by rewrite drop_0.
Qed.

Lemma action_loop_join l f w :
  Forall action_ok l -> (length l <= f)%nat ->
  action_loop ini f now (join (map action_text l)) w = (w ← do_actions l w; Ok (str "ok", w)).
Proof.
  intros Hl. revert f w. induction Hl as [|a l Ha Hl IH]; intros f w Hf; [by destruct f|].
  destruct f as [|f]; [simpl in Hf; lia|]. cbn [map]. destruct (action_text_word a Ha) as [Hne Hsp]. cbn [action_loop do_actions].
  rewrite strtok_join by done. rewrite action_parts_text by done. unfold do_action at 1. rewrite !bind_assoc.
  destruct (find_endpoint (Some (a_name a)) (Some (a_sub a)) w) as [e| |]; [|done|done]. rewrite !bind_Ok.
  match goal with |- (?m ≫= _) = _ => destruct m as [w'| |]; [|done|done] end. rewrite !bind_Ok. apply IH. simpl in Hf. lia.
Qed.

Lemma join_length l : Forall action_ok l -> (length l <= length (join (map action_text l)))%nat.
Proof.
  induction 1 as [|a l Ha Hl IH]; [done|]. destruct (action_text_word a Ha) as [Hne _]. destruct l as [|b l].
  - cbn. destruct (action_text a); [done|]. simpl. lia.
  - cbn [map] in *. change (join (action_text a :: action_text b :: map action_text l))
      with (action_text a ++ 32 :: join (action_text b :: map action_text l)). rewrite length_app. cbn [length] in *. lia.
Qed.

(** A relay of the board. *)
Definition relay_ep (sub : cstr) (e : endpoint) : Prop :=
  board_ep e /\ cmd e = Some cmdRelay_cb /\ subaddr e = Some sub /\ (length sub <= 20)%nat.

(** Writing a line to the AVR. *)
Definition wrote (t : cstr) (w : world) : world := on_app (fun a => set_tx (tx a ++ [[10] ++ t ++ [10]]) a) w.

Lemma relay_cmd sub p e w :
  0 < gSerialfd (app_state w) -> endpoints w !! p = Some e -> relay_ep sub e ->
  cmdRelay p w = Ok (wrote (state_text (ep_state e) ++ [32] ++ sub) w).
Proof.
  intros Hfd He ((Hok & _) & _ & Hs & Hl). unfold cmdRelay, get_ep. rewrite He. cbn [of_opt]. rewrite bind_Ok.
  destruct (strings_ok e Hok) as [_ ->]. rewrite bind_Ok, Hs. cbn [pstr].
  assert (Hst : (length (state_text (ep_state e)) <= 3)%nat) by (unfold state_text; repeat case_match; simpl; lia).
  unfold serialSend. destruct (Z.ltb_spec 0 (gSerialfd (app_state w))); [|lia]. unfold snprintf, wrote.
  rewrite (take_ge (state_text _ ++ _)) by (rewrite !length_app; simpl; lia).
  rewrite take_ge by (rewrite !length_app; simpl; lia). done.
Qed.

Lemma relay_do sub p e (b : bool) st w :
  0 < gSerialfd (app_state w) -> endpoints w !! p = Some e -> relay_ep sub e -> bscDecodeState (Some st) = Z.b2z b ->
  find_endpoint (Some (str "relay")) (Some sub) w = Ok (Some p) ->
  do_action (mkAction (str "relay") sub st) w
  = Ok (announced ini now p (with_state (Z.b2z b) e) (wrote ((if b then str "on" else str "off") ++ [32] ++ sub) w)).
Proof.
  intros Hfd He Hr Hd Hf. unfold do_action. cbn [a_name a_sub a_state]. rewrite Hf, bind_Ok. unfold get_ep. rewrite He. cbn [of_opt].
  rewrite bind_Ok, Hd. pose proof Hr as (Hb & Hc & Hs & Hl).
  assert (Hse : bscSetState (Z.b2z b) e = with_state (Z.b2z b) e) by (by destruct b). rewrite Hse.
  set (w1 := put_ep p (with_state (Z.b2z b) e) w). assert (He1 : endpoints w1 !! p = Some (with_state (Z.b2z b) e))
    by (unfold w1, put_ep, set_endpoints; cbn [endpoints]; apply lookup_insert_eq).
  assert (Hb1 : board_ep (with_state (Z.b2z b) e)) by (apply board_ep_state; [done|destruct b; simpl; lia]).
  unfold bscSendCmdEvent, get_ep. rewrite He1. cbn [of_opt]. rewrite bind_Ok. cbn [cmd with_state]. rewrite Hc. cbn [run_cmd].
  rewrite (relay_cmd sub p (with_state (Z.b2z b) e) w1) by (done || by split). rewrite bind_Ok.
  rewrite (send_board ini now p (with_state (Z.b2z b) e)) by done. f_equal.
  unfold announced, wrote, w1, put_ep, set_endpoints, on_app, set_app. cbn [endpoints filters timeouts bframe sent id next app_state ep_state with_state].
  rewrite insert_insert_eq. by destruct b.
Qed.

End Actions.

(** ** Examples *)

Definition demo_relay : endpoint :=
  mkEndpoint (str "relay") (Some (str "1")) (str "60") BSC_OUTPUT BSC_BINARY BSC_STATE_OFF None (Some cmdRelay_cb) (Some infoEventBinary_cb)
    None 0 (Some (str "FF00DB60")) (Some (str "dbzoo.livebox.Controller:relay.1")).
Definition relay_world : world :=
  mkBsc {[ 1%positive := demo_relay ]} [] [] (load_packet []) [] 97 2 (mkLivebox [1%positive] ∅ 2 10 5 [] [] [] []).

Lemma demo_relay_ok : relay_ep (str "1") demo_relay.
Proof.
  split; [|split; [done|split; [done|apply Nat.leb_le; reflexivity]]].
  split; [unfold fields_ok; cbn; unfold BSC_OUTPUT, BSC_STATE_OFF; lia|]. split; [done|]. split; [done|]. apply Nat.leb_le. reflexivity.
Qed.

(** * Theorems *)

(** A request ["action n.s,v n.s,v ..."] executes its actions in order, each on
    the endpoint it names if there is one, and is answered with ["ok"]. *)
Theorem msg_action_spec (ini : option (list Z)) (x : xAPIdent)
    (now : Z) (acts : list action) (w : world) :
  Forall action_ok acts -> acts <> [] ->
  svr_answer ini x now (str "action " ++ join (map action_text acts)) w
  = (w ← do_actions ini now acts w; Ok (str "ok" ++ [0], w)).
Proof.
  intros Ha Hne. unfold svr_answer, msg_handler. change (str "action ") with (str "action" ++ [32]). rewrite <- app_assoc. cbn [app].
  rewrite strtok_token by (done || by apply (bool_decide_eq_true_1 (_ ∉ _))). cbn [drop]. rewrite drop_0. cbn [strcmp0].
  pose proof (join_length acts Ha) as Hl. assert (Hj : strtok_rest (join (map action_text acts)) = Some (join (map action_text acts))).
  { destruct (join (map action_text acts)); [|done]. destruct acts; [done|simpl in Hl; lia]. }
  rewrite Hj. cbn [msg_action]. rewrite action_loop_join by done. rewrite !bind_assoc.
  destruct (do_actions ini now acts w) as [w'| |]; done.
Qed.

Lemma msg_action_spec_witness :
  exists w', svr_answer None demo_xap 100 (str "action relay.1,yes relay.9,on") relay_world = Ok (str "ok" ++ [0], w') /\
    tx (app_state w') = [line "" ++ line "on 1"].
Proof.
  pose proof (msg_action_spec None demo_xap 100
    [mkAction (str "relay") (str "1") (str "yes"); mkAction (str "relay") (str "9") (str "on")] relay_world) as H.
  eexists. split.
  - etransitivity; [apply H|reflexivity]; [|done].
    repeat constructor; try done; by apply (bool_decide_eq_true_1 (_ ∉ _)).
  - reflexivity.
Defined.

(** Switching a relay from the web page: whatever word for on or off is used, the
    relay takes the state, one line with the state and the number of the relay is
    written to the AVR, one event announces it, and nothing else changes. *)
Theorem relay_action_spec (ini : option (list Z)) (x : xAPIdent)
    (now : Z) (sub st : cstr) (b : bool) (p : addr) (e : endpoint) (w : world) :
  0 < gSerialfd (app_state w) -> endpoints w !! p = Some e -> relay_ep sub e -> bscDecodeState (Some st) = Z.b2z b ->
  find_endpoint (Some (str "relay")) (Some sub) w = Ok (Some p) -> action_ok (mkAction (str "relay") sub st) ->
  svr_answer ini x now (str "action relay." ++ sub ++ [44] ++ st) w
  = Ok (str "ok" ++ [0],
        announced ini now p (with_state (Z.b2z b) e) (wrote ((if b then str "on" else str "off") ++ [32] ++ sub) w)).
Proof.
  intros Hfd He Hr Hd Hf Ha. set (a := mkAction (str "relay") sub st).
  change (str "action relay." ++ sub ++ [44] ++ st) with (str "action" ++ 32 :: action_text a).
  destruct (action_text_word a Ha) as [Hne _]. unfold svr_answer, msg_handler.
  rewrite strtok_token by (done || by apply (bool_decide_eq_true_1 (_ ∉ _))). cbn [drop]. rewrite drop_0.
  assert (Hj : strtok_rest (action_text a) = Some (join (map action_text [a]))) by (cbn; by destruct (action_text a)). rewrite Hj.
  change (strcmp0 (str "action") (str "query")) with false. change (strcmp0 (str "action") (str "version")) with false.
  change (strcmp0 (str "action") (str "1wirereset")) with false. change (strcmp0 (str "action") (str "1wireroms")) with false.
  change (strcmp0 (str "action") (str "action")) with true. cbv iota. cbn [msg_action].
  rewrite action_loop_join; [|by apply Forall_singleton|by apply join_length, Forall_singleton]. cbn [do_actions].
  subst a. rewrite (relay_do ini now sub p e b st w) by done. done.
Qed.

Lemma relay_action_spec_witness :
  exists w', svr_answer None demo_xap 100 (str "action relay.1,TRUE") relay_world = Ok (str "ok" ++ [0], w') /\
    tx (app_state w') = [line "" ++ line "on 1"] /\ length (sent w') = 1%nat.
Proof.
  eexists. split.
  - apply (relay_action_spec None demo_xap 100 (str "1") (str "TRUE") true 1 demo_relay relay_world).
    + reflexivity.
    + reflexivity.
    + exact demo_relay_ok.
    + reflexivity.
    + reflexivity.
    + repeat constructor; try done; by apply (bool_decide_eq_true_1 (_ ∉ _)).
  - split; reflexivity.
Defined.

(** Requests that leave defined behaviour: an empty one, ["query"] without an
    endpoint, ["action"] without arguments, ["AVR"] (which is executed but
    answered with an indeterminate pointer), and ["version"] when the version
    has four characters or more, like 2.10. *)
Theorem msg_handler_undefined (ini : option (list Z)) (x : xAPIdent)
    (now : Z) (args : cstr) (w : world) :
  endpointList (app_state w) <> [] ->
  svr_answer ini x now [] w = Undef NullDeref /\
  svr_answer ini x now (str "query") w = Undef NullDeref /\
  svr_answer ini x now (str "action") w = Undef Uninitialised /\
  svr_answer ini x now (str "AVR " ++ args) w = Undef Uninitialised /\
  (0 <= firmwareMajor w <= 9 -> 10 <= firmwareMinor w <= 99 -> svr_answer ini x now (str "version") w = Undef OutOfBounds).
Proof.
  intros Hne. split; [done|]. split; [|split; [done|split]].
  - unfold svr_answer, msg_handler. change (strtok 32 (str "query")) with (Some (str "query", @nil Z)). cbv iota.
    change (strcmp0 (str "query") (str "query")) with true. cbv iota. unfold msg_query, find_endpoint.
    cbn [strtok_rest mbind option_bind]. by destruct (endpointList (app_state w)).
  - unfold svr_answer, msg_handler. change (str "AVR ") with (str "AVR" ++ [32]). rewrite <- app_assoc. cbn [app].
    rewrite strtok_token by (done || by apply (bool_decide_eq_true_1 (_ ∉ _))). done.
  - intros Hj Hn. unfold svr_answer, msg_handler. change (strtok 32 (str "version")) with (Some (str "version", @nil Z)). cbv iota.
    change (strcmp0 (str "version") (str "query")) with false. change (strcmp0 (str "version") (str "version")) with true. cbv iota.
    assert (Hlen : forall a b, 0 <= a <= 9 -> 10 <= b <= 99 -> length (fmt_d a ++ [46] ++ fmt_d b) = 4%nat).
    { intros a b Ha Hb. assert (Hall : forallb (fun i => forallb (fun j => (length (fmt_d (Z.of_nat i) ++ [46%Z] ++ fmt_d (Z.of_nat j)) =? 4)%nat)
        (seq 10 90)) (seq 0 10) = true) by (vm_compute; reflexivity).
      rewrite forallb_forall in Hall. specialize (Hall (Z.to_nat a) ltac:(apply in_seq; lia)). rewrite forallb_forall in Hall.
      specialize (Hall (Z.to_nat b) ltac:(apply in_seq; lia)). rewrite !Z2Nat.id in Hall by lia. by apply Nat.eqb_eq in Hall. }
    unfold sprintf_buf. rewrite Hlen by done. done.
Qed.

Lemma msg_handler_undefined_witness : svr_answer None demo_xap 100 (str "version") relay_world = Undef OutOfBounds.
Proof.
  destruct (msg_handler_undefined None demo_xap 100 [] relay_world ltac:(done)) as (_ & _ & _ & _ & H).
  apply H; cbn; lia.
Defined.
