(* ===== verification/ControllerProps.v ===== *)
(** * Properties of the controller's endpoints and callbacks

    The handlers of the controller keep the shape of its state (the endpoints,
    the kinds of their data, the lists of callbacks); the creation and the
    reload of endpoints keep the invariant that no list holds a freed block.
    Every reachable state therefore has the invariant, and no handler touches
    freed memory.  The calibration and the reports of temperature sensors follow. *)

From Stdlib Require Import SpecFloat.
From S2P Require Import Prelude UtList Strings Frame Wire Filter Timeout Xap MinIni Float Bsc Urf Termios Livebox Controller Server.

(** ** What handlers keep *)

Definition live (p : addr) (w : world) : Prop := is_Some (endpoints w !! p).

(** The kind of an endpoint's data. *)
Definition kind (u : user_data) : bool := match u with TempSensor _ => true | Ppe _ => false end.

Record keeps (w w' : world) : Prop := mkKeeps {
  k_names : forall p, name <$> endpoints w' !! p = name <$> endpoints w !! p;
  k_user : forall p, kind <$> userData (app_state w') !! p = kind <$> userData (app_state w) !! p;
  k_list : endpointList (app_state w') = endpointList (app_state w);
  k_filters : filters w' = filters w;
  k_timeouts : timeouts w' = timeouts w;
  k_next : next w' = next w;
  k_id : id w' = id w;
}.

#[export] Instance keeps_preorder : PreOrder keeps.
Proof.
  split.
  - by intros w.
  - intros w1 w2 w3 [H1 H2 H3 H4 H5 H6 H7] [G1 G2 G3 G4 G5 G6 G7]. split; [| |congruence..].
    + intros p. by rewrite G1.
    + intros p. by rewrite G2.
Qed.

Lemma keeps_live p w w' : keeps w w' -> live p w -> live p w'.
Proof. intros Hk. pose proof (k_names _ _ Hk p) as H. unfold live. rewrite <- !not_eq_None_Some. by destruct (endpoints w !! p), (endpoints w' !! p). Qed.

Lemma keeps_put_ep p e0 e w : endpoints w !! p = Some e0 -> name e = name e0 -> keeps w (put_ep p e w).
Proof.
  intros He Hn. split; try done. intros q. unfold put_ep, set_endpoints. cbn [endpoints].
  destruct (decide (q = p)) as [->|]; [|by rewrite lookup_insert_ne]. rewrite lookup_insert_eq, He. simpl. by f_equal.
Qed.

Lemma keeps_on_app f w :
  (forall a, endpointList (f a) = endpointList a /\ userData (f a) = userData a) -> keeps w (on_app f w).
Proof.
  intros Hf. destruct (Hf (app_state w)) as [Hl Hu]. split; try done.
  intros q. unfold on_app, set_app. cbn [app_state]. by rewrite Hu.
Qed.

Lemma keeps_serialSend t w : keeps w (serialSend t w).
Proof. unfold serialSend. destruct (0 <? _); [by apply keeps_on_app|done]. Qed.

Lemma keeps_put_sensor p t0 t w : sensor_data p w = Ok t0 -> keeps w (put_sensor p t w).
Proof.
  unfold sensor_data. intros Hs. split; try done. intros q. unfold put_sensor, on_app, set_app. cbn [app_state userData set_user].
  destruct (decide (q = p)) as [->|]; [|by rewrite lookup_insert_ne]. rewrite lookup_insert_eq.
  by destruct (userData (app_state w) !! p) as [[]|].
Qed.

(** A computation that does not touch freed memory and keeps the shape. *)
Definition handler {R} (get : R -> world) (w : world) (m : out R) : Prop :=
  no_uaf m /\ forall r, m = Ok r -> keeps w (get r).

Section Rules.
Context {R : Type} (get : R -> world).

Lemma handler_Ok w r : keeps w (get r) -> handler get w (Ok r).
Proof. intros H. split; [done|]. by intros r' [= <-]. Qed.

Lemma handler_undef w u : u <> UseAfterFree -> handler get w (Undef u).
Proof. intros H. split; [unfold no_uaf; congruence|done]. Qed.

Lemma handler_Die w : handler get w Die.
Proof. done. Qed.

Lemma handler_bind {S} (get1 : S -> world) w m f :
  handler get1 w m -> (forall a, m = Ok a -> keeps w (get1 a) -> handler get (get1 a) (f a)) -> handler get w (m ≫= f).
Proof.
  intros [H1 H2] Hf. split.
  - apply no_uaf_bind; [done|]. intros a Ha. by apply Hf, H2.
  - intros r Hr. inv_bind Hr. etransitivity; [by apply H2|]. by eapply Hf; [| apply H2 |].
Qed.

Lemma handler_pure {S} w (m : out S) f :
  no_uaf m -> (forall a, m = Ok a -> handler get w (f a)) -> handler get w (m ≫= f).
Proof.
  intros H1 Hf. split.
  - apply no_uaf_bind; [done|]. intros a Ha. by apply Hf.
  - intros r Hr. inv_bind Hr. by eapply Hf.
Qed.

Lemma handler_get p w f :
  live p w -> (forall e, endpoints w !! p = Some e -> handler get w (f e)) -> handler get w (get_ep p w ≫= f).
Proof. intros [e He] Hf. unfold get_ep. rewrite He. cbn [of_opt]. rewrite bind_Ok. by apply Hf. Qed.

(** A change of the state that keeps the shape, before a handler. *)
Lemma handler_after w w1 m : keeps w w1 -> handler get w1 m -> handler get w m.
Proof. intros H [H1 H2]. split; [done|]. intros r Hr. etransitivity; [done|]. by apply H2. Qed.

End Rules.

Abbreviation whandler := (handler (fun w : world => w)).

Lemma no_uaf_state_string (e : endpoint) : no_uaf (bscStateToString e).
Proof. unfold bscStateToString. auto with uaf. Qed.
Lemma no_uaf_io_string (e : endpoint) : no_uaf (bscIOToString e).
Proof. unfold bscIOToString. auto with uaf. Qed.
Lemma no_uaf_sensor p w : no_uaf (sensor_data p w).
Proof. unfold sensor_data. by repeat case_match. Qed.
Lemma no_uaf_ppe p w : no_uaf (ppe_data p w).
Proof. unfold ppe_data. by repeat case_match. Qed.
Lemma no_uaf_rf_value k w : no_uaf (rf_value k w).
Proof. apply no_uaf_get_value. Qed.
Lemma no_uaf_section i : no_uaf (cmd_section i).
Proof. unfold cmd_section, sprintf_buf. by case_match. Qed.
Lemma no_uaf_set_text t (e : endpoint) : no_uaf (bscSetText t e).
Proof. by destruct t. Qed.

Create HintDb keeps discriminated.
#[export] Hint Resolve no_uaf_state_string no_uaf_io_string no_uaf_sensor no_uaf_ppe no_uaf_rf_value no_uaf_section no_uaf_set_text : uaf.
#[export] Hint Resolve keeps_live keeps_put_ep keeps_serialSend keeps_put_sensor handler_Die : keeps.
#[export] Hint Extern 0 (keeps ?w ?w) => reflexivity : keeps.
#[export] Hint Extern 1 (keeps _ (on_app _ _)) => apply keeps_on_app; intros []; split; reflexivity : keeps.
#[export] Hint Extern 1 (handler _ _ (Undef _)) => apply handler_undef; discriminate : keeps.

(** One step into a handler. *)
Ltac hstep :=
  match goal with
  | |- handler _ _ (get_ep _ _ ≫= _) => apply handler_get; [by eauto with keeps | intros]
  | |- handler _ _ (Ok _) => apply handler_Ok; cbn [fst snd]; try (by eauto with keeps)
  | |- handler _ _ (Undef _) => apply handler_undef; discriminate
  | |- handler _ _ Die => apply handler_Die
  | |- handler _ _ (match ?x with _ => _ end) => destruct x eqn:?
  | |- handler _ _ (_ ≫= _) => apply handler_pure; [by auto with uaf | intros]
  end.
Ltac hsteps := repeat hstep.

(** ** The messages of endpoints *)

Lemma info_event_handler now p clazz w : live p w -> whandler w (bscInfoEvent now p clazz w).
Proof.
  intros Hl. unfold bscInfoEvent. hstep. do 2 hstep. cbv zeta. apply handler_pure.
  { repeat case_match; auto with uaf. }
  intros t1 _. apply handler_pure; [repeat case_match; auto with uaf|]. intros t2 _.
  hsteps. split; try done. apply (keeps_put_ep p e); done.
Qed.

Section Handlers.
Context (ini : option (list Z)).

Lemma run_info_handler i p clazz w : live p w -> handler snd w (run_info ini i p clazz w).
Proof.
  intros Hl. destruct i; cbn [run_info].
  - unfold infoEventBinary, infoEventLabeled. hsteps.
  - unfold infoEvent1wire. hstep. hstep. hstep. unfold calibrate.
    assert (Hp : forall e', name e' = name e -> keeps w (put_ep p e' w)) by eauto with keeps.
    assert (Hs : forall e' t, name e' = name e -> keeps w (put_sensor p t (put_ep p e' w))).
    { intros e' t Hn. etransitivity; [by apply Hp|]. by apply (keeps_put_sensor p a). }
    destruct (ftrue (offset a)); cbv zeta; (destruct (_ || _); apply handler_Ok; cbn [snd];
      [apply Hs; by destruct (sensor_label a)|by apply Hp]).
Qed.

Lemma send_info_handler now p clazz w : live p w -> whandler w (bscSendInfoEvent (run_info ini) now p clazz w).
Proof.
  intros Hl. unfold bscSendInfoEvent. hstep. apply (handler_bind _ snd).
  - destruct (infoEvent e); [by apply run_info_handler|by apply handler_Ok].
  - intros [b w1] _ Hk. cbn [snd] in *. destruct b; [|by hstep]. apply info_event_handler. eauto with keeps.
Qed.

Lemma run_cmd_handler c p w : live p w -> whandler w (run_cmd ini c p w).
Proof.
  intros Hl. destruct c; cbn [run_cmd];
    unfold cmdRelay, cmdLCD, cmdRF, cmdURF, cmdPPEpin, cmdPPEbyte; hsteps.
Qed.

Lemma cmd_event_handler now p w : live p w -> whandler w (bscSendCmdEvent (run_cmd ini) (run_info ini) now p w).
Proof.
  intros Hl. unfold bscSendCmdEvent. hstep. apply (handler_bind _ (fun w => w)).
  - destruct (cmd e); [by apply run_cmd_handler|by hstep].
  - intros w1 _ Hk. apply send_info_handler. eauto with keeps.
Qed.

Lemma cmd_loop_handler n i now p w : live p w -> whandler w (cmd_loop (run_cmd ini) (run_info ini) n i now p w).
Proof.
  revert i w. induction n as [|n IH]; intros i w Hl; [by apply handler_Ok|]. cbn [cmd_loop]. do 3 hstep.
  destruct a0 as [st|]; [|by hstep]. destruct a1 as [eid|]; [|by hstep]. hstep. destruct (_ || _); [|by apply IH].
  set (e1 := bscSetState _ e). assert (Hn1 : name e1 = name e) by done. clearbody e1. cbv zeta.
  apply handler_pure.
  { destruct (_ =? _); [|destruct (_ =? _); [|done]]; apply no_uaf_bind; auto with uaf; intros; apply no_uaf_set_text. }
  intros e2 He2. assert (Hn : name e2 = name e).
  { destruct (_ =? _); [|destruct (_ =? _); [|by injection He2 as <-]];
      inv_bind He2; (destruct a0 as [t|]; [|done]); by injection He2 as <-. }
  assert (Hk : keeps w (put_ep p e2 w)) by eauto with keeps.
  apply (handler_after _ _ (put_ep p e2 w)); [done|].
  apply (handler_bind _ (fun w => w)); [apply cmd_event_handler; eauto with keeps|].
  intros w1 _ Hk1. apply IH. eauto with keeps.
Qed.

Lemma incoming_cmd_handler now p w : live p w -> whandler w (bscIncomingCmd (run_cmd ini) (run_info ini) now p w).
Proof. intros Hl. unfold bscIncomingCmd. hstep. destruct (_ =? _); [by hstep|by apply cmd_loop_handler]. Qed.

Lemma rf_handler c ud w : whandler w (run_filter c ud w).
Proof. destruct c; cbn [run_filter]; unfold rfXmit, rfXmitPacked; hsteps. Qed.

Lemma info_timeout_handler now i p w : live p w -> whandler w (bscInfoTimeout (run_info ini) now i p w).
Proof.
  intros Hl. unfold bscInfoTimeout. hstep. destruct (_ =? 0); [by apply send_info_handler|]. hstep.
  destruct (_ <=? _); [by apply send_info_handler|by hstep].
Qed.

Lemma timeout_handler now c i ud w : (forall p, ud = Some p -> live p w) -> whandler w (run_timeout now c i ud w).
Proof.
  intros Hl. destruct c; cbn [run_timeout].
  - unfold timeoutCheck1wire. destruct ud as [p|]; [|by apply handler_undef]. cbn [of_opt]. rewrite bind_Ok.
    apply handler_get; [by apply Hl|]. intros e He. hsteps.
    match goal with H : bscSetText _ _ = Ok _ |- _ => injection H as <- end. by apply (keeps_put_ep p e).
  - apply handler_Ok. unfold timeoutReport1wire. destruct (_ && _); eauto with keeps.
Qed.

(** ** Lines from the AVR *)

Definition listed (w : world) : Prop := forall p, p ∈ endpointList (app_state w) -> live p w.

Lemma keeps_listed w w' : keeps w w' -> listed w -> listed w'.
Proof. intros Hk Hl p. rewrite (k_list _ _ Hk). intros Hp. by eapply keeps_live, Hl. Qed.

(** Searches through live endpoints. *)
Lemma find_endpoint_live l n sub w :
  (forall p, p ∈ l -> live p w) ->
  no_uaf (bscFindEndpoint l n sub w) /\ forall p, bscFindEndpoint l n sub w = Ok (Some p) -> p ∈ l.
Proof.
  induction l as [|q l IH]; intros Hl; [done|]. destruct (IH (fun p Hp => Hl p (list_elem_of_further p q l Hp))) as [IH1 IH2].
  cbn [bscFindEndpoint]. unfold get_ep. destruct (Hl q) as [e ->]; [by left|]. cbn [of_opt]. rewrite bind_Ok.
  destruct (_ && _); [|split; [done|]; intros p Hp; right; by apply IH2]. split; [done|]. intros p [= <-]. by left.
Qed.

Lemma find_romid_live l n rid w :
  (forall p, p ∈ l -> live p w) ->
  no_uaf (find_romid l n rid w) /\ forall p, find_romid l n rid w = Ok (Some p) -> p ∈ l.
Proof.
  induction l as [|q l IH]; intros Hl; [done|]. destruct (IH (fun p Hp => Hl p (list_elem_of_further p q l Hp))) as [IH1 IH2].
  cbn [find_romid]. unfold get_ep. destruct (Hl q) as [e ->]; [by left|]. cbn [of_opt]. rewrite bind_Ok.
  destruct (strcmp0 _ _); [|split; [done|]; intros p Hp; right; by apply IH2]. split.
  - apply no_uaf_bind; [auto with uaf|]. intros t _. by destruct (strcmp0 _ _).
  - intros p Hp. inv_bind Hp. destruct (strcmp0 _ _); [injection Hp as <-; by left|]. right. by apply IH2.
Qed.

Lemma find_ppe_live l ad sub w :
  (forall p, p ∈ l -> live p w) ->
  no_uaf (find_ppe l ad sub w) /\ forall p, find_ppe l ad sub w = Ok (Some p) -> p ∈ l.
Proof.
  induction l as [|q l IH]; intros Hl; [done|]. destruct (IH (fun p Hp => Hl p (list_elem_of_further p q l Hp))) as [IH1 IH2].
  cbn [find_ppe]. unfold get_ep. destruct (Hl q) as [e ->]; [by left|]. cbn [of_opt]. rewrite bind_Ok.
  assert (IH2' : forall p, find_ppe l ad sub w = Ok (Some p) -> p ∈ q :: l) by (intros p Hp; right; by apply IH2).
  destruct (strcmp0 _ _); [|done]. split.
  - apply no_uaf_bind; [auto with uaf|]. intros d _. destruct (_ =? _); [|done]. destruct sub; [|done].
    apply no_uaf_bind; [auto with uaf|]. intros a _. by destruct (strcmp0 _ _).
  - intros p Hp. inv_bind Hp. destruct (_ =? _); [|auto]. destruct sub; [|injection Hp as <-; by left].
    inv_bind Hp. destruct (strcmp0 _ _); [injection Hp as <-; by left|auto].
Qed.

Lemma set_and_send_handler now st p w : live p w -> whandler w (set_and_send ini now st p w).
Proof.
  intros Hl. unfold set_and_send. hstep. apply (handler_after _ _ (put_ep p (bscSetState st e) w)); [by apply (keeps_put_ep p e)|].
  apply send_info_handler. eapply keeps_live; [|done]. by apply (keeps_put_ep p e).
Qed.

Lemma input_loop_handler n i now old new w : listed w -> whandler w (input_loop ini n i now old new w).
Proof.
  revert i w. induction n as [|n IH]; intros i w Hl; [by apply handler_Ok|]. cbn [input_loop].
  apply (handler_bind _ (fun w => w)).
  - destruct (Z.testbit _ _); [|by hstep].
    destruct (find_endpoint_live (endpointList (app_state w)) (str "input") (Some [49 + i]) w Hl) as [H1 H2].
    apply handler_pure; [done|]. intros [p|] Hp; [|by hstep]. by apply set_and_send_handler, Hl, H2.
  - intros w1 _ Hk. apply IH. by eapply keeps_listed.
Qed.

Lemma ppe_loop_handler n pin now ad sec old new w : listed w -> whandler w (ppe_loop ini n pin now ad sec old new w).
Proof.
  revert pin w. induction n as [|n IH]; intros pin w Hl; [by apply handler_Ok|]. cbn [ppe_loop].
  apply (handler_bind _ (fun w => w)).
  - destruct (Z.testbit _ _); [|by hstep].
    destruct (find_ppe_live (endpointList (app_state w)) ad (Some (snprintf 10 (fmt_d sec ++ [46] ++ fmt_d pin))) w Hl) as [H1 H2].
    apply handler_pure; [done|]. intros [p|] Hp; [|by apply handler_undef]. cbn [of_opt]. rewrite bind_Ok.
    by apply set_and_send_handler, Hl, H2.
  - intros w1 _ Hk. apply IH. by eapply keeps_listed.
Qed.

Lemma serin_1wire_handler now argv w : listed w -> whandler w (serin_1wire ini now argv w).
Proof.
  intros Hl. unfold serin_1wire. do 2 hstep. set (rid := if (16 <? _)%nat then _ else _).
  destruct (find_romid_live (endpointList (app_state w)) (str "1wire") rid w Hl) as [R1 R2].
  destruct (find_endpoint_live (endpointList (app_state w)) (str "1wire") (Some a) w Hl) as [F1 F2]. cbv zeta.
  apply handler_pure; [by destruct (1 <? _)|]. intros [p|] Hp; [|hsteps].
  assert (Hlp : live p w) by (apply Hl; destruct (1 <? _); [by apply R2|by apply F2]). hstep. cbn [bscSetText]. rewrite bind_Ok.
  set (e1 := with_text _ _). assert (Hk : keeps w (put_ep p e1 w)) by (by apply (keeps_put_ep p e)).
  apply (handler_after _ _ (put_ep p e1 w)); [done|]. apply (handler_bind _ (fun w => w)).
  - apply send_info_handler. eauto with keeps.
  - intros w1 _ Hk1. apply handler_get; [eauto with keeps|]. intros _ _. hsteps.
Qed.

Lemma serin_ppe_handler now argv w : listed w -> whandler w (serin_ppe ini now argv w).
Proof.
  intros Hl. unfold serin_ppe. do 3 hstep. destruct (find_ppe_live (endpointList (app_state w)) (atoi a) None w Hl) as [R1 R2].
  cbv zeta. apply handler_pure; [done|]. intros [p|] Hp; [|by hstep]. assert (Hlp : live p w) by (by apply Hl, R2).
  hstep. destruct (_ =? _).
  - cbn [bscSetText]. rewrite bind_Ok. assert (Hk : keeps w (put_ep p (with_text (Some a1) e) w)) by (by apply (keeps_put_ep p e)).
    eapply handler_after; [exact Hk|]. apply send_info_handler. eauto with keeps.
  - hstep. by apply ppe_loop_handler.
Qed.

Lemma serial_command_handler now l w : listed w -> whandler w (processSerialCommand ini now l w).
Proof.
  intros Hl. unfold processSerialCommand. destruct (bool_decide _); [apply handler_Die|]. apply handler_pure.
  { generalize (@nil cstr) as argv. generalize (length l) as f. intros f. revert l. induction f as [|f IH]; intros l argv; [done|].
    cbn [tokenize]. destruct l; [done|]. destruct (_ <? _)%nat; [apply IH|done]. }
  intros argv _. unfold dispatch. destruct argv as [|c args]; [by hstep|]. cbv zeta.
  repeat (destruct (strcmp0 _ _); [destruct (_ <? _)%nat; [by hstep|]|]).
  - unfold serin_input. do 2 hstep. by apply input_loop_handler.
  - by apply serin_1wire_handler.
  - by apply serin_ppe_handler.
  - unfold serin_firmware_rev. hstep. hstep; hstep.
  - by hstep.
Qed.

Lemma input_chars_handler now d w : listed w -> whandler w (input_chars ini now d w).
Proof.
  revert w. induction d as [|c d IH]; intros w Hl; [by apply handler_Ok|]. cbn [input_chars].
  apply (handler_bind _ (fun w => w)).
  - unfold input_char. cbv zeta. destruct (_ <? _)%nat; [|by hstep]. destruct (_ || _); [|by hstep].
    apply (handler_bind _ (fun w => w)).
    + destruct (_ <? _)%nat; [by apply serial_command_handler|by hstep].
    + intros w1 _ Hk. by hstep.
  - intros w1 _ Hk. apply IH. by eapply keeps_listed.
Qed.

Lemma serial_input_handler now d w : listed w -> handler snd w (serialInputHandler ini now d w).
Proof.
  intros Hl. unfold serialInputHandler. destruct d as [d|]; [|by hstep]. cbv zeta.
  apply (handler_bind _ (fun w => w)); [by apply input_chars_handler|]. intros w1 _ Hk. by hstep.
Qed.

End Handlers.

(** ** The invariant *)

Definition set_bframe (f : xAPFrame) (w : world) : world :=
  mkBsc (endpoints w) (filters w) (timeouts w) f (sent w) (id w) (next w) (app_state w).

Definition tcount (p : addr) (l : list (xAPTimeoutCallback (bsc_timeout_cb lb_timeout) (option addr))) : nat :=
  length (filter (fun tc => tc_user_data tc = Some p) l).

(** No list holds a freed block, and an endpoint has at most [n] timeouts. *)
Record ctl_wf (n : nat) (w : world) : Prop := mkCtlWf {
  wf_nodup : NoDup (endpointList (app_state w));
  wf_live : forall p, live p w <-> p ∈ endpointList (app_state w);
  wf_fresh : forall p, live p w -> (p < next w)%positive;
  wf_filters : ll_wf (filters w);
  wf_filter_live : Forall (fun f => (fc_addr f < next w)%positive /\ forall p, Filter.user_data f = Some p -> live p w) (filters w);
  wf_timeouts : ll_wf (timeouts w);
  wf_timeout_live : Forall (fun t => (tc_addr t < next w)%positive /\ forall p, tc_user_data t = Some p -> live p w) (timeouts w);
  wf_count : forall p, (tcount p (timeouts w) <= n)%nat;
  wf_sensor : forall p e, endpoints w !! p = Some e -> name e = str "1wire" ->
    exists t, userData (app_state w) !! p = Some (TempSensor t);
}.

Lemma wf_listed n w : ctl_wf n w -> listed w.
Proof. intros Hw p Hp. by apply (wf_live n). Qed.

Lemma keeps_wf n w w' : keeps w w' -> ctl_wf n w -> ctl_wf n w'.
Proof.
  intros Hk [H1 H2 H3 H4 H5 H6 H7 H8 H9].
  assert (Hl : forall p, live p w' <-> live p w).
  { intros p. split; [|by apply keeps_live]. pose proof (k_names _ _ Hk p) as Hn. unfold live.
    rewrite <- !not_eq_None_Some. by destruct (endpoints w !! p), (endpoints w' !! p). }
  split.
  - by rewrite (k_list _ _ Hk).
  - intros p. by rewrite (k_list _ _ Hk), Hl.
  - intros p Hp. rewrite (k_next _ _ Hk). by apply H3, Hl.
  - by rewrite (k_filters _ _ Hk).
  - rewrite (k_filters _ _ Hk), (k_next _ _ Hk). eapply Forall_impl; [exact H5|]. intros f [Ha Hf]. split; [done|]. intros p Hp. by apply Hl, Hf.
  - by rewrite (k_timeouts _ _ Hk).
  - rewrite (k_timeouts _ _ Hk), (k_next _ _ Hk). eapply Forall_impl; [exact H7|]. intros f [Ha Hf]. split; [done|]. intros p Hp. by apply Hl, Hf.
  - intros p. by rewrite (k_timeouts _ _ Hk).
  - intros p e He Hn. pose proof (k_names _ _ Hk p) as Hnm. rewrite He in Hnm. destruct (endpoints w !! p) as [e0|] eqn:He0; [|done].
    injection Hnm as Hnm. destruct (H9 p e0 He0) as [t Ht]; [congruence|]. pose proof (k_user _ _ Hk p) as Hu. rewrite Ht in Hu.
    destruct (userData (app_state w') !! p) as [[t'|]|]; [by exists t'|done|done].
Qed.

Lemma wf_uid n k w : ctl_wf n w -> ctl_wf n (bscSetEndpointUID k w).
Proof. by intros [H1 H2 H3 H4 H5 H6 H7 H8 H9]. Qed.

Lemma wf_frame n f w : ctl_wf n w -> ctl_wf n (set_bframe f w).
Proof. by intros [H1 H2 H3 H4 H5 H6 H7 H8 H9]. Qed.

Lemma wf_mono n m w : (n <= m)%nat -> ctl_wf n w -> ctl_wf m w.
Proof. intros Hnm [H1 H2 H3 H4 H5 H6 H7 H8 H9]. split; try done. intros p. etransitivity; [apply H8|done]. Qed.

Lemma tcount_cons p t l : tcount p (t :: l) = ((if bool_decide (tc_user_data t = Some p) then 1 else 0) + tcount p l)%nat.
Proof. unfold tcount. rewrite filter_cons. case_decide; [by rewrite bool_decide_eq_true_2|by rewrite bool_decide_eq_false_2]. Qed.

Lemma tcount_dead p w n : ctl_wf n w -> ~ live p w -> tcount p (timeouts w) = 0%nat.
Proof.
  intros Hw Hp. pose proof (wf_timeout_live n w Hw) as Ht. induction Ht as [|t l [_ Ht] _ IH]; [done|].
  rewrite tcount_cons, IH. rewrite bool_decide_eq_false_2; [done|]. intros Hs. by apply Hp, Ht.
Qed.

(** ** Growing the state *)

(** A new endpoint at the next address. *)
Lemma grow_endpoint n e w w2 :
  ctl_wf n w -> endpoints w2 = <[next w := e]> (endpoints w) ->
  endpointList (app_state w2) = next w :: endpointList (app_state w) ->
  filters w2 = filters w -> timeouts w2 = timeouts w -> (next w < next w2)%positive ->
  (forall q, q <> next w -> userData (app_state w2) !! q = userData (app_state w) !! q) ->
  (name e = str "1wire" -> exists t, userData (app_state w2) !! next w = Some (TempSensor t)) ->
  ctl_wf n w2.
Proof.
  intros [H1 H2 H3 H4 H5 H6 H7 H8 H9] He Hl Hf Ht Hn Hu Hs.
  assert (Hd : ~ live (next w) w) by (intros H%H3; lia).
  assert (Hlive : forall p, live p w2 <-> p = next w \/ live p w).
  { intros p. unfold live. rewrite He. destruct (decide (p = next w)) as [->|Hne].
    - rewrite lookup_insert_eq. split; [by left|]. intros _. by eexists.
    - rewrite lookup_insert_ne by done. naive_solver. }
  split; rewrite ?Hl, ?Hf, ?Ht; try done.
  - constructor; [|done]. by rewrite <- H2.
  - intros p. rewrite Hlive, elem_of_cons, H2. done.
  - intros p. rewrite Hlive. intros [->|Hp%H3]; lia.
  - eapply Forall_impl; [exact H5|]. intros f [Ha Hfl]. split; [lia|]. intros p Hp. rewrite Hlive. right. by apply Hfl.
  - eapply Forall_impl; [exact H7|]. intros f [Ha Hfl]. split; [lia|]. intros p Hp. rewrite Hlive. right. by apply Hfl.
  - intros p e'. rewrite He. destruct (decide (p = next w)) as [->|Hne].
    + rewrite lookup_insert_eq. intros [= <-] Hname. by apply Hs.
    + rewrite lookup_insert_ne, Hu by done. apply H9.
Qed.

Definition push_filter (c : bsc_filter_cb lb_filter) (f : list xAPFilter) (ud : option addr) (w : world) : world :=
  mkBsc (endpoints w) (xapAddFilterAction (next w) c f ud (filters w)) (timeouts w) (bframe w) (sent w)
    (id w) (Pos.succ (next w)) (app_state w).
Definition push_timeout (c : bsc_timeout_cb lb_timeout) (i : Z) (ud : option addr) (w : world) : world :=
  mkBsc (endpoints w) (filters w) (ll_prepend (mkTimeout (next w) c ud i 0) (timeouts w)) (bframe w) (sent w)
    (id w) (Pos.succ (next w)) (app_state w).

Lemma fresh_addr {N} `{Node N} (P : N -> Prop) (l : list N) (nx : addr) :
  Forall (fun x => (node_addr x < nx)%positive /\ P x) l -> nx ∉ map node_addr l.
Proof.
  intros Hl Hin. apply list_elem_of_fmap in Hin as (x & -> & Hx). rewrite Forall_forall in Hl. destruct (Hl x Hx). lia.
Qed.

Lemma grow_filter n c f ud w : ctl_wf n w -> (forall p, ud = Some p -> live p w) -> ctl_wf n (push_filter c f ud w).
Proof.
  intros [H1 H2 H3 H4 H5 H6 H7 H8 H9] Hud. split; try done; cbn [push_filter next filters timeouts].
  - intros p Hp%H3. lia.
  - unfold xapAddFilterAction, ll_prepend, ll_wf. cbn [map]. constructor; [|done]. exact (fresh_addr _ _ _ H5).
  - unfold xapAddFilterAction, ll_prepend. constructor; [split; [cbn; lia|exact Hud]|].
    eapply Forall_impl; [exact H5|]. intros g [Ha Hg]. split; [lia|exact Hg].
  - eapply Forall_impl; [exact H7|]. intros g [Ha Hg]. split; [lia|exact Hg].
Qed.

Lemma grow_timeout n c i ud w :
  ctl_wf n w -> (forall p, ud = Some p -> live p w /\ (tcount p (timeouts w) < n)%nat) -> ctl_wf n (push_timeout c i ud w).
Proof.
  intros [H1 H2 H3 H4 H5 H6 H7 H8 H9] Hud. split; try done; cbn [push_timeout next filters timeouts].
  - intros p Hp%H3. lia.
  - eapply Forall_impl; [exact H5|]. intros g [Ha Hg]. split; [lia|exact Hg].
  - unfold ll_prepend, ll_wf. cbn [map]. constructor; [|done]. exact (fresh_addr _ _ _ H7).
  - unfold ll_prepend. constructor; [split; [cbn; lia|]; intros p Hp; by apply Hud|].
    eapply Forall_impl; [exact H7|]. intros g [Ha Hg]. split; [lia|exact Hg].
  - intros p. unfold ll_prepend. rewrite tcount_cons. cbn [tc_user_data]. case_bool_decide as Hp; [|apply H8].
    destruct (Hud p Hp). lia.
Qed.

(** The same for the operations of the source. *)
Lemma ctl_add_endpoint nm sub dir typ c i w :
  0 <= id w < 256 ->
  exists e, name e = str nm /\ add_endpoint nm sub dir typ c i w =
    Ok (next w, on_app (set_list (next w :: endpointList (app_state w)))
      (mkBsc (<[next w := e]> (endpoints w)) (filters w) (timeouts w) (bframe w) (sent w) (u8 (id w + 1)) (Pos.succ (next w)) (app_state w))).
Proof.
  intros Hid. unfold add_endpoint, bscAddEndpoint. unfold sprintf_buf. rewrite (fmt_X2_length (id w) Hid).
  cbn [Z.of_nat Z.ltb]. eexists. split; [|reflexivity]. done.
Qed.

Lemma push_filters_eq x p e i w :
  endpoints w !! p = Some e -> (8 <= length (uid x))%nat -> 0 < i ->
  exists u f1 f2, bscAddEndpointFilter x p i w =
    let w1 := put_ep p (with_address u (bscFQEN (source x) e) e) w in
    Ok (push_timeout bscInfoTimeout_cb i (Some p) (push_filter bscIncomingQuery_cb f1 (Some p)
      (if io e =? BSC_OUTPUT then push_filter bscIncomingCmd_cb f2 (Some p) w1 else w1))).
Proof.
  intros He Hu Hi. exists (take 6 (uid x) ++ take 2 (ep_id e) ++ drop 8 (uid x)),
    (ep_filter BSC_QUERY_CLASS (bscFQEN (source x) e)), (ep_filter BSC_CMD_CLASS (bscFQEN (source x) e)).
  unfold bscAddEndpointFilter, get_ep. rewrite He. cbn [of_opt]. rewrite bind_Ok. unfold endpoint_uid.
  destruct (Nat.ltb_spec (length (uid x)) 8); [lia|]. rewrite bind_Ok. cbv zeta. unfold xapAddTimeoutAction.
  destruct (Z.ltb_spec 0 i); [|lia]. destruct (Z.ltb_spec i 1); [lia|].
  by destruct (io e =? BSC_OUTPUT).
Qed.

(** The endpoints are those of [base], unchanged, and sensors. *)
Definition extends (base : gmap addr endpoint) (w : world) : Prop :=
  base ⊆ endpoints w /\ forall p e, endpoints w !! p = Some e -> is_Some (base !! p) \/ name e = str "1wire".

Lemma extends_insert base p e w w' :
  extends base w -> base !! p = None -> name e = str "1wire" -> endpoints w' = <[p := e]> (endpoints w) -> extends base w'.
Proof.
  intros [H1 H2] Hp Hn He. rewrite map_subseteq_spec in H1. split.
  - rewrite map_subseteq_spec. intros q e' Hq. rewrite He, lookup_insert_ne by congruence. by apply H1.
  - intros q e'. rewrite He. destruct (decide (q = p)) as [->|].
    + rewrite lookup_insert_eq. intros [= <-]. by right.
    + rewrite lookup_insert_ne by done. apply H2.
Qed.

Lemma extends_eq base w w' : endpoints w' = endpoints w -> extends base w -> extends base w'.
Proof. unfold extends. by intros ->. Qed.

Lemma register_wf n x p w :
  ctl_wf n w -> live p w -> (tcount p (timeouts w) < n)%nat -> (8 <= length (uid x))%nat ->
  exists w', bscAddEndpointFilter x p 120 w = Ok w' /\ ctl_wf n w' /\ id w' = id w /\
    (exists e e', endpoints w !! p = Some e /\ name e' = name e /\ endpoints w' = <[p := e']> (endpoints w)) /\
    endpointList (app_state w') = endpointList (app_state w) /\
    (forall q, q <> p -> tcount q (timeouts w') = tcount q (timeouts w)).
Proof.
  intros Hw [e He] Hc Hu. destruct (push_filters_eq x p e 120 w He Hu ltac:(lia)) as (u & f1 & f2 & ->). cbv zeta.
  set (w1 := put_ep p (with_address u _ e) w). assert (He1 : endpoints w1 = <[p := with_address u (bscFQEN (source x) e) e]> (endpoints w)) by done. assert (Hk : keeps w w1) by (by apply (keeps_put_ep p e)). assert (Hid1 : id w1 = id w) by done. clearbody w1.
  set (w2 := if io e =? BSC_OUTPUT then _ else w1).
  assert (Hw1 : ctl_wf n w1) by (by eapply keeps_wf). assert (Hl1 : live p w1) by (eapply keeps_live; [done|by eexists]).
  assert (H2 : ctl_wf n w2 /\ live p w2 /\ timeouts w2 = timeouts w /\ endpoints w2 = endpoints w1 /\ id w2 = id w1 /\ app_state w2 = app_state w1).
  { unfold w2. destruct (_ =? _); rewrite <- (k_timeouts _ _ Hk); [|done]. split; [|done]. apply grow_filter; [done|]. by intros q [= <-]. }
  destruct H2 as (Hw2 & Hl2 & Ht2 & He2 & Hid2 & Ha2). clearbody w2.
  eexists. split; [reflexivity|]. split; [|split; [|split; [|split]]].
  - apply grow_timeout.
    + apply grow_filter; [done|]. by intros q [= <-].
    + intros q [= <-]. split; [done|]. cbn [push_filter timeouts]. by rewrite Ht2.
  - cbn [push_timeout push_filter id]. by rewrite Hid2.
  - eexists e, _. split; [done|]. split; [|cbn [push_timeout push_filter endpoints]; by rewrite He2, He1]. done.
  - cbn [push_timeout push_filter app_state]. by rewrite Ha2, (k_list _ _ Hk).
  - intros q Hq. cbn [push_timeout push_filter timeouts]. unfold ll_prepend. rewrite tcount_cons. cbn [tc_user_data].
    rewrite bool_decide_eq_false_2 by congruence. by rewrite Ht2.
Qed.

(** ** Creating sensors *)

Lemma new_sensor_wf n sub c i w :
  ctl_wf n w -> 0 <= id w < 256 ->
  exists w1, add_endpoint "1wire" sub BSC_INPUT BSC_STREAM c i w = Ok (next w, w1) /\
    forall s, ctl_wf n (put_sensor (next w) s w1) /\
      (exists e, name e = str "1wire" /\ endpoints (put_sensor (next w) s w1) = <[next w := e]> (endpoints w)) /\
      0 <= id (put_sensor (next w) s w1) < 256 /\ live (next w) (put_sensor (next w) s w1) /\
      tcount (next w) (timeouts (put_sensor (next w) s w1)) = 0%nat.
Proof.
  intros Hw Hid. destruct (ctl_add_endpoint "1wire" sub BSC_INPUT BSC_STREAM c i w Hid) as (e & Hn & ->).
  eexists. split; [reflexivity|]. intros s.
  assert (Hd : ~ live (next w) w) by (intros H%(wf_fresh n w Hw); lia).
  split; [|split; [by exists e|split; [|split]]].
  - apply (grow_endpoint n e w); try done.
    + cbn. lia.
    + intros q Hq. cbn. by rewrite lookup_insert_ne.
    + intros _. eexists. cbn. apply lookup_insert_eq.
  - cbn. apply u8_range.
  - unfold live. cbn. rewrite lookup_insert_eq. by eexists.
  - cbn. by apply (tcount_dead _ _ n).
Qed.

(** An endpoint has one timeout before it is registered and two after. *)
Definition bound (mode : add_mode) : nat := match mode with DELAYED => 1 | IMMEDIATE => 2 end.

Definition minutes_ok (t : Z) : Prop := t <= INT_MAX / 60.

Lemma minutes_mul t : 0 < t -> minutes_ok t -> mul_int t 60 = Ok (t * 60) /\ add_int (t * 60) (-10) = Ok (t * 60 + -10) /\ 50 <= t * 60 + -10.
Proof.
  unfold minutes_ok, mul_int, add_int. intros H0 Ht. assert (t * 60 <= INT_MAX) by (pose proof (Z.mul_div_le INT_MAX 60); lia).
  unfold INT_MIN, INT_MAX in *. destruct (Z.leb_spec (-2 ^ 31) (t * 60)), (Z.leb_spec (t * 60) (2 ^ 31 - 1)); try lia.
  destruct (Z.leb_spec (-2 ^ 31) (t * 60 + -10)), (Z.leb_spec (t * 60 + -10) (2 ^ 31 - 1)); try lia. repeat split. lia.
Qed.

Lemma add_timeout_eq c i ud w : 0 < i -> add_timeout c i ud w = Ok (push_timeout (app_timeout c) i ud w).
Proof. intros Hi. unfold add_timeout, xapAddTimeoutAction. by destruct (Z.ltb_spec i 1); [lia|]. Qed.

Section Sensors.
Context (ini : option (list Z)) (x : xAPIdent) (Hx : (8 <= length (uid x))%nat).

Lemma sensor_loop_wf base k i t mode w :
  ctl_wf (bound mode) w -> 0 <= id w < 256 -> minutes_ok t -> extends base w ->
  exists w', sensor_loop ini x k i t mode w = Ok w' /\ ctl_wf (bound mode) w' /\ extends base w' /\ 0 <= id w' < 256.
Proof.
  revert i w. induction k as [|k IH]; intros i w Hw Hid Ht Hb; [by exists w|]. cbn [sensor_loop]. cbv zeta.
  destruct (_ && _); [by apply IH|].
  assert (Hnb : base !! next w = None).
  { apply eq_None_not_Some. intros [e He]. destruct Hb as [Hb _]. rewrite map_subseteq_spec in Hb.
    pose proof (wf_fresh _ w Hw (next w)) as Hf. assert (next w < next w)%positive by (apply Hf; eexists; by apply Hb). lia. }
  destruct (new_sensor_wf (bound mode) (Some (snprintf 30 (fmt_d i))) None (Some infoEvent1wire_cb) w Hw Hid) as (w1 & -> & Hs).
  rewrite bind_Ok. cbv iota. set (p := next w) in *.
  match goal with |- context [put_sensor p ?s w1] => specialize (Hs s); set (w2 := put_sensor p s w1) in * end.
  destruct Hs as (Hw2 & (e2 & Hn2 & He2) & Hid2 & Hl2 & Hc2). clearbody w2.
  pose proof (extends_insert base p e2 w w2 Hb Hnb Hn2 He2) as Hb2.
  assert (Hp2 : endpoints w2 !! p = Some e2) by (rewrite He2; apply lookup_insert_eq).
  assert (Ht3 : exists w3, (if 0 <? t then ival ← mul_int t 60; add_timeout timeoutCheck1wire_cb ival (Some p) w2 else Ok w2) = Ok w3 /\
    ctl_wf (bound mode) w3 /\ endpoints w3 = endpoints w2 /\ 0 <= id w3 < 256 /\ (tcount p (timeouts w3) <= 1)%nat).
  { destruct (Z.ltb_spec 0 t) as [H0|]; [|exists w2; rewrite Hc2; split; [done|]; split; [done|]; split; [done|]; split; [done|]; lia].
    destruct (minutes_mul t H0 Ht) as (-> & _ & _). rewrite bind_Ok, add_timeout_eq by lia. eexists. split; [reflexivity|].
    split; [|split; [done|split; [done|]]].
    - apply grow_timeout; [done|]. intros q [= <-]. split; [done|]. rewrite Hc2. destruct mode; simpl; lia.
    - cbn [push_timeout timeouts]. unfold ll_prepend. rewrite tcount_cons, Hc2. case_bool_decide; lia. }
  destruct Ht3 as (w3 & -> & Hw3 & He3 & Hid3 & Hc3). rewrite bind_Ok.
  assert (Hb3 : extends base w3) by (by eapply extends_eq). assert (Hl3 : live p w3) by (eexists; by rewrite He3).
  assert (Hf : exists w4, match mode with IMMEDIATE => bscAddEndpointFilter x p 120 w3 | DELAYED => Ok w3 end = Ok w4 /\
    ctl_wf (bound mode) w4 /\ extends base w4 /\ 0 <= id w4 < 256).
  { destruct mode; [|by exists w3].
    destruct (register_wf 2 x p w3) as (w4 & -> & Hw4 & Hid4 & (e & e' & He & Hn & He4) & _ & _); [done|done|lia|done|].
    exists w4. rewrite Hid4. split; [done|]. split; [done|]. split; [|done]. apply (extends_insert base p e' w3); try done.
    rewrite Hn. rewrite He3, Hp2 in He. congruence. }
  destruct Hf as (w4 & -> & Hw4 & Hb4 & Hid4). rewrite bind_Ok. by apply IH.
Qed.

(** The timeout in the INI file, in minutes. *)
Definition ini_timeout : Z := ini_getl (Some (str "1wire")) (Some (str "timeout")) (-1) ini.

Lemma add_sensors_wf base mode w :
  ctl_wf (bound mode) w -> minutes_ok ini_timeout -> extends base w ->
  exists w', addOneWireIniEndpoints ini x mode w = Ok (sensor_count ini w, w') /\ ctl_wf (bound mode) w' /\ extends base w' /\ 0 <= id w' < 256.
Proof.
  intros Hw Ht Hb. unfold addOneWireIniEndpoints. cbv zeta. fold ini_timeout.
  destruct (sensor_loop_wf base (Z.to_nat (sensor_count ini w)) 1 ini_timeout mode (bscSetEndpointUID 128 w)) as (w1 & -> & Hw1 & Hb1 & Hid1).
  - by apply wf_uid.
  - cbn. apply u8_range.
  - done.
  - done.
  - rewrite bind_Ok. destruct (Z.ltb_spec 0 ini_timeout) as [H0|]; [|exists w1; by rewrite bind_Ok].
    destruct (minutes_mul ini_timeout H0 Ht) as (-> & H10 & H50). rewrite bind_Ok, H10, bind_Ok, add_timeout_eq by lia. rewrite bind_Ok.
    eexists. split; [reflexivity|]. split; [by apply grow_timeout|]. split; [|done]. by eapply extends_eq.
Qed.

End Sensors.

(** ** Deleting sensors *)

Abbreviation timeout_list := (list (xAPTimeoutCallback (bsc_timeout_cb lb_timeout) (option addr))).

Lemma tcount_app p l1 l2 : tcount p (l1 ++ l2) = (tcount p l1 + tcount p l2)%nat.
Proof. unfold tcount. by rewrite filter_app, length_app. Qed.

Lemma tcount_0 p (l : timeout_list) : tcount p l = 0%nat <-> Forall (fun t => tc_user_data t <> Some p) l.
Proof.
  induction l as [|t l IH]; [by split|]. rewrite tcount_cons, Forall_cons, <- IH. case_bool_decide; [|naive_solver lia]. split; [lia|naive_solver].
Qed.

(** Removing the first timeout of an endpoint, if it has one. *)
Lemma drop_timeout p (l : timeout_list) :
  ll_wf l ->
  exists l', match xapFindTimeoutByUserData (Some p) l with
             | Some tc => '(_, l') ← xapDelTimeoutAction (tc_addr tc) l; Ok l'
             | None => Ok l
             end = Ok l' /\ sublist l' l /\ tcount p l' = pred (tcount p l) /\ forall q, (tcount q l' <= tcount q l)%nat.
Proof.
  intros Hwf. unfold xapFindTimeoutByUserData. destruct (ll_search _ l) as [tc|] eqn:Hs.
  - apply ll_search_Some in Hs as [Hin Hud%bool_decide_eq_true]. apply list_elem_of_split in Hin as (l1 & l2 & ->).
    pose proof (ll_wf_before _ _ _ Hwf) as Hb. unfold xapDelTimeoutAction. change (tc_addr tc) with (node_addr tc).
    rewrite ll_node_app by done. cbn [of_opt]. rewrite bind_Ok. cbv beta iota. rewrite bind_Ok, ll_delete_app by done.
    exists (l1 ++ l2). split; [done|]. split; [by apply sublist_app, sublist_cons|]. split.
    + rewrite !tcount_app, tcount_cons, bool_decide_eq_true_2 by done. lia.
    + intros q. rewrite !tcount_app, tcount_cons. lia.
  - exists l. split; [done|]. split; [done|]. split; [|done]. apply ll_search_None in Hs.
    assert (tcount p l = 0%nat) as ->; [|done]. apply tcount_0. eapply Forall_impl; [exact Hs|].
    intros t Ht. by apply bool_decide_eq_false in Ht.
Qed.

Lemma sublist_wf {N} `{Node N} (l l' : list N) : sublist l' l -> ll_wf l -> ll_wf l'.
Proof. unfold ll_wf. intros Hs Hl. eapply sublist_NoDup; [exact Hl|]. by apply (fmap_sublist node_addr). Qed.

Lemma filter_sublist {A} (f : A -> bool) (l : list A) : sublist (List.filter f l) l.
Proof. induction l as [|y l IH]; [done|]. cbn [List.filter]. destruct (f y); by constructor. Qed.

Lemma del_sensor_wf n p e w :
  ctl_wf n w -> (n <= 2)%nat -> endpoints w !! p = Some e -> name e = str "1wire" ->
  exists w', del_sensor p w = Ok w' /\ ctl_wf n w' /\ endpoints w' = delete p (endpoints w) /\
    endpointList (app_state w') = filter (fun q => q <> p) (endpointList (app_state w)).
Proof.
  intros Hw Hn He Hname. pose proof Hw as [H1 H2 H3 H4 H5 H6 H7 H8 H9].
  destruct (H9 p e He Hname) as [t Ht].
  destruct (drop_timeout p (timeouts w) H6) as (l1 & E1 & Hs1 & Hc1 & Hq1).
  destruct (drop_timeout p l1 (sublist_wf _ _ Hs1 H6)) as (l2 & E2 & Hs2 & Hc2 & Hq2).
  assert (Hdead : tcount p l2 = 0%nat) by (specialize (H8 p); lia).
  unfold del_sensor. set (w0 := on_app _ w).
  assert (Hw0 : match xapFindTimeoutByUserData (Some p) (timeouts w0) with
      | Some cb => '(_, l) ← xapDelTimeoutAction (tc_addr cb) (timeouts w0); Ok (set_timeouts l w0)
      | None => Ok w0 end = Ok (set_timeouts l1 w0)).
  { change (timeouts w0) with (timeouts w). destruct (xapFindTimeoutByUserData (Some p) (timeouts w)).
    - inv_bind E1. destruct a as [u l]. rewrite Ha, bind_Ok. by injection E1 as ->.
    - injection E1 as <-. reflexivity. }
  cbv zeta. rewrite Hw0, bind_Ok. unfold bscDelEndpoint, get_ep. cbn [set_timeouts endpoints filters timeouts].
  change (endpoints w0) with (endpoints w). rewrite He. cbn [of_opt]. rewrite bind_Ok.
  change (filters w0) with (filters w). rewrite xapDelFilterActionForUserData_spec by done. rewrite bind_Ok. cbv beta iota. rewrite E2, bind_Ok.
  rewrite bind_Ok. unfold sensor_data. cbn [app_state]. change (userData (app_state (set_timeouts l1 w0))) with (userData (app_state w)).
  rewrite Ht, bind_Ok. eexists. split; [reflexivity|]. split; [|by split].
  set (fl := List.filter _ (filters w)). assert (Hfl : sublist fl (filters w)) by apply filter_sublist.
  assert (Hlive : forall q w1, endpoints w1 = delete p (endpoints w) -> live q w1 <-> q <> p /\ live q w).
  { intros q w1 Hw1. unfold live. rewrite Hw1. destruct (decide (q = p)) as [->|Hne].
    - rewrite lookup_delete_eq. split; [by intros []|naive_solver].
    - rewrite lookup_delete_ne by done. naive_solver. }
  split.
  - cbn. by apply NoDup_filter.
  - intros q. rewrite (Hlive q) by done. cbn. rewrite list_elem_of_filter, H2. done.
  - intros q. rewrite (Hlive q) by done. cbn. intros [_ Hq]. by apply H3.
  - cbn. by eapply sublist_wf.
  - cbn. rewrite Forall_forall. intros f Hf. pose proof Hf as Hf'. unfold fl in Hf'. apply list_elem_of_In, filter_In in Hf' as [Hin Hud].
    rewrite Forall_forall in H5. destruct (H5 f ltac:(by apply list_elem_of_In)) as [Ha Hl]. split; [done|]. intros q Hq.
    rewrite (Hlive q) by done. split; [|by apply Hl]. intros ->. rewrite bool_decide_eq_true_2 in Hud; done.
  - cbn. eapply sublist_wf; [exact Hs2|]. by eapply sublist_wf.
  - cbn. apply tcount_0 in Hdead. rewrite Forall_forall in Hdead |- *. intros tc Htc.
    assert (Hin : tc ∈ timeouts w). { eapply sublist_subseteq; [|exact Htc]. by etrans. }
    rewrite Forall_forall in H7. destruct (H7 tc Hin) as [Ha Hl]. split; [done|]. intros q Hq.
    rewrite (Hlive q) by done. split; [|by apply Hl]. intros ->. by apply (Hdead tc Htc).
  - intros q. etransitivity; [exact (Hq2 q)|]. etransitivity; [exact (Hq1 q)|apply H8].
  - intros q e'. cbn. intros [Hne He']%lookup_delete_Some Hname'. rewrite lookup_delete_ne by done. by apply (H9 q e').
Qed.

Definition is_sensor (e : endpoint) : bool := strcmp0 (name e) (str "1wire").

Lemma del_sensors_wf n l w :
  ctl_wf n w -> (n <= 2)%nat -> NoDup l -> (forall p, p ∈ l -> live p w) ->
  exists w', del_sensors l w = Ok w' /\ ctl_wf n w' /\
    forall p, endpoints w' !! p = match endpoints w !! p with
      | Some e => if is_sensor e && bool_decide (p ∈ l) then None else Some e
      | None => None end.
Proof.
  intros Hw Hn Hnd. revert w Hw. induction Hnd as [|q l Hq Hnd IH]; intros w Hw Hl.
  - exists w. split; [done|]. split; [done|]. intros p. rewrite bool_decide_eq_false_2 by apply not_elem_of_nil.
    destruct (endpoints w !! p); [|done]. by rewrite andb_false_r.
  - cbn [del_sensors]. destruct (Hl q) as [e He]; [by left|]. unfold get_ep. rewrite He. cbn [of_opt]. rewrite bind_Ok. fold (is_sensor e).
    destruct (is_sensor e) eqn:Hs.
    + unfold is_sensor in Hs. pose proof Hs as Hname. apply strcmp0_spec in Hname.
      destruct (del_sensor_wf n q e w Hw Hn He Hname) as (w1 & E1 & Hw1 & He1 & _). rewrite E1, bind_Ok.
      destruct (IH w1 Hw1) as (w2 & E2 & Hw2 & He2).
      { intros p Hp. unfold live. rewrite He1, lookup_delete_ne by congruence. apply Hl. by right. }
      exists w2. split; [done|]. split; [done|].
      intros p. rewrite He2, He1. destruct (decide (p = q)) as [->|Hne].
      * rewrite lookup_delete_eq, He. unfold is_sensor. rewrite Hs, bool_decide_eq_true_2 by (by left). done.
      * rewrite lookup_delete_ne by done. destruct (endpoints w !! p); [|done]. rewrite (bool_decide_ext (p ∈ q :: l) (p ∈ l)); [done|].
        rewrite elem_of_cons. naive_solver.
    + rewrite bind_Ok. destruct (IH w Hw) as (w2 & E2 & Hw2 & He2). { intros p Hp. apply Hl. by right. }
      exists w2. split; [done|]. split; [done|]. intros p. rewrite He2. destruct (endpoints w !! p) as [e'|] eqn:Hp; [|done].
      destruct (decide (p = q)) as [->|Hne].
      * assert (e' = e) as -> by congruence. by rewrite Hs.
      * rewrite (bool_decide_ext (p ∈ q :: l) (p ∈ l)); [done|]. rewrite elem_of_cons. naive_solver.
Qed.

(** ** The reload *)

Lemma del_by_func f (l : timeout_list) :
  ll_wf l -> exists ud l', xapDelTimeoutActionByFunc f l = Ok (ud, l') /\ sublist l' l.
Proof.
  intros Hwf. unfold xapDelTimeoutActionByFunc.
  assert (H : forall pre r, pre ++ r = l -> exists ud l', del_by_func_loop f r l = Ok (ud, l') /\ sublist l' l); [|by apply (H [])].
  intros pre r. revert pre. induction r as [|t r IH]; intros pre Hl; cbn [del_by_func_loop]; [by exists None, l|].
  case_bool_decide; [|apply (IH (pre ++ [t])); by rewrite <- app_assoc]. subst l. unfold xapDelTimeoutAction.
  change (tc_addr t) with (node_addr t). rewrite ll_node_app by (by eapply ll_wf_before). cbn [of_opt]. rewrite !bind_Ok.
  eexists _, _. split; [reflexivity|]. apply ll_delete_sublist.
Qed.

Lemma tcount_sublist p (l l' : timeout_list) : sublist l' l -> (tcount p l' <= tcount p l)%nat.
Proof. induction 1; rewrite ?tcount_cons; lia. Qed.

Lemma shrink_timeouts n l w : sublist l (timeouts w) -> ctl_wf n w -> ctl_wf n (set_timeouts l w).
Proof.
  intros Hs [H1 H2 H3 H4 H5 H6 H7 H8 H9]. split; try done.
  - cbn. by eapply sublist_wf.
  - cbn. by eapply Forall_sublist.
  - intros p. etransitivity; [|apply (H8 p)]. by apply tcount_sublist.
Qed.

Definition no_sensors (m : gmap addr endpoint) : gmap addr endpoint := filter (fun '(_, e) => is_sensor e = false) m.

Lemma reset_wf ini x w :
  ctl_wf 2 w -> (8 <= length (uid x))%nat -> minutes_ok (ini_timeout ini) ->
  exists w', resetOneWireEndpoints ini x w = Ok w' /\ ctl_wf 2 w' /\ extends (no_sensors (endpoints w)) w'.
Proof.
  intros Hw Hx Ht. unfold resetOneWireEndpoints. set (w0 := serialSend _ _).
  assert (Hk : keeps w w0 /\ endpoints w0 = endpoints w).
  { unfold w0. split.
    - etransitivity; [|apply keeps_serialSend]. destruct (1 <? _); eauto with keeps.
    - unfold serialSend. by repeat case_match. }
  destruct Hk as [Hk He0]. clearbody w0. pose proof (keeps_wf 2 w w0 Hk Hw) as Hw0. cbv zeta.
  destruct (del_sensors_wf 2 (endpointList (app_state w0)) w0 Hw0 ltac:(lia) (wf_nodup 2 w0 Hw0)) as (w1 & -> & Hw1 & He1).
  { intros p. by apply (wf_live 2). }
  rewrite bind_Ok. destruct (del_by_func (app_timeout timeoutReport1wire_cb) (timeouts w1) (wf_timeouts 2 w1 Hw1)) as (ud & l & -> & Hl).
  rewrite bind_Ok. cbv beta iota.
  assert (Hb : endpoints w1 = no_sensors (endpoints w)).
  { apply map_eq. intros p. unfold no_sensors. rewrite He1, He0, map_lookup_filter. destruct (endpoints w !! p) as [e|] eqn:He; [|done].
    simpl. rewrite bool_decide_eq_true_2; [|apply (wf_live 2 w0 Hw0); unfold live; rewrite He0; by eexists].
    rewrite andb_true_r. by destruct (is_sensor e). }
  destruct (add_sensors_wf ini x Hx (no_sensors (endpoints w)) IMMEDIATE (set_timeouts l w1)) as (w2 & -> & Hw2 & Hb2 & _).
  - by apply shrink_timeouts.
  - done.
  - split; cbn [set_timeouts endpoints]; rewrite Hb; [done|]. intros p e Hp. left. by eexists.
  - rewrite bind_Ok. cbv beta iota. eexists. split; [reflexivity|].
    destruct (0 <? _); [|done]. unfold timeoutReport1wire.
    assert (Hs : forall t, ctl_wf 2 (serialSend t w2) /\ extends (no_sensors (endpoints w)) (serialSend t w2)).
    { intros t. split; [eapply keeps_wf; [apply keeps_serialSend|done]|]. eapply extends_eq; [|done]. unfold serialSend. by case_match. }
    destruct (_ && _); apply Hs.
Qed.

(** ** The start *)

Definition starting (w : world) : Prop := ctl_wf 1 w /\ 0 <= id w < 256.

Lemma starting_keeps w w' : keeps w w' -> starting w -> starting w'.
Proof. intros Hk [Hw Hid]. split; [by eapply keeps_wf|]. by rewrite (k_id _ _ Hk). Qed.

Lemma starting_send t w : starting w -> starting (serialSend t w).
Proof. apply starting_keeps, keeps_serialSend. Qed.

Lemma starting_uid k w : starting w -> starting (bscSetEndpointUID k w).
Proof. intros [Hw _]. split; [by apply wf_uid|]. cbn. apply u8_range. Qed.

(** An endpoint that is not a sensor, with or without data. *)
Lemma starting_add nm sub dir typ c i (u : option ppeEndpoint) p w w' :
  str nm <> str "1wire" -> starting w -> add_endpoint nm sub dir typ c i w = Ok (p, w') ->
  starting (match u with Some d => on_app (fun a => set_user (<[p := Ppe d]> (userData a)) a) w' | None => w' end).
Proof.
  intros Hnm [Hw Hid] H. destruct (ctl_add_endpoint nm sub dir typ c i w Hid) as (e & Hn & E). rewrite E in H. injection H as <- <-.
  destruct u as [d|]; (split; [|cbn; apply u8_range]); apply (grow_endpoint 1 e w); try done; try (cbn; lia); try congruence.
  intros q Hq. cbn. by rewrite lookup_insert_ne.
Qed.

Lemma board_loop_starting nm k i dir c w w' :
  str nm <> str "1wire" -> starting w -> board_loop k nm i dir c w = Ok w' -> starting w'.
Proof.
  intros Hnm. revert i w. induction k as [|k IH]; intros i w Hw H; [by injection H as <-|]. cbn [board_loop] in H. inv_bind H.
  destruct a as [p w1]. apply (IH (i + 1) w1); [|done]. by apply (starting_add _ _ _ _ _ _ None _ _ _ Hnm Hw Ha).
Qed.

Lemma board_starting lcd w w' : starting w -> board_endpoints w = Ok (lcd, w') -> starting w'.
Proof.
  intros Hw H. unfold board_endpoints in H. inv_bind H. destruct a as [p w1].
  apply (starting_add _ _ _ _ _ _ None) in Ha; [|by apply (bool_decide_eq_false_1 _)|done]. inv_bind H. rename a into w2.
  apply board_loop_starting in Ha0; [|by apply (bool_decide_eq_false_1 _)|done]. inv_bind H. rename a into w3.
  apply board_loop_starting in Ha1; [|by apply (bool_decide_eq_false_1 _)|by apply starting_uid]. by injection H as _ <-.
Qed.

Lemma add_ppe_starting sub typ c d w w' : starting w -> add_ppe sub typ c d w = Ok w' -> starting w'.
Proof.
  intros Hw H. unfold add_ppe in H. inv_bind H. destruct a as [p w1]. injection H as <-.
  refine (starting_add _ _ _ _ _ _ (Some d) _ _ _ _ Hw Ha). by apply (bool_decide_eq_false_1 _).
Qed.

Lemma add_pins_starting k pin sec d w w' : starting w -> add_pins k pin sec d w = Ok w' -> starting w'.
Proof.
  revert pin w. induction k as [|k IH]; intros pin w Hw H; [by injection H as <-|]. cbn [add_pins] in H. inv_bind H.
  apply (IH (pin + 1) a); [|done]. by eapply add_ppe_starting.
Qed.

Section Start.
Context (ini : option (list Z)) (x : xAPIdent) (Hx : (8 <= length (uid x))%nat) (Ht : minutes_ok (ini_timeout ini)).

Lemma ppe_starting sec w w' : starting w -> addPPEendpoints ini sec w = Ok w' -> starting w'.
Proof.
  intros Hw H. unfold addPPEendpoints in H. cbv zeta in H. destruct (_ || _); [by injection H as <-|].
  destruct (ini_gets _ _ _ _ _ _) as [k s]. destruct (k =? 0); [by injection H as <-|]. inv_bind H.
  destruct (_ || _); [by injection H as <-|]. destruct (ini_gets _ _ _ _ _ _) as [k2 m]. destruct (k2 =? 0); [by injection H as <-|].
  apply (starting_uid ((atoi (drop 3 sec) - 1) * 8 + 32)) in Hw.
  destruct (strcasecmp0 _ _); [|destruct (strcasecmp0 _ _); [|by injection H as <-]]; inv_bind H; injection H as <-; apply starting_send.
  - by eapply add_ppe_starting.
  - by eapply add_pins_starting.
Qed.

Lemma rf_code_starting sec i j w : starting w -> starting (rf_code ini sec i j w).
Proof. intros Hw. unfold rf_code. destruct (ini_gets _ _ _ _ _ _) as [k s]. destruct (k =? 0); [done|by apply starting_send]. Qed.

Lemma rf_loop_starting k i sec w w' : starting w -> rf_loop ini k i sec w = Ok w' -> starting w'.
Proof.
  revert i w. induction k as [|k IH]; intros i w Hw H; [by injection H as <-|]. cbn [rf_loop] in H. inv_bind H. destruct a as [p w1].
  apply (IH (i + 1) _) in H; [done|]. apply rf_code_starting, rf_code_starting.
  refine (starting_add _ _ _ _ _ _ None _ _ _ _ Hw Ha). by apply (bool_decide_eq_false_1 _).
Qed.

Lemma urf_loop_starting k i w w' : starting w -> urf_loop k i w = Ok w' -> starting w'.
Proof.
  revert i w. induction k as [|k IH]; intros i w Hw H; [by injection H as <-|]. cbn [urf_loop] in H. inv_bind H. destruct a as [p w1].
  apply (IH (i + 1) w1); [|done].
  refine (starting_add _ _ _ _ _ _ None _ _ _ _ Hw Ha). by apply (bool_decide_eq_false_1 _).
Qed.

Lemma section_starting sec w w' : starting w -> ini_section ini x sec w = Ok w' -> starting w'.
Proof.
  intros Hw H. unfold ini_section in H. destruct (strncmp0 _ _ _); [by eapply ppe_starting|].
  destruct (strcmp0 _ _).
  - destruct Hw as [Hw Hid]. destruct (add_sensors_wf ini x Hx (endpoints w) DELAYED w Hw Ht) as (w1 & E & Hw1 & _ & Hid1).
    { split; [done|]. intros p e Hp. left. by eexists. }
    rewrite E, bind_Ok in H. by injection H as <-.
  - destruct (_ && _); [by eapply rf_loop_starting; [apply starting_uid|]|].
    destruct (_ && _); [by eapply urf_loop_starting; [apply starting_uid|]|by injection H as <-].
Qed.

Lemma ini_starting w w' : starting w -> addIniEndpoints ini x w = Ok w' -> starting w'.
Proof.
  unfold addIniEndpoints, reset_i2c_ppe. intros Hw. assert (Hw1 : starting (serialSend (str "i2c R") (firmwareVersionOverride ini w))).
  { apply starting_send. unfold firmwareVersionOverride. repeat (destruct (ini_gets _ _ _ _ _ _)). case_match; [|done].
    destruct Hw as [Hw Hid]. split; [|done]. eapply keeps_wf; [|done]. unfold setFirmwareVersion. eauto with keeps. }
  clear Hw. revert Hw1. generalize (serialSend (str "i2c R") (firmwareVersionOverride ini w)). generalize 0.
  generalize (S (length (default [] ini))). intros f. induction f as [|f IH]; intros s w1 Hw1 H; [by injection H as <-|].
  cbn [section_loop] in H. destruct (ini_getsection _ _ _ _) as [k sec]. destruct (0 <? k); [|by injection H as <-]. inv_bind H.
  eapply IH; [|exact H]. by eapply section_starting.
Qed.

Lemma register_all l w w' :
  ctl_wf 2 w -> NoDup l -> (forall p, p ∈ l -> live p w /\ (tcount p (timeouts w) <= 1)%nat) ->
  bscAddEndpointFilterList x l 120 w = Ok w' -> ctl_wf 2 w'.
Proof.
  intros Hw Hnd. revert w Hw. induction Hnd as [|p l Hp Hnd IH]; intros w Hw Hl H; [by injection H as <-|].
  cbn [bscAddEndpointFilterList] in H. destruct (Hl p) as [Hlp Hc]; [by left|].
  destruct (register_wf 2 x p w Hw Hlp ltac:(lia) Hx) as (w1 & E & Hw1 & _ & (e & e' & _ & _ & He1) & _ & Hq).
  rewrite E, bind_Ok in H. apply (IH w1); [done| |done]. intros q Hq'. assert (Hne : q <> p) by congruence.
  destruct (Hl q) as [Hlq Hcq]; [by right|]. split; [unfold live; by rewrite He1, lookup_insert_ne|by rewrite Hq].
Qed.

Lemma ctl_setup_wf now w w' : starting w -> controller_setup ini x now w = Ok w' -> ctl_wf 2 w'.
Proof.
  intros Hw H. unfold controller_setup in H. inv_bind H. destruct a as [lcd w1]. apply board_starting in Ha; [|done].
  inv_bind H. rename a into w2. apply ini_starting in Ha0 as [Hw2 _]; [|done].
  inv_bind H. rename a into w3. apply register_all in Ha0; [|by eapply wf_mono; [|exact Hw2]; lia|by apply (wf_nodup 1)|].
  2:{ intros p Hp. split; [by apply (wf_live 1)|by apply (wf_count 1)]. }
  set (w4 := if 1 <? firmwareMajor w3 then _ else w3) in H.
  assert (Hw4 : ctl_wf 2 w4).
  { unfold w4. destruct (1 <? _); [|done]. apply (grow_filter 2 (app_filter _)); [|done]. by apply (grow_filter 2 (app_filter _)). }
  clearbody w4. cbv zeta in H. inv_bind H. rename a into e. unfold get_ep in Ha1. apply of_opt_Ok in Ha1. cbn [bscSetText] in H. rewrite bind_Ok in H.
  inv_bind H. rename a into w5. injection H as <-. eapply keeps_wf; [apply keeps_serialSend|].
  set (w4' := put_ep lcd _ w4) in Ha2. assert (Hk : keeps w4 w4') by (by apply (keeps_put_ep lcd e)).
  destruct (cmd_event_handler ini now lcd w4') as [_ Hk5]; [eapply keeps_live; [done|by eexists]|].
  eapply keeps_wf; [apply (Hk5 w5 Ha2)|]. by eapply keeps_wf.
Qed.

End Start.

(** ** Requests of the web pages *)

Section Requests.
Context (ini : option (list Z)) (x : xAPIdent).

Lemma find_live nm sub w :
  listed w -> no_uaf (find_endpoint nm sub w) /\ forall p, find_endpoint nm sub w = Ok (Some p) -> live p w.
Proof.
  intros Hl. unfold find_endpoint. destruct nm as [n|], (endpointList (app_state w)) as [|q l] eqn:El; try done.
  destruct (find_endpoint_live (q :: l) n sub w) as [H1 H2].
  { intros p Hp. apply Hl. by rewrite El. }
  split; [done|]. intros p Hp. apply Hl. rewrite El. by apply H2.
Qed.

Lemma action_loop_handler f now arg w : listed w -> handler snd w (action_loop ini f now arg w).
Proof.
  revert arg w. induction f as [|f IH]; intros arg w Hl; [by apply handler_Ok|]. cbn [action_loop].
  destruct (strtok 32 arg) as [[t r]|]; [|by apply handler_Ok]. destruct (action_parts t) as [[[n sub] [st|]]|]; [|by apply handler_Ok..].
  destruct (find_live (Some n) sub w Hl) as [F1 F2]. apply handler_pure; [done|]. intros e He.
  apply (handler_bind _ (fun w => w)).
  - destruct e as [p|]; [|by hstep]. pose proof (F2 p He) as Hp. hstep.
    assert (Hk : keeps w (put_ep p (bscSetState (bscDecodeState (Some st)) e) w)) by (by apply (keeps_put_ep p e)).
    eapply handler_after; [exact Hk|]. apply cmd_event_handler. by eapply keeps_live.
  - intros w1 _ Hk. apply IH. by eapply keeps_listed.
Qed.

Lemma no_uaf_roms w : no_uaf (buildListOfUnassignedROMS w).
Proof.
  unfold buildListOfUnassignedROMS. destruct (unassignedROMIDList (app_state w)) as [|u l]; [done|].
  apply no_uaf_bind; [|done]. generalize rom_title. generalize (u :: l). intros l'. induction l' as [|v l' IH]; intros t; [done|].
  cbn [rom_rows]. apply no_uaf_bind; [apply no_uaf_sb_append|]. intros. apply IH.
Qed.

Lemma no_uaf_query args w : listed w -> no_uaf (msg_query args w).
Proof.
  intros Hl. unfold msg_query. cbv zeta. destruct (match args ≫= strtok 46 with Some (n, r) => _ | None => _ end) as [nm sub].
  destruct (find_live nm sub w Hl) as [F1 F2]. apply no_uaf_bind; [done|]. intros [p|] Hp; [|done].
  unfold get_ep. destruct (F2 p Hp) as [e ->]. cbn [of_opt]. rewrite bind_Ok. destruct (_ =? _); [|done].
  apply no_uaf_bind; [auto with uaf|done].
Qed.

Lemma request_wf now req w :
  ctl_wf 2 w -> (8 <= length (uid x))%nat -> minutes_ok (ini_timeout ini) ->
  no_uaf (svr_answer ini x now req w) /\ forall r w', svr_answer ini x now req w = Ok (r, w') -> ctl_wf 2 w'.
Proof.
  intros Hw Hx Ht. pose proof (wf_listed 2 w Hw) as Hl.
  assert (Hm : no_uaf (msg_handler ini x now req w) /\ forall r w', msg_handler ini x now req w = Ok (r, w') -> ctl_wf 2 w').
  { assert (Hh : forall m : out (option cstr * world), handler snd w m -> no_uaf m /\ forall r w', m = Ok (r, w') -> ctl_wf 2 w').
    { intros m [H1 H2]. split; [done|]. intros r w' Hr. by eapply keeps_wf; [apply (H2 _ Hr)|]. }
    unfold msg_handler. destruct (strtok 32 req) as [[c rest]|]; [|done]. cbv zeta.
    destruct (strcmp0 _ _). { apply Hh. apply handler_pure; [by apply no_uaf_query|]. intros. by hstep. }
    destruct (strcmp0 _ _). { apply Hh. apply handler_pure; [unfold sprintf_buf; by case_match|]. intros. by hstep. }
    destruct (strcmp0 _ _). { destruct (reset_wf ini x w Hw Hx Ht) as (w1 & -> & Hw1 & _). rewrite bind_Ok. split; [done|]. by intros r w' [= _ <-]. }
    destruct (strcmp0 _ _). { apply Hh. apply handler_pure; [apply no_uaf_roms|]. intros. by hstep. }
    destruct (strcmp0 _ _). { apply Hh. unfold msg_action. destruct (strtok_rest rest); [|by apply handler_undef].
      apply (handler_bind _ snd); [by apply action_loop_handler|]. intros [r w1] _ Hk. by apply handler_Ok. }
    destruct (strcmp0 _ _). { apply Hh. by hstep. }
    destruct (strcmp0 _ _); [|apply Hh; by hstep]. apply Hh. destruct (find_live (Some (str "lcd")) None w Hl) as [F1 F2].
    apply handler_pure; [done|]. intros [p|] Hp; [|by hstep]. pose proof (F2 p Hp). hstep. destruct (strtok_rest rest) as [t|]; [|by apply handler_undef].
    cbn [bscSetText]. rewrite bind_Ok. assert (Hk : keeps w (put_ep p (with_text (Some t) e) w)) by (by apply (keeps_put_ep p e)).
    eapply handler_after; [exact Hk|]. apply (handler_bind _ (fun w => w)); [apply cmd_event_handler; by eapply keeps_live|].
    intros w1 _ Hk1. by hstep. }
  destruct Hm as [H1 H2]. unfold svr_answer. split.
  - apply no_uaf_bind; [done|]. intros [r w1] _. apply no_uaf_bind; [auto with uaf|done].
  - intros r w' H. inv_bind H. destruct a as [r1 w1]. inv_bind H. injection H as _ <-. by eapply H2.
Qed.

End Requests.

(** ** Dispatch *)

Section Dispatching.
Context (ini : option (list Z)) (now : Z).

Abbreviation run_f := (run_bsc_filter (run_cmd ini) (run_info ini) run_filter now).
Abbreviation run_t := (run_bsc_timeout (run_info ini) (run_timeout now) now).

Lemma run_f_handler c ud w : (forall p, ud = Some p -> live p w) -> whandler w (run_f c ud w).
Proof.
  intros Hl. destruct c; cbn [run_bsc_filter]; [| |apply rf_handler];
    (destruct ud as [p|]; [|by apply handler_undef]); cbn [of_opt]; rewrite bind_Ok.
  - by apply incoming_cmd_handler, Hl.
  - by apply send_info_handler, Hl.
Qed.

Lemma run_t_handler c i ud w : (forall p, ud = Some p -> live p w) -> whandler w (run_t c i ud w).
Proof.
  intros Hl. destruct c; cbn [run_bsc_timeout]; [|by apply timeout_handler].
  destruct ud as [p|]; [|by apply handler_undef]. cbn [of_opt]. rewrite bind_Ok. by apply info_timeout_handler, Hl.
Qed.

(** A callback that returns had a live endpoint, if it needs one. *)
Lemma run_f_keeps c ud w w' : run_f c ud w = Ok w' -> keeps w w'.
Proof.
  destruct c as [| |f]; [| |by apply rf_handler]; intros H; (destruct ud as [p|]; [|done]);
    (destruct (decide (live p w)) as [Hl|Hn]; [refine (proj2 (run_f_handler _ (Some p) w _) _ H); by intros q [= <-]|]);
    exfalso; apply Hn; cbn [run_bsc_filter of_opt] in H; rewrite bind_Ok in H;
    unfold bscIncomingCmd, bscIncomingQuery, bscSendInfo, bscSendInfoEvent in H; inv_bind H; apply of_opt_Ok in Ha; by eexists.
Qed.

Lemma run_t_keeps c i ud w w' : run_t c i ud w = Ok w' -> keeps w w'.
Proof.
  destruct c as [|[]]; intros H.
  - destruct ud as [p|]; [|done]. cbn [run_bsc_timeout of_opt] in H. rewrite bind_Ok in H. pose proof H as H'.
    unfold bscInfoTimeout in H'. inv_bind H'. apply of_opt_Ok in Ha. apply (info_timeout_handler ini now i p w); [by eexists|done].
  - destruct ud as [p|]; [|done]. pose proof H as H'. cbn in H'. inv_bind H'. apply of_opt_Ok in Ha.
    apply (run_t_handler (app_timeout timeoutCheck1wire_cb) i (Some p) w); [|done]. intros q [= <-]. by eexists.
  - by apply (run_t_handler (app_timeout timeoutReport1wire_cb) i None w).
Qed.

(** An iteration whose bodies keep an invariant. *)
Lemma iter_inv {N} (I J : world -> Prop) (body : N -> world -> out world) l w :
  (forall y w, y ∈ l -> I w -> no_uaf (body y w) /\ forall w', body y w = Ok w' -> I w') -> I w -> (forall w, I w -> J w) ->
  no_uaf (iter_all body l w) /\ forall w', iter_all body l w = Ok w' -> J w'.
Proof.
  intros Hb Hi HJ. revert w Hb Hi. induction l as [|y l IH]; intros w Hb Hi; cbn [iter_all].
  - split; [done|]. intros w' [= <-]. by apply HJ.
  - destruct (Hb y w ltac:(by left) Hi) as [H1 H2].
    assert (IH' : forall w1, body y w = Ok w1 -> no_uaf (iter_all body l w1) /\ forall w', iter_all body l w1 = Ok w' -> J w').
    { intros w1 Hw1. apply IH; [|by apply H2]. intros z w2 Hz. apply Hb. by right. }
    split.
    + apply no_uaf_bind; [done|]. intros w1 Hw1. by apply IH'.
    + intros w' H. inv_bind H. by eapply IH'.
Qed.

Lemma no_uaf_compare fr fl : no_uaf (xapCompareFilters fr fl).
Proof.
  unfold xapCompareFilters. generalize true. induction fl as [|f fl IH]; intros m; [done|]. cbn [compare_loop].
  destruct m; [|done]. apply no_uaf_bind; [apply no_uaf_get_value|]. intros v _. repeat case_match; first [apply IH|done].
Qed.

Lemma on_message_wf n w :
  ctl_wf n w -> no_uaf (on_message ini now w) /\ forall w', on_message ini now w = Ok w' -> ctl_wf n w'.
Proof.
  intros Hw. unfold on_message, bsc_filterDispatch, filterDispatch. rewrite LL_FOREACH_SAFE_iter; [|clear|apply (wf_filters n w Hw)].
  - apply (iter_inv (fun w1 => ctl_wf n w1 /\ filters w1 = filters w)); [|by split|by intros w1 []].
    intros cb w1 Hcb [Hw1 Hf]. unfold dispatch_body.
    assert (Hlive : forall p, Filter.user_data cb = Some p -> live p w1).
    { intros p Hp. pose proof (wf_filter_live n w1 Hw1) as Hfl. rewrite Hf, Forall_forall in Hfl. by apply (Hfl cb Hcb). }
    destruct (run_f_handler (callback cb) (Filter.user_data cb) w1 Hlive) as [R1 R2]. split.
    + apply no_uaf_bind; [apply no_uaf_compare|]. intros [] _; [exact R1|done].
    + intros w2 H. inv_bind H. destruct a; [|by injection H as <-]. specialize (R2 _ H).
      split; [by eapply keeps_wf|]. by rewrite (k_filters _ _ R2).
  - intros cb w1 w2 r pre Hg Hwf H. unfold dispatch_body in H. inv_bind H. assert (Hf : filters w2 = filters w1).
    { destruct a; [|by injection H as <-]. by apply run_f_keeps, k_filters in H. }
    rewrite Hf. split; [done|]. exists (pre ++ [cb]). rewrite Hg. by rewrite <- app_assoc.
Qed.

(** ** The clock *)

Lemma touch_wf n a t w : ctl_wf n w -> ctl_wf n (set_timeouts (ll_update a (set_ttl t) (timeouts w)) w).
Proof.
  intros [H1 H2 H3 H4 H5 H6 H7 H8 H9].
  assert (Hl : Forall2 (fun y z => tc_addr y = tc_addr z /\ tc_user_data y = tc_user_data z)
    (ll_update a (set_ttl t) (timeouts w)) (timeouts w)).
  { unfold ll_update. clear. induction (timeouts w) as [|y l IH]; [constructor|]. cbn [map]. constructor; [by case_bool_decide|exact IH]. }
  assert (Ha : map node_addr (ll_update a (set_ttl t) (timeouts w)) = map node_addr (timeouts w)) by (by apply ll_update_addr).
  revert Hl Ha. generalize (ll_update a (set_ttl t) (timeouts w)). intros l Hl Ha. split; try done; cbn [set_timeouts timeouts next].
  - unfold ll_wf in *. by rewrite Ha.
  - change (Forall (fun t => (tc_addr t < next w)%positive /\ forall p, tc_user_data t = Some p -> live p w) l).
    clear - H7 Hl. induction Hl as [|y z l l' [Hy Hu] _ IH]; [done|]. apply Forall_cons in H7 as [Hz H7]. constructor; [|by apply IH].
    by rewrite Hy, Hu.
  - intros p. rewrite <- (H8 p). clear - Hl. induction Hl as [|y z l l' [Hy Hu] _ IH]; [done|]. rewrite !tcount_cons, Hu. lia.
Qed.

Lemma on_clock_wf n w :
  ctl_wf n w -> no_uaf (on_clock ini now w) /\ forall w', on_clock ini now w = Ok w' -> ctl_wf n w'.
Proof.
  intros Hw. unfold on_clock, bsc_timeoutDispatch. rewrite dispatch_eq; [|done| |apply (wf_timeouts n w Hw)].
  2:{ intros cb i ud w1 w2 H. by apply run_t_keeps, k_timeouts in H. }
  apply (iter_inv (fun w1 => ctl_wf n w1 /\ forall p, live p w -> live p w1)); [|by split|by intros w1 []].
  intros cb w1 Hcb [Hw1 Hl]. apply list_elem_of_In, filter_In in Hcb as [Hcb _]. unfold fire.
  assert (Hlive : forall p t w2, w2 = set_timeouts (ll_update (tc_addr cb) (set_ttl t) (timeouts w1)) w1 -> tc_user_data cb = Some p -> live p w2).
  { intros p t w2 -> Hp. apply (Hl p). pose proof (wf_timeout_live n w Hw) as Htl. rewrite Forall_forall in Htl.
    apply (Htl cb); [by apply list_elem_of_In|done]. }
  split.
  - apply no_uaf_bind; [auto with uaf|]. intros t _. apply run_t_handler. intros p Hp. by eapply Hlive.
  - intros w2 H. inv_bind H. pose proof (run_t_keeps _ _ _ _ _ H) as Hk. split.
    + eapply keeps_wf; [exact Hk|]. by apply touch_wf.
    + intros p Hp. eapply keeps_live; [exact Hk|]. by apply Hl.
Qed.

End Dispatching.

(** ** Reachable states *)

Section Reach.
Context (ini : option (list Z)) (x : xAPIdent).

(** The state before [main] creates endpoints, from the answers of the AVR. *)
Definition blank_world (w : world) : Prop :=
  endpoints w = ∅ /\ filters w = [] /\ timeouts w = [] /\ endpointList (app_state w) = [] /\ 0 <= id w < 256.

(** What the main loop runs: a message, whatever the frame holds, the timeouts,
    bytes from the AVR, and a request of the web server. *)
Inductive ctl_event :=
| ev_message (now : Z) (f : xAPFrame)
| ev_clock (now : Z)
| ev_serial (now : Z) (d : option (list Z))
| ev_request (now : Z) (req : cstr).

Definition ctl_step (ev : ctl_event) (w : world) : out world :=
  match ev with
  | ev_message now f => on_message ini now (set_bframe f w)
  | ev_clock now => on_clock ini now w
  | ev_serial now d => '(_, w) ← serialInputHandler ini now d w; Ok w
  | ev_request now req => '(_, w) ← svr_answer ini x now req w; Ok w
  end.

Inductive reachable : world -> Prop :=
| reach_start fd baud now reads w0 r w1 w :
    blank_world w0 -> setupSerialPort ini fd baud now reads w0 = Ok (r, w1) -> controller_setup ini x now w1 = Ok w -> reachable w
| reach_step ev w w' : reachable w -> ctl_step ev w = Ok w' -> reachable w'.

Lemma start_starting w : blank_world w -> starting w.
Proof.
  intros (He & Hf & Ht & Hl & Hid). split; [|done].
  split; unfold live; rewrite ?He, ?Hf, ?Ht, ?Hl; try (by constructor); try done.
  - intros p. rewrite lookup_empty, elem_of_nil. split; [by intros []|done].
  - intros p. rewrite lookup_empty. by intros [].
Qed.

Lemma version_loop_handler r k now reads w : listed w -> whandler w (version_loop ini r k now reads w).
Proof.
  revert k w. induction r as [|r IH]; intros k w Hl; [by apply handler_Ok|]. cbn [version_loop].
  eapply handler_after; [apply keeps_serialSend|]. apply (handler_bind _ snd).
  - apply serial_input_handler. by eapply keeps_listed; [apply keeps_serialSend|].
  - intros [n w1] _ Hk. destruct (n =? 0); [|by apply handler_Ok]. apply IH. eapply keeps_listed; [exact Hk|].
    by eapply keeps_listed; [apply keeps_serialSend|].
Qed.

Lemma serial_port_starting fd baud now reads w r w' :
  starting w -> setupSerialPort ini fd baud now reads w = Ok (r, w') -> starting w'.
Proof.
  intros Hw H. unfold setupSerialPort in H. destruct (fd <? 0); [by injection H as _ <-|]. cbv zeta in H. inv_bind H.
  injection H as _ <-. eapply (starting_keeps w); [|done]. set (w1 := on_app _ w) in Ha.
  assert (Hk : keeps w w1) by (unfold w1; eauto with keeps). etransitivity; [exact Hk|].
  apply (version_loop_handler 3 0 now reads w1); [|exact Ha]. eapply keeps_listed; [exact Hk|]. destruct Hw as [Hw _]. by eapply wf_listed.
Qed.

Lemma ctl_step_wf ev w :
  (8 <= length (uid x))%nat -> minutes_ok (ini_timeout ini) -> ctl_wf 2 w ->
  no_uaf (ctl_step ev w) /\ forall w', ctl_step ev w = Ok w' -> ctl_wf 2 w'.
Proof.
  intros Hx Ht Hw. destruct ev as [now f|now|now d|now req]; cbn [ctl_step].
  - by apply on_message_wf, wf_frame.
  - by apply on_clock_wf.
  - destruct (serial_input_handler ini now d w (wf_listed 2 w Hw)) as [H1 H2]. split.
    + apply no_uaf_bind; [done|]. by intros [] _.
    + intros w' H. inv_bind H. destruct a as [n w1]. injection H as <-. eapply keeps_wf; [apply (H2 _ Ha)|done].
  - destruct (request_wf ini x now req w Hw Hx Ht) as [H1 H2]. split.
    + apply no_uaf_bind; [done|]. by intros [] _.
    + intros w' H. inv_bind H. destruct a as [n w1]. injection H as <-. by eapply H2.
Qed.

End Reach.

(** ** Temperature sensors *)

Definition sensor_ep (e : endpoint) : Prop :=
  fields_ok e /\ type e = BSC_STREAM /\ infoEvent e = Some infoEvent1wire_cb /\
  (length (pstr (ep_uid e)) + length (pstr (ep_source e)) <= 1000)%nat /\
  (length (pstr (text e)) <= 100)%nat /\ (length (pstr (displayText e)) <= 100)%nat.

Lemma sensor_fits e clazz : sensor_ep e -> (length clazz <= 12)%nat -> (length (print_msg (info_msg e clazz)) <= 1499)%nat.
Proof.
  intros ([Hio Hst] & Hty & _ & Hlen & Htx & Hds) Hc. rewrite info_text, Hty. rewrite !length_app.
  assert (length (match displayText e with Some (d :: ds) => str "displaytext=" ++ (d :: ds) ++ [10%Z] | _ => [] end)
          <= 13 + length (pstr (displayText e)))%nat.
  { destruct (displayText e) as [[|d ds]|]; cbn [pstr]; rewrite ?length_app; simpl; lia. }
  assert (length (state_text (ep_state e)) <= 3)%nat by (unfold state_text; repeat case_match; simpl; lia).
  assert (length (io_text (io e)) <= 6)%nat by (unfold io_text; repeat case_match; simpl; lia).
  simpl in *. rewrite !length_app. simpl in *. lia.
Qed.

Lemma sensor_ep_text txt e : sensor_ep e -> (length txt <= 100)%nat -> sensor_ep (with_text (Some txt) e).
Proof. intros (? & ? & ? & ? & ? & ?) Ht. unfold sensor_ep. cbn. auto 10. Qed.

Lemma sensor_ep_state s e : sensor_ep e -> 0 <= s <= 3 -> sensor_ep (with_state s e).
Proof. intros ([? ?] & ? & ? & ? & ? & ?) Ht. unfold sensor_ep, fields_ok. cbn. auto 10. Qed.

Definition show_label (t : tempSensor) (txt : cstr) (e : endpoint) : endpoint :=
  match sensor_label t with Some l => with_display (snprintf 64 (l ++ [32] ++ txt)) e | None => e end.

Lemma sensor_ep_label t txt e : sensor_ep e -> sensor_ep (show_label t txt e).
Proof.
  intros He. pose proof He as (? & ? & ? & ? & ? & ?). unfold show_label. destruct (sensor_label t); [|done].
  unfold sensor_ep. cbn [with_display type infoEvent ep_uid ep_source text displayText io ep_state pstr]. unfold snprintf. rewrite length_take.
  split_and!; done || lia.
Qed.

Definition with_prev (v : cstr) (t : tempSensor) : tempSensor :=
  mkSensor (lastSerialEvent t) (romid t) (hysteresis t) (offset t) (sensor_label t) v.

(** A report of a sensor, in any class. *)
Lemma sensor_report ini now p e t txt clazz w :
  endpoints w !! p = Some e -> userData (app_state w) !! p = Some (TempSensor t) -> sensor_ep e -> text e = Some txt ->
  (length clazz <= 12)%nat ->
  let '(new, e1) := calibrate t txt e in
  let e2 := show_label t (pstr (text e1)) e1 in
  bscSendInfoEvent (run_info ini) now p clazz w =
  if strcmp0 clazz BSC_INFO_CLASS || out_of_band t new || (last_report e =? 0)
  then Ok (reported now p e2 (print_msg (info_msg e2 clazz)) (put_sensor p (with_prev (take 5 (pstr (text e1))) t) (put_ep p e2 w)))
  else Ok (put_ep p e1 w).
Proof.
  intros He Hu Hs Ht Hc. destruct (calibrate t txt e) as [new e1] eqn:Hcal.
  assert (Hs1 : sensor_ep e1 /\ last_report e1 = last_report e).
  { unfold calibrate in Hcal. destruct (ftrue (offset t)); injection Hcal as _ <-; [|done]. split; [|done]. apply sensor_ep_text; [done|].
    unfold snprintf. rewrite length_take. lia. }
  destruct Hs1 as [Hs1 Hl1]. cbv zeta. unfold bscSendInfoEvent, get_ep. rewrite He. cbn [of_opt]. rewrite bind_Ok.
  pose proof Hs as (_ & _ & Hi & _). rewrite Hi. cbn [run_info]. unfold infoEvent1wire, get_ep. rewrite He. cbn [of_opt]. rewrite bind_Ok.
  unfold sensor_data. rewrite Hu, bind_Ok, Ht. cbn [of_opt]. rewrite bind_Ok, Hcal, Hl1. cbv zeta.
  destruct (_ || _); [|by rewrite bind_Ok]. rewrite bind_Ok. fold (show_label t (pstr (text e1)) e1). fold (with_prev (take 5 (pstr (text e1))) t).
  set (e2 := show_label t (pstr (text e1)) e1). assert (Hs2 : sensor_ep e2) by (by apply sensor_ep_label).
  pose proof (sensor_fits e2 clazz Hs2 Hc) as Hf. rewrite (info_event_eq now p clazz _ e2).
  - by rewrite take_ge by lia.
  - cbn. apply lookup_insert_eq.
  - apply Hs2.
  - lia.
Qed.

(** [k] queries for an endpoint, one after the other. *)
Fixpoint queries (ini : option (list Z)) (k : nat) (now : Z) (p : addr) (w : world) : out world :=
  match k with O => Ok w | S k => w ← bscIncomingQuery (run_info ini) now p w; queries ini k now p w end.

(** ** Sections of the INI file *)

Lemma find_section_bound S i idx ls sp ep j r :
  find_section S i idx ls = Some (sp, ep, j, r) -> j <= idx + Z.of_nat (length ls).
Proof.
  revert idx. induction ls as [|l ls IH]; intros idx H; [done|]. cbn [find_section] in H. cbv zeta in H. cbn [length].
  destruct (strchr _ 93) as [e|]; [|apply IH in H; lia]. destruct (negb _); [apply IH in H; lia|].
  destruct (_ || _); [|injection H as _ _ <- _; lia]. destruct (_ =? _); [injection H as _ _ <- _; lia|]. apply IH in H. lia.
Qed.

Lemma read_loop_length f s : (length (read_loop f s) <= f)%nat.
Proof. revert s. induction f as [|f IH]; intros s; [done|]. cbn [read_loop]. destruct s as [|c s]; [simpl; lia|]. destruct (fgets _ _). simpl. specialize (IH l0). lia. Qed.

(** There is no section behind the last character. *)
Lemma getsection_end ini s :
  Z.of_nat (length (default [] ini)) <= s -> fst (ini_getsection s [] 30 ini) = 0.
Proof.
  intros Hs. unfold ini_getsection. destruct (Z.ltb_spec s 0); [lia|]. cbn [Z.leb orb Z.compare].
  destruct ini as [f|]; [|done]. cbn [mbind option_bind default] in *. unfold getkeystring. cbn [opt_str length Nat.ltb Nat.leb orb].
  destruct (Z.leb_spec 0 s); [|lia]. destruct (find_section [] s (-1) (ini_read f)) as [[[[sp ep] j] r]|] eqn:Hf; [|done].
  apply find_section_bound in Hf. pose proof (read_loop_length (length f) f). unfold ini_read in Hf.
  destruct (Z.eqb_spec j s); [|done]. unfold Datatypes.id in Hs. lia.
Qed.

Lemma section_loop_fuel ini x f1 f2 s w :
  Z.of_nat (length (default [] ini)) < s + Z.of_nat f1 -> Z.of_nat (length (default [] ini)) < s + Z.of_nat f2 ->
  section_loop ini x f1 s w = section_loop ini x f2 s w.
Proof.
  assert (Hend : forall f s w, Z.of_nat (length (default [] ini)) <= s -> section_loop ini x f s w = Ok w).
  { intros f s0 w0 Hs. destruct f; [done|]. cbn [section_loop]. pose proof (getsection_end ini s0 Hs) as H.
    destruct (ini_getsection s0 [] 30 ini) as [n sec]. simpl in H. by subst n. }
  revert f2 s w. induction f1 as [|f1 IH]; intros f2 s w H1 H2; [rewrite !Hend by lia; done|].
  destruct f2 as [|f2]; [rewrite !Hend by lia; done|]. cbn [section_loop]. destruct (ini_getsection s [] 30 ini) as [n sec].
  destruct (0 <? n); [|done]. destruct (ini_section ini x sec w); [|done|done]. rewrite !bind_Ok. apply IH; lia.
Qed.

(** ** RF devices *)

(** The addresses of the endpoints of a list. *)
Definition sub_of (w : world) (p : addr) : option cstr := e ← endpoints w !! p; subaddr e.

Lemma urf_loop_subs k i w :
  0 <= id w < 256 -> (forall p, p ∈ endpointList (app_state w) -> (p < next w)%positive) ->
  exists w', urf_loop k i w = Ok w' /\
    map (sub_of w') (endpointList (app_state w')) =
    rev (map (fun j => Some (snprintf 3 (fmt_d j))) (seqZ i (Z.of_nat k))) ++ map (sub_of w) (endpointList (app_state w)).
Proof.
  revert i w. induction k as [|k IH]; intros i w Hid Hf; [by exists w|]. cbn [urf_loop].
  unfold add_endpoint, bscAddEndpoint, sprintf_buf. rewrite (fmt_X2_length (id w) Hid). change (Z.of_nat 2 <? 3) with true. cbn match.
  rewrite !bind_Ok. cbv beta iota zeta.
  match goal with |- context [on_app _ ?w1] => set (w0 := on_app _ w1) end.
  destruct (IH (i + 1) w0) as (w' & E & Hm).
  - cbn. apply u8_range.
  - intros p. unfold w0. cbn. rewrite elem_of_cons. intros [->|Hp%Hf]; lia.
  - exists w'. split; [exact E|]. rewrite Hm, (seqZ_cons i) by lia. replace (Z.pred (Z.of_nat (S k))) with (Z.of_nat k) by lia.
    replace (Z.succ i) with (i + 1) by lia. cbn [map rev]. rewrite <- app_assoc. f_equal.
    change (endpointList (app_state w0)) with (next w :: endpointList (app_state w)). cbn [map app]. f_equal.
    + unfold sub_of, w0. cbn. by rewrite lookup_insert_eq.
    + apply map_ext_in. intros p Hp. apply list_elem_of_In, Hf in Hp. unfold sub_of, w0. cbn. by rewrite lookup_insert_ne by lia.
Qed.

Definition rf_subs (n : Z) : list (option cstr) := map (fun j => Some (snprintf 3 (fmt_d j))) (seqZ 1 n).

Lemma rf_subs_distinct n : 0 <= n <= 99 -> NoDup (rf_subs n).
Proof.
  intros Hn. assert (H99 : NoDup (rf_subs 99)) by (apply (bool_decide_eq_true_1 _); vm_compute; reflexivity).
  unfold rf_subs in *. replace 99 with (n + (99 - n)) in H99 by lia. rewrite seqZ_app, map_app in H99 by lia. apply NoDup_app in H99 as [H99 _]. exact H99.
Qed.

Lemma rf_subs_collide n : 100 <= n -> ~ NoDup (rf_subs n).
Proof.
  intros Hn H. unfold rf_subs in H. replace n with (100 + (n - 100)) in H by lia. rewrite seqZ_app, map_app in H by lia.
  apply NoDup_app in H as [H _]. revert H. change (~ NoDup (rf_subs 100)). apply (bool_decide_eq_false_1 _). vm_compute. reflexivity.
Qed.

(** ** Examples *)

Definition demo_ini : list Z :=
  file_text [str "[1wire]"; str "devices=1"; str "timeout=5"; str "sensor1.romid=1020304050607080"; str "sensor1.offset=1.0"; str "sensor1.label=Attic"].
Definition empty_world : world := mkBsc ∅ [] [] (load_packet []) [] 1 1 (mkLivebox [] ∅ 2 0 0 [] [] [] []).
Definition demo_reads (k : nat) : option (list Z) := Some (str "rev 2.5" ++ [10]).
Definition or_empty (m : out world) : world := match m with Ok w => w | _ => empty_world end.
Definition booted : world :=
  or_empty ('(_, w) ← setupSerialPort (Some demo_ini) 5 0 100 demo_reads empty_world; controller_setup (Some demo_ini) demo_xap 100 w).

Lemma booted_reachable : reachable (Some demo_ini) demo_xap booted.
Proof.
  eapply (reach_start (Some demo_ini) demo_xap 5 0 100 demo_reads empty_world 5); [by repeat split|vm_compute; reflexivity|vm_compute; reflexivity].
Qed.


(** * Theorems *)

(** C18.  In every state the controller can reach, from its start through any sequence
    of messages, timeouts, lines from the AVR and requests of the web pages, the
    reload of the sensors included, the callbacks of the filters and of the
    timeouts point to endpoints that exist, the list of endpoints holds exactly
    the existing ones, and no further event makes the program touch freed memory. *)
Theorem controller_no_dangling (ini : option (list Z)) (x : xAPIdent) (w : world) :
  (8 <= length (uid x))%nat -> minutes_ok (ini_timeout ini) -> reachable ini x w ->
  (forall f p, f ∈ filters w -> Filter.user_data f = Some p -> live p w) /\
  (forall t p, t ∈ timeouts w -> tc_user_data t = Some p -> live p w) /\
  (forall p, live p w <-> p ∈ endpointList (app_state w)) /\
  (forall ev, no_uaf (ctl_step ini x ev w)).
Proof.
  intros Hx Ht Hr. assert (Hw : ctl_wf 2 w).
  { induction Hr as [fd baud now reads w0 r w1 w Hb Hs Hc|ev w w' _ IH Hs].
    - eapply (ctl_setup_wf ini x Hx Ht); [|exact Hc]. eapply serial_port_starting; [by apply start_starting|exact Hs].
    - by eapply ctl_step_wf. }
  pose proof (wf_filter_live 2 w Hw) as Hf. pose proof (wf_timeout_live 2 w Hw) as Htl. rewrite Forall_forall in Hf. rewrite Forall_forall in Htl.
  split; [|split; [|split]].
  - intros f p Hin. by apply Hf.
  - intros t p Hin. by apply Htl.
  - apply (wf_live 2 w Hw).
  - intros ev. by apply ctl_step_wf.
Qed.

Lemma controller_no_dangling_witness :
  no_uaf (ctl_step (Some demo_ini) demo_xap (ev_request 200 (str "1wirereset")) booted) /\ live 10 booted.
Proof.
  destruct (controller_no_dangling (Some demo_ini) demo_xap booted) as (_ & _ & Hl & Hs).
  - apply Nat.leb_le. reflexivity.
  - unfold minutes_ok. apply Z.leb_le. vm_compute. reflexivity.
  - exact booted_reachable.
  - split; [apply Hs|]. apply Hl. apply (bool_decide_eq_true_1 _). vm_compute. reflexivity.
Defined.

(** C22.  The reload of the one-wire sensors always completes when the timeout of the
    INI file can be expressed in seconds; it leaves every other endpoint exactly
    as it was, every further endpoint is a sensor, every sensor has its data, and
    no endpoint has more than two timeouts. *)
Theorem resetOneWireEndpoints_spec (ini : option (list Z)) (x : xAPIdent) (w : world) :
  ctl_wf 2 w -> (8 <= length (uid x))%nat -> minutes_ok (ini_timeout ini) ->
  exists w', resetOneWireEndpoints ini x w = Ok w' /\ ctl_wf 2 w' /\
    (forall p e, endpoints w !! p = Some e -> is_sensor e = false -> endpoints w' !! p = Some e) /\
    (forall p e, endpoints w' !! p = Some e -> is_sensor e = false -> endpoints w !! p = Some e).
Proof.
  intros Hw Hx Ht. destruct (reset_wf ini x w Hw Hx Ht) as (w' & E & Hw' & Hb & Hs). exists w'. split; [done|]. split; [done|].
  rewrite map_subseteq_spec in Hb. split.
  - intros p e He Hn. apply Hb. by apply map_lookup_filter_Some.
  - intros p e He Hn. destruct (Hs p e He) as [[e' He']|Hname].
    + assert (e' = e) as -> by (apply Hb in He'; congruence). by apply map_lookup_filter_Some in He' as [? _].
    + unfold is_sensor in Hn. by rewrite Hname in Hn.
Qed.

Lemma booted_wf : ctl_wf 2 booted.
Proof.
  eapply (ctl_setup_wf (Some demo_ini) demo_xap _ _ 100 (or_empty ('(_, w) ← setupSerialPort (Some demo_ini) 5 0 100 demo_reads empty_world; Ok w))).
  - eapply (serial_port_starting (Some demo_ini) 5 0 100 demo_reads empty_world 5); [|vm_compute; reflexivity].
    apply start_starting. by repeat split.
  - vm_compute. reflexivity.
  Unshelve.
  + apply Nat.leb_le. reflexivity.
  + unfold minutes_ok. apply Z.leb_le. vm_compute. reflexivity.
Qed.

Lemma resetOneWireEndpoints_spec_witness :
  exists w', resetOneWireEndpoints (Some demo_ini) demo_xap booted = Ok w' /\ endpoints w' !! 6%positive = endpoints booted !! 6%positive.
Proof.
  destruct (resetOneWireEndpoints_spec (Some demo_ini) demo_xap booted) as (w' & E & _ & Hk & _).
  - exact booted_wf.
  - apply Nat.leb_le. reflexivity.
  - unfold minutes_ok. apply Z.leb_le. vm_compute. reflexivity.
  - exists w'. split; [exact E|]. destruct (endpoints booted !! 6%positive) as [e|] eqn:He; [|by vm_compute in He].
    apply Hk; [exact He|]. vm_compute in He. injection He as <-. vm_compute. reflexivity.
Defined.

(** The loop over the sections of the INI file ends: whatever the file contains,
    there is no section behind its last character, so that any bound on the
    number of rounds above its length gives the same result. *)
Theorem addIniEndpoints_terminates (ini : option (list Z)) (x : xAPIdent) (fuel : nat) (w : world) :
  (length (default [] ini) < fuel)%nat ->
  section_loop ini x fuel 0 (reset_i2c_ppe (firmwareVersionOverride ini w)) = addIniEndpoints ini x w.
Proof. intros Hf. apply section_loop_fuel; lia. Qed.

Lemma addIniEndpoints_terminates_witness :
  section_loop (Some (str "[rf]")) demo_xap 1000 0 (reset_i2c_ppe (firmwareVersionOverride (Some (str "[rf]")) empty_world))
  = addIniEndpoints (Some (str "[rf]")) demo_xap empty_world.
Proof. apply addIniEndpoints_terminates. apply Nat.ltb_lt. reflexivity. Defined.

(** The world after the line of a sensor. *)
Definition sensor_line_world (now : Z) (p : addr) (e : endpoint) (t : tempSensor) (temp : cstr) (w : world) : world :=
  let e1 := with_text (Some temp) (with_state BSC_STATE_ON e) in
  let e2 := show_label t temp e1 in
  let '(ep, msgs, prev) :=
    if out_of_band t (to_float (atof temp)) || (last_report e =? 0)
    then (with_report now e2, [print_msg (info_msg e2 BSC_EVENT_CLASS)], take 5 temp)
    else (e1, [], prevValue t) in
  mkBsc (<[p := ep]> (endpoints w)) (filters w) (timeouts w) (bframe w) (sent w ++ msgs) (id w) (next w)
    (set_user (<[p := TempSensor (mkSensor now (romid t) (hysteresis t) (offset t) (sensor_label t) prev)]> (userData (app_state w))) (app_state w)).

(** The AVR's report of a sensor without calibration, ["1wire romid temperature"]:
    the sensor with this ROM id takes the temperature and the state on; an event
    announces it only when the reading left the band of the hysteresis around
    the last one reported, or nothing was ever reported; only then does the
    reading become the centre of the band.  The time of the line is noted, and
    nothing else changes. *)
Theorem sensor_line_spec (ini : option (list Z)) (now : Z) (p : addr) (e : endpoint) (t : tempSensor) (rid temp : cstr) (w : world) :
  1 < firmwareMajor w -> findROMID (str "1wire") rid w = Ok (Some p) -> endpoints w !! p = Some e ->
  userData (app_state w) !! p = Some (TempSensor t) -> sensor_ep e -> ftrue (offset t) = false ->
  word rid -> (length rid <= 16)%nat -> word temp -> (length temp <= 100)%nat ->
  processSerialCommand ini now (join [str "1wire"; rid; temp]) w = Ok (sensor_line_world now p e t temp w).
Proof.
  intros Hfw Hfind He Hu Hs Ho Hr Hrl Htw Htl. unfold processSerialCommand. rewrite bool_decide_eq_false_2 by done.
  rewrite tokenize_join; [|apply Forall_cons_2; [by apply word_str|]; apply Forall_cons_2; [done|]; by apply Forall_singleton|done].
  cbn [length Nat.add Nat.leb app]. rewrite bind_Ok. unfold dispatch. change (strcmp0 (str "1wire") (str "input")) with false. rewrite strcmp0_refl. cbn [length Nat.ltb Nat.leb].
  unfold serin_1wire. cbn [lookup list_lookup of_opt]. rewrite !bind_Ok. destruct (Nat.ltb_spec 16 (length rid)); [lia|].
  destruct (Z.ltb_spec 1 (firmwareMajor w)); [|lia]. cbv zeta. rewrite Hfind, bind_Ok. unfold get_ep. rewrite He. cbn [of_opt].
  rewrite bind_Ok. cbn [bscSetText]. rewrite bind_Ok. change (bscSetState BSC_STATE_ON e) with (with_state BSC_STATE_ON e).
  set (e1 := with_text (Some temp) (with_state BSC_STATE_ON e)). unfold bscSendEvent.
  pose proof (sensor_report ini now p e1 t temp BSC_EVENT_CLASS (put_ep p e1 w)) as Hrep. unfold calibrate in Hrep. rewrite Ho in Hrep. rewrite Hrep.
  - clear Hrep. change (strcmp0 BSC_EVENT_CLASS BSC_INFO_CLASS) with false. cbn [orb text pstr e1]. change (last_report e1) with (last_report e).
    unfold sensor_line_world. fold e1. destruct (_ || _).
    + rewrite bind_Ok. unfold reported, put_sensor, put_ep, set_endpoints, on_app, set_app, get_ep, sensor_data.
      cbn [endpoints filters timeouts bframe sent id next app_state set_user userData]. rewrite !lookup_insert_eq. cbn [of_opt]. rewrite !bind_Ok.
      rewrite !insert_insert_eq. done.
    + rewrite bind_Ok. unfold put_sensor, put_ep, set_endpoints, on_app, set_app, get_ep, sensor_data.
      cbn [endpoints filters timeouts bframe sent id next app_state set_user userData]. rewrite !lookup_insert_eq, Hu. cbn [of_opt]. rewrite !bind_Ok.
      rewrite !insert_insert_eq, app_nil_r. done.
  - cbn. apply lookup_insert_eq.
  - exact Hu.
  - apply sensor_ep_text; [|done]. apply sensor_ep_state; [done|]. unfold BSC_STATE_ON. lia.
  - done.
  - apply Nat.leb_le. reflexivity.
Qed.

Definition demo_sensor (txt : cstr) : endpoint :=
  mkEndpoint (str "1wire") (Some (str "1")) (str "80") BSC_INPUT BSC_STREAM BSC_STATE_ON (Some txt) None (Some infoEvent1wire_cb)
    None 50 (Some (str "FF00DB80")) (Some (str "dbzoo.livebox.Controller:1wire.1")).
Definition demo_data (off : string) : tempSensor :=
  mkSensor 50 (str "1020304050607080") (to_float (atof (str "0.5"))) (to_float (atof (str off))) (Some (str "Attic")) (str "20.0").
Definition sensor_world (txt : cstr) (off : string) : world :=
  mkBsc {[ 1%positive := demo_sensor txt ]} [] [] (load_packet []) [] 129 2
    (mkLivebox [1%positive] {[ 1%positive := TempSensor (demo_data off) ]} 2 5 5 [] [] [] []).

Lemma demo_sensor_ok txt : (length txt <= 100)%nat -> sensor_ep (demo_sensor txt).
Proof.
  intros Ht. unfold sensor_ep, fields_ok. cbn [demo_sensor io ep_state type infoEvent ep_uid ep_source text displayText pstr].
  split_and!; try done; apply Nat.leb_le; reflexivity.
Qed.

Lemma sensor_line_spec_witness :
  processSerialCommand None 100 (join [str "1wire"; str "1020304050607080"; str "20.3"]) (sensor_world (str "20.0") "0")
  = Ok (sensor_line_world 100 1 (demo_sensor (str "20.0")) (demo_data "0") (str "20.3") (sensor_world (str "20.0") "0")).
Proof.
  apply (sensor_line_spec None 100 1 (demo_sensor (str "20.0")) (demo_data "0") (str "1020304050607080") (str "20.3") (sensor_world (str "20.0") "0")).
  - reflexivity.
  - reflexivity.
  - reflexivity.
  - reflexivity.
  - apply demo_sensor_ok. apply Nat.leb_le. reflexivity.
  - vm_compute. reflexivity.
  - by apply word_str.
  - apply Nat.leb_le. reflexivity.
  - by apply word_str.
  - apply Nat.leb_le. reflexivity.
Defined.

(** The band of half a degree: 20.3 is not announced, 20.6 is. *)
Example sensor_band :
  out_of_band (demo_data "0") (to_float (atof (str "20.3"))) = false /\ out_of_band (demo_data "0") (to_float (atof (str "20.6"))) = true.
Proof. split; vm_compute; reflexivity. Qed.

Lemma one_degree_true : ftrue one_degree = true.
Proof. vm_compute. reflexivity. Qed.

Lemma query_calibrates ini now p e t txt new w :
  endpoints w !! p = Some e -> userData (app_state w) !! p = Some (TempSensor t) -> sensor_ep e -> text e = Some txt ->
  ftrue (offset t) = true -> fmt_f1 (fadd (to_float (atof txt)) (offset t)) = new -> (length new <= 5)%nat ->
  exists w' e' t', bscIncomingQuery (run_info ini) now p w = Ok w' /\ endpoints w' !! p = Some e' /\ sensor_ep e' /\ text e' = Some new /\
    ep_state e' = ep_state e /\ userData (app_state w') !! p = Some (TempSensor t') /\ offset t' = offset t.
Proof.
  intros He Hu Hs Ht Ho Hn Hl. unfold bscIncomingQuery, bscSendInfo.
  pose proof (sensor_report ini now p e t txt BSC_INFO_CLASS w He Hu Hs Ht) as Hr. unfold calibrate in Hr. rewrite Ho, Hn in Hr.
  unfold snprintf in Hr. change (6 - 1)%nat with 5%nat in Hr. rewrite take_ge in Hr by done. cbv zeta in Hr. rewrite Hr by (apply Nat.leb_le; reflexivity). clear Hr.
  change (strcmp0 BSC_INFO_CLASS BSC_INFO_CLASS) with true. cbn [orb]. set (e1 := with_text (Some new) e).
  set (e2 := show_label t (pstr (text e1)) e1). assert (Hs2 : sensor_ep e2) by (apply sensor_ep_label, sensor_ep_text; [done|lia]).
  assert (H2 : text e2 = Some new /\ ep_state e2 = ep_state e) by (unfold e2, show_label; by destruct (sensor_label t)).
  eexists _, (with_report now e2), _. split; [reflexivity|]. split; [cbn; apply lookup_insert_eq|]. split; [exact Hs2|]. split; [apply H2|]. split; [apply H2|].
  split; [cbn; apply lookup_insert_eq|done].
Qed.



(** A sensor that has fallen silent: the timeout sets its state to unknown and
    its text to a question mark, but when the sensor has an offset the next query
    turns the question mark into the offset, which is sent as a temperature. *)
Theorem sensor_timeout_offset (ini : option (list Z)) (now i : Z) (p : addr) (e : endpoint) (t : tempSensor) (o : Z) (w : world) :
  endpoints w !! p = Some e -> userData (app_state w) !! p = Some (TempSensor t) -> sensor_ep e ->
  int_range (lastSerialEvent t + i) -> lastSerialEvent t + i < now ->
  offset t = to_float (atof (temperature_text o)) -> ftrue (offset t) = true -> -550 <= o <= 1270 ->
  exists w1 w2 e2, timeoutCheck1wire now i (Some p) w = Ok w1 /\ (text <$> endpoints w1 !! p) = Some (Some (str "?")) /\
    bscIncomingQuery (run_info ini) now p w1 = Ok w2 /\ endpoints w2 !! p = Some e2 /\
    ep_state e2 = BSC_STATE_UNKNOWN /\ text e2 = Some (temperature_text o).
Proof.
  intros He Hu Hs Hr Hlt Ho Hf Hor. set (e1 := with_text (Some (str "?")) (with_state BSC_STATE_UNKNOWN e)).
  assert (Hs1 : sensor_ep e1). { apply sensor_ep_text; [apply sensor_ep_state; [done|unfold BSC_STATE_UNKNOWN; lia]|apply Nat.leb_le; reflexivity]. }
  destruct (query_calibrates ini now p e1 t (str "?") (temperature_text o) (put_ep p e1 w)) as (w2 & e2 & t2 & E & He2 & _ & Ht2 & Hst & _).
  - cbn. apply lookup_insert_eq.
  - exact Hu.
  - exact Hs1.
  - done.
  - exact Hf.
  - change (to_float (atof (str "?"))) with fzero. rewrite fadd_zero_l, Ho by done. by apply temperature_print.
  - by apply temperature_length.
  - exists (put_ep p e1 w), w2, e2. split; [|split; [|by split_and!]].
    + unfold timeoutCheck1wire. cbn [of_opt]. rewrite bind_Ok. unfold get_ep. rewrite He. cbn [of_opt]. rewrite bind_Ok.
      unfold sensor_data. rewrite Hu, bind_Ok, add_int_Ok, bind_Ok by done. destruct (Z.ltb_spec (lastSerialEvent t + i) now); [|lia]. done.
    + cbn. by rewrite lookup_insert_eq.
Qed.

Lemma sensor_timeout_offset_witness :
  exists w1 w2 e2, timeoutCheck1wire 1000 300 (Some 1%positive) (sensor_world (str "20.0") "1.0") = Ok w1 /\
    bscIncomingQuery (run_info None) 1000 1 w1 = Ok w2 /\ endpoints w2 !! 1%positive = Some e2 /\ text e2 = Some (str "1.0").
Proof.
  destruct (sensor_timeout_offset None 1000 300 1 (demo_sensor (str "20.0")) (demo_data "1.0") 10 (sensor_world (str "20.0") "1.0"))
    as (w1 & w2 & e2 & E1 & _ & E2 & He & _ & Ht).
  - reflexivity.
  - reflexivity.
  - apply demo_sensor_ok. apply Nat.leb_le. reflexivity.
  - cbn. unfold int_range, INT_MIN, INT_MAX. lia.
  - cbn. lia.
  - vm_compute. reflexivity.
  - vm_compute. reflexivity.
  - lia.
  - exists w1, w2, e2. split; [exact E1|]. split; [exact E2|]. split; [exact He|]. rewrite Ht. vm_compute. reflexivity.
Defined.

(** The devices of the universal RF transmitter are numbered from 1 in the order of
    the INI file, but their addresses keep two digits only: up to 99 of them are
    distinct, from the hundredth on two devices share an address. *)
Theorem urf_addresses (n : Z) (w : world) :
  0 <= n -> 0 <= id w < 256 -> endpointList (app_state w) = [] ->
  exists w', urf_loop (Z.to_nat n) 1 w = Ok w' /\ map (sub_of w') (rev (endpointList (app_state w'))) = rf_subs n /\
    (NoDup (map (sub_of w') (endpointList (app_state w'))) <-> n <= 99).
Proof.
  intros Hn Hid Hl. destruct (urf_loop_subs (Z.to_nat n) 1 w Hid) as (w' & E & Hm).
  { intros p. rewrite Hl. by intros ?%elem_of_nil. }
  rewrite Hl, app_nil_r, Z2Nat.id in Hm by lia. fold (rf_subs n) in Hm. exists w'. split; [done|].
  assert (Hr : map (sub_of w') (rev (endpointList (app_state w'))) = rf_subs n) by (by rewrite map_rev, Hm, rev_involutive).
  split; [done|]. rewrite Hm. assert (Hrev : NoDup (rev (rf_subs n)) <-> NoDup (rf_subs n)).
  { rewrite !NoDup_ListNoDup. split; intros H; [|by apply NoDup_rev]. rewrite <- (rev_involutive (rf_subs n)). by apply NoDup_rev. }
  rewrite Hrev. split.
  - intros H. destruct (Z.le_gt_cases n 99); [done|]. exfalso. apply (rf_subs_collide n); [lia|done].
  - intros H. by apply rf_subs_distinct.
Qed.

Lemma urf_addresses_witness :
  exists w', urf_loop (Z.to_nat 100) 1 empty_world = Ok w' /\ ~ NoDup (map (sub_of w') (endpointList (app_state w'))).
Proof.
  destruct (urf_addresses 100 empty_world) as (w' & E & _ & Hd); [lia|cbn; lia|reflexivity|].
  exists w'. split; [exact E|]. intros H. apply Hd in H. lia.
Defined.
