(* ===== verification/Startup.v ===== *)
(** * Start-up from INI files (xaplib2/init.c, util.c, xap-urfrx/rfrx.c, iServer/main.c)

    How the programs get their identity, their passwords and their devices from
    the configuration: [xapInitFromINI], [getINIPassword], the decoders of the RF
    receiver with its request to xap-serial, and the options of the iServer.  The
    theorems: the identity is always one [xapInit] accepts; a password is the
    same before and after it is obfuscated in the file; the receiver's decoders
    are those of the file; and the receiver's request is refused by xap-serial,
    because its values are quoted. *)

From S2P Require Import Prelude UtList Strings Frame Wire Filter Timeout Xap MinIni Bsc Urf Termios Serial.

(** ** init.c *)

(** [sysini]: the contents of /etc/xap.d/system.ini; [hostname]: the name
    [gethostname] stores, [None] when it fails. *)
Definition xapGetDeviceID (sysini : option (list Z)) (hostname : option cstr) (len : Z) : option cstr :=
  let '(n, buf) := ini_gets (Some (str "xap")) (Some (str "deviceid")) [] [] len sysini in
  if 0 <? n then Some buf
  else match hostname with
       | Some h => Some (match strchr h 46 with Some i => take i h | None => h end)
       | None => None
       end.

(** The device [xapBuildAddress] uses when it is given none. *)
Definition device_id (sysini : option (list Z)) (hostname : option cstr) : cstr :=
  match xapGetDeviceID sysini hostname 128 with Some d => d | None => str "livebox" end.

(** The four digits of the UID. *)
Definition uid_digits (b : cstr) : bool :=
  match b with [c0; c1; c2; c3] => isxdigit c0 && isxdigit c1 && isxdigit c2 && isxdigit c3 | _ => false end.

(** What is passed to [xapInit]: the source address and the UID. *)
Definition xapInitFromINI (sysini : option (list Z)) (hostname : option cstr)
    (section vendor instance uid_ : cstr) (inifile : option (list Z)) : out (cstr * cstr) :=
  let '(n, i_uid) := ini_gets (Some section) (Some (str "uid")) uid_ [] 5 inifile in
  i_uid ← (if (0 <? n) && uid_digits i_uid then Ok i_uid else sprintf_buf 5 uid_);
  let s_uid := take 9 (str "FF" ++ i_uid ++ str "00") in
  src ← xapBuildAddress vendor (device_id sysini hostname) instance;
  Ok (src, s_uid).

(** ** util.c *)

Definition frob : cstr := str "{frob}".

(** [None] when the key has no value.  [fs] holds the file [inifile]. *)
Definition getINIPassword (section key inifile : cstr) (writable : cstr -> bool) (fs : gmap (list Z) (list Z))
    : out (option cstr * gmap (list Z) (list Z)) :=
  let '(n, inipasswd) := ini_gets (Some section) (Some key) [] [] 64 (fs !! inifile) in
  if n =? 0 then Ok (None, fs)
  else if strncmp0 6 frob inipasswd then Ok (Some (rot47 (drop 6 inipasswd)), fs)
  else
    passwd ← sprintf_buf 80 (frob ++ rot47 inipasswd);
    '(_, fs) ← ini_puts (Some section) (Some key) (Some passwd) inifile writable fs;
    Ok (Some inipasswd, fs).

(** ** rfrx.c *)

Section Receiver.
Context {CB IB FB TB A : Type} (inifile : option (list Z)).

Definition rf_ini (k : cstr) (def : cstr) (size : Z) : Z * cstr := ini_gets (Some (str "urfrx")) (Some k) def [] size inifile.

(** A decoder from a key of the file; [buff] has ten bytes, [rf] 100. *)
Definition ini_decoder (e : addr) (key : cstr) (state : Z) (w : urfrx CB IB FB TB A) : out (urfrx CB IB FB TB A) :=
  let '(n, rf) := rf_ini (take 9 key) [] 100 in
  if negb (n =? 0) then c ← initURFContext e rf state; Ok (addDecoder c w) else Ok w.

(** [for(i = 1; i <= devices; i++)] *)
Fixpoint ini_devices (n : nat) (i : Z) (l : list addr) (w : urfrx CB IB FB TB A) : out (list addr * urfrx CB IB FB TB A) :=
  match n with
  | O => Ok (l, w)
  | S m =>
      '(e, l, b) ← bscAddEndpoint l (Some (str "rf")) (Some (take 9 (fmt_d i))) BSC_INPUT BSC_BINARY None None (bw w);
      let w := mkUrfrx (decoderList w) (buff w) b in
      w ← ini_decoder e (str "rf" ++ fmt_d i ++ str ".on") BSC_STATE_ON w;
      w ← ini_decoder e (str "rf" ++ fmt_d i ++ str ".off") BSC_STATE_OFF w;
      ini_devices m (i + 1) l w
  end.

(** [vSerial], [vSource], [endpointList] and the state with its decoders. *)
Definition setupFromINI (l : list addr) (w : urfrx CB IB FB TB A) : out (Z * cstr * list addr * urfrx CB IB FB TB A) :=
  let vSerial := u8 (ini_getl (Some (str "urfrx")) (Some (str "vserial")) 0 inifile) in
  let '(_, vSource) := rf_ini (str "vsource") (str "dbzoo.livebox.serial") 60 in
  let devices := ini_getl (Some (str "urfrx")) (Some (str "devices")) (-1) inifile in
  '(l, w) ← ini_devices (Z.to_nat devices) 1 l w;
  Ok (vSerial, vSource, l, w).

End Receiver.

(** The message with which the receiver asks xap-serial for a port. *)
Definition quoted (s : string) : cstr := [34] ++ str s ++ [34].
Definition urfrx_setup (x : xAPIdent) (vSource serialPort : cstr) : cstr :=
  line "xap-header" ++ line "{" ++ line "v=12" ++ line "hop=1" ++ str "uid=" ++ uid x ++ [10] ++ line "class=Serial.Comms" ++
  str "source=" ++ source x ++ [10] ++ str "target=" ++ vSource ++ [10] ++ line "}" ++
  line "Serial.Setup" ++ line "{" ++ str "port=" ++ serialPort ++ [10] ++ line "baud=57600" ++ line "stop=1" ++
  line "databits=8" ++ str "parity=" ++ quoted "none" ++ [10] ++ str "flow=" ++ quoted "none" ++ [10] ++ line "}".

(** ** iServer/main.c *)

Record options := mkOptions {
  opt_a : Z; opt_b : Z; opt_c : Z; opt_e : Z; opt_f : Z; password : option cstr;
}.

(** [None]: the program exits.  The name of the INI file is a parameter. *)
Definition setupXAPini (inifile : cstr) (writable : cstr -> bool) (fs : gmap (list Z) (list Z)) : out (options * gmap (list Z) (list Z)) :=
  let getl k d := ini_getl (Some (str "iserver")) (Some (str k)) d (fs !! inifile) in
  let o := mkOptions (getl "authmode"%string 0) (getl "port"%string 9996) (getl "pacing"%string 20)
             (getl "rxseq"%string 0) (getl "txseq"%string 0) None in
  if negb (opt_a o =? 0) then
    '(p, fs) ← getINIPassword (str "iserver") (str "passwd") inifile writable fs;
    match p with
    | Some (c :: r) => Ok (mkOptions (opt_a o) (opt_b o) (opt_c o) (opt_e o) (opt_f o) (Some (c :: r)), fs)
    | _ => Die
    end
  else Ok (o, fs).

(** The command line, which overrides the file; an option that lacks its
    argument reads the NULL pointer at its end. *)
Fixpoint override (argv : list cstr) (o : options) : out options :=
  match argv with
  | [] => Ok o
  | a :: r =>
      if strcmp0 (str "-a") a then override r (mkOptions 1 (opt_b o) (opt_c o) (opt_e o) (opt_f o) (password o))
      else if strcmp0 (str "-p") a then
        match r with [] => Undef NullDeref | v :: r => override r (mkOptions (opt_a o) (opt_b o) (opt_c o) (opt_e o) (opt_f o) (Some v)) end
      else if strcmp0 (str "-b") a then
        match r with [] => Undef NullDeref | v :: r => override r (mkOptions (opt_a o) (atoi v) (opt_c o) (opt_e o) (opt_f o) (password o)) end
      else if strcmp0 (str "-c") a then
        match r with [] => Undef NullDeref | v :: r => override r (mkOptions (opt_a o) (opt_b o) (atoi v) (opt_e o) (opt_f o) (password o)) end
      else if strcmp0 (str "-e") a then override r (mkOptions (opt_a o) (opt_b o) (opt_c o) 1 (opt_f o) (password o))
      else if strcmp0 (str "-f") a then override r (mkOptions (opt_a o) (opt_b o) (opt_c o) (opt_e o) 1 (password o))
      else override r o
  end.

(** Milliseconds to microseconds, at least 10 milliseconds. *)
Definition pacing (o : options) : out options :=
  let c := if opt_c o <? 10 then 10 else opt_c o in
  if c * 1000 <=? INT_MAX then Ok (mkOptions (opt_a o) (opt_b o) (c * 1000) (opt_e o) (opt_f o) (password o))
  else Undef SignedOverflow.

Definition iserver_options (argv : list cstr) (inifile : cstr) (writable : cstr -> bool) (fs : gmap (list Z) (list Z)) : out options :=
  '(o, _) ← setupXAPini inifile writable fs;
  o ← override argv o;
  pacing o.

(** * Properties *)

(** ** Passwords *)

(** Printable characters, no blanks at the ends. *)
Definition password_ok (p : cstr) : Prop :=
  p <> [] /\ Forall (fun c => 32 <= c <= 126) p /\ starts_nonblank p /\ ends_nonblank p.

Lemma rot47_range c : 33 <= c <= 126 -> 33 <= rot47_char c <= 126.
Proof.
  intros Hc. destruct (decide (c <= 79)); [rewrite rot47_char_low by lia|rewrite rot47_char_high by lia]; lia.
Qed.

Lemma rot47_text p : Forall (fun c => 32 <= c <= 126) p -> Forall (fun c => 32 <= c <= 126) (rot47 p).
Proof.
  intros Hp. apply Forall_map. eapply Forall_impl; [exact Hp|]. intros c Hc. simpl in *.
  destruct (decide (c = 32)) as [->|]; [done|]. pose proof (rot47_range c). lia.
Qed.

Lemma blank_print c : 32 <= c <= 126 -> blank c = (c =? 32).
Proof. intros Hc. unfold blank, schar. zcase; simpl in *; lia. Qed.

Lemma frob_value p : password_ok p -> value_ok (frob ++ rot47 p).
Proof.
  intros (Hne & Hp & Hs & He). pose proof (rot47_text p Hp) as Hr.
  assert (Hall : Forall (fun c => 32 <= c <= 126) (frob ++ rot47 p)).
  { apply Forall_app. split; [|done]. apply (bool_decide_eq_true_1 _); reflexivity. }
  rewrite Forall_forall in Hall. split.
  - intros H. specialize (Hall _ H). lia.
  - intros H. specialize (Hall _ H). lia.
  - done.
  - unfold ends_nonblank in *. rewrite rev_app_distr. unfold rot47. rewrite <- map_rev.
    destruct (rev p) as [|c r] eqn:E; [apply (f_equal (@rev Z)) in E; rewrite rev_involutive in E; done|]. cbn [map app].
    assert (Hc : 32 <= c <= 126).
    { rewrite Forall_forall in Hp. apply Hp. apply list_elem_of_In, in_rev. rewrite E. by left. }
    rewrite blank_print in He by done. apply Z.eqb_neq in He. pose proof (rot47_range c).
    rewrite blank_print by lia. apply Z.eqb_neq. lia.
  - intros [H _]. done.
Qed.

Lemma text_bytes p : Forall (fun c => 32 <= c <= 126) p -> bytes_wf p.
Proof. intros Hp. eapply Forall_impl; [exact Hp|]. intros c Hc. unfold is_byte. simpl in Hc. lia. Qed.

(** ** Decoders *)

(** A decoder whose table is complete. *)
Definition decoder_ok (c : URFContext) : Prop :=
  curState c = 0 /\ exists ds, durState c = somes ds /\ durStateLen c = Z.of_nat (length ds) /\ 2 <= durStateLen c <= 512.

Section ReceiverProps.
Context {CB IB FB TB A : Type} (inifile : option (list Z)).

Lemma ini_decoder_ok e key st (w : urfrx CB IB FB TB A) :
  Forall decoder_ok (decoderList w) ->
  exists w', ini_decoder inifile e key st w = Ok w' /\ Forall decoder_ok (decoderList w') /\ buff w' = buff w /\ bw w' = bw w.
Proof.
  intros Hd. unfold ini_decoder. destruct (rf_ini inifile (take 9 key) [] 100) as [n rf]. destruct (negb (n =? 0)); [|eauto 6].
  unfold initURFContext. destruct (init_safe rf) as (r & -> & Hr). rewrite !bind_Ok. eexists. split; [done|].
  destruct r as [[[[d len]|] s]|]; cbn [addDecoder decoderList buff bw]; [|done|done]. split; [|done].
  apply Forall_app. split; [done|]. constructor; [|done]. destruct Hr as (ds & -> & Hl & Hb). split; [done|]. exists ds. by rewrite Hl.
Qed.

Lemma ini_devices_ok n i l (w : urfrx CB IB FB TB A) :
  Forall decoder_ok (decoderList w) -> 0 <= id (bw w) < 256 ->
  exists l' w', ini_devices inifile n i l w = Ok (l', w') /\ Forall decoder_ok (decoderList w') /\ length l' = (n + length l)%nat /\
    buff w' = buff w.
Proof.
  revert i l w. induction n as [|n IH]; intros i l w Hd Hid; [eauto 8|]. cbn [ini_devices].
  destruct (add_endpoint_eq l (str "rf") (Some (take 9 (fmt_d i))) BSC_INPUT BSC_BINARY None None (bw w) Hid) as (e & -> & _).
  rewrite bind_Ok. set (b := mkBsc (<[next (bw w) := e]> (endpoints (bw w))) _ _ _ _ _ _ _).
  destruct (ini_decoder_ok (next (bw w)) (str "rf" ++ fmt_d i ++ str ".on") BSC_STATE_ON (mkUrfrx (decoderList w) (buff w) b) Hd)
    as (w1 & -> & Hd1 & Hb1 & Hw1). rewrite bind_Ok.
  destruct (ini_decoder_ok (next (bw w)) (str "rf" ++ fmt_d i ++ str ".off") BSC_STATE_OFF w1 Hd1) as (w2 & -> & Hd2 & Hb2 & Hw2).
  rewrite bind_Ok. destruct (IH (i + 1) (next (bw w) :: l) w2 Hd2) as (l' & w' & Hr & Hd' & Hl' & Hb').
  - rewrite Hw2, Hw1. apply u8_range.
  - exists l', w'. split; [done|]. split; [done|]. split; [rewrite Hl'; simpl; lia|]. by rewrite Hb', Hb2, Hb1.
Qed.

End ReceiverProps.

(** ** The request of the receiver *)

Definition urf_msg (x : xAPIdent) (vSource serialPort : cstr) : message :=
  [mkBlock (str "xap-header") [(str "v", str "12"); (str "hop", str "1"); (str "uid", uid x); (str "class", str "Serial.Comms");
     (str "source", source x); (str "target", vSource)];
   mkBlock (str "Serial.Setup") [(str "port", serialPort); (str "baud", str "57600"); (str "stop", str "1"); (str "databits", str "8");
     (str "parity", quoted "none"); (str "flow", quoted "none")]].

Lemma urf_msg_text x v p : print_msg (urf_msg x v p) = urfrx_setup x v p.
Proof.
  unfold print_msg, urf_msg, print_block, print_kvs, urfrx_setup, line, print_kv. cbn [map concat b_name b_kvs fst snd].
  repeat rewrite <- app_assoc. rewrite ?app_nil_r. repeat rewrite <- app_assoc. reflexivity.
Qed.

Lemma urf_msg_values x v p :
  let es := msg_entries (urf_msg x v p) in
  let val k := entries_lookup es (str "serial.setup") (Some (str k)) in
  val "port"%string = Some p /\ val "baud"%string = Some (str "57600") /\ val "stop"%string = Some (str "1") /\
  val "databits"%string = Some (str "8") /\ val "parity"%string = Some (quoted "none") /\ val "flow"%string = Some (quoted "none").
Proof. repeat split; reflexivity. Qed.

Lemma uid_digits_length b : uid_digits b = true -> length b = 4%nat.
Proof. intros H. destruct b as [|? [|? [|? [|? [|? ?]]]]]; cbn in H; done. Qed.

(** * Theorems *)

(** Whatever the configuration and the host name are, a program started with a
    four-digit default gets a UID of eight characters, ["FF"], four hexadecimal
    digits and ["00"], the digits of its INI file if they are valid and the
    default ones otherwise, and a source address of less than 128 characters. *)
Theorem xapInitFromINI_spec (sysini : option (list Z)) (hostname : option cstr) (section vendor instance uid_ : cstr) (inifile : option (list Z)) :
  uid_digits uid_ = true -> section <> [] -> vendor <> [] ->
  exists src d, xapInitFromINI sysini hostname section vendor instance uid_ inifile = Ok (src, str "FF" ++ d ++ str "00") /\
    uid_digits d = true /\ (length src < 128)%nat /\
    let v := take 4 (snd (ini_gets (Some section) (Some (str "uid")) uid_ [] 5 inifile)) in
    d = if uid_digits v then v else uid_.
Proof.
  intros Hu Hs Hv. unfold xapInitFromINI.
  pose proof (uid_digits_length uid_ Hu) as Hlen.
  assert (Hb : exists b, ini_gets (Some section) (Some (str "uid")) uid_ [] 5 inifile = (Z.of_nat (length b), b) /\ (length b <= 4)%nat).
  { unfold ini_gets. change (5 <=? 0) with false. cbv iota zeta.
    destruct (inifile ≫= fun s => getkeystring (ini_read s) (Some section) (Some (str "uid")) (-1) (-1) (Z.to_nat 5)) as [b|] eqn:E.
    - exists b. split; [done|]. destruct inifile as [f|]; [|cbn in E; discriminate]. cbn [mbind option_bind] in E. rewrite getkeystring_lookup in E by done.
      destruct (lookup_ini section (str "uid") (norm (ini_read f))) as [q|]; [|done]. injection E as <-. unfold save_strncpy.
      rewrite length_take. change (Z.to_nat 5) with 5%nat. lia.
    - eexists. split; [done|]. unfold save_strncpy. rewrite length_take. change (Z.to_nat 5) with 5%nat. lia. }
  destruct Hb as (b & -> & Hbl). cbn [snd]. rewrite (take_ge b) by lia.
  assert (Hd : exists d, (if (0 <? Z.of_nat (length b)) && uid_digits b then Ok b else sprintf_buf 5 uid_) = Ok d /\ uid_digits d = true /\
    d = if uid_digits b then b else uid_).
  { destruct (uid_digits b) eqn:Hub.
    - exists b. by rewrite (uid_digits_length b Hub).
    - exists uid_. rewrite andb_false_r. unfold sprintf_buf. by rewrite Hlen. }
  destruct Hd as (d & -> & Hdd & Hde). rewrite bind_Ok.
  pose proof (uid_digits_length d Hdd) as Hd4.
  unfold xapBuildAddress. destruct (exists_last Hv) as (v' & c & ->). rewrite map_app. cbn [map]. rewrite List.last_last. cbn [of_opt]. rewrite !bind_Ok.
  eexists _, d. rewrite take_ge by (rewrite !length_app, Hd4; simpl; lia). split; [done|]. split; [done|]. split; [|done].
  apply cat_to_length. lia.
Qed.

Lemma xapInitFromINI_spec_witness :
  exists src, xapInitFromINI None (Some (str "hah.lan")) (str "serial") (str "dbzoo") (str "Serial") (str "00D5")
    (Some (file_text [str "[serial]"; str "uid = 12"])) = Ok (src, str "FF00D500") /\ src = str "dbzoo.hah.Serial".
Proof.
  destruct (xapInitFromINI_spec None (Some (str "hah.lan")) (str "serial") (str "dbzoo") (str "Serial") (str "00D5")
    (Some (file_text [str "[serial]"; str "uid = 12"])) eq_refl ltac:(done) ltac:(done)) as (src & d & Hi & _ & _ & Hd).
  assert (Hdd : d = str "00D5") by (rewrite Hd; reflexivity). rewrite Hdd in Hi.
  exists src. split; [exact Hi|]. apply Ok_inj in Hi. injection Hi as Hs. symmetry. exact Hs.
Defined.

(** A password in clear text is obfuscated in the INI file when it is first read;
    the program gets the clear text, then and at every later start, provided it
    has at most 57 characters: of a longer one, later starts get the first 57. *)
Theorem getINIPassword_stable (s k file tmp p : cstr) (writable : cstr -> bool) (fs : gmap (list Z) (list Z)) (ls : list cstr) :
  fs !! file = Some (concat ls) -> Forall good ls -> ini_tempname file INI_BUFFERSIZE = Some tmp -> tmp <> file -> writable tmp = true ->
  section_ok s -> key_ok k -> (length k <= 400)%nat -> tight k (norm ls) ->
  lookup_ini s k (norm ls) = Some p -> password_ok p -> (length p <= 63)%nat -> strncmp0 6 frob p = false ->
  exists fs', getINIPassword s k file writable fs = Ok (Some p, fs') /\
    getINIPassword s k file writable fs' = Ok (Some (take 57 p), fs').
Proof.
  intros Hf Hg Ht Hne Hw Hs Hk Hkl Htight Hp Hok Hlen Hfr. pose proof Hok as (Hpne & Hpt & _).
  assert (Hread : forall g v, v <> [] -> lookup_ini s k (norm (ini_read g)) = Some v ->
    ini_gets (Some s) (Some k) [] [] 64 (Some g) = (Z.of_nat (length (take 63 v)), take 63 v)).
  { intros g v Hv Hlv. unfold ini_gets. change (64 <=? 0) with false. cbv iota. cbn [mbind option_bind].
    rewrite getkeystring_lookup by apply Hs. by rewrite Hlv. }
  destruct (ini_puts_text s k (frob ++ rot47 p) file tmp writable fs ls Hf Hg Ht Hne Hw) as (fs' & Hput & Hfile & _).
  assert (Hlr : length (frob ++ rot47 p) = (6 + length p)%nat) by (rewrite length_app; unfold rot47; by rewrite length_map).
  exists fs'. split.
  - unfold getINIPassword. rewrite Hf, (Hread (concat ls) p); [|done|by rewrite ini_read_good]. rewrite take_ge by done.
    destruct (Z.eqb_spec (Z.of_nat (length p)) 0); [by destruct p|]. rewrite Hfr. unfold sprintf_buf. rewrite Hlr.
    destruct (Z.ltb_spec (Z.of_nat (6 + length p)) 80); [|lia]. by rewrite bind_Ok, Hput, bind_Ok.
  - unfold getINIPassword. rewrite Hfile, (Hread _ (frob ++ rot47 p)); [|done|].
    + change (take 63 (frob ++ rot47 p)) with (frob ++ take 57 (rot47 p)). cbn [length app Z.of_nat Z.eqb].
      change (strncmp0 6 frob (frob ++ take 57 (rot47 p))) with true. cbv iota. do 3 f_equal. cbn [drop frob app].
      change (drop 6 (frob ++ take 57 (rot47 p))) with (take 57 (rot47 p)).
      unfold rot47. rewrite <- !fmap_take. fold (rot47 (take 57 p)). apply rot47_involutive_aux. apply Forall_take, text_bytes. done.
    + rewrite ini_read_put, lookup_edit_section; [done|done|done| |done|done|done| |lia|done]; by apply frob_value.
Qed.

Definition demo_pw_lines : list cstr := [line "[iserver]"; line "passwd=hello world"].

Lemma getINIPassword_stable_witness :
  exists fs', getINIPassword (str "iserver") (str "passwd") (str "i.ini") (fun _ => true) {[ str "i.ini" := concat demo_pw_lines ]}
      = Ok (Some (str "hello world"), fs') /\
    getINIPassword (str "iserver") (str "passwd") (str "i.ini") (fun _ => true) fs' = Ok (Some (str "hello world"), fs').
Proof.
  apply (getINIPassword_stable (str "iserver") (str "passwd") (str "i.ini") (str "i.in~") (str "hello world") (fun _ => true)
    {[ str "i.ini" := concat demo_pw_lines ]} demo_pw_lines).
  - by rewrite lookup_singleton_eq.
  - repeat constructor.
    + exists (str "[iserver]"). apply (bool_decide_eq_true_1 _). reflexivity.
    + exists (str "passwd=hello world"). apply (bool_decide_eq_true_1 _). reflexivity.
  - reflexivity.
  - done.
  - reflexivity.
  - split; apply (bool_decide_eq_true_1 _); reflexivity.
  - split; try done; try (apply (bool_decide_eq_true_1 _); reflexivity).
  - apply Nat.leb_le. reflexivity.
  - apply (bool_decide_eq_true_1 (Forall _ _)). reflexivity.
  - reflexivity.
  - split; [done|]. split; [apply (bool_decide_eq_true_1 (Forall _ _)); reflexivity|]. done.
  - apply Nat.leb_le. reflexivity.
  - reflexivity.
Defined.

(** Whatever the receiver's INI file contains, [setupFromINI] returns, creates
    one endpoint per device and only decoders that the matching can use: complete
    tables of 2 to 512 durations, at their start. *)
Theorem setupFromINI_safe {CB IB FB TB A : Type} (inifile : option (list Z)) (l : list addr) (w : urfrx CB IB FB TB A) :
  Forall decoder_ok (decoderList w) -> 0 <= id (bw w) < 256 ->
  exists vs vsrc l' w', setupFromINI inifile l w = Ok (vs, vsrc, l', w') /\ Forall decoder_ok (decoderList w') /\
    length l' = (Z.to_nat (ini_getl (Some (str "urfrx")) (Some (str "devices")) (-1) inifile) + length l)%nat /\ is_byte vs.
Proof.
  intros Hd Hid. unfold setupFromINI. destruct (rf_ini inifile (str "vsource") (str "dbzoo.livebox.serial") 60) as [n vsrc].
  destruct (ini_devices_ok inifile (Z.to_nat (ini_getl (Some (str "urfrx")) (Some (str "devices")) (-1) inifile)) 1 l w Hd Hid)
    as (l' & w' & -> & Hd' & Hl & _). rewrite bind_Ok. do 4 eexists. split; [done|]. split; [done|]. split; [done|]. apply u8_range.
Qed.

Lemma setupFromINI_safe_witness :
  exists vs vsrc l' w', setupFromINI (CB := unit) (IB := unit) (FB := unit) (TB := unit)
      (Some (file_text [str "[urfrx]"; str "devices=2"; str "rf1.on=01010177046504650177060127101900001500"])) []
      (mkUrfrx [] [] (mkBsc ∅ [] [] (load_packet []) [] 0 1 tt)) = Ok (vs, vsrc, l', w') /\ length l' = 2%nat.
Proof.
  destruct (setupFromINI_safe (CB := unit) (IB := unit) (FB := unit) (TB := unit)
    (Some (file_text [str "[urfrx]"; str "devices=2"; str "rf1.on=01010177046504650177060127101900001500"])) []
    (mkUrfrx [] [] (mkBsc ∅ [] [] (load_packet []) [] 0 1 tt))) as (vs & vsrc & l' & w' & H & _ & Hl & _).
  - constructor.
  - cbn. lia.
  - exists vs, vsrc, l', w'. split; [exact H|]. rewrite Hl. reflexivity.
Defined.

(** The message with which the RF receiver asks xap-serial for its port cannot
    succeed: the values of [flow] and [parity] carry quotes, which the parser
    keeps and xap-serial does not know.  The port is opened and entered in the
    list, an error is sent, no listener is registered, and the next request for
    the same port dereferences NULL. *)
Theorem urfrx_setup_refused (x y : xAPIdent) (vSource port : cstr) (fd : Z) (w : serial) :
  print_msg (urf_msg y vSource port) = urfrx_setup y vSource port /\
  ((length (uid x) + length (source x) <= 1000)%nat -> serial_wf w ->
   frame_rep (sframe w) (msg_entries (urf_msg y vSource port)) -> findDevice port w = None ->
   xapFindSocketListenerByFD fd (connections w) = None ->
   exists w' m, xapSerialSetup x (mkOpen (Some fd) true true) w = Ok w' /\ connections w' = connections w /\
     map device (serialList w') = map device (serialList w) ++ [port] /\ Serial.sent w' = Serial.sent w ++ [m] /\
     forall o, xapSerialSetup x o w' = Undef NullDeref).
Proof.
  split; [apply urf_msg_text|]. intros Hx Hwf Hf Hd Hfd.
  destruct (urf_msg_values y vSource port) as (Hport & Hbaud & Hstop & Hbits & Hpar & Hflow).
  destruct (serialError_ok x Hx (str "Invalid value flow=" ++ quoted "none")) as [m Hm]; [apply Nat.leb_le; reflexivity|].
  pose proof Hwf as (_ & _ & _ & Hb & _).
  assert (Hs : exists w', xapSerialSetup x (mkOpen (Some fd) true true) w = Ok w' /\ connections w' = connections w /\ sframe w' = sframe w /\
    Serial.sent w' = Serial.sent w ++ [m] /\ exists q, serialList w' = serialList w ++ [q] /\ device q = port /\ sp_fd q = fd).
  { unfold xapSerialSetup, serial_value. rewrite !(get_value_rep _ _ _ _ Hf), Hport, Hbaud, Hstop, Hbits, Hpar, Hflow, !bind_Ok.
    unfold closeSerialPort. rewrite Hd, bind_Ok. cbn [o_fd o_flock o_fcntl negb of_opt]. rewrite bind_Ok.
    unfold setup_rest, configure. cbn [conf_step of_opt]. rewrite bind_Ok.
    unfold conf_baud.
    change (baud_speed (atoi (str "57600")) baud_table) with (Some 4097). unfold ok. repeat (cbn [conf_step of_opt]; rewrite bind_Ok).
    change (conf_flow (quoted "none")) with (fun p => bad p (str "Invalid value flow=" ++ quoted "none")). unfold bad.
    repeat (cbn [conf_step of_opt]; rewrite bind_Ok). rewrite Hm. eexists. split; [done|]. cbn [send connections sframe Serial.sent].
    split; [done|]. split; [done|]. split; [done|].
    exists (set_speed 4097 (mkPort (snext w) port None (mkTermios 0 (Z.lor CREAD CLOCAL)) fd [] 32)).
    split; [|done]. cbn [serialList send sp_addr set_speed].
    by rewrite (ll_update_last (serialList w) (mkPort (snext w) port None _ fd [] 32)). }
  destruct Hs as (w' & Hs & Hc & Hfr & Hse & q & Hl & Hq & Hqf). exists w', m. split; [done|]. split; [done|].
  split; [rewrite Hl, map_app; cbn [map]; by rewrite Hq|]. split; [done|]. intros o. unfold xapSerialSetup, serial_value.
  rewrite Hfr, !(get_value_rep _ _ _ _ Hf), Hport, !bind_Ok. unfold closeSerialPort, findDevice. rewrite Hl, ll_search_app.
  fold (findDevice port w). rewrite Hd. cbn [ll_search]. rewrite Hq, strcmp0_refl, Hqf, Hc, Hfd. done.
Qed.

Lemma urfrx_setup_refused_witness :
  exists w', xapSerialSetup demo_ident (mkOpen (Some 7) true true)
      (demo_serial (urf_msg demo_ident (str "dbzoo.livebox.serial") (str "/dev/ttyUSB0"))) = Ok w' /\
    forall o, xapSerialSetup demo_ident o w' = Undef NullDeref.
Proof.
  destruct (urfrx_setup_refused demo_ident demo_ident (str "dbzoo.livebox.serial") (str "/dev/ttyUSB0") 7
    (demo_serial (urf_msg demo_ident (str "dbzoo.livebox.serial") (str "/dev/ttyUSB0")))) as [_ H].
  destruct H as (w' & m & Hs & _ & _ & _ & Ho).
  - apply Nat.leb_le. reflexivity.
  - apply start_wf. done.
  - apply (parsed_frame_rep (urf_msg demo_ident (str "dbzoo.livebox.serial") (str "/dev/ttyUSB0")) [0] []).
    repeat constructor; try (by apply text_wf_str); try (by apply (bool_decide_eq_true_1 (_ ∉ _))); try done.
  - reflexivity.
  - reflexivity.
  - exists w'. split; [exact Hs|exact Ho].
Defined.

(** The options of the iServer.  When authorisation is switched on in the INI
    file the program runs only with a password; switched on by ["-a"] alone it
    runs without one, and compares every login with NULL.  The pause between
    queries is at least ten milliseconds. *)
Theorem iserver_options_spec (inifile : cstr) (writable : cstr -> bool) (fs : gmap (list Z) (list Z)) (o : options) :
  (iserver_options [] inifile writable fs = Ok o -> opt_a o <> 0 -> exists p, password o = Some p /\ p <> []) /\
  (forall argv, iserver_options argv inifile writable fs = Ok o -> 10000 <= opt_c o) /\
  (ini_getl (Some (str "iserver")) (Some (str "authmode")) 0 (fs !! inifile) = 0 ->
   iserver_options [str "-a"] inifile writable fs = Ok o -> opt_a o = 1 /\ password o = None).
Proof.
  assert (Hset : forall o fs', setupXAPini inifile writable fs = Ok (o, fs') ->
    opt_a o = ini_getl (Some (str "iserver")) (Some (str "authmode")) 0 (fs !! inifile) /\
    if opt_a o =? 0 then password o = None else exists p, password o = Some p /\ p <> []).
  { intros o1 fs'. unfold setupXAPini. cbn [opt_a]. set (a := ini_getl _ (Some (str "authmode")) 0 _).
    destruct (Z.eqb_spec a 0) as [Ha|Ha]; cbn [negb].
    - intros [= <- _]. cbn [opt_a password]. fold a. split; [done|]. by destruct (Z.eqb_spec a 0).
    - intros H. inv_bind H. destruct a0 as [[[|c r]|] fs1]; try discriminate H. apply Ok_inj in H. injection H as <- _. cbn [opt_a password]. fold a.
      split; [done|]. destruct (Z.eqb_spec a 0); [done|]. by exists (c :: r). }
  assert (Hpace : forall o1 o2, pacing o1 = Ok o2 -> 10000 <= opt_c o2 /\ opt_a o2 = opt_a o1 /\ password o2 = password o1).
  { intros o1 o2. unfold pacing. destruct (Z.leb_spec ((if opt_c o1 <? 10 then 10 else opt_c o1) * 1000) INT_MAX); [|done].
    intros [= <-]. cbn. split; [|done]. destruct (Z.ltb_spec (opt_c o1) 10); lia. }
  unfold iserver_options. split; [|split].
  - intros H Ha. inv_bind H. destruct a as [o1 fs1]. cbn [override] in H. rewrite bind_Ok in H. apply Hpace in H as (_ & H1 & H2).
    apply Hset in Ha0 as [_ Hp]. rewrite <- H1 in Hp. destruct (Z.eqb_spec (opt_a o) 0); [done|]. by rewrite H2.
  - intros argv H. inv_bind H. destruct a as [o1 fs1]. inv_bind H. by apply Hpace in H as (H & _).
  - intros Ha H. inv_bind H. destruct a as [o1 fs1]. cbn [override] in H. rewrite strcmp0_refl, bind_Ok in H.
    apply Hpace in H as (_ & H1 & H2). cbn [opt_a password] in H1, H2. apply Hset in Ha0 as [Hoa Hp]. rewrite Ha in Hoa. rewrite Hoa in Hp.
    cbn in Hp. by rewrite H1, H2.
Qed.

Lemma iserver_options_spec_witness :
  exists o, iserver_options [str "-a"] (str "i.ini") (fun _ => true) ∅ = Ok o /\ opt_a o = 1 /\ password o = None.
Proof.
  eexists. split; [reflexivity|].
  destruct (iserver_options_spec (str "i.ini") (fun _ => true) ∅ (mkOptions 1 9996 20000 0 0 None)) as (_ & _ & H). apply H; reflexivity.
Defined.
