(* ===== verification/Queue.v ===== *)
(** * The transmit queue of the iServer (iServer/queue.c)

    A FIFO of heap nodes shared by the main thread (producer) and the transmit
    thread (consumer).  Every operation holds the mutex from its first to its
    last access, so an execution of the threads is a sequence of complete
    operations; [queue_pop] on an empty queue waits.  The theorems show that the
    pointer operations implement a sequence without touching freed nodes or
    leaking any, and that in every interleaving the data comes out in the order
    it went in. *)

From S2P Require Import Prelude UtList.

Section Queue.
Context {D : Type}.

Record queue_node := mkQNode { data : D; next : ptr }.

(** [struct queue] and the heap of its nodes. *)
Record queue := mkQueue {
  head : ptr;
  tail : ptr;
  length_ : Z;
  nodes : gmap addr queue_node;
}.

Definition queue_new : queue := mkQueue None None 0 ∅.

(** [a] is the node allocated; [None] when the mutex cannot be locked. *)
Definition queue_push (lock : bool) (a : addr) (d : D) (q : queue) : out (option queue) :=
  if negb lock then Ok None else
  let h := <[a := mkQNode d None]> (nodes q) in
  h ← match tail q with
      | Some t => n ← of_opt UseAfterFree (h !! t); Ok (<[t := mkQNode (data n) (Some a)]> h)
      | None => Ok h
      end;
  Ok (Some (mkQueue (match head q with None => Some a | Some _ => head q end) (Some a)
              (u32 (length_ q + 1)) h)).

(** [None] while the queue is empty: the thread waits. *)
Definition queue_pop (q : queue) : out (option (D * queue)) :=
  match head q with
  | None => Ok None
  | Some a =>
      n ← of_opt UseAfterFree (nodes q !! a);
      Ok (Some (data n,
        mkQueue (next n) (match next n with None => None | Some _ => tail q end)
          (u32 (length_ q - 1)) (delete a (nodes q))))
  end.

(** ** Threads *)

Inductive event := Push (d : D) | Pop (d : D).

(** One complete operation of some thread. *)
Inductive queue_step : queue -> event -> queue -> Prop :=
| step_push q a d q' : nodes q !! a = None -> queue_push true a d q = Ok (Some q') -> queue_step q (Push d) q'
| step_pop q d q' : queue_pop q = Ok (Some (d, q')) -> queue_step q (Pop d) q'.

Inductive queue_run : queue -> list event -> queue -> Prop :=
| run_nil q : queue_run q [] q
| run_cons q e q' es q'' : queue_step q e q' -> queue_run q' es q'' -> queue_run q (e :: es) q''.

(** * Properties *)

(** The chain from [p] is the sequence of cells [l]. *)
Fixpoint chain (h : gmap addr queue_node) (p : ptr) (l : list (addr * D)) : Prop :=
  match l with
  | [] => p = None
  | (a, d) :: r => p = Some a /\ exists n, h !! a = Some (mkQNode d n) /\ chain h n r
  end.

(** The queue holds [l]: the chain, its tail pointer, its length, and no node
    besides. *)
Definition queue_rep (q : queue) (l : list (addr * D)) : Prop :=
  chain (nodes q) (head q) l /\ tail q = last (map fst l) /\
  length_ q = u32 (Z.of_nat (length l)) /\ dom (nodes q) = list_to_set (map fst l) /\ NoDup (map fst l).

Lemma chain_insert_notin h p l a n : a ∉ map fst l -> chain h p l -> chain (<[a := n]> h) p l.
Proof.
  revert p. induction l as [|[b d] l IH]; intros p Ha; [done|]. cbn [map fst] in Ha.
  apply not_elem_of_cons in Ha as [Hb Ha]. intros (-> & m & Hm & Hr). split; [done|]. exists m.
  rewrite lookup_insert_ne by done. auto.
Qed.

Lemma chain_delete h p l a : a ∉ map fst l -> chain h p l -> chain (delete a h) p l.
Proof.
  revert p. induction l as [|[b d] l IH]; intros p Ha; [done|]. cbn [map fst] in Ha.
  apply not_elem_of_cons in Ha as [Hb Ha]. intros (-> & m & Hm & Hr). split; [done|]. exists m.
  rewrite lookup_delete_ne by done. auto.
Qed.

(** Linking a new last node behind the old one. *)
Lemma chain_snoc h p l t dt a d :
  NoDup (map fst (l ++ [(t, dt)])) -> a ∉ map fst (l ++ [(t, dt)]) ->
  chain h p (l ++ [(t, dt)]) -> h !! a = Some (mkQNode d None) ->
  chain (<[t := mkQNode dt (Some a)]> h) p ((l ++ [(t, dt)]) ++ [(a, d)]).
Proof.
  revert p. induction l as [|[b db] l IH]; intros p Hnd Ha Hc Hn.
  - cbn in *. destruct Hc as (-> & m & Hm & ->). split; [done|]. exists (Some a).
    rewrite lookup_insert_eq. split; [done|]. split; [done|]. exists None.
    rewrite lookup_insert_ne by set_solver. done.
  - cbn [app map fst chain] in *. destruct Hc as (-> & m & Hm & Hr). apply NoDup_cons in Hnd as [Hb Hnd].
    apply not_elem_of_cons in Ha as [Hab Ha]. split; [done|]. exists m. split; [|by apply IH].
    rewrite lookup_insert_ne; [done|]. intros ->. apply Hb. rewrite map_app. set_solver.
Qed.

Lemma u32_succ n : u32 (u32 n + 1) = u32 (n + 1).
Proof. unfold u32. by rewrite Zplus_mod_idemp_l. Qed.

Lemma u32_pred n : u32 (u32 n - 1) = u32 (n - 1).
Proof. unfold u32. by rewrite Zminus_mod_idemp_l. Qed.

Lemma push_rep q l a d :
  queue_rep q l -> nodes q !! a = None ->
  exists q', queue_push true a d q = Ok (Some q') /\ queue_rep q' (l ++ [(a, d)]).
Proof.
  intros (Hc & Ht & Hl & Hd & Hnd) Hfresh.
  assert (Ha : a ∉ map fst l).
  { intros Hin. assert (a ∈ dom (nodes q)) as [n Hn]%elem_of_dom by (rewrite Hd; by apply elem_of_list_to_set).
    congruence. }
  assert (Hsnoc : forall h, dom h = {[a]} ∪ dom (nodes q) -> chain h (match head q with None => Some a | Some _ => head q end) (l ++ [(a, d)]) ->
    queue_rep (mkQueue (match head q with None => Some a | Some _ => head q end) (Some a) (u32 (length_ q + 1)) h) (l ++ [(a, d)])).
  { intros h Hdom Hch. split; [done|]. cbn [nodes tail length_]. rewrite map_app. cbn [map fst]. rewrite last_snoc. split; [done|].
    split; [rewrite Hl, u32_succ, length_app; simpl; f_equal; lia|].
    split; [rewrite Hdom, Hd, list_to_set_app_L; set_solver|].
    apply NoDup_app. split; [done|]. split; [set_solver|]. apply NoDup_singleton. }
  unfold queue_push. cbn [negb]. rewrite Ht. destruct l as [|[t dt] l _] using rev_ind.
  - cbn in Hc. cbn [map last]. rewrite bind_Ok. eexists; split; [done|]. rewrite Hc in Hsnoc |- *.
    apply Hsnoc; [by rewrite dom_insert_L|]. cbn. split; [done|]. exists None. by rewrite lookup_insert_eq.
  - rewrite map_app. cbn [map fst]. rewrite last_snoc.
    pose proof (chain_insert_notin _ _ _ a (mkQNode d None) Ha Hc) as Hc'.
    assert (exists n, <[a:=mkQNode d None]> (nodes q) !! t = Some (mkQNode dt n)) as [n Hn].
    { clear - Hc'. revert Hc'. generalize (head q) as p. induction l as [|[b db] l IH]; intros p Hc'.
      - cbn in Hc'. destruct Hc' as (_ & n & Hn & _). eauto.
      - cbn [app chain] in Hc'. destruct Hc' as (_ & n & _ & Hr). eauto. }
    rewrite Hn. cbn [of_opt]. rewrite !bind_Ok. cbn [data]. eexists; split; [done|].
    assert (Hhd : head q <> None) by (destruct l as [|[]]; cbn in Hc; by destruct Hc as (-> & _)).
    apply Hsnoc.
    + rewrite !dom_insert_L, Hd. assert (t ∈ (list_to_set (map fst (l ++ [(t, dt)])) : gset addr)); [|set_solver].
      rewrite elem_of_list_to_set, map_app. set_solver.
    + destruct (head q); [|done]. apply chain_snoc; [done|done|done|]. by rewrite lookup_insert_eq.
Qed.

Lemma pop_rep q a d l :
  queue_rep q ((a, d) :: l) -> exists q', queue_pop q = Ok (Some (d, q')) /\ queue_rep q' l.
Proof.
  intros (Hc & Ht & Hl & Hd & Hnd). cbn in Hc. destruct Hc as (Hh & n & Hn & Hr).
  unfold queue_pop. rewrite Hh, Hn. cbn [of_opt]. rewrite bind_Ok. cbn [data next].
  eexists; split; [done|]. cbn [map fst] in Hnd, Hd. apply NoDup_cons in Hnd as [Ha Hnd].
  split; [cbn; by apply chain_delete|]. cbn [tail length_ nodes]. split.
  { destruct l as [|[b db] l]; cbn in Hr |- *; [by rewrite Hr|]. destruct Hr as (-> & _). by rewrite Ht. }
  split; [rewrite Hl, u32_pred; cbn [length]; f_equal; lia|]. split; [|done].
  rewrite dom_delete_L, Hd. cbn [list_to_set]. set_solver.
Qed.

Lemma new_rep : queue_rep queue_new [].
Proof.
  split; [done|]. split; [done|]. split; [done|]. split; [apply dom_empty_L|constructor].
Qed.

Definition pushed (es : list event) : list D := omap (fun e => match e with Push d => Some d | Pop _ => None end) es.
Definition popped (es : list event) : list D := omap (fun e => match e with Pop d => Some d | Push _ => None end) es.

Lemma step_rep q l e q' :
  queue_rep q l -> queue_step q e q' ->
  exists l', queue_rep q' l' /\ map snd l ++ pushed [e] = popped [e] ++ map snd l'.
Proof.
  intros Hr Hs. destruct Hs as [q a d q' Hf Hp|q d q' Hp].
  - destruct (push_rep q l a d Hr Hf) as (q'' & Hq & Hr'). rewrite Hq in Hp. injection Hp as <-.
    exists (l ++ [(a, d)]). split; [done|]. by rewrite map_app.
  - destruct l as [|[a d'] l].
    + destruct Hr as (Hc & _). cbn in Hc. unfold queue_pop in Hp. by rewrite Hc in Hp.
    + destruct (pop_rep q a d' l Hr) as (q'' & Hq & Hr'). rewrite Hq in Hp. injection Hp as <- <-.
      exists l. split; [done|]. cbn. by rewrite app_nil_r.
Qed.

Lemma run_rep q l es q' :
  queue_rep q l -> queue_run q es q' ->
  exists l', queue_rep q' l' /\ map snd l ++ pushed es = popped es ++ map snd l'.
Proof.
  intros Hr Hrun. revert l Hr. induction Hrun as [q|q e q1 es q2 Hs _ IH]; intros l Hr.
  - exists l. by rewrite app_nil_r.
  - destruct (step_rep q l e q1 Hr Hs) as (l1 & Hr1 & H1). destruct (IH l1 Hr1) as (l2 & Hr2 & H2).
    exists l2. split; [done|]. change (e :: es) with ([e] ++ es). unfold pushed, popped in *.
    rewrite !omap_app, app_assoc, H1, <- !app_assoc. by rewrite H2.
Qed.

End Queue.
Arguments queue : clear implicits.
Arguments queue_node : clear implicits.
Arguments event : clear implicits.

(** * Claims *)

(** C5.  [queue_push] and [queue_pop] implement appending to and taking the head
    of a sequence on the heap of nodes: a push with a fresh node succeeds and
    appends, a pop of a non-empty queue returns the oldest datum and frees its
    node, a pop of an empty queue waits; the tail pointer, the length modulo
    2^32 and the set of allocated nodes always agree with the sequence. *)
Theorem queue_refines_list {D : Type} (q : queue D) (l : list (addr * D)) (a : addr) (d : D) :
  queue_rep q l -> nodes q !! a = None ->
  (exists q', queue_push true a d q = Ok (Some q') /\ queue_rep q' (l ++ [(a, d)])) /\
  match l with
  | [] => queue_pop q = Ok None
  | (_, d0) :: r => exists q', queue_pop q = Ok (Some (d0, q')) /\ queue_rep q' r
  end.
Proof.
  intros Hr Hf. split; [by apply push_rep|]. destruct l as [|[b d0] r]; [|by eapply pop_rep].
  destruct Hr as (Hc & _). cbn in Hc. unfold queue_pop. by rewrite Hc.
Qed.

Lemma queue_refines_list_witness :
  (exists q', queue_push true 1 7%nat queue_new = Ok (Some q') /\ queue_rep q' [(1%positive, 7%nat)]) /\
  queue_pop (D := nat) queue_new = Ok None.
Proof. apply (queue_refines_list queue_new [] 1 7%nat); [apply new_rep|done]. Defined.

(** In every interleaving of pushes and pops from the new queue, the data
    popped so far, followed by what is still queued, is the data pushed, in
    order: nothing is lost, duplicated or reordered. *)
Theorem queue_fifo {D : Type} (es : list (event D)) (q : queue D) :
  queue_run queue_new es q ->
  exists l, queue_rep q l /\ pushed es = popped es ++ map snd l.
Proof.
  intros Hrun. destruct (run_rep queue_new [] es q new_rep Hrun) as (l & Hr & H). by exists l.
Qed.

Lemma queue_fifo_witness :
  exists (q : queue nat) l, queue_run queue_new [Push 5%nat; Push 6%nat; Pop 5%nat] q /\
    queue_rep q l /\ [5%nat; 6%nat] = [5%nat] ++ map snd l.
Proof.
  assert (Hrun : exists q : queue nat, queue_run queue_new [Push 5%nat; Push 6%nat; Pop 5%nat] q).
  { eexists. eapply run_cons; [by eapply (step_push _ 1)|]. eapply run_cons; [by eapply (step_push _ 2)|].
    eapply run_cons; [by eapply step_pop|]. apply run_nil. }
  destruct Hrun as [q Hq]. destruct (queue_fifo _ q Hq) as (l & Hr & Hl). exists q, l. done.
Defined.
