(* ===== verification/IServer.v ===== *)
(** * The iServer: TCP clients on the xAP bus (iServer/main.c, tokenize.l)

    The tokenizer of the client protocol, the per-client protocol machine
    [parseiServerMsg], the registration of client filters, the forwarding of
    matching xAP messages to clients, connection and disconnection, and the
    transmit thread.  Clients are heap blocks: filter callbacks, socket listeners
    and queued packets hold their addresses, and a pointer to a freed client is
    an outcome.  What the network answers is an argument. *)

From S2P Require Import Prelude UtList Strings Frame Wire Filter Xap.

(** ** tokenize.l *)

Inductive token :=
| MSG_SEQUENCE (n : Z)
| ADD_SOURCE_FILTER | ADD_SOURCE_FILTER_E | DEL_SOURCE_FILTER | DEL_SOURCE_FILTER_E
| ADD_CLASS_FILTER | ADD_CLASS_FILTER_E | DEL_CLASS_FILTER | DEL_CLASS_FILTER_E
| START_CMD | END_CMD | START_XAP | END_XAP | LOGIN
| IDENT (c : Z).

(** A rule recognises a prefix: its token and the length matched. *)
Definition lit_rule (l : cstr) (t : token) (s : cstr) : option (token * nat) :=
  if bool_decide (take (length l) s = l) then Some (t, length l) else None.

(** [[xX][aA][pP]]: letters of either case. *)
Definition ci_rule (l : cstr) (t : token) (s : cstr) : option (token * nat) :=
  if strcasecmp0 (take (length l) s) l then Some (t, length l) else None.

(** ["[["[0-9]+"]]"] *)
Definition seq_rule (s : cstr) : option (token * nat) :=
  match s with
  | 91 :: 91 :: r =>
      let ds := take_while isdigit r in
      match ds, drop (length ds) r with
      | _ :: _, 93 :: 93 :: _ => Some (MSG_SEQUENCE (atoi ds), (length ds + 4)%nat)
      | _, _ => None
      end
  | _ => None
  end.

Definition rules (s : cstr) : list (option (token * nat)) :=
  [seq_rule s;
   lit_rule (str "<flt+>") ADD_SOURCE_FILTER s; lit_rule (str "</flt+>") ADD_SOURCE_FILTER_E s;
   lit_rule (str "<flt->") DEL_SOURCE_FILTER s; lit_rule (str "</flt->") DEL_SOURCE_FILTER_E s;
   lit_rule (str "<cflt+>") ADD_CLASS_FILTER s; lit_rule (str "</cflt+>") ADD_CLASS_FILTER_E s;
   lit_rule (str "<cflt->") DEL_CLASS_FILTER s; lit_rule (str "</cflt->") DEL_CLASS_FILTER_E s;
   lit_rule (str "<cmd>") START_CMD s; lit_rule (str "</cmd>") END_CMD s;
   ci_rule (str "<xap>") START_XAP s; ci_rule (str "</xap>") END_XAP s;
   lit_rule (str "log<code>") LOGIN s;
   match s with c :: _ => Some (IDENT c, 1%nat) | [] => None end].

(** The longest match, the first rule among equals. *)
Definition longest (l : list (option (token * nat))) : option (token * nat) :=
  fold_left (fun best r =>
    match best, r with
    | Some (_, n), Some (t, m) => if (n <? m)%nat then r else best
    | None, _ => r
    | _, None => best
    end) l None.

(** [yylex] until the end of the buffer; every token consumes a byte. *)
Fixpoint lex (fuel : nat) (s : cstr) : list token :=
  match fuel with
  | O => []
  | S f => match longest (rules s) with
           | Some (t, n) => t :: lex f (drop n s)
           | None => []
           end
  end.

Definition tokens (s : cstr) : list token := lex (length s) s.

(** ** Clients and the program state *)

Inductive cstate :=
| ST_WAIT_FOR_MESSAGE | ST_CMD | ST_ADD_SOURCE_FILTER | ST_ADD_CLASS_FILTER
| ST_XAP | ST_LOGIN | ST_DEL_SOURCE_FILTER | ST_DEL_CLASS_FILTER.

#[global] Instance cstate_eq_dec : EqDecision cstate.
Proof. solve_decision. Defined.

Record Client := mkClient {
  cl_addr : addr;
  connected : bool;
  cl_fd : Z;
  cl_ip : cstr;
  connectTime : Z;
  txFrame : Z;
  rxFrame : Z;
  cl_source : option cstr;
  xapSocketHandler : addr;
  firstMessage : bool;
  cl_state : cstate;
  ident : cstr;
}.

#[global] Instance client_node : Node Client := cl_addr.

Definition set_connected (b : bool) (c : Client) : Client :=
  mkClient (cl_addr c) b (cl_fd c) (cl_ip c) (connectTime c) (txFrame c) (rxFrame c) (cl_source c)
    (xapSocketHandler c) (firstMessage c) (cl_state c) (ident c).
Definition set_tx (n : Z) (c : Client) : Client :=
  mkClient (cl_addr c) (connected c) (cl_fd c) (cl_ip c) (connectTime c) n (rxFrame c) (cl_source c)
    (xapSocketHandler c) (firstMessage c) (cl_state c) (ident c).
Definition set_rx (n : Z) (c : Client) : Client :=
  mkClient (cl_addr c) (connected c) (cl_fd c) (cl_ip c) (connectTime c) (txFrame c) n (cl_source c)
    (xapSocketHandler c) (firstMessage c) (cl_state c) (ident c).
Definition set_source (s : cstr) (c : Client) : Client :=
  mkClient (cl_addr c) (connected c) (cl_fd c) (cl_ip c) (connectTime c) (txFrame c) (rxFrame c) (Some s)
    (xapSocketHandler c) false (cl_state c) (ident c).
Definition set_state (st : cstate) (c : Client) : Client :=
  mkClient (cl_addr c) (connected c) (cl_fd c) (cl_ip c) (connectTime c) (txFrame c) (rxFrame c) (cl_source c)
    (xapSocketHandler c) (firstMessage c) st (ident c).
Definition set_ident (s : cstr) (c : Client) : Client :=
  mkClient (cl_addr c) (connected c) (cl_fd c) (cl_ip c) (connectTime c) (txFrame c) (rxFrame c) (cl_source c)
    (xapSocketHandler c) (firstMessage c) (cl_state c) s.

(** The callbacks the program registers. *)
Inductive fcb := xAPtoClient_cb.
Inductive scb :=
| handleXapPacket_cb | clientListener_cb | serverListener_cb | incomingXapPacket_cb
| flashPolicyServerHandler_cb | webServerHandler_cb.

#[global] Instance fcb_eq_dec : EqDecision fcb.
Proof. solve_decision. Defined.

Record config := mkConfig {
  opt_a : bool;         (* authorisation mode *)
  opt_e : bool;         (* inject the receive sequence *)
  opt_f : bool;         (* inject the transmit sequence *)
  password : cstr;
  self : xAPIdent;
  junk : xAPFrame;      (* the uninitialised local frame of [firstClientMessage] *)
}.

(** [next] is the next block the allocator returns; [tcp] and [udp] are the bytes
    handed to the network, [msg] the static buffer of [xAPtoClient]. *)
Record iserver := mkIserver {
  clientList : list Client;
  filterList : list (xAPFilterCallback fcb addr);
  connectionList : list (xAPSocketConnection scb ptr);
  tx_queue : list (addr * cstr);
  tcp : list (Z * cstr * Z);
  udp : list cstr;
  frame_ : xAPFrame;
  lowerData : bool;
  msg : list Z;
  next : addr;
}.

Definition set_clients (l : list Client) (w : iserver) : iserver :=
  mkIserver l (filterList w) (connectionList w) (tx_queue w) (tcp w) (udp w) (frame_ w) (lowerData w) (msg w) (next w).
Definition set_filters (l : list (xAPFilterCallback fcb addr)) (w : iserver) : iserver :=
  mkIserver (clientList w) l (connectionList w) (tx_queue w) (tcp w) (udp w) (frame_ w) (lowerData w) (msg w) (next w).
Definition set_sockets (l : list (xAPSocketConnection scb ptr)) (w : iserver) : iserver :=
  mkIserver (clientList w) (filterList w) l (tx_queue w) (tcp w) (udp w) (frame_ w) (lowerData w) (msg w) (next w).
Definition set_queue (q : list (addr * cstr)) (w : iserver) : iserver :=
  mkIserver (clientList w) (filterList w) (connectionList w) q (tcp w) (udp w) (frame_ w) (lowerData w) (msg w) (next w).
Definition set_tcp (t : list (Z * cstr * Z)) (w : iserver) : iserver :=
  mkIserver (clientList w) (filterList w) (connectionList w) (tx_queue w) t (udp w) (frame_ w) (lowerData w) (msg w) (next w).
Definition set_udp (u : list cstr) (w : iserver) : iserver :=
  mkIserver (clientList w) (filterList w) (connectionList w) (tx_queue w) (tcp w) u (frame_ w) (lowerData w) (msg w) (next w).
Definition set_frame (f : xAPFrame) (w : iserver) : iserver :=
  mkIserver (clientList w) (filterList w) (connectionList w) (tx_queue w) (tcp w) (udp w) f (lowerData w) (msg w) (next w).
Definition set_lower (b : bool) (m : list Z) (w : iserver) : iserver :=
  mkIserver (clientList w) (filterList w) (connectionList w) (tx_queue w) (tcp w) (udp w) (frame_ w) b m (next w).
Definition set_next (a : addr) (w : iserver) : iserver :=
  mkIserver (clientList w) (filterList w) (connectionList w) (tx_queue w) (tcp w) (udp w) (frame_ w) (lowerData w) (msg w) a.

(** ** Sending *)

(** An answer of [send]: a number of bytes, or an error, fatal for the
    connection or not. *)
Inductive send_ev := SentN (n : nat) | SendErr (fatal : bool).

(** The loop of [sendAll]: the [k]-th call gets the answer [net k] and takes
    between one and all of the bytes left.  Returns the bytes sent, the bytes
    left and the last [n]: [None] before the first call. *)
Fixpoint send_loop (fuel : nat) (net : nat -> send_ev) (k : nat) (done_ left : cstr) (n : option Z)
    : cstr * cstr * option Z * bool :=
  match fuel, left with
  | S f, _ :: _ =>
      match net k with
      | SendErr fatal => (done_, left, Some (-1), fatal)
      | SentN m =>
          let m := Nat.max 1 (Nat.min m (length left)) in
          send_loop f net (S k) (done_ ++ take m left) (drop m left) (Some (Z.of_nat m))
      end
  | _, _ => (done_, left, n, false)
  end.

(** The result and the bytes that went out.  With bytes left it calls [error],
    which log.h does not define: the one of the C library, whose first parameter
    is the exit status, gets the text there and a format it never received. *)
Definition sendAll (net : nat -> send_ev) (buf : cstr) : out (Z * cstr) :=
  let '(sent, rest, n, fatal) := send_loop (length buf) net 0 [] buf None in
  if (fatal : bool) then Ok (-2, sent) else
  if (0 <? length rest)%nat then Undef BadCall else
  n ← of_opt Uninitialised n;
  Ok (if n =? -1 then -1 else 0, sent).

Section Program.
Context (cfg : config).
(** The answers of the network to the [j]-th transmission. *)
Context (net : nat -> nat -> send_ev).

Definition sendToClient (c : Client) (buf : cstr) (w : iserver) : out (Z * Client * iserver) :=
  let c := set_rx (u32 (rxFrame c + 1)) c in
  '(r, bytes) ← sendAll (net (length (tcp w))) buf;
  let w := set_tcp (tcp w ++ [(cl_fd c, bytes, r)]) w in
  Ok (r, (if r =? -2 then set_connected false c else c), w).

Definition broadcastPacket (c : Client) (m : cstr) (w : iserver) : iserver :=
  set_queue (tx_queue w ++ [(cl_addr c, m)]) w.

(** [memmove(lParen+slen, lParen, len-(buf-lParen))]: the length is
    [len + off], where [off] is the offset of the brace. *)
Definition injectFrameSequence (buf : list Z) (frame : Z) : out (list Z) :=
  s ← of_opt OutOfBounds (cstr_at buf 0);
  let len := length s in
  if Z.of_nat len >? XAP_DATA_LEN - 20 then Ok buf else
  match strchr s 125 with
  | None => Ok buf
  | Some off =>
      let seq := str "iseq=" ++ fmt_d (u32 frame) ++ [10] in
      if (off + (len + off) <=? length buf)%nat then
        buf ← write_at buf (off + length seq) (take (len + off) (drop off buf));
        write_at buf off seq
      else Undef OutOfBounds
  end.

Definition bsc_query_text (target : cstr) : cstr :=
  line "xap-header" ++ line "{" ++ line "v=12" ++ line "hop=1" ++
  str "uid=" ++ uid (self cfg) ++ [10] ++ line "class=xAPBSC.query" ++
  str "source=" ++ source (self cfg) ++ [10] ++ str "target=" ++ target ++ [10] ++
  line "}" ++ line "request" ++ line "{" ++ line "}".

Definition sendBscQuery (c : Client) (target : cstr) (w : iserver) : iserver :=
  broadcastPacket c (sb_content XAP_DATA_LEN (bsc_query_text target)) w.

(** ** Filters *)

(** Register a one-filter callback for the client. *)
Definition add_client_filter (k v : cstr) (c : Client) (w : iserver) : iserver :=
  set_next (Pos.succ (next w))
    (set_filters (xapAddFilterAction (next w) xAPtoClient_cb (xapAddFilter [] (str "xap-header") k v)
                    (cl_addr c) (filterList w)) w).

Definition firstClientMessage (c : Client) (w : iserver) : out (Client * iserver) :=
  if negb (firstMessage c) then Ok (c, w) else
  '(packet, n) ← strlcpy (dataPacket (junk cfg)) (ident c) (Z.to_nat XAP_DATA_LEN);
  '(m, _) ← parseMsgF (mkFrame (Z.of_nat n) packet (parsedMsgCount (junk cfg)) (parsedMsg (junk cfg)));
  s1 ← xapGetValueF m (str "xap-hbeat") (Some (str "source"));
  s ← match s1 with
      | Some _ => Ok s1
      | None => xapGetValueF m (str "xap-header") (Some (str "source"))
      end;
  match s with
  | None => Ok (c, w)
  | Some s =>
      let c := set_source s c in
      Ok (c, add_client_filter (str "target") s c w)
  end.

(** The filter is dereferenced only for a callback of this client. *)
Fixpoint unique_loop (s : cstr) (c : addr) (l : list (xAPFilterCallback fcb addr)) : out bool :=
  match l with
  | [] => Ok true
  | f :: r =>
      if bool_decide (callback f = xAPtoClient_cb) && bool_decide (user_data f = c) then
        match fc_filter f with
        | [] => Undef NullDeref
        | x :: _ =>
            if strcmp0 (f_key x) (str "source") && strcmp0 (f_value x) s then Ok false
            else unique_loop s c r
        end
      else unique_loop s c r
  end.

Definition uniqueFilter (s : cstr) (c : Client) (w : iserver) : out bool :=
  unique_loop s (cl_addr c) (filterList w).

(** The body of the deletion loop. *)
Definition del_filter_body (k v : cstr) (c : addr) (fc : xAPFilterCallback fcb addr)
    (l : list (xAPFilterCallback fcb addr)) : out (list (xAPFilterCallback fcb addr)) :=
  if bool_decide (callback fc = xAPtoClient_cb) && bool_decide (user_data fc = c) then
    match fc_filter fc with
    | [] => Undef NullDeref
    | x :: _ =>
        if strcmp0 (f_section x) (str "xap-header") && strcmp0 (f_key x) k && strcmp0 (f_value x) v
        then '(_, l) ← xapDelFilterAction (fc_addr fc) l; Ok l
        else Ok l
    end
  else Ok l.

Definition delete_filters (k v : cstr) (c : Client) (w : iserver) : out iserver :=
  l ← LL_FOREACH_SAFE (fun l => l) (del_filter_body k v (cl_addr c)) (filterList w);
  Ok (set_filters l w).

(** ** The protocol machine *)

(** [strlcat(c->ident, yylval.s, XAP_DATA_LEN)]: a NUL byte adds nothing. *)
Definition add_ident (ch : Z) (c : Client) : Client :=
  set_ident (cat_to (Z.to_nat XAP_DATA_LEN) (ident c) (if ch =? 0 then [] else [ch])) c.

Definition wait (c : Client) : Client := set_state ST_WAIT_FOR_MESSAGE c.

Definition on_wait (t : token) (c : Client) : Client :=
  match t with
  | MSG_SEQUENCE _ => c
  | START_CMD => set_state ST_CMD (set_ident [] c)
  | START_XAP => set_state ST_XAP (set_ident [] c)
  | _ => wait c
  end.

Definition on_login (t : token) (c : Client) (w : iserver) : out (Client * iserver) :=
  match t with
  | IDENT ch => Ok (add_ident ch c, w)
  | END_CMD =>
      '(c, w) ← (if negb (opt_a cfg) || strcmp0 (password cfg) (ident c)
                 then '(_, c, w) ← sendToClient c (str "<ACL>Joggler</ACL>") w; Ok (c, w)
                 else Ok (c, w));
      Ok (wait c, w)
  | _ => Ok (wait c, w)
  end.

Definition on_cmd (t : token) (c : Client) : Client :=
  match t with
  | LOGIN => set_state ST_LOGIN c
  | ADD_SOURCE_FILTER => set_state ST_ADD_SOURCE_FILTER c
  | ADD_CLASS_FILTER => set_state ST_ADD_CLASS_FILTER c
  | DEL_SOURCE_FILTER => set_state ST_DEL_SOURCE_FILTER c
  | DEL_CLASS_FILTER => set_state ST_DEL_CLASS_FILTER c
  | _ => wait c
  end.

(** [src]: a source filter, otherwise a class filter. *)
Definition filter_type (src : bool) : cstr := if src then str "source" else str "class".

Definition on_add (src : bool) (t : token) (c : Client) (w : iserver) : out (Client * iserver) :=
  match t with
  | IDENT ch => Ok (add_ident ch c, w)
  | ADD_SOURCE_FILTER_E | ADD_CLASS_FILTER_E | END_CMD =>
      u ← uniqueFilter (ident c) c w;
      let w := if (u : bool) then add_client_filter (filter_type src) (ident c) c w else w in
      let w := match src, strchr (ident c) 58 with
               | true, Some _ => sendBscQuery c (ident c) w
               | _, _ => w
               end in
      Ok (wait c, w)
  | _ => Ok (wait c, w)
  end.

Definition on_del (src : bool) (t : token) (c : Client) (w : iserver) : out (Client * iserver) :=
  match t with
  | IDENT ch => Ok (add_ident ch c, w)
  | DEL_SOURCE_FILTER_E | DEL_CLASS_FILTER_E | END_CMD =>
      w ← delete_filters (filter_type src) (ident c) c w;
      Ok (wait c, w)
  | _ => Ok (wait c, w)
  end.

Definition on_xap (t : token) (c : Client) (w : iserver) : out (Client * iserver) :=
  match t with
  | IDENT ch => Ok (add_ident ch c, w)
  | END_XAP =>
      '(c, w) ← firstClientMessage c (broadcastPacket c (ident c) w);
      Ok (wait c, w)
  | _ => Ok (wait c, w)
  end.

Definition token_step (t : token) (c : Client) (w : iserver) : out (Client * iserver) :=
  match cl_state c with
  | ST_WAIT_FOR_MESSAGE => Ok (on_wait t c, w)
  | ST_LOGIN => on_login t c w
  | ST_CMD => Ok (on_cmd t c, w)
  | ST_ADD_SOURCE_FILTER => on_add true t c w
  | ST_ADD_CLASS_FILTER => on_add false t c w
  | ST_DEL_SOURCE_FILTER => on_del true t c w
  | ST_DEL_CLASS_FILTER => on_del false t c w
  | ST_XAP => on_xap t c w
  end.

(** [while (c->connected && (token = yylex()) > 0)] *)
Fixpoint token_loop (ts : list token) (c : Client) (w : iserver) : out (Client * iserver) :=
  match ts with
  | [] => Ok (c, w)
  | t :: r =>
      if connected c then '(c, w) ← token_step t c w; token_loop r c w else Ok (c, w)
  end.

(** The client is read and written through its pointer. *)
Definition parseiServerMsg (p : addr) (bytes : cstr) (w : iserver) : out iserver :=
  '(c, _) ← of_opt UseAfterFree (ll_node p (clientList w));
  '(c, w) ← token_loop (tokens bytes) c w;
  Ok (set_clients (ll_update p (fun _ => c) (clientList w)) w).

(** ** Connections *)

Definition delClient (p : addr) (w : iserver) : out iserver :=
  '(c, _) ← of_opt UseAfterFree (ll_node p (clientList w));
  '(_, socks) ← xapDelSocketListener (xapSocketHandler c) (connectionList w);
  '(fl, _) ← LL_FOREACH_SAFE fst (del_where_body (fun fc => bool_decide (user_data fc = p)))
               (filterList w, 0%nat);
  Ok (set_clients (ll_delete p (clientList w)) (set_filters fl (set_sockets socks w))).

(** The chunks [recv] returns until it fails; [closed]: the last call returned 0. *)
Fixpoint recv_loop (p : addr) (chunks : list cstr) (w : iserver) : out iserver :=
  match chunks with
  | [] => Ok w
  | b :: r => w ← parseiServerMsg p b w; recv_loop p r w
  end.

Definition clientListener (p : addr) (chunks : list cstr) (closed : bool) (w : iserver) : out iserver :=
  w ← recv_loop p chunks w;
  '(c, _) ← of_opt UseAfterFree (ll_node p (clientList w));
  if closed || negb (connected c) then delClient p w else Ok w.

(** [fd >= 0] is the accepted socket. *)
Definition addClient (fd_ : Z) (ip_ : cstr) (now : Z) (w : iserver) : out iserver :=
  let p := next w in
  let s := Pos.succ p in
  match xapAddSocketListener s fd_ clientListener_cb (Some p) (connectionList w) with
  | None => Undef NullDeref
  | Some socks =>
      let c := mkClient p true fd_ ip_ now 0 0 None s true ST_WAIT_FOR_MESSAGE [] in
      let w := set_next (Pos.succ s) (set_sockets socks (set_clients (ll_prepend c (clientList w)) w)) in
      '(r, c, w) ← sendToClient c (str "<ACL></ACL>") w;
      let w := set_clients (ll_update p (fun _ => c) (clientList w)) w in
      if r =? 0 then Ok w else delClient p w
  end.

(** ** From the bus to the clients *)

(** The static buffer has [XAP_DATA_LEN+12] bytes. *)
Definition MSG_SIZE : nat := 1512.

(** [strcat] on a buffer. *)
Definition strcat_buf (buf : list Z) (t : cstr) : out (list Z) :=
  s ← of_opt OutOfBounds (cstr_at buf 0);
  write_at buf (length s) (t ++ [0]).

Definition xAPtoClient (p : addr) (w : iserver) : out iserver :=
  '(c, _) ← of_opt UseAfterFree (ll_node p (clientList w));
  w ← (if lowerData w then Ok w else
         f ← xapLowerMessageF (frame_ w);
         raw ← parsedMsgToRawF f (Z.of_nat MSG_SIZE - 5);
         buf ← write_at (msg w) 0 (str "<xap>" ++ raw ++ [0]);
         buf ← (if opt_e cfg then injectFrameSequence buf (rxFrame c + 1) else Ok buf);
         buf ← strcat_buf buf (str "</xap>");
         Ok (set_lower true buf (set_frame f w)));
  text ← of_opt OutOfBounds (cstr_at (msg w) 0);
  '(_, c, w) ← sendToClient c text w;
  Ok (set_clients (ll_update p (fun _ => c) (clientList w)) w).

Definition run_cb (cb : fcb) (p : addr) (w : iserver) : out iserver :=
  match cb with xAPtoClient_cb => xAPtoClient p w end.

Definition incomingXapPacket (dgram : option (list Z)) (w : iserver) : out iserver :=
  let w := set_frame (readXapData (frame_ w) dgram) w in
  if 0 <? len (frame_ w) then
    match filterList w with
    | [] => Ok w
    | _ =>
        '(f, _) ← parseMsgF (frame_ w);
        filterDispatch filterList frame_ run_cb (set_lower false (msg w) (set_frame f w))
    end
  else Ok w.

(** One round of the transmit thread; [None] while the queue is empty. *)
Definition tx_step (w : iserver) : out (option iserver) :=
  match tx_queue w with
  | [] => Ok None
  | (p, m) :: r =>
      '(c, _) ← of_opt UseAfterFree (ll_node p (clientList w));
      let c := set_tx (u32 (txFrame c + 1)) c in
      let w := set_queue r (set_clients (ll_update p (fun _ => c) (clientList w)) w) in
      m ← (if opt_f cfg then
             buf ← write_at (replicate 1500 0) 0 (m ++ [0]);
             buf ← injectFrameSequence buf (txFrame c);
             of_opt OutOfBounds (cstr_at buf 0)
           else Ok m);
      Ok (Some (set_udp (udp w ++ [m]) w))
  end.

End Program.
