(* ===== verification/IServerProps.v ===== *)
(** * Properties of the iServer

    The tokenizer and the protocol machine realise the commands a client sends,
    in sequence; client, filter and listener tables never hold a pointer to a
    freed client; the transmission loop sends everything or reports a failure.
    The last part records where the code departs from this: packets queued for a
    client that has gone, tokens cut by a segment boundary, commands from clients
    that never logged in, and the sequence injection. *)

From S2P Require Import Prelude UtList Strings Frame Wire Filter Xap IServer.

(** ** The tokenizer *)

Definition rule_pos (r : option (token * nat)) : Prop :=
  match r with Some (_, n) => (1 <= n)%nat | None => True end.

Lemma longest_pos l best :
  rule_pos best -> Forall rule_pos l ->
  rule_pos (fold_left (fun best r =>
    match best, r with
    | Some (_, n), Some (t, m) => if (n <? m)%nat then r else best
    | None, _ => r
    | _, None => best
    end) l best).
Proof.
  intros Hb Hl. revert best Hb. induction Hl as [|r l Hr _ IH]; intros best Hb; [done|]. cbn [fold_left].
  apply IH. destruct best as [[t n]|], r as [[u m]|]; try done. by destruct (n <? m)%nat.
Qed.

Lemma lit_rule_pos l t s : l <> [] -> rule_pos (lit_rule l t s).
Proof. intros. unfold lit_rule. case_bool_decide; [|done]. destruct l; [done|]. simpl. lia. Qed.

Lemma ci_rule_pos l t s : l <> [] -> rule_pos (ci_rule l t s).
Proof. intros. unfold ci_rule. destruct (strcasecmp0 _ _); [|done]. destruct l; [done|]. simpl. lia. Qed.

Lemma seq_rule_pos s : rule_pos (seq_rule s).
Proof. unfold seq_rule. repeat case_match; try done. simpl. lia. Qed.

Lemma rules_pos s : Forall rule_pos (rules s).
Proof.
  unfold rules. repeat (constructor; [first [apply seq_rule_pos | by apply lit_rule_pos | by apply ci_rule_pos | destruct s; simpl; auto]|]).
  constructor.
Qed.

Lemma longest_rules_pos s : rule_pos (longest (rules s)).
Proof. by apply longest_pos; [|apply rules_pos]. Qed.

Lemma lex_fuel n m s : (length s <= n)%nat -> (length s <= m)%nat -> lex n s = lex m s.
Proof.
  revert m s. induction n as [|n IH]; intros m s Hn Hm.
  - destruct s; [|simpl in Hn; lia]. by destruct m.
  - destruct m as [|m]; [destruct s; [done|simpl in Hm; lia]|]. cbn [lex].
    pose proof (longest_rules_pos s) as Hp. destruct (longest (rules s)) as [[t k]|]; [|done].
    simpl in Hp. f_equal. apply IH; rewrite length_drop; lia.
Qed.

(** One call of [yylex]. *)
Lemma tokens_unfold s :
  tokens s = match longest (rules s) with Some (t, n) => t :: tokens (drop n s) | None => [] end.
Proof.
  unfold tokens. destruct s as [|c s]; [done|]. cbn [length lex].
  pose proof (longest_rules_pos (c :: s)) as Hp. destruct (longest (rules (c :: s))) as [[t k]|]; [|done].
  simpl in Hp. f_equal. apply lex_fuel; rewrite length_drop; simpl; lia.
Qed.

(** The fixed tokens in front of any text. *)
Lemma tokens_start_cmd s : tokens (str "<cmd>" ++ s) = START_CMD :: tokens s.
Proof. rewrite tokens_unfold. reflexivity. Qed.
Lemma tokens_end_cmd s : tokens (str "</cmd>" ++ s) = END_CMD :: tokens s.
Proof. rewrite tokens_unfold. reflexivity. Qed.
Lemma tokens_start_xap s : tokens (str "<xap>" ++ s) = START_XAP :: tokens s.
Proof. rewrite tokens_unfold. reflexivity. Qed.
Lemma tokens_end_xap s : tokens (str "</xap>" ++ s) = END_XAP :: tokens s.
Proof. rewrite tokens_unfold. reflexivity. Qed.
Lemma tokens_login s : tokens (str "log<code>" ++ s) = LOGIN :: tokens s.
Proof. rewrite tokens_unfold. reflexivity. Qed.

(** Opening tags of the filter commands. *)
Definition filter_tag (add src : bool) : cstr :=
  match add, src with
  | true, true => str "<flt+>" | true, false => str "<cflt+>"
  | false, true => str "<flt->" | false, false => str "<cflt->"
  end.
Definition filter_tok (add src : bool) : token :=
  match add, src with
  | true, true => ADD_SOURCE_FILTER | true, false => ADD_CLASS_FILTER
  | false, true => DEL_SOURCE_FILTER | false, false => DEL_CLASS_FILTER
  end.

Lemma tokens_filter_tag add src s : tokens (filter_tag add src ++ s) = filter_tok add src :: tokens s.
Proof. rewrite tokens_unfold. destruct add, src; reflexivity. Qed.

(** Text without ['<'] and ['['], in front of a closing tag or nothing. *)
Definition plain (s : cstr) : Prop := Forall (fun c => c <> 60 /\ c <> 91) s.
Definition closing (t : cstr) : Prop := match t with [] => True | c :: r => c = 60 /\ head r = Some 47 end.

Lemma lit_rule_ne l0 l t c s : head l = Some l0 -> c <> l0 -> lit_rule l t (c :: s) = None.
Proof.
  intros Hl Hc. destruct l as [|x l]; [done|]. injection Hl as ->. unfold lit_rule. cbn [length take]. rewrite bool_decide_eq_false_2; congruence.
Qed.

Lemma ci_rule_ne l0 l t c s :
  head l = Some l0 -> tolower c <> tolower l0 -> ci_rule l t (c :: s) = None.
Proof.
  intros Hl Hc. destruct l as [|x l]; [done|]. injection Hl as ->. unfold ci_rule. cbn [length take]. rewrite strcasecmp0_cons.
  by destruct (Z.eqb_spec (tolower c) (tolower l0)).
Qed.

(** ["log<code>"] needs a ['<'] that is not followed by ['/']. *)
Lemma login_plain s t : plain s -> closing t -> s <> [] -> lit_rule (str "log<code>") LOGIN (s ++ t) = None.
Proof.
  intros Hs Ht Hne. unfold lit_rule. rewrite bool_decide_eq_false_2; [done|]. intros He.
  change (length (str "log<code>")) with 9%nat in He.
  assert (H3 : (s ++ t) !! 3%nat = Some 60 /\ (s ++ t) !! 4%nat = Some 99).
  { split; rewrite <- (lookup_take_lt _ 9) by lia; by rewrite He. }
  assert (H0 : (s ++ t) !! 0%nat = Some 108 /\ (s ++ t) !! 1%nat = Some 111 /\ (s ++ t) !! 2%nat = Some 103).
  { split; [|split]; rewrite <- (lookup_take_lt _ 9) by lia; by rewrite He. }
  destruct H3 as [H3 H4], H0 as (H0 & H1 & H2). unfold plain in Hs. rewrite Forall_lookup in Hs.
  destruct (decide (3 < length s)%nat) as [Hl|Hl].
  - rewrite lookup_app_l in H3 by lia. apply Hs in H3. by destruct H3.
  - destruct t as [|c t]; [rewrite app_nil_r, lookup_ge_None_2 in H3 by lia; done|].
    destruct Ht as [-> Ht]. destruct (decide (length s = 3)%nat) as [Hl3|Hl3].
    + rewrite lookup_app_r in H4 by lia. replace (4 - length s)%nat with 1%nat in H4 by lia.
      destruct t as [|d t]; [done|]. cbn in H4, Ht. congruence.
    + destruct s as [|a [|b [|d s]]]; [done| | |simpl in Hl, Hl3; lia]; cbn in H0, H1, H2; congruence.
Qed.

Lemma tokens_plain s t : plain s -> closing t -> tokens (s ++ t) = map IDENT s ++ tokens t.
Proof.
  intros Hs Ht. induction Hs as [|c s [Hc1 Hc2] Hs IH]; [done|].
  rewrite tokens_unfold. cbn [app]. pose proof (login_plain (c :: s) t ltac:(by constructor) Ht ltac:(done)) as Hlog.
  cbn [app] in Hlog. assert (tolower c <> 60).
  { intros Hl. apply Z.eqb_eq in Hl. rewrite tolower_punct in Hl by lia. lia. }
  assert (Hrules : rules (c :: s ++ t) = replicate 14 None ++ [Some (IDENT c, 1%nat)]).
  { unfold rules. rewrite Hlog. assert (seq_rule (c :: s ++ t) = None) as ->.
    { unfold seq_rule. repeat case_match; congruence. }
    rewrite !(lit_rule_ne 60) by done. by rewrite !(ci_rule_ne 60) by done. }
  rewrite Hrules. cbn [replicate app longest fold_left]. cbn [map app drop]. by rewrite drop_0, IH.
Qed.

(** ** Commands *)

(** What a client asks for. *)
Inductive command :=
| CLogin (pw : cstr)
| CAdd (src : bool) (v : cstr)
| CDel (src : bool) (v : cstr)
| CXap (m : cstr).

Definition print_command (cmd : command) : cstr :=
  match cmd with
  | CLogin pw => str "<cmd>" ++ str "log<code>" ++ pw ++ str "</cmd>"
  | CAdd src v => str "<cmd>" ++ filter_tag true src ++ v ++ str "</cmd>"
  | CDel src v => str "<cmd>" ++ filter_tag false src ++ v ++ str "</cmd>"
  | CXap m => str "<xap>" ++ m ++ str "</xap>"
  end.

Definition command_text (cmd : command) : cstr :=
  match cmd with CLogin s | CAdd _ s | CDel _ s | CXap s => s end.

Definition command_wf (cmd : command) : Prop := plain (command_text cmd) /\ no_nul (command_text cmd).

Definition command_tokens (cmd : command) : list token :=
  match cmd with
  | CLogin pw => [START_CMD; LOGIN] ++ map IDENT pw ++ [END_CMD]
  | CAdd src v => [START_CMD; filter_tok true src] ++ map IDENT v ++ [END_CMD]
  | CDel src v => [START_CMD; filter_tok false src] ++ map IDENT v ++ [END_CMD]
  | CXap m => [START_XAP] ++ map IDENT m ++ [END_XAP]
  end.

Lemma tokens_command cmd s :
  command_wf cmd -> tokens (print_command cmd ++ s) = command_tokens cmd ++ tokens s.
Proof.
  intros [Hp _]. destruct cmd as [pw|src v|src v|m]; cbn [command_text print_command command_tokens] in *;
    rewrite <- !app_assoc.
  - rewrite tokens_start_cmd, tokens_login, tokens_plain by (done || by split). by rewrite tokens_end_cmd.
  - rewrite tokens_start_cmd, tokens_filter_tag, tokens_plain by (done || by split). by rewrite tokens_end_cmd.
  - rewrite tokens_start_cmd, tokens_filter_tag, tokens_plain by (done || by split). by rewrite tokens_end_cmd.
  - rewrite tokens_start_xap, tokens_plain by (done || by split). by rewrite tokens_end_xap.
Qed.

Definition print_commands (l : list command) : cstr := concat (map print_command l).

Lemma tokens_commands l s :
  Forall command_wf l -> tokens (print_commands l ++ s) = concat (map command_tokens l) ++ tokens s.
Proof.
  induction 1 as [|cmd l Hc _ IH]; [done|]. unfold print_commands in *. cbn [map concat].
  rewrite <- !app_assoc, tokens_command by done. by rewrite IH.
Qed.

Section Machine.
Context (cfg : config) (net : nat -> nat -> send_ev).

(** The effect of a command on the client and the program; texts are cut to the
    1499 bytes the identifier buffer holds. *)
Definition exec (cmd : command) (c : Client) (w : iserver) : out (Client * iserver) :=
  let v := take 1499 (command_text cmd) in
  let c := set_ident v c in
  match cmd with
  | CLogin _ =>
      if negb (opt_a cfg) || strcmp0 (password cfg) v
      then '(_, c, w) ← sendToClient net c (str "<ACL>Joggler</ACL>") w; Ok (wait c, w)
      else Ok (wait c, w)
  | CAdd src _ =>
      u ← uniqueFilter v c w;
      let w := if (u : bool) then add_client_filter (filter_type src) v c w else w in
      Ok (wait c, if src && bool_decide (58 ∈ v) then sendBscQuery cfg c v w else w)
  | CDel src _ => w ← delete_filters (filter_type src) v c w; Ok (wait c, w)
  | CXap _ => '(c, w) ← firstClientMessage cfg c (broadcastPacket c v w); Ok (wait c, w)
  end.

Fixpoint exec_all (l : list command) (c : Client) (w : iserver) : out (Client * iserver) :=
  match l with
  | [] => Ok (c, w)
  | cmd :: r => if connected c then '(c, w) ← exec cmd c w; exec_all r c w else Ok (c, w)
  end.

Lemma token_loop_disc ts c w : connected c = false -> token_loop cfg net ts c w = Ok (c, w).
Proof. intros Hc. destruct ts; [done|]. cbn [token_loop]. by rewrite Hc. Qed.

Lemma token_loop_app a b c w :
  token_loop cfg net (a ++ b) c w = '(c, w) ← token_loop cfg net a c w; token_loop cfg net b c w.
Proof.
  revert c w. induction a as [|t a IH]; intros c w; [done|]. cbn [app token_loop].
  destruct (connected c) eqn:Hc; [|by rewrite bind_Ok, token_loop_disc].
  destruct (token_step cfg net t c w) as [[c' w']| |]; [|done|done]. rewrite !bind_Ok. apply IH.
Qed.

(** States in which identifier characters accumulate. *)
Definition collecting (st : cstate) : bool :=
  match st with ST_WAIT_FOR_MESSAGE | ST_CMD => false | _ => true end.

Lemma take_take_app {A} n (l b : list A) : take n (take n l ++ b) = take n (l ++ b).
Proof. revert l. induction n as [|n IH]; intros [|x l]; simpl; [done..|]. by rewrite IH. Qed.

Lemma cat_to_cat N s a b : cat_to N (cat_to N s a) b = cat_to N s (a ++ b).
Proof. unfold cat_to. by rewrite take_take_app, <- app_assoc. Qed.

Lemma set_ident_ident c a b : set_ident b (set_ident a c) = set_ident b c.
Proof. done. Qed.

Lemma idents_loop s c w :
  collecting (cl_state c) = true -> connected c = true -> no_nul s ->
  (length (ident c) <= 1499)%nat ->
  token_loop cfg net (map IDENT s) c w = Ok (set_ident (cat_to 1500 (ident c) s) c, w).
Proof.
  intros Hst Hc Hs. revert c Hst Hc. induction Hs as [|ch s Hch _ IH]; intros c Hst Hc Hl; cbn [map token_loop].
  - unfold cat_to. rewrite app_nil_r, take_ge by lia. by destruct c.
  - rewrite Hc. assert (Hstep : token_step cfg net (IDENT ch) c w = Ok (add_ident ch c, w)).
    { unfold token_step. by destruct (cl_state c). }
    rewrite Hstep, bind_Ok. unfold add_ident. destruct (Z.eqb_spec ch 0); [done|].
    change (Z.to_nat XAP_DATA_LEN) with 1500%nat. rewrite IH; [|done|done|].
    + cbn [ident set_ident]. rewrite cat_to_cat, set_ident_ident. done.
    + cbn [ident set_ident]. unfold cat_to. rewrite length_take. lia.
Qed.

(** The first message does not depend on the protocol state. *)
Lemma first_message_state m c w :
  let c1 := set_ident m c in
  token_step cfg net END_XAP (set_state ST_XAP c1) w
  = '(c, w) ← firstClientMessage cfg c1 (broadcastPacket c1 m w); Ok (wait c, w).
Proof.
  intros c1. cbn [token_step cl_state set_state on_xap]. unfold firstClientMessage.
  cbn [firstMessage ident set_state set_ident c1]. destruct (negb (firstMessage c)); [done|].
  destruct (strlcpy _ _ _) as [[pk n]| |]; [|done..]. rewrite !bind_Ok.
  destruct (parseMsgF _) as [[f k]| |]; [|done..]. rewrite !bind_Ok.
  destruct (xapGetValueF f (str "xap-hbeat") _) as [s1| |]; [|done..]. rewrite !bind_Ok.
  destruct (match s1 with Some _ => _ | None => _ end) as [[s|]| |]; done.
Qed.

(** A whole command, from the waiting state back to it. *)
Lemma command_loop cmd c w :
  command_wf cmd -> cl_state c = ST_WAIT_FOR_MESSAGE -> connected c = true ->
  token_loop cfg net (command_tokens cmd) c w = exec cmd c w.
Proof.
  intros [_ Hnn] Hst Hc.
  assert (Hrun : forall st end_ c', collecting st = true -> c' = set_state st (set_ident [] c) ->
    token_loop cfg net (map IDENT (command_text cmd) ++ [end_]) c' w
    = token_step cfg net end_ (set_state st (set_ident (take 1499 (command_text cmd)) c)) w).
  { intros st end_ c' Hcol ->. rewrite token_loop_app, idents_loop; [|done|done|done|simpl; lia].
    rewrite bind_Ok. cbn [ident set_ident set_state]. unfold cat_to. cbn [app]. change (1500 - 1)%nat with 1499%nat.
    cbn [token_loop connected set_ident set_state]. rewrite Hc.
    destruct (token_step _ _ _ _ _) as [[c1 w1]| |]; by rewrite ?bind_Ok. }
  assert (Hopen : forall t c', on_wait t c = c' -> forall r, token_loop cfg net (t :: r) c w = token_loop cfg net r c' w).
  { intros t c' <- r. cbn [token_loop]. rewrite Hc. unfold token_step. by rewrite Hst, bind_Ok. }
  assert (Hcmd : forall t st r, on_cmd t (set_state ST_CMD (set_ident [] c)) = set_state st (set_ident [] c) ->
    token_loop cfg net (START_CMD :: t :: r) c w = token_loop cfg net r (set_state st (set_ident [] c)) w).
  { intros t st r Ht. rewrite (Hopen START_CMD _ eq_refl). cbn [token_loop on_wait connected set_state set_ident].
    rewrite Hc. unfold token_step. cbn [cl_state set_state]. rewrite bind_Ok. by rewrite Ht. }
  destruct cmd as [pw|src v|src v|m]; cbn [command_tokens command_text app] in *; unfold exec; cbn [command_text].
  - rewrite (Hcmd LOGIN ST_LOGIN) by done. rewrite (Hrun ST_LOGIN) by done. cbn [token_step cl_state set_state on_login].
    cbn [ident set_state set_ident]. destruct (_ || _); [|done].
    unfold sendToClient. destruct (sendAll _ _) as [[r b]| |]; [|done|done]. rewrite !bind_Ok. by destruct (r =? -2).
  - destruct src; cbn [filter_tok].
    + rewrite (Hcmd ADD_SOURCE_FILTER ST_ADD_SOURCE_FILTER) by done. rewrite (Hrun ST_ADD_SOURCE_FILTER) by done.
      cbn [token_step cl_state set_state on_add]. cbn [ident set_state set_ident].
      unfold uniqueFilter. cbn [cl_addr set_state set_ident]. destruct (unique_loop _ _ _); [|done|done]. rewrite !bind_Ok.
      do 3 f_equal. cbn [andb]. destruct (strchr (take 1499 v) 58) eqn:Hs.
      * rewrite bool_decide_eq_true_2; [done|]. apply strchr_lookup in Hs as [Hs _]. by eapply list_elem_of_lookup_2.
      * rewrite bool_decide_eq_false_2; [done|]. by apply strchr_None.
    + rewrite (Hcmd ADD_CLASS_FILTER ST_ADD_CLASS_FILTER) by done. by rewrite (Hrun ST_ADD_CLASS_FILTER) by done.
  - destruct src; cbn [filter_tok].
    + rewrite (Hcmd DEL_SOURCE_FILTER ST_DEL_SOURCE_FILTER) by done. by rewrite (Hrun ST_DEL_SOURCE_FILTER) by done.
    + rewrite (Hcmd DEL_CLASS_FILTER ST_DEL_CLASS_FILTER) by done. by rewrite (Hrun ST_DEL_CLASS_FILTER) by done.
  - rewrite (Hopen START_XAP _ eq_refl). rewrite (Hrun ST_XAP) by done.
    apply first_message_state.
Qed.

Lemma exec_wait cmd c w c' w' : exec cmd c w = Ok (c', w') -> cl_state c' = ST_WAIT_FOR_MESSAGE.
Proof.
  unfold exec. intros H. destruct cmd.
  - destruct (_ || _); [inv_bind H; destruct a as [[? ?] ?]|]; by injection H as <- <-.
  - inv_bind H. by injection H as <- <-.
  - inv_bind H. by injection H as <- <-.
  - inv_bind H. destruct a as [? ?]. by injection H as <- <-.
Qed.

Lemma commands_loop l c w :
  Forall command_wf l -> cl_state c = ST_WAIT_FOR_MESSAGE ->
  token_loop cfg net (concat (map command_tokens l)) c w = exec_all l c w.
Proof.
  intros Hl. revert c w. induction Hl as [|cmd l Hcmd _ IH]; intros c w Hst; [done|].
  cbn [map concat exec_all]. rewrite token_loop_app. destruct (connected c) eqn:Hc.
  - rewrite command_loop by done. destruct (exec cmd c w) as [[c' w']| |] eqn:He; [|done..].
    rewrite !bind_Ok. apply IH. by eapply exec_wait.
  - rewrite token_loop_disc by done. rewrite bind_Ok. by apply token_loop_disc.
Qed.

(** ** No dangling clients *)

Abbreviation fcbs := (list (xAPFilterCallback fcb addr)).

(** Every filter callback belongs to a listed client and has one filter. *)
Definition filters_ok (clients : list addr) (nx : addr) (l : fcbs) : Prop :=
  ll_wf l /\ Forall (fun f => user_data f ∈ clients /\ (exists x, fc_filter f = [x]) /\ (fc_addr f < nx)%positive) l.

Lemma filters_ok_add clients k v c w :
  filters_ok clients (next w) (filterList w) -> cl_addr c ∈ clients ->
  filters_ok clients (next (add_client_filter k v c w)) (filterList (add_client_filter k v c w)).
Proof.
  intros [Hwf Hf] Hc. unfold add_client_filter. cbn [next set_next filterList set_filters].
  assert (Hlt : Forall (fun f => (fc_addr f < next w)%positive) (filterList w)).
  { eapply Forall_impl; [exact Hf|]. by intros f (_ & _ & ?). }
  split.
  - unfold ll_wf, xapAddFilterAction, ll_prepend. cbn [map]. apply NoDup_cons. split; [|done].
    intros Hin. apply list_elem_of_fmap in Hin as (f & Hfe & Hin). rewrite Forall_forall in Hlt.
    specialize (Hlt f Hin). change (node_addr f) with (fc_addr f) in Hfe. cbn in Hfe. lia.
  - constructor.
    + cbn. split; [done|]. split; [by eexists|lia].
    + eapply Forall_impl; [exact Hf|]. intros f (? & ? & ?). split; [done|]. split; [done|]. lia.
Qed.

Lemma filters_ok_filter clients nx l p :
  filters_ok clients nx l -> filters_ok clients nx (List.filter p l).
Proof.
  intros [Hwf Hf]. assert (Hs : sublist (List.filter p l) l).
  { clear. induction l as [|x l IH]; [constructor|]. cbn [List.filter]. destruct (p x); by constructor. }
  split.
  - unfold ll_wf in *. eapply sublist_NoDup; [exact Hwf|]. by apply (fmap_sublist node_addr).
  - rewrite Forall_forall in Hf |- *. intros f Hin. apply Hf.
    apply list_elem_of_In, List.filter_In in Hin as [Hin _]. by apply list_elem_of_In.
Qed.

Definition is_filter_of (k v : cstr) (c : addr) (f : xAPFilterCallback fcb addr) : bool :=
  bool_decide (user_data f = c) &&
  match fc_filter f with
  | x :: _ => strcmp0 (f_section x) (str "xap-header") && strcmp0 (f_key x) k && strcmp0 (f_value x) v
  | [] => false
  end.

(** The deletion loop of [parseiServerMsg] is a filtering. *)
Lemma del_filters_eq k v c nx clients l :
  filters_ok clients nx l ->
  LL_FOREACH_SAFE (fun l => l) (del_filter_body k v c) l
  = Ok (List.filter (fun f => negb (is_filter_of k v c f)) l).
Proof.
  intros [Hwf Hf].
  assert (Hbody : forall x pre r, (exists y, fc_filter x = [y]) -> ll_wf (pre ++ x :: r) ->
    del_filter_body k v c x (pre ++ x :: r)
    = Ok (if is_filter_of k v c x then pre ++ r else pre ++ x :: r)).
  { intros x pre r [y Hy] Hw%ll_wf_before. unfold del_filter_body, is_filter_of. rewrite Hy.
    rewrite bool_decide_eq_true_2 by (by destruct (callback x)). cbn [andb].
    destruct (bool_decide_reflect (user_data x = c)); cbn [andb]; [|done].
    destruct (_ && _ && _); [|done]. unfold xapDelFilterAction. change (fc_addr x) with (node_addr x).
    rewrite ll_node_app by done. cbn [of_opt]. rewrite !bind_Ok. by rewrite ll_delete_app. }
  assert (Hgen : forall r pre fuel, Forall (fun f => exists y, fc_filter f = [y]) r -> ll_wf (pre ++ r) ->
    (length r <= fuel)%nat ->
    foreach_safe (fun l => l) (del_filter_body k v c) fuel (ll_head r) (pre ++ r)
    = Ok (pre ++ List.filter (fun f => negb (is_filter_of k v c f)) r)).
  { intros r. induction r as [|x r IH]; intros pre fuel Hr Hw Hfu; [by destruct fuel|].
    destruct fuel as [|fuel]; simpl in Hfu; [lia|]. apply Forall_cons in Hr as [Hx Hr]. simpl.
    rewrite ll_node_app by (by eapply ll_wf_before). simpl. rewrite Hbody by done. rewrite bind_Ok.
    destruct (is_filter_of k v c x); cbn [negb].
    - apply IH; [done|by eapply ll_wf_remove|lia].
    - rewrite (app_cons_assoc pre x r), IH; [by rewrite <- app_assoc|done|by rewrite <- app_cons_assoc|lia]. }
  apply (Hgen l [] (length l)); [|done|done]. eapply Forall_impl; [exact Hf|]. by intros f (_ & ? & _).
Qed.

Lemma unique_loop_total s c nx clients l : filters_ok clients nx l -> exists b, unique_loop s c l = Ok b.
Proof.
  intros [_ Hf]. induction Hf as [|f l (_ & (x & Hx) & _) _ IH]; [by exists true|]. cbn [unique_loop].
  destruct (_ && _); [|done]. rewrite Hx. destruct (_ && _); [by exists false|done].
Qed.

(** What a client's commands may change. *)
Definition within (clients : list addr) (w w' : iserver) : Prop :=
  clientList w' = clientList w /\ connectionList w' = connectionList w /\
  filters_ok clients (next w') (filterList w') /\ (next w <= next w')%positive /\
  frame_ w' = frame_ w.

(** The client keeps its identity. *)
Definition same_client (c c' : Client) : Prop :=
  cl_addr c' = cl_addr c /\ xapSocketHandler c' = xapSocketHandler c /\ cl_fd c' = cl_fd c.

Lemma sendToClient_frame c buf w r c' w' :
  sendToClient net c buf w = Ok (r, c', w') ->
  same_client c c' /\ clientList w' = clientList w /\ connectionList w' = connectionList w /\
  filterList w' = filterList w /\ next w' = next w /\ frame_ w' = frame_ w.
Proof.
  unfold sendToClient. intros H. inv_bind H. destruct a as [r' b]. injection H as <- <- <-.
  split; [by destruct (r' =? -2)|done].
Qed.

Lemma no_uaf_sendAll ev buf : no_uaf (sendAll ev buf).
Proof.
  unfold sendAll. destruct (send_loop _ _ _ _ _ _) as [[[x y] n] []]; [done|]. destruct (_ <? _)%nat; [done|].
  apply no_uaf_bind; [by apply no_uaf_of_opt|done].
Qed.

Lemma no_uaf_send c buf w : no_uaf (sendToClient net c buf w).
Proof. unfold sendToClient. apply no_uaf_bind; [apply no_uaf_sendAll|by intros [] _]. Qed.

Lemma within_refl clients w : filters_ok clients (next w) (filterList w) -> within clients w w.
Proof. intros. split; [done|]. split; [done|]. split; [done|]. split; [lia|done]. Qed.

Lemma within_add clients k v c w :
  filters_ok clients (next w) (filterList w) -> cl_addr c ∈ clients ->
  within clients w (add_client_filter k v c w).
Proof.
  intros Hf Hc. split; [done|]. split; [done|]. split; [by apply filters_ok_add|]. split; [cbn; lia|done].
Qed.

Lemma first_message_ok clients c w :
  filters_ok clients (next w) (filterList w) -> cl_addr c ∈ clients ->
  no_uaf (firstClientMessage cfg c w) /\
  forall c' w', firstClientMessage cfg c w = Ok (c', w') -> within clients w w' /\ same_client c c'.
Proof.
  intros Hf Hc. unfold firstClientMessage.
  destruct (negb (firstMessage c)); [split; [done|]; intros ? ? [= <- <-]; split; [by apply within_refl|done]|].
  split.
  - apply no_uaf_bind; [apply no_uaf_strlcpy|]. intros [pk n] _.
    apply no_uaf_bind; [apply no_uaf_parse|]. intros [m k] _.
    apply no_uaf_bind; [apply no_uaf_get_value|]. intros s1 _.
    apply no_uaf_bind; [destruct s1; [done|apply no_uaf_get_value]|]. by intros [s|] _.
  - intros c' w' H. inv_bind H. destruct a as [pk n]. inv_bind H. destruct a as [m k]. inv_bind H. inv_bind H.
    destruct a0 as [s|]; injection H as <- <-; (split; [|done]); [|by apply within_refl].
    by apply within_add.
Qed.

Lemma delete_filters_ok clients k v c w :
  filters_ok clients (next w) (filterList w) ->
  exists w', delete_filters k v c w = Ok w' /\ within clients w w'.
Proof.
  intros Hf. unfold delete_filters. rewrite (del_filters_eq k v _ _ _ _ Hf), bind_Ok.
  eexists; split; [done|]. split; [done|]. split; [done|]. split; [by apply filters_ok_filter|]. split; [cbn; lia|done].
Qed.

(** An operation that may only touch what the client owns. *)
Definition client_op (clients : list addr) (c : Client) (w : iserver) (m : out (Client * iserver)) : Prop :=
  no_uaf m /\ forall c' w', m = Ok (c', w') -> within clients w w' /\ same_client c c'.

Lemma client_op_Ok clients c w c1 w1 :
  within clients w w1 -> same_client c c1 -> client_op clients c w (Ok (c1, w1)).
Proof. intros Hw Hs. split; [done|]. by intros ? ? [= <- <-]. Qed.

Lemma within_trans clients w1 w2 w3 : within clients w1 w2 -> within clients w2 w3 -> within clients w1 w3.
Proof.
  intros (A1 & B1 & C1 & D1 & E1) (A2 & B2 & C2 & D2 & E2).
  split; [congruence|]. split; [congruence|]. split; [done|]. split; [lia|congruence].
Qed.

Lemma on_login_ok clients t c w :
  filters_ok clients (next w) (filterList w) -> client_op clients c w (on_login cfg net t c w).
Proof.
  intros Hf. pose proof (within_refl _ _ Hf) as Hrefl.
  unfold on_login. destruct t; try (by apply client_op_Ok).
  destruct (_ || _); [|by apply client_op_Ok]. split.
  - apply no_uaf_bind; [|by intros [? ?] _]. apply no_uaf_bind; [apply no_uaf_send|by intros [[? ?] ?] _].
  - intros c' w' H. inv_bind H. destruct a as [c1 w1]. injection H as <- <-. inv_bind Ha.
    destruct a as [[r c2] w2]. injection Ha as <- <-.
    destruct (sendToClient_frame _ _ _ _ _ _ Ha0) as ((? & ? & ?) & Hcl & Hcon & Hfl & Hn & Hfr).
    split; [|done]. unfold within. rewrite Hcl, Hcon, Hfl, Hn, Hfr. split; [done|]. split; [done|]. split; [done|]. split; [lia|done].
Qed.

Lemma on_add_ok clients src t c w :
  filters_ok clients (next w) (filterList w) -> cl_addr c ∈ clients ->
  client_op clients c w (on_add cfg src t c w).
Proof.
  intros Hf Hc. pose proof (within_refl _ _ Hf) as Hrefl.
  assert (Hend : client_op clients c w
    (u ← uniqueFilter (ident c) c w;
      let w := if (u : bool) then add_client_filter (filter_type src) (ident c) c w else w in
      let w := match src, strchr (ident c) 58 with true, Some _ => sendBscQuery cfg c (ident c) w | _, _ => w end in
      Ok (wait c, w))).
  { unfold uniqueFilter. destruct (unique_loop_total (ident c) (cl_addr c) _ _ _ Hf) as [u ->]. rewrite bind_Ok.
    cbv zeta. set (w1 := if u then _ else w).
    assert (Hw1 : within clients w w1) by (subst w1; destruct u; [by apply within_add|done]).
    apply client_op_Ok; [|done]. destruct src, (strchr (ident c) 58); try done. }
  unfold on_add. destruct t; try exact Hend; by apply client_op_Ok.
Qed.

Lemma on_del_ok clients src t c w :
  filters_ok clients (next w) (filterList w) -> client_op clients c w (on_del src t c w).
Proof.
  intros Hf. pose proof (within_refl _ _ Hf) as Hrefl.
  assert (Hend : client_op clients c w (w ← delete_filters (filter_type src) (ident c) c w; Ok (wait c, w))).
  { destruct (delete_filters_ok clients (filter_type src) (ident c) c w Hf) as (w' & -> & Hw).
    rewrite bind_Ok. by apply client_op_Ok. }
  unfold on_del. destruct t; try exact Hend; by apply client_op_Ok.
Qed.

Lemma on_xap_ok clients t c w :
  filters_ok clients (next w) (filterList w) -> cl_addr c ∈ clients ->
  client_op clients c w (on_xap cfg t c w).
Proof.
  intros Hf Hc. pose proof (within_refl _ _ Hf) as Hrefl.
  unfold on_xap. destruct t; try (by apply client_op_Ok).
  destruct (first_message_ok clients c (broadcastPacket c (ident c) w) Hf Hc) as [Hn Hok]. split.
  - apply no_uaf_bind; [done|by intros [? ?] _].
  - intros c' w' H. inv_bind H. destruct a as [c1 w1]. injection H as <- <-.
    destruct (Hok c1 w1 Ha) as [Hw Hs]. split; [|done].
    eapply within_trans; [|exact Hw]. split; [done|]. split; [done|]. split; [done|]. split; [cbn; lia|done].
Qed.

Lemma token_step_ok clients t c w :
  filters_ok clients (next w) (filterList w) -> cl_addr c ∈ clients ->
  client_op clients c w (token_step cfg net t c w).
Proof.
  intros Hf Hc. pose proof (within_refl _ _ Hf) as Hrefl. unfold token_step. destruct (cl_state c).
  - apply client_op_Ok; [done|by destruct t].
  - apply client_op_Ok; [done|by destruct t].
  - by apply on_add_ok.
  - by apply on_add_ok.
  - by apply on_xap_ok.
  - by apply on_login_ok.
  - by apply on_del_ok.
  - by apply on_del_ok.
Qed.

Lemma token_loop_ok clients ts c w :
  filters_ok clients (next w) (filterList w) -> cl_addr c ∈ clients ->
  client_op clients c w (token_loop cfg net ts c w).
Proof.
  revert c w. induction ts as [|t ts IH]; intros c w Hf Hc; cbn [token_loop].
  - apply client_op_Ok; [by apply within_refl|done].
  - destruct (connected c); [|apply client_op_Ok; [by apply within_refl|done]].
    destruct (token_step_ok clients t c w Hf Hc) as [Hn Hok]. split.
    + apply no_uaf_bind; [done|]. intros [c1 w1] H1. destruct (Hok c1 w1 H1) as [(_ & _ & Hf1 & _) (Ha & _)].
      apply IH; [done|by rewrite Ha].
    + intros c' w' H. inv_bind H. destruct a as [c1 w1]. destruct (Hok c1 w1 Ha) as [Hw1 (Ha1 & Hs1 & Hd1)].
      pose proof Hw1 as (_ & _ & Hf1 & _).
      destruct (IH c1 w1 Hf1) as [_ Hok1]; [by rewrite Ha1|].
      destruct (Hok1 c' w' H) as [Hw2 (Ha2 & Hs2 & Hd2)].
      split; [by eapply within_trans|]. split; [congruence|]. split; congruence.
Qed.

End Machine.

(** ** The invariant of the server *)
Section Server.
Context (cfg : config) (net : nat -> nat -> send_ev).

Definition client_addrs (w : iserver) : list addr := map cl_addr (clientList w).

(** Every client has its listener, which carries its address. *)
Definition listener_ok (socks : list (xAPSocketConnection scb ptr)) (c : Client) : Prop :=
  exists s, s ∈ socks /\ sc_addr s = xapSocketHandler c /\ sc_user_data s = Some (cl_addr c).

Definition srv_inv (w : iserver) : Prop :=
  ll_wf (clientList w) /\ ll_wf (connectionList w) /\
  filters_ok (client_addrs w) (next w) (filterList w) /\
  Forall (listener_ok (connectionList w)) (clientList w) /\
  Forall (fun c => (cl_addr c < next w)%positive) (clientList w) /\
  Forall (fun s => (sc_addr s < next w)%positive) (connectionList w) /\
  frame_sized (frame_ w).

Lemma client_lookup p w :
  p ∈ client_addrs w -> exists c n, ll_node p (clientList w) = Some (c, n) /\ c ∈ clientList w /\ cl_addr c = p.
Proof.
  unfold client_addrs. generalize (clientList w) as l. intros l. induction l as [|x l IH]; intros Hp.
  - by apply elem_of_nil in Hp.
  - cbn [map] in Hp. cbn [ll_node]. change (node_addr x) with (cl_addr x).
    destruct (bool_decide_reflect (cl_addr x = p)) as [Hx|Hx].
    + eexists x, _. split; [done|]. split; [left|done].
    + apply elem_of_cons in Hp as [->|Hp]; [done|]. destruct (IH Hp) as (c & n & H1 & H2 & H3).
      exists c, n. split; [done|]. split; [by right|done].
Qed.

Lemma update_client_addrs p c l :
  cl_addr c = p -> map cl_addr (ll_update p (fun _ => c) l) = map cl_addr l.
Proof.
  intros Hc. unfold ll_update. rewrite map_map. apply map_ext. intros x. case_bool_decide as Hx; [|done].
  change (node_addr x) with (cl_addr x) in Hx. congruence.
Qed.

(** Storing a client back keeps the invariant. *)
Lemma inv_update p c0 c w :
  srv_inv w -> c0 ∈ clientList w -> cl_addr c0 = p -> same_client c0 c ->
  srv_inv (set_clients (ll_update p (fun _ => c) (clientList w)) w) /\
  client_addrs (set_clients (ll_update p (fun _ => c) (clientList w)) w) = client_addrs w.
Proof.
  intros (H1 & H2 & H3 & H4 & H5 & H6 & H7) Hin Hp (Ha & Hs & _).
  assert (Haddr : map cl_addr (ll_update p (fun _ => c) (clientList w)) = map cl_addr (clientList w))
    by (apply update_client_addrs; congruence).
  rewrite Forall_forall in H4, H5.
  split; [|exact Haddr]. unfold srv_inv, client_addrs. cbn [clientList set_clients connectionList filterList next frame_].
  rewrite Haddr. split.
  { unfold ll_wf. change (NoDup (map cl_addr (ll_update p (fun _ => c) (clientList w)))). by rewrite Haddr. }
  split; [done|]. split; [done|]. split.
  { unfold ll_update. apply Forall_map, Forall_forall. intros x Hx. case_bool_decide as Hxp; [|by apply H4].
    destruct (H4 c0 Hin) as (s & Hs1 & Hs2 & Hs3). exists s. split; [done|]. split; congruence. }
  split; [|done]. unfold ll_update. apply Forall_map, Forall_forall. intros x Hx. case_bool_decide; [|by apply H5].
  rewrite Ha. by apply H5.
Qed.

Lemma inv_within w w' :
  srv_inv w -> within (client_addrs w) w w' -> srv_inv w' /\ client_addrs w' = client_addrs w.
Proof.
  intros (H1 & H2 & H3 & H4 & H5 & H6 & H7) (A & B & C & D & E). unfold srv_inv, client_addrs in *.
  rewrite A, B, E. split; [|done]. split; [done|]. split; [done|]. split; [done|]. split; [done|].
  split; [eapply Forall_impl; [exact H5|]; intros; simpl in *; lia|].
  split; [eapply Forall_impl; [exact H6|]; intros; simpl in *; lia|done].
Qed.

Lemma parse_msg_ok p b w :
  srv_inv w -> p ∈ client_addrs w ->
  no_uaf (parseiServerMsg cfg net p b w) /\
  forall w', parseiServerMsg cfg net p b w = Ok w' -> srv_inv w' /\ client_addrs w' = client_addrs w.
Proof.
  intros Hinv Hp. destruct (client_lookup p w Hp) as (c & n & Hc & Hin & Ha). unfold parseiServerMsg.
  rewrite Hc. cbn [of_opt]. rewrite bind_Ok. pose proof Hinv as (_ & _ & Hf & _).
  destruct (token_loop_ok cfg net (client_addrs w) (tokens b) c w Hf) as [Hn Hok]; [by rewrite Ha|].
  split; [apply no_uaf_bind; [done|by intros [? ?] _]|]. intros w' H. inv_bind H. destruct a as [c1 w1].
  injection H as <-. destruct (Hok c1 w1 Ha0) as [Hw Hs]. pose proof Hw as (Hcl & _).
  destruct (inv_within w w1 Hinv Hw) as [Hinv1 Hca1]. rewrite <- Hca1.
  apply (inv_update p c); [done|by rewrite Hcl|done|done].
Qed.

Lemma recv_loop_ok p bs w :
  srv_inv w -> p ∈ client_addrs w ->
  no_uaf (recv_loop cfg net p bs w) /\
  forall w', recv_loop cfg net p bs w = Ok w' -> srv_inv w' /\ client_addrs w' = client_addrs w.
Proof.
  revert w. induction bs as [|b bs IH]; intros w Hinv Hp; cbn [recv_loop].
  - split; [done|]. by intros w' [= <-].
  - destruct (parse_msg_ok p b w Hinv Hp) as [Hn Hok]. split.
    + apply no_uaf_bind; [done|]. intros w1 H1. destruct (Hok w1 H1) as [Hi1 Ha1].
      apply IH; [done|by rewrite Ha1].
    + intros w' H. inv_bind H. destruct (Hok a Ha) as [Hi1 Ha1].
      destruct (IH a Hi1) as [_ Hok1]; [by rewrite Ha1|]. destruct (Hok1 w' H) as [Hi Hc]. split; [done|congruence].
Qed.

Lemma socket_lookup a (l : list (xAPSocketConnection scb ptr)) s :
  ll_wf l -> s ∈ l -> sc_addr s = a -> exists n, ll_node a l = Some (s, n).
Proof.
  intros Hwf Hin <-. apply list_elem_of_split in Hin as (l1 & l2 & ->).
  exists (ll_head l2). change (sc_addr s) with (node_addr s). apply ll_node_app. by eapply ll_wf_before.
Qed.

Lemma elem_of_ll_delete {N} `{Node N} a (l : list N) x :
  ll_wf l -> x ∈ ll_delete a l <-> x ∈ l /\ node_addr x <> a.
Proof.
  intros Hwf. rewrite ll_delete_filter by done. rewrite list_elem_of_filter. tauto.
Qed.

(** A disconnection frees the client and everything that points to it. *)
Lemma del_client_ok p w :
  srv_inv w -> p ∈ client_addrs w ->
  exists w', delClient p w = Ok w' /\ srv_inv w' /\ p ∉ client_addrs w' /\ frame_ w' = frame_ w /\
    (forall q, q ∈ client_addrs w' <-> q ∈ client_addrs w /\ q <> p) /\
    filterList w' = List.filter (fun f => negb (bool_decide (user_data f = p))) (filterList w).
Proof.
  intros Hinv Hp. pose proof Hinv as (H1 & H2 & H3 & H4 & H5 & H6 & H7).
  destruct (client_lookup p w Hp) as (c & n & Hc & Hin & Ha). unfold delClient. rewrite Hc. cbn [of_opt].
  rewrite bind_Ok. rewrite Forall_forall in H4, H5. destruct (H4 c Hin) as (s & Hs1 & Hs2 & Hs3).
  unfold xapDelSocketListener. destruct (socket_lookup _ _ _ H2 Hs1 Hs2) as [ns ->]. cbn [of_opt]. rewrite !bind_Ok.
  rewrite del_where by apply H3. rewrite bind_Ok. eexists; split; [done|].
  assert (Hmem : forall q, q ∈ map cl_addr (ll_delete p (clientList w)) <-> q ∈ client_addrs w /\ q <> p).
  { intros q. rewrite !list_elem_of_fmap. setoid_rewrite (elem_of_ll_delete p); [|done].
    change (node_addr (N := Client)) with cl_addr. unfold client_addrs. rewrite list_elem_of_fmap. naive_solver. }
  unfold srv_inv, client_addrs. cbn [clientList set_clients set_filters set_sockets connectionList filterList next frame_].
  split; [|split; [rewrite Hmem; tauto|split; [done|split; [exact Hmem|done]]]].
  split; [by apply ll_delete_wf|]. split; [by apply ll_delete_wf|]. split.
  { destruct (filters_ok_filter _ _ _ (fun cb => negb (bool_decide (user_data cb = p))) H3) as [Hwf Hf].
    split; [done|]. apply Forall_forall. intros f Hf'. rewrite Forall_forall in Hf. destruct (Hf f Hf') as (Hu & Hx).
    split; [|done]. apply Hmem. split; [done|]. apply list_elem_of_In, List.filter_In in Hf' as [_ Hb].
    by case_bool_decide. }
  split.
  { apply Forall_forall. intros x [Hx Hxp]%elem_of_ll_delete; [|done]. change (node_addr x) with (cl_addr x) in Hxp.
    destruct (H4 x Hx) as (s' & Hs1' & Hs2' & Hs3'). exists s'. split; [|done]. apply elem_of_ll_delete; [done|].
    split; [done|]. intros He. change (node_addr s') with (sc_addr s') in He.
    assert (s' = s) as ->; [|congruence].
    destruct (socket_lookup _ _ _ H2 Hs1 Hs2) as [? Hl1]. destruct (socket_lookup _ _ s' H2 Hs1' He) as [? Hl2].
    rewrite Hl1 in Hl2. congruence. }
  split; [apply Forall_forall; intros x [Hx _]%elem_of_ll_delete; [by apply H5|done]|].
  split; [|done]. rewrite Forall_forall in H6 |- *. intros x [Hx _]%elem_of_ll_delete; [by apply H6|done].
Qed.

(** An operation of the main thread from a state that satisfies the invariant. *)
Definition safe_op (m : out iserver) : Prop := no_uaf m /\ forall w', m = Ok w' -> srv_inv w'.

Lemma client_listener_ok p bs closed w :
  srv_inv w -> p ∈ client_addrs w -> safe_op (clientListener cfg net p bs closed w).
Proof.
  intros Hinv Hp. unfold clientListener. destruct (recv_loop_ok p bs w Hinv Hp) as [Hn Hok].
  assert (Hafter : forall w1, recv_loop cfg net p bs w = Ok w1 -> safe_op
    ('(c, _) ← of_opt UseAfterFree (ll_node p (clientList w1));
     if closed || negb (connected c) then delClient p w1 else Ok w1)).
  { intros w1 H1. destruct (Hok w1 H1) as [Hi1 Ha1].
    destruct (client_lookup p w1) as (c & n & -> & _); [by rewrite Ha1|]. cbn [of_opt]. rewrite bind_Ok.
    destruct (closed || negb (connected c)); [|split; [done|by intros w' [= <-]]].
    destruct (del_client_ok p w1 Hi1) as (w2 & -> & Hi2 & _); [by rewrite Ha1|].
    split; [done|by intros w' [= <-]]. }
  split; [apply no_uaf_bind; [done|]; intros w1 H1; by apply Hafter|].
  intros w' H. inv_bind H. by apply (Hafter a Ha).
Qed.

Lemma add_client_ok fd_ ip_ now w : srv_inv w -> 0 <= fd_ -> safe_op (addClient net fd_ ip_ now w).
Proof.
  intros (H1 & H2 & H3 & H4 & H5 & H6 & H7) Hfd. unfold addClient, xapAddSocketListener.
  destruct (Z.ltb_spec fd_ 0) as [|_]; [lia|].
  set (c := mkClient (next w) true fd_ ip_ now 0 0 None (Pos.succ (next w)) true ST_WAIT_FOR_MESSAGE []).
  set (s := mkSocket (Pos.succ (next w)) fd_ (Some (next w)) clientListener_cb).
  set (w1 := set_next _ _).
  assert (Hfresh : forall (A : Type) (f : A -> addr) l a, (next w <= a)%positive ->
    Forall (fun x => (f x < next w)%positive) l -> a ∉ map f l).
  { intros A f l a Ha Hl Hin. apply list_elem_of_fmap in Hin as (x & -> & Hx). rewrite Forall_forall in Hl.
    specialize (Hl x Hx). simpl in Hl. lia. }
  assert (Hinv1 : srv_inv w1).
  { unfold srv_inv, client_addrs. cbn [w1 clientList connectionList filterList next frame_ set_next set_sockets set_clients ll_prepend map].
    split; [apply NoDup_cons; split; [by apply (Hfresh _ cl_addr); [cbn; lia|]|done]|].
    split; [apply NoDup_cons; split; [by apply (Hfresh _ sc_addr); [cbn; lia|]|done]|]. split.
    { destruct H3 as [Hwf Hf]. split; [done|]. eapply Forall_impl; [exact Hf|]. intros f (? & ? & ?).
      split; [by right|]. split; [done|lia]. }
    split.
    { constructor; [exists s; split; [left|done]|]. eapply Forall_impl; [exact H4|].
      intros x (s' & ? & ? & ?). exists s'. split; [by right|done]. }
    split; [constructor; [cbn; lia|]; eapply Forall_impl; [exact H5|]; intros; simpl in *; lia|].
    split; [constructor; [cbn; lia|]; eapply Forall_impl; [exact H6|]; intros; simpl in *; lia|done]. }
  assert (Hsend : forall r c2 w2, sendToClient net c (str "<ACL></ACL>") w1 = Ok (r, c2, w2) ->
    safe_op (let w3 := set_clients (ll_update (next w) (fun _ => c2) (clientList w2)) w2 in
             if r =? 0 then Ok w3 else delClient (next w) w3)).
  { intros r c2 w2 Hs. destruct (sendToClient_frame net _ _ _ _ _ _ Hs) as (Hsc & Hcl & Hcon & Hfl & Hn & Hfr).
    assert (Hinv2 : srv_inv w2 /\ client_addrs w2 = client_addrs w1).
    { apply inv_within; [done|]. unfold within. rewrite Hcl, Hcon, Hfl, Hn, Hfr.
      split; [done|]. split; [done|]. split; [apply Hinv1|]. split; [lia|done]. }
    destruct Hinv2 as [Hinv2 Ha2].
    destruct (inv_update (next w) c c2 w2) as [Hinv3 Ha3]; [done|rewrite Hcl; left|done|done|].
    cbv zeta. destruct (r =? 0); [split; [done|by intros w' [= <-]]|].
    destruct (del_client_ok (next w) _ Hinv3) as (w4 & -> & Hi4 & _).
    { rewrite Ha3, Ha2. left. }
    split; [done|by intros w' [= <-]]. }
  split.
  - apply no_uaf_bind; [apply no_uaf_send|]. intros [[r c2] w2] Hs. by apply (Hsend r c2 w2).
  - intros w' H. inv_bind H. destruct a as [[r c2] w2]. by apply (Hsend r c2 w2).
Qed.

(** ** Forwarding *)

Lemma no_uaf_lower f : no_uaf (xapLowerMessageF f).
Proof.
  unfold xapLowerMessageF. apply no_uaf_bind; [|by intros [[? ?] ?] _].
  generalize (@None nat, false, f) as st. generalize (take (parsedMsgCount f) (parsedMsg f)) as es. intros es.
  induction es as [|e es IH]; intros st; [done|]. cbn [lower_loop]. apply no_uaf_bind; [|intros; apply IH].
  destruct st as [[cur bsc] g]. unfold lower_elem.
  destruct (if bool_decide (cur = None) || bool_decide (cur <> section e)
            then (section e, xapLowerString (section e) g) else (cur, g)) as [cur1 g1].
  apply no_uaf_bind.
  { destruct bsc; [|done]. apply no_uaf_bind; [apply no_uaf_deref|done]. }
  intros g2 _. apply no_uaf_bind; [apply no_uaf_deref|]. intros cs _. destruct (strcmp0 _ _); [|done].
  apply no_uaf_bind; [apply no_uaf_deref|]. intros k _. destruct (_ || _); [|done].
  destruct (strcmp0 _ _); [|done]. apply no_uaf_bind; [apply no_uaf_deref|done].
Qed.

Lemma no_uaf_raw_append n m t : no_uaf (raw_append n m t).
Proof. unfold raw_append, no_uaf. by destruct (_ <=? _). Qed.

Lemma no_uaf_raw f n : no_uaf (parsedMsgToRawF f n).
Proof.
  unfold parsedMsgToRawF, parsedMsgToRawWithoutSectionF. destruct (n <=? 0); [done|].
  apply no_uaf_bind.
  - generalize (@None nat) as cur. generalize (@nil Z) as m. generalize (take (parsedMsgCount f) (parsedMsg f)) as es.
    intros es. induction es as [|e es IH]; intros m cur; [done|]. cbn [raw_loop]. rewrite bind_Ok.
    apply no_uaf_bind.
    { destruct (_ || _); [|done]. apply no_uaf_bind.
      - destruct (bool_decide _); [apply no_uaf_raw_append|done].
      - intros m1 _. apply no_uaf_bind; [apply no_uaf_deref|]. intros s _.
        apply no_uaf_bind; [apply no_uaf_raw_append|done]. }
    intros [c1 m1] _. apply no_uaf_bind; [|intros; apply IH]. destruct (key e); [|done].
    apply no_uaf_bind; [apply no_uaf_deref|]. intros k _. apply no_uaf_bind; [apply no_uaf_deref|].
    intros v _. apply no_uaf_raw_append.
  - intros [c1 m1] _. destruct (bool_decide _); [apply no_uaf_raw_append|done].
Qed.

Lemma no_uaf_inject b n : no_uaf (injectFrameSequence b n).
Proof.
  unfold injectFrameSequence. apply no_uaf_bind; [by apply no_uaf_of_opt|]. intros s _.
  destruct (_ >? _); [done|]. destruct (strchr s 125) as [off|]; [|done]. destruct (_ <=? _)%nat; [|done].
  apply no_uaf_bind; [apply no_uaf_write_at|]. intros; apply no_uaf_write_at.
Qed.

Lemma lower_message_sized f es f' :
  frame_rep f es -> frame_sized f -> xapLowerMessageF f = Ok f' -> frame_sized f'.
Proof.
  intros Hrep [Hd Hp] H. unfold xapLowerMessageF in H. inv_bind H. destruct a as [[cur bsc] f1]. injection H as <-.
  destruct (lower_loop_spec _ None _ _ _ _ _ (frame_rep_readable _ _ Hrep) I Ha) as [[Hr (_ & _ & Hpm)] _].
  split; [|by rewrite Hpm]. apply Forall2_length in Hr. congruence.
Qed.

(** The message is rebuilt at most once per packet; the frame keeps its entries
    up to letter case. *)
Lemma to_client_ok p w es :
  srv_inv w -> p ∈ client_addrs w -> frame_rep (frame_ w) es ->
  no_uaf (xAPtoClient cfg net p w) /\
  forall w', xAPtoClient cfg net p w = Ok w' ->
    srv_inv w' /\ filterList w' = filterList w /\ client_addrs w' = client_addrs w /\
    exists es', frame_rep (frame_ w') es'.
Proof.
  intros Hinv Hp Hrep. destruct (client_lookup p w Hp) as (c & n & Hc & Hin & Ha). unfold xAPtoClient.
  rewrite Hc. cbn [of_opt]. rewrite bind_Ok.
  match goal with |- no_uaf (?m ≫= _) /\ _ => set (build := m) end.
  assert (Hbuild : no_uaf build /\ forall w1, build = Ok w1 ->
    clientList w1 = clientList w /\ connectionList w1 = connectionList w /\ filterList w1 = filterList w /\
    next w1 = next w /\ frame_sized (frame_ w1) /\ exists es', frame_rep (frame_ w1) es').
  { pose proof Hinv as (_ & _ & _ & _ & _ & _ & Hsz). subst build.
    destruct (lowerData w); [split; [done|]; intros w1 [= <-]; eauto 10|]. split.
    - apply no_uaf_bind; [apply no_uaf_lower|]. intros f Hf.
      apply no_uaf_bind; [apply no_uaf_raw|]. intros raw _.
      apply no_uaf_bind; [apply no_uaf_write_at|]. intros b1 _.
      apply no_uaf_bind; [destruct (opt_e cfg); [apply no_uaf_inject|done]|]. intros b2 _.
      apply no_uaf_bind; [|done]. unfold strcat_buf. apply no_uaf_bind; [by apply no_uaf_of_opt|].
      intros; apply no_uaf_write_at.
    - intros w1 H. inv_bind H. rename a into f. inv_bind H. inv_bind H. inv_bind H. inv_bind H. injection H as <-.
      cbn [set_lower set_frame clientList connectionList filterList next frame_].
      destruct (lower_message_ci _ _ _ Hrep Ha0) as (es' & Hrep' & _).
      split; [done|]. split; [done|]. split; [done|]. split; [done|]. split; [exact (lower_message_sized _ _ _ Hrep Hsz Ha0)|eauto]. }
  destruct Hbuild as [Hn Hok]. split.
  - apply no_uaf_bind; [done|]. intros w1 _. apply no_uaf_bind; [by apply no_uaf_of_opt|]. intros t _.
    apply no_uaf_bind; [apply no_uaf_send|]. by intros [[? ?] ?] _.
  - intros w' H. inv_bind H. rename a into w1. inv_bind H. inv_bind H. destruct a0 as [[r c2] w2]. injection H as <-.
    destruct (Hok w1 Ha0) as (A1 & B1 & C1 & D1 & E1 & F1).
    destruct (sendToClient_frame net _ _ _ _ _ _ Ha2) as (Hsc & A2 & B2 & C2 & D2 & E2).
    assert (Hinv2 : srv_inv w2 /\ client_addrs w2 = client_addrs w).
    { unfold srv_inv, client_addrs. rewrite A2, B2, C2, D2, E2, A1, B1, C1, D1.
      destruct Hinv as (? & ? & ? & ? & ? & ? & ?). split; [|done]. split; [done|]. split; [done|].
      split; [done|]. split; [done|]. split; [done|]. split; done. }
    destruct Hinv2 as [Hinv2 Hca]. destruct (inv_update p c c2 w2) as [Hinv3 Hca3]; [done|by rewrite A2, A1|done|done|].
    split; [done|]. split; [cbn; congruence|]. split; [congruence|]. cbn. rewrite E2. exact F1.
Qed.

Lemma dispatch_safe l fuel pre w es :
  srv_inv w -> filterList w = pre ++ l -> frame_rep (frame_ w) es -> (length l <= fuel)%nat ->
  safe_op (foreach_safe filterList (dispatch_body frame_ (run_cb cfg net)) fuel (ll_head l) w).
Proof.
  revert w es fuel pre. induction l as [|x l IH]; intros w es fuel pre Hinv Hl Hrep Hfu.
  - destruct fuel; (split; [done|by intros w' [= <-]]).
  - destruct fuel as [|fuel]; simpl in Hfu; [lia|]. simpl. pose proof Hinv as (_ & _ & [Hwf Hf] & _).
    rewrite Hl in Hwf. rewrite Hl at 1. rewrite ll_node_app by (by eapply ll_wf_before). simpl.
    rewrite (dispatch_body_rep _ _ _ _ _ Hrep). destruct (cb_match es x).
    + assert (Hu : user_data x ∈ client_addrs w).
      { rewrite Forall_forall in Hf. apply (Hf x). rewrite Hl. set_solver. }
      assert (Hrun : run_cb cfg net (callback x) (user_data x) w = xAPtoClient cfg net (user_data x) w)
        by (by destruct (callback x)). rewrite Hrun.
      destruct (to_client_ok _ _ _ Hinv Hu Hrep) as [Hn Hok].
      assert (Hnext : forall w1, xAPtoClient cfg net (user_data x) w = Ok w1 ->
        safe_op (foreach_safe filterList (dispatch_body frame_ (run_cb cfg net)) fuel (ll_head l) w1)).
      { intros w1 H1. destruct (Hok w1 H1) as (Hi1 & Hl1 & _ & es' & Hrep1).
        apply (IH w1 es' fuel (pre ++ [x])); [done|by rewrite Hl1, Hl, app_cons_assoc|done|lia]. }
      split; [apply no_uaf_bind; [done|]; intros w1 H1; by apply Hnext|].
      intros w' H. inv_bind H. by apply (Hnext a Ha).
    + rewrite bind_Ok. apply (IH w es fuel (pre ++ [x])); [done|by rewrite Hl, app_cons_assoc|done|lia].
Qed.

Lemma incoming_ok dgram w : srv_inv w -> safe_op (incomingXapPacket cfg net dgram w).
Proof.
  intros Hinv. unfold incomingXapPacket. set (w1 := set_frame _ w).
  assert (Hsz : frame_sized (readXapData (frame_ w) dgram)).
  { destruct Hinv as (_ & _ & _ & _ & _ & _ & [Hd Hp]). unfold readXapData. destruct dgram as [b|]; [|done].
    assert (Hs : length (dataPacket (recv_into (frame_ w) (Some b))) = 1501%nat).
    { cbn [recv_into dataPacket]. rewrite length_app, length_drop.
      pose proof (length_take b (Z.to_nat (XAP_DATA_LEN - 1))). unfold XAP_DATA_LEN in *. lia. }
    destruct (0 <? len _); split; cbn [set_dataPacket dataPacket parsedMsg]; rewrite ?length_insert; done. }
  assert (Hframe : forall f, frame_sized f -> srv_inv (set_frame f w)).
  { intros f Hf. destruct Hinv as (? & ? & ? & ? & ? & ? & _). repeat (split; [done|]). done. }
  cbv zeta. fold w1. destruct (0 <? len (frame_ w1)); [|split; [done|intros w' [= <-]; by apply Hframe]].
  destruct (filterList w1); [split; [done|intros w' [= <-]; by apply Hframe]|].
  assert (Hgo : forall f k, parseMsgF (frame_ w1) = Ok (f, k) ->
    safe_op (filterDispatch filterList frame_ (run_cb cfg net) (set_lower false (msg w1) (set_frame f w1)))).
  { intros f k Hp. destruct (parseMsgF_frame_wf (frame_ w1) f k) as [Hwf _]; [done|done|].
    destruct (frame_wf_rep f Hwf) as [es Hes]. destruct Hwf as (Hd & Hpm & _).
    apply (dispatch_safe _ _ [] _ es); [|done|done|done].
    destruct Hinv as (? & ? & ? & ? & ? & ? & _). repeat (split; [done|]). done. }
  split; [apply no_uaf_bind; [apply no_uaf_parse|]; intros [f k] H; by eapply Hgo|].
  intros w' H. inv_bind H. destruct a as [f k]. by eapply Hgo.
Qed.

End Server.

(** ** The server as a state machine *)

(** A connection is accepted, a client's data is read, a packet arrives, or the
    transmit thread completes a round. *)
Inductive srv_step (cfg : config) (net : nat -> nat -> send_ev) : iserver -> iserver -> Prop :=
| s_accept w fd_ ip_ now w' : 0 <= fd_ -> addClient net fd_ ip_ now w = Ok w' -> srv_step cfg net w w'
| s_listen w p bs closed w' :
    p ∈ client_addrs w -> clientListener cfg net p bs closed w = Ok w' -> srv_step cfg net w w'
| s_packet w dgram w' : incomingXapPacket cfg net dgram w = Ok w' -> srv_step cfg net w w'
| s_tx w w' : tx_step cfg w = Ok (Some w') -> srv_step cfg net w w'.

(** The server starts without clients and filters. *)
Inductive srv_reachable (cfg : config) (net : nat -> nat -> send_ev) : iserver -> Prop :=
| r_init w : clientList w = [] -> filterList w = [] -> ll_wf (connectionList w) ->
    Forall (fun s => (sc_addr s < next w)%positive) (connectionList w) -> frame_sized (frame_ w) ->
    srv_reachable cfg net w
| r_step w w' : srv_reachable cfg net w -> srv_step cfg net w w' -> srv_reachable cfg net w'.

Lemma tx_ok cfg w w' : srv_inv w -> tx_step cfg w = Ok (Some w') -> srv_inv w'.
Proof.
  intros Hinv H. unfold tx_step in H. destruct (tx_queue w) as [|[p m] r]; [done|]. inv_bind H.
  destruct a as [c n]. inv_bind H. injection H as <-. apply of_opt_Ok in Ha.
  destruct (ll_node_elem _ _ _ _ Ha) as [Hin Hp].
  destruct (inv_update p c (set_tx (u32 (txFrame c + 1)) c) w Hinv Hin Hp) as [Hi _]; [done|]. exact Hi.
Qed.

Lemma reachable_inv cfg net w : srv_reachable cfg net w -> srv_inv w.
Proof.
  induction 1 as [w Hc Hf Hwf Hn Hfr|w w' _ IH Hs].
  - unfold srv_inv, client_addrs. rewrite Hc, Hf. split; [constructor|]. split; [done|].
    split; [split; constructor|]. split; [constructor|]. split; [constructor|]. done.
  - destruct Hs as [w fd_ ip_ now w' Hfd H|w p bs closed w' Hp H|w dgram w' H|w w' H].
    + by apply (add_client_ok net fd_ ip_ now w IH Hfd).
    + by apply (client_listener_ok cfg net p bs closed w IH Hp).
    + by apply (incoming_ok cfg net dgram w IH).
    + by eapply tx_ok.
Qed.

(** ** Segments *)

Lemma ll_update_twice p c1 c2 (l : list Client) :
  cl_addr c1 = p -> ll_update p (fun _ => c2) (ll_update p (fun _ => c1) l) = ll_update p (fun _ => c2) l.
Proof.
  intros Hc. unfold ll_update. rewrite map_map. apply map_ext. intros x.
  destruct (bool_decide_reflect (node_addr x = p)); [|by rewrite bool_decide_eq_false_2].
  change (node_addr c1) with (cl_addr c1). by rewrite bool_decide_eq_true_2.
Qed.

(** The protocol machine does not look at the client list. *)
Definition blind (f : iserver -> out (Client * iserver)) : Prop := forall l w,
  f (set_clients l w) = '(c, w2) ← f w; Ok (c, set_clients l w2).

Lemma blind_token_step cfg net t c : blind (token_step cfg net t c).
Proof.
  intros l w. unfold token_step. destruct (cl_state c); try done.
  - unfold on_add. destruct t; try done; unfold uniqueFilter; cbn [filterList set_clients];
      (destruct (unique_loop _ _ _) as [u| |]; [|done..]); rewrite !bind_Ok; destruct u; by destruct (strchr _ _).
  - unfold on_add. destruct t; try done; unfold uniqueFilter; cbn [filterList set_clients];
      (destruct (unique_loop _ _ _) as [u| |]; [|done..]); rewrite !bind_Ok; by destruct u.
  - unfold on_xap. destruct t; try done. unfold firstClientMessage. destruct (negb (firstMessage c)); [done|].
    destruct (strlcpy _ _ _) as [[pk k]| |]; [|done..]. rewrite !bind_Ok.
    destruct (parseMsgF _) as [[m j]| |]; [|done..]. rewrite !bind_Ok.
    destruct (xapGetValueF m (str "xap-hbeat") _) as [s1| |]; [|done..]. rewrite !bind_Ok.
    by destruct (match s1 with Some _ => _ | None => _ end) as [[s|]| |].
  - unfold on_login. destruct t; try done. destruct (_ || _); [|done]. unfold sendToClient.
    cbn [tcp set_clients]. destruct (sendAll _ _) as [[r b]| |]; [|done..]. by rewrite !bind_Ok.
  - unfold on_del. destruct t; try done; unfold delete_filters; cbn [filterList set_clients];
      by destruct (LL_FOREACH_SAFE _ _ _).
  - unfold on_del. destruct t; try done; unfold delete_filters; cbn [filterList set_clients];
      by destruct (LL_FOREACH_SAFE _ _ _).
Qed.

Lemma blind_token_loop cfg net ts c : blind (token_loop cfg net ts c).
Proof.
  revert c. induction ts as [|t ts IH]; intros c l w; [done|]. cbn [token_loop].
  destruct (connected c); [|done]. rewrite (blind_token_step cfg net t c l w).
  destruct (token_step cfg net t c w) as [[c1 w1]| |]; [|done..]. rewrite !bind_Ok. apply IH.
Qed.

(** A segment boundary between tokens makes no difference. *)
Lemma parse_split cfg net p a b w :
  srv_inv w -> p ∈ client_addrs w -> tokens (a ++ b) = tokens a ++ tokens b ->
  parseiServerMsg cfg net p (a ++ b) w
  = w ← parseiServerMsg cfg net p a w; parseiServerMsg cfg net p b w.
Proof.
  intros Hinv Hp Htok. destruct (client_lookup p w Hp) as (c & n & Hc & Hin & Ha). unfold parseiServerMsg.
  rewrite Hc. cbn [of_opt]. rewrite !bind_Ok, Htok, token_loop_app. pose proof Hinv as (_ & _ & Hf & _).
  destruct (token_loop_ok cfg net (client_addrs w) (tokens a) c w Hf) as [_ Hok]; [by rewrite Ha; subst p|].
  destruct (token_loop cfg net (tokens a) c w) as [[c1 w1]| |] eqn:Hl; [|done..]. rewrite !bind_Ok.
  destruct (Hok c1 w1 eq_refl) as [(Hcl & _ & Hf1 & _) (Ha1 & _)].
  assert (Hc1 : cl_addr c1 = p) by congruence. rewrite <- Hcl in Hc.
  cbn [clientList set_clients]. rewrite (ll_node_update p c1 _ n c Hc Hc1). cbn [of_opt].
  rewrite bind_Ok, (blind_token_loop cfg net (tokens b) c1 _ w1).
  destruct (token_loop_ok cfg net (client_addrs w) (tokens b) c1 w1 Hf1) as [_ Hok2]; [by rewrite Hc1|].
  destruct (token_loop cfg net (tokens b) c1 w1) as [[c2 w2]| |]; [|done..]. rewrite !bind_Ok.
  destruct (Hok2 c2 w2 eq_refl) as [(Hcl2 & _) _]. cbn [clientList set_clients].
  rewrite ll_update_twice by done. by rewrite Hcl2.
Qed.

(** ** Transmission *)

(** The first failing call among those the loop makes. *)
Lemma send_loop_spec fuel net k done_ left n :
  (length left <= fuel)%nat -> (left = [] -> n <> None) -> (forall m, n = Some m -> 0 <= m) ->
  let '(sent, rest, n', fatal) := send_loop fuel net k done_ left n in
  sent ++ rest = done_ ++ left /\ n' <> None /\
  ((rest = [] /\ fatal = false /\ exists m, n' = Some m /\ 0 <= m) \/
   (rest <> [] /\ n' = Some (-1) /\ exists j, (k <= j)%nat /\ net j = SendErr fatal /\
      forall i, (k <= i < j)%nat -> exists m, net i = SentN m)).
Proof.
  revert k done_ left n. induction fuel as [|f IH]; intros k done_ left n Hl Hn Hpos.
  - destruct left; [|simpl in Hl; lia]. cbn. split; [done|]. split; [auto|]. left.
    split; [done|]. split; [done|]. destruct n as [m|]; [eauto|]. by destruct Hn.
  - cbn [send_loop]. destruct left as [|ch left0] eqn:Hleft.
    { split; [done|]. split; [auto|]. left. split; [done|]. split; [done|].
      destruct n as [m|]; [eauto|]. by destruct Hn. }
    rewrite <- Hleft in *. destruct (net k) as [m|fatal] eqn:Hk.
    + set (m' := Nat.max 1 (Nat.min m (length left))).
      assert (Hll : (1 <= length left)%nat) by (subst left; simpl; lia).
      specialize (IH (S k) (done_ ++ take m' left) (drop m' left) (Some (Z.of_nat m'))).
      destruct (send_loop f net (S k) _ _ _) as [[[sent rest] n'] fatal].
      destruct IH as (H1 & H2 & H3); [rewrite length_drop; lia|done|intros ? [= <-]; lia|].
      split; [by rewrite H1, <- app_assoc, take_drop|]. split; [done|].
      destruct H3 as [H3|(Hr & Hn1 & j & Hj & Hnj & Hi)]; [by left|right].
      split; [done|]. split; [done|]. exists j. split; [lia|]. split; [done|]. intros i Hi'.
      destruct (decide (i = k)) as [->|]; [by exists m|]. apply Hi. lia.
    + split; [done|]. split; [done|]. right. split; [by subst left|]. split; [done|].
      exists k. split; [lia|]. split; [done|]. intros i Hi. lia.
Qed.

(** A network that takes the bytes, in pieces of any size. *)
Lemma send_loop_all (net : nat -> send_ev) (buf : cstr) :
  buf <> [] -> (forall k, exists m, net k = SentN m) ->
  exists m, 0 <= m /\ send_loop (length buf) net 0 [] buf None = (buf, [], Some m, false).
Proof.
  intros Hne Hnet. destruct buf as [|c buf]; [done|]. cbn [length send_loop].
  destruct (Hnet 0%nat) as [m Hm]. rewrite Hm. set (n := Nat.max 1 (Nat.min m (length (c :: buf)))).
  pose proof (send_loop_spec (length buf) net 1 ([] ++ take n (c :: buf)) (drop n (c :: buf)) (Some (Z.of_nat n))) as H.
  destruct (send_loop _ _ _ _ _ _) as [[[sent rest] n'] fatal].
  destruct H as (H1 & _ & [(-> & -> & k & -> & Hk)|(_ & _ & j & _ & Hj & _)]).
  - rewrite length_drop. cbn [length]. lia.
  - done.
  - intros k [= <-]. lia.
  - rewrite app_nil_r in H1. cbn [app] in H1. rewrite take_drop in H1. subst sent. eauto.
  - destruct (Hnet j) as [k Hk]. congruence.
Qed.

(** ** The sequence injection *)

Definition seq_text (frame : Z) : cstr := str "iseq=" ++ fmt_d (u32 frame) ++ [10].

Lemma inject_eq buf s off frame rest :
  buf = s ++ 0 :: rest -> no_nul s -> strchr s 125 = Some off -> (0 < off)%nat ->
  (length s <= 1480)%nat -> (2 * off + length s + length (seq_text frame) <= length buf)%nat ->
  no_nul (seq_text frame) ->
  exists buf', injectFrameSequence buf frame = Ok buf' /\
    cstr_at buf' 0 = Some (take off s ++ seq_text frame ++ drop off s).
Proof.
  intros Hbuf Hs Hoff Hpos Hlen Hfit Hseq. pose proof (strchr_lookup _ _ _ Hoff) as [Hlk _].
  assert (Ho : (off < length s)%nat) by (by eapply lookup_lt_Some).
  assert (Hb : (length buf = length s + 1 + length rest)%nat) by (subst buf; rewrite length_app; simpl; lia).
  unfold injectFrameSequence. assert (cstr_at buf 0 = Some s) as -> by (subst buf; by apply (cstr_at_app [])).
  cbn [of_opt]. rewrite bind_Ok. unfold XAP_DATA_LEN. destruct (Z.gtb_spec (Z.of_nat (length s)) (1500 - 20)); [lia|].
  rewrite Hoff. fold (seq_text frame). set (q := seq_text frame) in *.
  destruct (Nat.leb_spec (off + (length s + off)) (length buf)); [|lia].
  assert (Hmv : length (take (length s + off) (drop off buf)) = (length s + off)%nat)
    by (rewrite length_take, length_drop; lia).
  rewrite write_at_Ok by lia. rewrite bind_Ok. set (buf1 := take (off + length q) buf ++ _).
  assert (Hb1 : length buf1 = length buf).
  { subst buf1. rewrite !length_app, length_take, length_drop, Hmv. lia. }
  rewrite write_at_Ok by lia. eexists; split; [done|].
  assert (Ht : take off buf1 = take off s).
  { subst buf1. rewrite take_app_le by (rewrite length_take; lia). rewrite take_take, Nat.min_l by lia.
    subst buf. by rewrite take_app_le by lia. }
  assert (Hd : drop (off + length q) buf1 = take (length s + off) (drop off buf) ++ drop (off + length q + (length s + off)) buf).
  { subst buf1. rewrite drop_app_length' by (rewrite length_take; lia). by rewrite Hmv. }
  assert (Hdrop : drop off buf = drop off s ++ 0 :: rest) by (subst buf; by rewrite drop_app_le by lia).
  rewrite Ht, Hd, Hdrop. rewrite take_app_ge by (rewrite length_drop; lia).
  replace (length s + off - length (drop off s))%nat with (S (2 * off - 1)) by (rewrite length_drop; lia).
  cbn [take]. repeat rewrite <- app_assoc. cbn [app].
  replace (take off s ++ q ++ drop off s ++ 0 :: take (2 * off - 1) rest ++ drop (off + length q + (length s + off)) buf)
    with ([] ++ (take off s ++ q ++ drop off s) ++ 0 :: take (2 * off - 1) rest ++ drop (off + length q + (length s + off)) buf)
    by (by rewrite <- !app_assoc).
  apply cstr_at_app. apply Forall_app_2; [by apply Forall_take|].
  apply Forall_app_2; [exact Hseq|by apply Forall_drop].
Qed.

Lemma seq_text_no_nul frame : no_nul (seq_text frame).
Proof.
  unfold seq_text. repeat apply Forall_app_2; [by repeat constructor| |by repeat constructor].
  eapply Forall_impl; [apply fmt_d_text|]. intros c Hc. simpl in Hc. lia.
Qed.

(** * Claims *)


(** A server with one listening socket, and a network that takes everything. *)
Definition demo_cfg : config :=
  mkConfig true false false (str "secret")
    (mkIdent (str "dbzoo.livebox.iServer") (str "FF00DE00") 3640 (str "10.0.0.1")) (load_packet []).
Definition demo_net (_ _ : nat) : send_ev := SentN 4096.
Definition demo_srv : iserver :=
  mkIserver [] [] [mkSocket 1 5 None serverListener_cb] [] [] [] (load_packet []) false (replicate 1512 0) 2.

Lemma demo_srv_reachable : srv_reachable demo_cfg demo_net demo_srv.
Proof.
  apply r_init; [done|done| | |].
  - by apply (bool_decide_eq_true_1 (NoDup _)).
  - by repeat constructor.
  - apply (load_packet_sized []). simpl. lia.
Qed.

(** The state after the first connection. *)
Definition demo_srv1 : iserver :=
  match addClient demo_net 9 (str "10.0.0.2") 100 demo_srv with Ok w => w | _ => demo_srv end.

Lemma demo_srv1_step : srv_step demo_cfg demo_net demo_srv demo_srv1.
Proof. apply (s_accept _ _ _ 9 (str "10.0.0.2") 100); [lia|]. vm_compute. reflexivity. Qed.


(** C30.  The protocol machine executes the commands a client sends, in order,
    whatever segment boundaries fall between them: reading the text of a list of
    commands is executing them, and text that follows can come in a segment of
    its own. *)
Theorem parseiServerMsg_commands (cfg : config) (net : nat -> nat -> send_ev) (w : iserver)
    (p : addr) (c : Client) (n : ptr) (l : list command) (rest : cstr) :
  srv_reachable cfg net w -> ll_node p (clientList w) = Some (c, n) ->
  cl_state c = ST_WAIT_FOR_MESSAGE -> Forall command_wf l ->
  parseiServerMsg cfg net p (print_commands l) w
    = ('(c, w) ← exec_all cfg net l c w; Ok (set_clients (ll_update p (fun _ => c) (clientList w)) w)) /\
  parseiServerMsg cfg net p (print_commands l ++ rest) w
    = (w ← parseiServerMsg cfg net p (print_commands l) w; parseiServerMsg cfg net p rest w).
Proof.
  intros Hr Hc Hst Hl. pose proof (reachable_inv _ _ _ Hr) as Hinv.
  assert (Htok : forall s, tokens (print_commands l ++ s) = tokens (print_commands l) ++ tokens s).
  { intros s. rewrite tokens_commands by done. rewrite <- (app_nil_r (print_commands l)).
    rewrite tokens_commands by done. change (tokens []) with (@nil token). by rewrite app_nil_r. }
  split.
  - unfold parseiServerMsg. rewrite Hc. cbn [of_opt]. rewrite bind_Ok.
    rewrite <- (app_nil_r (print_commands l)), tokens_commands by done. change (tokens []) with (@nil token).
    by rewrite app_nil_r, commands_loop by done.
  - destruct (ll_node_elem _ _ _ _ Hc) as [Hin Ha]. apply parse_split; [done| |done].
    unfold client_addrs. apply list_elem_of_fmap. exists c. done.
Qed.

Lemma parseiServerMsg_commands_witness :
  exists w', parseiServerMsg demo_cfg demo_net 2
      (print_commands [CLogin (str "secret"); CAdd true (str "a.b.c:relay.1"); CXap (str "hello")]) demo_srv1 = Ok w' /\
    length (filterList w') = 1%nat /\ length (tx_queue w') = 2%nat.
Proof.
  destruct (parseiServerMsg_commands demo_cfg demo_net demo_srv1 2
    (mkClient 2 true 9 (str "10.0.0.2") 100 0 1 None 3 true ST_WAIT_FOR_MESSAGE []) None
    [CLogin (str "secret"); CAdd true (str "a.b.c:relay.1"); CXap (str "hello")] []) as [H _].
  - exact (r_step _ _ _ _ demo_srv_reachable demo_srv1_step).
  - reflexivity.
  - reflexivity.
  - repeat constructor; discriminate.
  - rewrite H. eexists. split; [vm_compute; reflexivity|]. split; reflexivity.
Defined.

(** [sendAll] on a non-empty buffer returns 0 exactly after sending all of
    it, however the kernel splits it.  When the first failing call lost the
    connection it has sent a proper prefix and returns -2; any other error ends
    in the call of [error], so that -1 is never returned.  For an empty buffer
    the result is uninitialised. *)
Theorem sendAll_spec (net : nat -> send_ev) (buf : cstr) :
  (buf = [] /\ sendAll net buf = Undef Uninitialised) \/
  (buf <> [] /\ sendAll net buf = Ok (0, buf)) \/
  (exists j fatal, net j = SendErr fatal /\ (forall i, (i < j)%nat -> exists m, net i = SentN m) /\
     if fatal : bool then exists sent rest, sendAll net buf = Ok (-2, sent) /\ sent ++ rest = buf /\ rest <> []
     else sendAll net buf = Undef BadCall).
Proof.
  destruct (decide (buf = [])) as [->|Hb]; [by left|right].
  pose proof (send_loop_spec (length buf) net 0 [] buf None) as Hs. unfold sendAll.
  destruct (send_loop _ _ _ _ _ _) as [[[sent rest] n] fatal].
  destruct Hs as (H1 & H2 & H3); [done|done|done|]. cbn [app] in H1.
  destruct H3 as [(-> & -> & m & -> & Hm)|(Hr & -> & j & _ & Hj & Hi)].
  - left. split; [done|]. rewrite app_nil_r in H1. subst sent. cbn. destruct (Z.eqb_spec m (-1)); [lia|done].
  - right. exists j, fatal. split; [done|]. split; [intros i Hij; apply Hi; lia|].
    destruct fatal; [by exists sent, rest|]. by destruct rest.
Qed.

(** [injectFrameSequence] inserts the sequence line in front of the first
    closing brace when twice the offset of the brace, the message and the line
    fit the buffer together; a message that leaves room for the line but not for
    the extra bytes the move copies overruns the buffer. *)
Theorem injectFrameSequence_spec (s rest : cstr) (off : nat) (frame : Z) :
  no_nul s -> strchr s 125 = Some off -> (0 < off)%nat -> (length s <= 1480)%nat ->
  (2 * off + length (s ++ seq_text frame) <= length (s ++ 0%Z :: rest))%nat ->
  (exists buf', injectFrameSequence (s ++ 0 :: rest) frame = Ok buf' /\
     cstr_at buf' 0 = Some (take off s ++ seq_text frame ++ drop off s)) /\
  (let m := str "h{" ++ replicate 120 120 ++ str "}b{" ++ replicate 1274 121 ++ str "}" in
   injectFrameSequence (m ++ replicate (1500 - length m) 0) frame = Undef OutOfBounds).
Proof.
  intros Hs Hoff Hpos Hlen Hfit. split.
  - apply (inject_eq _ s off frame rest); try done; [|apply seq_text_no_nul].
    rewrite !length_app in Hfit. rewrite length_app. lia.
  - vm_compute. reflexivity.
Qed.

Lemma injectFrameSequence_spec_witness :
  exists buf', injectFrameSequence (str "h{a=b" ++ [10] ++ str "}" ++ 0 :: replicate 40 7) 12 = Ok buf' /\
    cstr_at buf' 0 = Some (str "h{a=b" ++ [10] ++ str "iseq=12" ++ [10] ++ str "}").
Proof.
  destruct (injectFrameSequence_spec (str "h{a=b" ++ [10] ++ str "}") (replicate 40 7) 6 12) as [(b & H1 & H2) _].
  - by repeat constructor.
  - reflexivity.
  - lia.
  - simpl. lia.
  - vm_compute. lia.
  - exists b. split; [exact H1|exact H2].
Defined.

(** A packet queued for transmission holds the address of its client, and a
    disconnection does not purge the queue: when the client leaves before the
    transmit thread gets to its packet, the thread reads freed memory. *)
Theorem tx_after_disconnect :
  exists w, clientListener demo_cfg demo_net 2 [print_command (CXap (str "hello"))] true demo_srv1 = Ok w /\
    client_addrs w = [] /\ tx_step demo_cfg w = Undef UseAfterFree.
Proof. eexists. split; [vm_compute; reflexivity|]. split; reflexivity. Qed.

(** A tag cut by a segment boundary is not recognised: the message whose
    closing tag arrives in two segments is not sent, although it is when the
    tag arrives whole; and a client that never logged in is served although the
    server is in authorisation mode. *)
Theorem iserver_segment_inside_tag :
  opt_a demo_cfg = true /\
  (exists w, recv_loop demo_cfg demo_net 2 [str "<xap>hello</xap>"] demo_srv1 = Ok w /\
     tx_queue w = [(2%positive, str "hello")]) /\
  (exists w, recv_loop demo_cfg demo_net 2 [str "<xap>hello</x"; str "ap>"] demo_srv1 = Ok w /\
     tx_queue w = []).
Proof.
  split; [reflexivity|].
  split; (eexists; split; [vm_compute; reflexivity|]; reflexivity).
Qed.
