(* ===== verification/IServices.v ===== *)
(** * The sockets of the iServer and its main loop (iServer/main.c)

    The listening sockets [main] opens, the connection handler, the status page,
    the flash policy service, and one pass of the main loop of the library over
    the listeners of the program.  What the operating system answers is an
    argument.  The theorems give what the two small services answer, show that
    [main] builds an initial state of the server, and that no pass of the main
    loop, whatever arrives on whichever sockets, touches a freed client, filter
    or listener. *)

From Stdlib Require Import SpecFloat.
From S2P Require Import Prelude UtList Strings Frame Wire Filter Xap Float Bsc IServer IServerProps.

Definition BUFSIZE : nat := 2048.

(** The accepted connection whose handler failed to close it stays in [held];
    [webbuf] is the static buffer of the status page, of [BUFSIZE+1] bytes. *)
Record services := mkServices {
  srv : iserver;
  webbuf : list Z;
  held : list Z;
}.

Definition on_srv (f : iserver -> out iserver) (s : services) : out services :=
  w ← f (srv s); Ok (mkServices w (webbuf s) (held s)).
Definition set_webbuf (b : list Z) (s : services) : services := mkServices (srv s) b (held s).
Definition hold (fd_ : Z) (s : services) : services := mkServices (srv s) (webbuf s) (fd_ :: held s).

(** ** Listening sockets *)

(** The answers of [socket], [setsockopt], [bind] (by port) and [listen]. *)
Record bind_answers := mkBind {
  b_socket : Z;
  b_setsockopt : bool;
  b_bind : Z -> bool;
  b_listen : bool;
}.

Definition serverBind (port : Z) (os : bind_answers) : out Z :=
  if port <=? 0 then Die
  else if b_socket os =? -1 then Die
  else if negb (b_setsockopt os) then Die
  else if negb (b_bind os (u16 port)) then Ok (-1)
  else if negb (b_listen os) then Die
  else Ok (b_socket os).

(** [xapAddSocketListener(fd, &callback, NULL)]; the result is not used. *)
Definition add_listener (fd_ : Z) (cb : scb) (w : iserver) : iserver :=
  match xapAddSocketListener (next w) fd_ cb None (connectionList w) with
  | Some l => set_next (Pos.succ (next w)) (set_sockets l w)
  | None => w
  end.

(** [main] after the options: [queue] and [thread] tell whether the queue and the
    transmit thread could be created. *)
Definition iserver_main (queue thread : bool) (rxSockfd port : Z) (os : Z -> bind_answers) (w : iserver) : out iserver :=
  if negb queue then Die else
  if negb thread then Die else
  l ← of_opt NullDeref (xapFindSocketListenerByFD rxSockfd (connectionList w));
  '(_, socks) ← xapDelSocketListener (sc_addr l) (connectionList w);
  let w := add_listener rxSockfd incomingXapPacket_cb (set_sockets socks w) in
  fd1 ← serverBind port (os port);
  let w := add_listener fd1 serverListener_cb w in
  fd2 ← serverBind 843 (os 843);
  let w := add_listener fd2 flashPolicyServerHandler_cb w in
  fd3 ← serverBind 78 (os 78);
  Ok (add_listener fd3 webServerHandler_cb w).

Section Services.
Context (cfg : config) (net : nat -> nat -> send_ev).

(** [client] is what [accept] returned. *)
Definition serverListener (client : Z) (ip_ : cstr) (now : Z) (w : iserver) : out iserver :=
  if client <? 0 then Ok w else addClient net client ip_ now w.

(** [sendAll], whose result the services ignore. *)
Definition send_to (client : Z) (buf : cstr) (w : iserver) : out iserver :=
  '(r, bytes) ← sendAll (net (length (tcp w))) buf;
  Ok (set_tcp (tcp w ++ [(client, bytes, r)]) w).

(** [sendAll(client, buffer, len)] from the static buffer. *)
Definition send_buffer (client : Z) (n : nat) (s : services) : out services :=
  if (n <=? length (webbuf s))%nat then on_srv (send_to client (take n (webbuf s))) s else Undef OutOfBounds.

(** ** The flash policy service *)

Definition policyResponse : cstr :=
  str "<?xml version=" ++ [34] ++ str "1.0" ++ [34] ++ str " encoding=" ++ [34] ++ str "UTF-8" ++ [34] ++
  str "?><cross-domain-policy xmlns:xsi=" ++ [34] ++ str "http://www.w3.org/2001/XMLSchema-instance" ++ [34] ++
  str " xsi:noNamespaceSchemaLocation=" ++ [34] ++ str "http://www.adobe.com/xml/schemas/PolicyFileSocket.xsd" ++ [34] ++
  str "><allow-access-from domain=" ++ [34] ++ str "*" ++ [34] ++ str " to-ports=" ++ [34] ++ str "*" ++ [34] ++
  str " secure=" ++ [34] ++ str "false" ++ [34] ++ str " /><site-control permitted-cross-domain-policies=" ++ [34] ++
  str "master-only" ++ [34] ++ str " /></cross-domain-policy>".

(** [bytes] is what [recv] delivered, [None] when it failed: the terminator is
    then written in front of the buffer. *)
Definition flashPolicyServerHandler (client : Z) (bytes : option cstr) (s : services) : out services :=
  if client <? 0 then Ok s else
  b ← of_opt OutOfBounds bytes;
  text ← of_opt OutOfBounds (cstr_at (take BUFSIZE b ++ [0]) 0);
  if strcmp0 (str "<policy-file-request/>") text
  then on_srv (send_to client (policyResponse ++ [0])) s
  else Ok s.

(** ** The status page *)

Definition int_to_float (n : Z) : spec_float :=
  match n with
  | Z0 => S754_zero false
  | Zpos p => binary_round 24 128 false p 0
  | Zneg p => binary_round 24 128 true p 0
  end.

(** ["%5.1f"] *)
Definition fmt_f5_1 (x : spec_float) : cstr :=
  let t := fmt_f1 x in replicate (5 - length t) 32 ++ t.

(** Frames per minute since the connection, or since then within the first minute. *)
Definition flowRate (now : Z) (c : Client) : out spec_float :=
  d ← add_int now (- connectTime c);
  let elapsedMinutes := Z.quot d 60 in
  let totalFrames := s32 (rxFrame c + txFrame c) in
  Ok (if elapsedMinutes =? 0 then int_to_float totalFrames
      else SFdiv 24 128 (int_to_float totalFrames) (int_to_float elapsedMinutes)).

Definition td_right : cstr := str "</td><td align=" ++ [34] ++ str "right" ++ [34] ++ str ">".

(** The text of the row, before [snprintf] cuts it. *)
Definition row_text (c : Client) (rate : spec_float) : cstr :=
  str "<tr><td>" ++ fmt_d (cl_fd c) ++ str "</td><td>" ++ cl_ip c ++ str "</td><td>" ++ pstr (cl_source c) ++
  td_right ++ fmt_d (u32 (txFrame c)) ++ td_right ++ fmt_d (u32 (rxFrame c)) ++ td_right ++ fmt_f5_1 rate ++
  str "</td></tr>".

Definition send_row (client now : Z) (c : Client) (s : services) : out services :=
  rate ← flowRate now c;
  let row := row_text c rate in
  b ← write_at (webbuf s) 0 (snprintf BUFSIZE row ++ [0]);
  send_buffer client (length row) (set_webbuf b s).

Fixpoint send_rows (client now : Z) (cs : list Client) (s : services) : out services :=
  match cs with
  | [] => Ok s
  | c :: r => s ← send_row client now c s; send_rows client now r s
  end.

Definition http_header : cstr := str "HTTP/1.0 200 OK" ++ [13; 10] ++ str "Content-Type: text/html" ++ [13; 10; 13; 10].
Definition no_clients : cstr := str "<i>No connected Clients</i>".
Definition table_head : cstr :=
  str "<table><tr><th>FD</th><th>IP</th><th>Source</th><th>Tx</th><th>Rx</th><th>/min</th></tr>".

(** [len = strlcat(buffer, t, BUFSIZE); sendAll(client, buffer, len)] *)
Definition cat_and_send (client : Z) (t : cstr) (s : services) : out services :=
  '(b, n) ← strlcat (webbuf s) t BUFSIZE;
  send_buffer client n (set_webbuf b s).

Definition web_response (client now : Z) (s : services) : out services :=
  b ← write_at (webbuf s) 0 (http_header ++ [0]);
  let s := set_webbuf b s in
  match clientList (srv s) with
  | [] => cat_and_send client no_clients s
  | cs =>
      s ← cat_and_send client table_head s;
      s ← send_rows client now cs s;
      on_srv (send_to client (str "</table>")) s
  end.

(** [request] is what [read] delivered, [None] when it failed.  A request that
    is not a GET calls [error] of the C library, as in [sendAll]. *)
Definition webServerHandler (client : Z) (request : option cstr) (now : Z) (s : services) : out services :=
  if client <? 0 then Ok s else
  match request with
  | None | Some [] => Ok (hold client s)
  | Some r =>
      let r := take BUFSIZE r in
      b ← write_at (webbuf s) 0 r;
      b ← (if (length r <? BUFSIZE)%nat then write_at b (length r) [0] else write_at b 0 [0]);
      text ← of_opt OutOfBounds (cstr_at b 0);
      if negb (strncmp0 4 text (str "GET ")) && negb (strncmp0 4 text (str "get ")) then Undef BadCall
      else web_response client now (set_webbuf b s)
  end.

(** ** The main loop *)

(** What is ready on a descriptor: chunks and the end of a client's stream, the
    connection [accept] returns with its address and first data, a datagram. *)
Record ready := mkReady {
  rd_chunks : list cstr;
  rd_closed : bool;
  rd_client : Z;
  rd_ip : cstr;
  rd_first : option cstr;
  rd_dgram : option (list Z);
}.

Definition run_listener (env : Z -> ready) (now : Z) (cb : scb) (fd_ : Z) (data : ptr) (s : services) : out services :=
  let e := env fd_ in
  match cb with
  | handleXapPacket_cb => on_srv (handleXapPacket filterList frame_ set_frame (run_cb cfg net) (rd_dgram e)) s
  | clientListener_cb => p ← of_opt NullDeref data; on_srv (clientListener cfg net p (rd_chunks e) (rd_closed e)) s
  | serverListener_cb => on_srv (serverListener (rd_client e) (rd_ip e) now) s
  | incomingXapPacket_cb => on_srv (incomingXapPacket cfg net (rd_dgram e)) s
  | flashPolicyServerHandler_cb => flashPolicyServerHandler (rd_client e) (rd_first e) s
  | webServerHandler_cb => webServerHandler (rd_client e) (rd_first e) now s
  end.

(** [readSockets] of the library for the descriptors that are ready. *)
Definition iserver_round (env : Z -> ready) (now : Z) (fds : list Z) (s : services) : out services :=
  readSockets (fun s => connectionList (srv s)) (run_listener env now) fds s.

End Services.
