(* ===== verification/IServicesProps.v ===== *)
(** * The iServer's services and main loop: properties

    Which listeners an operation of the server changes, the invariant that ties
    every client listener to its client, and the theorems about the status page,
    the flash policy service, [main] and the passes of the main loop. *)

From Stdlib Require Import SpecFloat.
From S2P Require Import Prelude UtList Strings Frame Wire Filter Xap Float Bsc IServer IServerProps IServices.

(** ** Clients and their listeners *)

(** The address and the listener of every client. *)
Definition handlers (w : iserver) : list (addr * addr) := map (fun c => (cl_addr c, xapSocketHandler c)) (clientList w).

(** An operation that leaves clients and listeners as they are. *)
Definition keeps (w w' : iserver) : Prop :=
  ll_wf (clientList w) -> handlers w' = handlers w /\ connectionList w' = connectionList w.

Lemma clients_wf_handlers w : ll_wf (clientList w) <-> NoDup (map fst (handlers w)).
Proof. unfold handlers. rewrite map_map. done. Qed.

#[global] Instance keeps_preorder : PreOrder keeps.
Proof.
  split; [done|]. intros w1 w2 w3 H12 H23 Hwf. destruct (H12 Hwf) as [Hh Hc].
  destruct H23 as [Hh' Hc']; [|by rewrite Hh', Hc'].
  rewrite clients_wf_handlers in Hwf |- *. by rewrite Hh.
Qed.

Lemma keeps_eq w w' : clientList w' = clientList w -> connectionList w' = connectionList w -> keeps w w'.
Proof. intros H1 H2 _. unfold handlers. by rewrite H1, H2. Qed.

Lemma handlers_update p c n c' l :
  ll_wf l -> ll_node p l = Some (c, n) -> same_client c c' ->
  map (fun c => (cl_addr c, xapSocketHandler c)) (ll_update p (fun _ => c') l) =
  map (fun c => (cl_addr c, xapSocketHandler c)) l.
Proof.
  intros Hwf Hn (Ha & Hh & _). unfold ll_update. rewrite map_map. apply map_ext_in. intros x Hx.
  case_bool_decide as Hp; [|done]. apply list_elem_of_In in Hx.
  assert (x = c) as ->; [|by rewrite Ha, Hh]. apply list_elem_of_split in Hx as (l1 & l2 & ->).
  rewrite <- Hp, ll_node_app in Hn by (by eapply ll_wf_before). congruence.
Qed.

Lemma keeps_update p c n c' w w1 :
  ll_node p (clientList w) = Some (c, n) -> same_client c c' ->
  clientList w1 = clientList w -> connectionList w1 = connectionList w ->
  keeps w (set_clients (ll_update p (fun _ => c') (clientList w1)) w1).
Proof.
  intros Hn Hs H1 H2 Hwf. split; [|exact H2]. unfold handlers. cbn [clientList set_clients].
  rewrite H1. by eapply handlers_update.
Qed.

Section Keep.
Context (cfg : config) (net : nat -> nat -> send_ev).

Lemma parse_msg_keeps p b w w' :
  srv_inv w -> p ∈ client_addrs w -> parseiServerMsg cfg net p b w = Ok w' -> keeps w w'.
Proof.
  intros Hinv Hp H. destruct (client_lookup p w Hp) as (c & n & Hc & Hin & Ha). unfold parseiServerMsg in H.
  rewrite Hc in H. cbn [of_opt] in H. rewrite bind_Ok in H. inv_bind H. destruct a as [c1 w1]. injection H as <-.
  destruct (token_loop_ok cfg net (client_addrs w) (tokens b) c w) as [_ Hok]; [apply Hinv|by rewrite Ha|].
  destruct (Hok c1 w1 Ha0) as [(H1 & H2 & _) Hs]. by eapply keeps_update.
Qed.

Lemma recv_loop_keeps p bs w w' :
  srv_inv w -> p ∈ client_addrs w -> recv_loop cfg net p bs w = Ok w' -> keeps w w'.
Proof.
  revert w. induction bs as [|b bs IH]; intros w Hinv Hp H; cbn [recv_loop] in H; [by injection H as <-|].
  inv_bind H. destruct (parse_msg_ok cfg net p b w Hinv Hp) as [_ Hok]. destruct (Hok a Ha) as [Hi Hc].
  etrans; [by eapply parse_msg_keeps|]. apply IH; [done|by rewrite Hc|done].
Qed.

Lemma to_client_keeps p w w' : xAPtoClient cfg net p w = Ok w' -> keeps w w'.
Proof.
  unfold xAPtoClient. intros H. inv_bind H. destruct a as [c n]. apply of_opt_Ok in Ha. inv_bind H. rename a into w1.
  inv_bind H. inv_bind H. destruct a0 as [[r c2] w2]. injection H as <-.
  destruct (sendToClient_frame net _ _ _ _ _ _ Ha2) as (Hsc & A2 & B2 & _).
  assert (clientList w1 = clientList w /\ connectionList w1 = connectionList w) as [A1 B1].
  { destruct (lowerData w); [by injection Ha0 as <-|]. do 5 inv_bind Ha0. by injection Ha0 as <-. }
  eapply keeps_update; [done|done|congruence|congruence].
Qed.

Lemma dispatch_keeps w w' : filterDispatch filterList frame_ (run_cb cfg net) w = Ok w' -> keeps w w'.
Proof.
  apply foreach_safe_keeps; [apply _|]. intros x w1 w2 H. unfold dispatch_body in H.
  inv_bind H. destruct a; [|by injection H as <-]. destruct (callback x). by eapply to_client_keeps.
Qed.

Lemma incoming_keeps dgram w w' : incomingXapPacket cfg net dgram w = Ok w' -> keeps w w'.
Proof.
  unfold incomingXapPacket. intros H. destruct (0 <? _); [|injection H as <-; by apply keeps_eq].
  destruct (filterList _); [injection H as <-; by apply keeps_eq|]. inv_bind H. destruct a as [f k].
  etrans; [|by eapply dispatch_keeps]. by apply keeps_eq.
Qed.

Lemma send_to_frame client t w w' :
  send_to net client t w = Ok w' ->
  clientList w' = clientList w /\ connectionList w' = connectionList w /\ filterList w' = filterList w /\
  next w' = next w /\ frame_ w' = frame_ w.
Proof. unfold send_to. intros H. inv_bind H. destruct a. by injection H as <-. Qed.

Lemma del_client_effect p w w' c n :
  ll_node p (clientList w) = Some (c, n) -> delClient p w = Ok w' ->
  clientList w' = ll_delete p (clientList w) /\ connectionList w' = ll_delete (xapSocketHandler c) (connectionList w).
Proof.
  unfold delClient. intros -> H. cbn [of_opt] in H. rewrite bind_Ok in H. inv_bind H. destruct a as [u socks].
  inv_bind H. destruct a as [fl k]. injection H as <-. unfold xapDelSocketListener in Ha. inv_bind Ha.
  destruct a as [x y]. injection Ha as _ <-. done.
Qed.

End Keep.

(** ** The invariant of the main loop *)

(** The listener of a client carries the client it belongs to. *)
Definition owned (w : iserver) (s : xAPSocketConnection scb ptr) : Prop :=
  sc_callback s = clientListener_cb -> exists p, sc_user_data s = Some p /\ (p, sc_addr s) ∈ handlers w.

Definition loop_inv (w : iserver) : Prop :=
  srv_inv w /\ Forall (owned w) (connectionList w) /\
  Forall (fun s => sc_callback s <> handleXapPacket_cb) (connectionList w).

(** A callback of the listener [x]: what a pass over the listeners needs of it. *)
Definition pass_ok (x : xAPSocketConnection scb ptr) (w : iserver) (m : out iserver) : Prop :=
  no_uaf m /\ forall w', m = Ok w' -> loop_inv w' /\ keeps_suffix connectionList x w w'.

Lemma suffix_same x w w' : connectionList w' = connectionList w -> keeps_suffix connectionList x w w'.
Proof. intros Hc pre r Hg. exists (pre ++ [x]). by rewrite Hc, Hg, <- app_assoc. Qed.

Lemma loop_inv_keeps w w' : loop_inv w -> srv_inv w' -> keeps w w' -> loop_inv w'.
Proof.
  intros (Hinv & Ho & Hd) Hinv' Hk. destruct Hk as [Hh Hc]; [apply Hinv|].
  split; [done|]. unfold owned. rewrite Hc, Hh. by split.
Qed.

Lemma handler_unique w p a b : srv_inv w -> (p, a) ∈ handlers w -> (p, b) ∈ handlers w -> a = b.
Proof.
  intros [Hwf _] H1 H2. rewrite clients_wf_handlers in Hwf.
  apply list_elem_of_lookup in H1 as [i Hi], H2 as [j Hj].
  assert (i = j) as ->; [|congruence].
  eapply (NoDup_lookup (map fst (handlers w)) i j p); [done| |]; rewrite list_lookup_fmap.
  - by rewrite Hi.
  - by rewrite Hj.
Qed.

Lemma node_handler p w c n : ll_node p (clientList w) = Some (c, n) -> (p, xapSocketHandler c) ∈ handlers w.
Proof.
  intros Hn. destruct (ll_node_elem _ _ _ _ Hn) as [Hin Hp]. change (node_addr c) with (cl_addr c) in Hp.
  unfold handlers. apply list_elem_of_fmap. exists c. by rewrite <- Hp.
Qed.

(** The owner of a listener is a client. *)
Lemma owner_client p a w : (p, a) ∈ handlers w -> p ∈ client_addrs w.
Proof.
  unfold handlers, client_addrs. intros (c & Heq & Hc)%list_elem_of_fmap. injection Heq as -> _.
  apply list_elem_of_fmap. by exists c.
Qed.

(** A disconnection removes the listener of the client and no other. *)
Lemma del_client_pass x p w :
  loop_inv w -> x ∈ connectionList w -> (p, sc_addr x) ∈ handlers w -> pass_ok x w (delClient p w).
Proof.
  intros (Hinv & Ho & Hd) Hx Hp. pose proof Hinv as (Hwc & Hws & _).
  destruct (client_lookup p w (owner_client _ _ _ Hp)) as (c & n & Hc & _).
  destruct (del_client_ok p w Hinv (owner_client _ _ _ Hp)) as (w1 & H1 & Hinv1 & _). rewrite H1. split; [done|].
  intros w' [= <-]. destruct (del_client_effect p w w1 c n Hc H1) as [Hcl Hcon].
  rewrite (handler_unique w p _ (sc_addr x) Hinv (node_handler _ _ _ _ Hc) Hp) in Hcon.
  change (sc_addr x) with (node_addr x) in Hcon. split.
  - split; [done|]. rewrite Hcon. rewrite Forall_forall in Ho, Hd. split; apply Forall_forall.
    + intros s [Hs Hne]%elem_of_ll_delete Hcb; [|done]. destruct (Ho s Hs Hcb) as (q & Hq & Hin). exists q.
      split; [done|]. unfold handlers in Hin |- *. rewrite Hcl. apply list_elem_of_fmap in Hin as (c' & Heq & Hc').
      apply list_elem_of_fmap. exists c'. split; [done|]. apply elem_of_ll_delete; [done|]. split; [done|].
      intros He. apply Hne. apply (handler_unique w p (sc_addr s) (sc_addr x) Hinv); [|done].
      change (node_addr c') with (cl_addr c') in He. unfold handlers. apply list_elem_of_fmap. exists c'.
      split; [|done]. congruence.
    + intros s [Hs _]%elem_of_ll_delete; [by apply Hd|done].
  - intros pre r Hg. exists pre. rewrite Hcon, Hg. apply ll_delete_app. rewrite Hg in Hws. by eapply ll_wf_before.
Qed.

Section Loop.
Context (cfg : config) (net : nat -> nat -> send_ev).

Lemma keeps_pass x w m :
  loop_inv w -> safe_op m -> (forall w', m = Ok w' -> keeps w w') -> pass_ok x w m.
Proof.
  intros Hw [Hn Hi] Hk. split; [done|]. intros w' H. split; [by eapply loop_inv_keeps; eauto|].
  apply suffix_same. apply (Hk w' H). apply Hw.
Qed.

Lemma client_listener_pass x p bs closed w :
  loop_inv w -> x ∈ connectionList w -> (p, sc_addr x) ∈ handlers w ->
  pass_ok x w (clientListener cfg net p bs closed w).
Proof.
  intros Hw Hx Hp. pose proof Hw as [Hinv _]. pose proof (owner_client _ _ _ Hp) as Hin. unfold clientListener.
  destruct (recv_loop_ok cfg net p bs w Hinv Hin) as [Hn Hok].
  assert (Hafter : forall w1, recv_loop cfg net p bs w = Ok w1 -> pass_ok x w
    ('(c, _) ← of_opt UseAfterFree (ll_node p (clientList w1));
     if closed || negb (connected c) then delClient p w1 else Ok w1)).
  { intros w1 H1. destruct (Hok w1 H1) as [Hi1 Ha1]. pose proof (recv_loop_keeps cfg net p bs w w1 Hinv Hin H1) as Hk.
    pose proof (loop_inv_keeps _ _ Hw Hi1 Hk) as Hw1. destruct (Hk (proj1 Hinv)) as [Hh Hc].
    destruct (client_lookup p w1) as (c & n & -> & _); [by rewrite Ha1|]. cbn [of_opt]. rewrite bind_Ok.
    destruct (closed || negb (connected c)); [|split; [done|]; intros w' [= <-]; split; [done|by apply suffix_same]].
    destruct (del_client_pass x p w1 Hw1) as [Hn2 Hok2]; [by rewrite Hc|by rewrite Hh|]. split; [done|].
    intros w' H. destruct (Hok2 w' H) as [Hw' Hs]. split; [done|]. intros pre r Hg. apply (Hs pre r). by rewrite Hc. }
  split; [apply no_uaf_bind; [done|]; intros w1 H1; by apply Hafter|].
  intros w' H. inv_bind H. by apply (Hafter a Ha).
Qed.

(** A connection either failed and left everything as it was, or added a client
    with its listener. *)
Lemma add_client_effect fd_ ip_ now w w' :
  srv_inv w -> addClient net fd_ ip_ now w = Ok w' ->
  (handlers w' = handlers w /\ connectionList w' = connectionList w) \/
  (exists s p, handlers w' = (p, sc_addr s) :: handlers w /\ connectionList w' = s :: connectionList w /\
     sc_callback s = clientListener_cb /\ sc_user_data s = Some p).
Proof.
  intros (Hwf & _ & _ & _ & Hlt & _) H. unfold addClient, xapAddSocketListener in H. destruct (fd_ <? 0); [done|].
  inv_bind H. destruct a as [[r c2] w2]. destruct (sendToClient_frame net _ _ _ _ _ _ Ha) as (Hsc & Hcl & Hcon & _).
  cbn [clientList connectionList set_next set_sockets set_clients] in Hcl, Hcon.
  unfold ll_prepend in Hcl, Hcon.
  set (c := mkClient _ _ _ _ _ _ _ _ _ _ _ _) in *. cbv zeta in H.
  assert (Hfresh : next w ∉ map cl_addr (clientList w)).
  { intros (y & Hy & Hin)%list_elem_of_fmap. rewrite Forall_forall in Hlt. specialize (Hlt y Hin). simpl in Hlt. lia. }
  assert (Hup : handlers (set_clients (ll_update (next w) (fun _ => c2) (clientList w2)) w2)
                = (next w, Pos.succ (next w)) :: handlers w).
  { unfold handlers. cbn [clientList set_clients]. rewrite Hcl. change ((next w, Pos.succ (next w)) :: _) with
      (map (fun c => (cl_addr c, xapSocketHandler c)) (c :: clientList w)).
    eapply (handlers_update _ c); [by apply NoDup_cons| |done]. cbn [ll_node]. by rewrite bool_decide_true. }
  destruct (r =? 0).
  - injection H as <-. right. exists (mkSocket (Pos.succ (next w)) fd_ (Some (next w)) clientListener_cb), (next w).
    split; [exact Hup|]. split; [exact Hcon|done].
  - left. assert (Hc2 : cl_addr c2 = next w) by apply Hsc.
    rewrite Hcl in H, Hup. unfold ll_update in H, Hup. cbn [map] in H, Hup.
    change (node_addr c) with (next w) in H, Hup. rewrite bool_decide_true in H, Hup by done.
    eapply (del_client_effect (next w) _ w' c2) in H as [H1 H2].
    2: { cbn [clientList set_clients ll_node]. by rewrite bool_decide_true. }
    cbn [clientList connectionList set_clients] in H1, H2. unfold handlers. rewrite H1, H2, Hcon.
    unfold handlers in Hup. cbn [clientList set_clients map] in Hup. injection Hup as _ Hh Hup. rewrite Hh. cbn [ll_delete].
    change (node_addr c2) with (cl_addr c2). rewrite !bool_decide_true by done. by split.
Qed.

Lemma add_client_pass x fd_ ip_ now w :
  loop_inv w -> 0 <= fd_ -> pass_ok x w (addClient net fd_ ip_ now w).
Proof.
  intros Hw Hfd. pose proof Hw as (Hinv & Ho & Hd). destruct (add_client_ok net fd_ ip_ now w Hinv Hfd) as [Hn Hi].
  split; [done|]. intros w' H. destruct (add_client_effect fd_ ip_ now w w' Hinv H) as [[Hh Hc]|(s & p & Hh & Hc & Hcb & Hu)].
  - split; [|by apply suffix_same]. apply (loop_inv_keeps w); [done|by apply Hi|by intros _].
  - split; [|intros pre r Hg; exists (s :: pre ++ [x]); by rewrite Hc, Hg, <- app_comm_cons, <- app_assoc].
    split; [by apply Hi|]. rewrite Hc. split.
    + constructor; [intros _; exists p; split; [done|]; rewrite Hh; left|]. eapply Forall_impl; [exact Ho|].
      intros y Hy Hycb. destruct (Hy Hycb) as (q & Hq & Hin). exists q. split; [done|]. rewrite Hh. by right.
    + constructor; [by rewrite Hcb|done].
Qed.

End Loop.

(** ** The services leave the server alone *)

Definition same_core (w w' : iserver) : Prop :=
  clientList w' = clientList w /\ connectionList w' = connectionList w /\ filterList w' = filterList w /\
  next w' = next w /\ frame_ w' = frame_ w.

(** A service: it touches no freed memory and the state of the server stays. *)
Definition quiet (s : services) (m : out services) : Prop :=
  no_uaf m /\ forall s', m = Ok s' -> same_core (srv s) (srv s').

Lemma same_core_trans w1 w2 w3 : same_core w1 w2 -> same_core w2 w3 -> same_core w1 w3.
Proof. intros (?&?&?&?&?) (?&?&?&?&?). repeat split; congruence. Qed.

Lemma same_core_inv w w' : same_core w w' -> srv_inv w -> srv_inv w'.
Proof. intros (H1&H2&H3&H4&H5). unfold srv_inv, client_addrs. by rewrite H1, H2, H3, H4, H5. Qed.

Lemma quiet_Ok s s' : srv s' = srv s -> quiet s (Ok s').
Proof. intros H. split; [done|]. intros ? [= <-]. by rewrite H. Qed.

Lemma quiet_bind s (m : out services) f :
  quiet s m -> (forall s1, m = Ok s1 -> quiet s1 (f s1)) -> quiet s (m ≫= f).
Proof.
  intros [Hn Hs] Hf. split; [apply no_uaf_bind; [done|]; intros s1 H1; by apply Hf|].
  intros s' H. inv_bind H. eapply same_core_trans; [by apply Hs|]. by apply (Hf a Ha).
Qed.

(** A step that computes a value the service then uses. *)
Lemma quiet_let {A} s (m : out A) (f : A -> out services) :
  no_uaf m -> (forall a, m = Ok a -> quiet s (f a)) -> quiet s (m ≫= f).
Proof.
  intros Hn Hf. split; [apply no_uaf_bind; [done|]; intros a Ha; by apply Hf|].
  intros s' H. inv_bind H. by apply (Hf a Ha).
Qed.

Lemma no_uaf_strlcat b t n : no_uaf (strlcat b t n).
Proof.
  unfold strlcat. apply no_uaf_bind; [by apply no_uaf_of_opt|]. intros d _. destruct (_ && _); [|done].
  apply no_uaf_bind; [apply no_uaf_write_at|]. intros ? _. apply no_uaf_bind; [apply no_uaf_write_at|done].
Qed.

Section Quiet.
Context (net : nat -> nat -> send_ev).

Lemma quiet_send client t s : quiet s (on_srv (send_to net client t) s).
Proof.
  unfold on_srv. split.
  - apply no_uaf_bind; [|done]. unfold send_to. apply no_uaf_bind; [apply no_uaf_sendAll|by intros [] _].
  - intros s' H. inv_bind H. injection H as <-. by apply send_to_frame in Ha.
Qed.

Lemma quiet_buffer client n s : quiet s (send_buffer net client n s).
Proof. unfold send_buffer. destruct (_ <=? _)%nat; [apply quiet_send|]. by split. Qed.

Lemma quiet_cat client t s : quiet s (cat_and_send net client t s).
Proof.
  unfold cat_and_send. apply quiet_let; [apply no_uaf_strlcat|]. intros [b n] _.
  exact (quiet_buffer client n (set_webbuf b s)).
Qed.

Lemma quiet_row client now c s : quiet s (send_row net client now c s).
Proof.
  unfold send_row. apply quiet_let; [unfold flowRate; apply no_uaf_bind; [apply no_uaf_add_int|done]|]. intros r _.
  apply quiet_let; [apply no_uaf_write_at|]. intros b _. exact (quiet_buffer client _ (set_webbuf b s)).
Qed.

Lemma quiet_rows client now cs s : quiet s (send_rows net client now cs s).
Proof.
  revert s. induction cs as [|c cs IH]; intros s; cbn [send_rows]; [by apply quiet_Ok|].
  apply quiet_bind; [apply quiet_row|]. intros. apply IH.
Qed.

Lemma quiet_response client now s : quiet s (web_response net client now s).
Proof.
  unfold web_response. apply quiet_let; [apply no_uaf_write_at|]. intros b _. cbv zeta.
  assert (H : forall m, quiet (set_webbuf b s) m -> quiet s m) by done. apply H. destruct (clientList _); [apply quiet_cat|].
  apply quiet_bind; [apply quiet_cat|]. intros s1 _. apply quiet_bind; [apply quiet_rows|]. intros s2 _. apply quiet_send.
Qed.

Lemma quiet_web client request now s : quiet s (webServerHandler net client request now s).
Proof.
  unfold webServerHandler. destruct (client <? 0); [by apply quiet_Ok|]. destruct request as [[|x r]|]; try by apply quiet_Ok.
  cbv zeta. apply quiet_let; [apply no_uaf_write_at|]. intros b _.
  apply quiet_let; [destruct (_ <? _)%nat; apply no_uaf_write_at|]. intros b1 _.
  apply quiet_let; [by apply no_uaf_of_opt|]. intros t _. destruct (_ && _); [by split|].
  exact (quiet_response client now (set_webbuf b1 s)).
Qed.

Lemma quiet_flash client bytes s : quiet s (flashPolicyServerHandler net client bytes s).
Proof.
  unfold flashPolicyServerHandler. destruct (client <? 0); [by apply quiet_Ok|].
  apply quiet_let; [by apply no_uaf_of_opt|]. intros b _. apply quiet_let; [by apply no_uaf_of_opt|]. intros t _.
  destruct (strcmp0 _ _); [apply quiet_send|by apply quiet_Ok].
Qed.

End Quiet.

(** ** Passes of the main loop *)

Section Rounds.
Context (cfg : config) (net : nat -> nat -> send_ev).

Definition sockets (s : services) : list (xAPSocketConnection scb ptr) := connectionList (srv s).

(** What a pass needs of a callback, at the level of the whole program. *)
Definition service_ok (x : xAPSocketConnection scb ptr) (s : services) (m : out services) : Prop :=
  no_uaf m /\ forall s', m = Ok s' -> loop_inv (srv s') /\ keeps_suffix sockets x s s'.

Lemma on_srv_ok x s f : pass_ok x (srv s) (f (srv s)) -> service_ok x s (on_srv f s).
Proof.
  intros [Hn Hok]. unfold on_srv. split; [by apply no_uaf_bind|]. intros s' H. inv_bind H. injection H as <-.
  by apply Hok.
Qed.

Lemma quiet_ok x s m : loop_inv (srv s) -> quiet s m -> service_ok x s m.
Proof.
  intros Hw [Hn Hs]. split; [done|]. intros s' H. pose proof (Hs s' H) as Hc. split.
  - apply (loop_inv_keeps (srv s)); [done| |by apply keeps_eq; apply Hc].
    apply (same_core_inv (srv s)); [done|apply Hw].
  - apply (suffix_same x (srv s) (srv s')), Hc.
Qed.

Lemma listener_pass env now x s :
  loop_inv (srv s) -> x ∈ sockets s ->
  service_ok x s (run_listener cfg net env now (sc_callback x) (fd x) (sc_user_data x) s).
Proof.
  intros Hw Hx. pose proof Hw as (Hinv & Ho & Hd). rewrite Forall_forall in Ho, Hd.
  unfold run_listener. cbv zeta. destruct (sc_callback x) eqn:Hcb.
  - by destruct (Hd x Hx).
  - destruct (Ho x Hx Hcb) as (p & -> & Hp). cbn [of_opt]. rewrite bind_Ok.
    apply on_srv_ok. by apply client_listener_pass.
  - apply on_srv_ok. unfold serverListener. destruct (Z.ltb_spec (rd_client (env (fd x))) 0).
    + split; [done|]. intros w' [= <-]. split; [done|by apply suffix_same].
    + by apply add_client_pass.
  - apply on_srv_ok. apply keeps_pass; [done|by apply incoming_ok|]. intros w'. apply incoming_keeps.
  - apply quiet_ok; [done|apply quiet_flash].
  - apply quiet_ok; [done|apply quiet_web].
Qed.

Lemma round_ok env now fds s :
  loop_inv (srv s) ->
  no_uaf (iserver_round cfg net env now fds s) /\
  forall s', iserver_round cfg net env now fds s = Ok s' -> loop_inv (srv s').
Proof.
  intros Hw. unfold iserver_round, readSockets, LL_FOREACH_SAFE.
  apply (foreach_safe_safe sockets _ (fun s => loop_inv (srv s))) with (pre := []); [by intros ? [(_ & ? & _) _]| |done|done].
  intros x s1 Hw1 Hx. unfold read_body. case_bool_decide; [by apply listener_pass|].
  split; [done|]. intros s' [= <-]. split; [done|by apply (suffix_same x (srv s1))].
Qed.

End Rounds.

(** ** The whole program: [main], passes of the loop, rounds of the transmit thread *)

(** The library as [xapInit] leaves it: its packet handler is the only listener. *)
Definition library_state (rxSockfd : Z) (p : addr) (frame : xAPFrame) (buf : list Z) : iserver :=
  mkIserver [] [] [mkSocket p rxSockfd None handleXapPacket_cb] [] [] [] frame false buf (Pos.succ p).

Inductive program_reachable (cfg : config) (net : nat -> nat -> send_ev) : services -> Prop :=
| p_main queue thread rxSockfd port os p frame buf w :
    0 <= rxSockfd -> frame_sized frame ->
    iserver_main queue thread rxSockfd port os (library_state rxSockfd p frame buf) = Ok w ->
    program_reachable cfg net (mkServices w (replicate (S BUFSIZE) 0) [])
| p_round s env now fds s' :
    program_reachable cfg net s -> iserver_round cfg net env now fds s = Ok s' -> program_reachable cfg net s'
| p_tx s w :
    program_reachable cfg net s -> tx_step cfg (srv s) = Ok (Some w) ->
    program_reachable cfg net (mkServices w (webbuf s) (held s)).

(** What [main] has registered, newest first. *)
Definition listens (w : iserver) : list (Z * scb) := map (fun s => (fd s, sc_callback s)) (connectionList w).

(** A state of [main]: nobody is connected, and the default handler is gone. *)
Definition starting (w : iserver) : Prop :=
  clientList w = [] /\ filterList w = [] /\ ll_wf (connectionList w) /\
  Forall (fun s => (sc_addr s < next w)%positive) (connectionList w) /\ frame_sized (frame_ w) /\
  Forall (fun s => sc_callback s <> clientListener_cb /\ sc_callback s <> handleXapPacket_cb) (connectionList w).

Lemma starting_listener fd_ cb w :
  starting w -> cb <> clientListener_cb -> cb <> handleXapPacket_cb -> starting (add_listener fd_ cb w).
Proof.
  intros (H1 & H2 & H3 & H4 & H5 & H6) Hc Hd. unfold add_listener, xapAddSocketListener.
  destruct (fd_ <? 0); [done|]. unfold starting.
  cbn [set_next set_sockets clientList filterList connectionList next frame_ ll_prepend].
  split; [done|]. split; [done|]. split.
  { apply NoDup_cons. split; [|done]. cbn. intros (y & Hy & Hin)%list_elem_of_fmap.
    rewrite Forall_forall in H4. specialize (H4 y Hin). change (node_addr y) with (sc_addr y) in Hy. simpl in H4. lia. }
  split; [constructor; [cbn; lia|]; eapply Forall_impl; [exact H4|]; intros; simpl in *; lia|].
  split; [done|]. by constructor.
Qed.

Lemma starting_inv w : starting w -> loop_inv w.
Proof.
  intros (H1 & H2 & H3 & H4 & H5 & H6). split.
  - apply (reachable_inv (mkConfig false false false [] (mkIdent [] [] 0 []) (load_packet [])) (fun _ _ => SentN 0)).
    by apply r_init.
  - split; (eapply Forall_impl; [exact H6|]); intros s [Hs Hd]; [by intros ?|done].
Qed.

Definition bound (port : Z) (os : bind_answers) (cb : scb) : list (Z * scb) :=
  match serverBind port os with Ok fd_ => if fd_ <? 0 then [] else [(fd_, cb)] | _ => [] end.

Lemma listens_add port os cb fd_ w :
  serverBind port os = Ok fd_ -> listens (add_listener fd_ cb w) = bound port os cb ++ listens w.
Proof.
  intros H. unfold bound. rewrite H. unfold add_listener, xapAddSocketListener. by destruct (fd_ <? 0).
Qed.

Lemma serverBind_out port os : serverBind port os = Die \/ exists fd_, serverBind port os = Ok fd_.
Proof. unfold serverBind. repeat case_match; eauto. Qed.

(** The state before the listening sockets: our packet handler is in place. *)
Lemma own_handler rxSockfd p frame buf :
  0 <= rxSockfd -> frame_sized frame ->
  starting (add_listener rxSockfd incomingXapPacket_cb (set_sockets [] (library_state rxSockfd p frame buf))) /\
  listens (add_listener rxSockfd incomingXapPacket_cb (set_sockets [] (library_state rxSockfd p frame buf))) =
    [(rxSockfd, incomingXapPacket_cb)].
Proof.
  intros Hfd Hf. split.
  - apply starting_listener; [|done|done]. unfold starting. cbn. by repeat split; try constructor; apply Hf.
  - unfold add_listener, xapAddSocketListener. destruct (Z.ltb_spec rxSockfd 0); [lia|done].
Qed.

Lemma main_eq queue thread rxSockfd port os p frame buf :
  iserver_main queue thread rxSockfd port os (library_state rxSockfd p frame buf) =
  if negb queue || negb thread then Die else
  fd1 ← serverBind port (os port); fd2 ← serverBind 843 (os 843); fd3 ← serverBind 78 (os 78);
  Ok (add_listener fd3 webServerHandler_cb (add_listener fd2 flashPolicyServerHandler_cb
       (add_listener fd1 serverListener_cb
         (add_listener rxSockfd incomingXapPacket_cb (set_sockets [] (library_state rxSockfd p frame buf)))))).
Proof.
  unfold iserver_main. destruct queue, thread; try done. cbn [negb orb].
  unfold xapFindSocketListenerByFD, xapDelSocketListener. cbn [library_state connectionList ll_search fd].
  rewrite Z.eqb_refl. cbn [of_opt]. rewrite bind_Ok. cbn [sc_addr ll_node ll_delete].
  change (node_addr _) with p. rewrite bool_decide_true by done. done.
Qed.

Lemma main_starting queue thread rxSockfd port os p frame buf w :
  0 <= rxSockfd -> frame_sized frame ->
  iserver_main queue thread rxSockfd port os (library_state rxSockfd p frame buf) = Ok w ->
  starting w /\
  listens w = bound 78 (os 78) webServerHandler_cb ++ bound 843 (os 843) flashPolicyServerHandler_cb ++
              bound port (os port) serverListener_cb ++ [(rxSockfd, incomingXapPacket_cb)].
Proof.
  intros Hfd Hf H. rewrite main_eq in H. destruct (_ || _); [done|].
  inv_bind H. inv_bind H. inv_bind H. injection H as <-.
  destruct (own_handler rxSockfd p frame buf Hfd Hf) as [Hs Hl]. split; [by do 3 (apply starting_listener; [|done..])|].
  by rewrite (listens_add _ _ _ _ _ Ha1), (listens_add _ _ _ _ _ Ha0), (listens_add _ _ _ _ _ Ha), Hl.
Qed.

Lemma program_inv cfg net s : program_reachable cfg net s -> loop_inv (srv s).
Proof.
  induction 1 as [queue thread rx port os p frame buf w Hfd Hf Hm|s env now fds s' _ IH H|s w _ IH H].
  - apply starting_inv. by apply (main_starting queue thread rx port os p frame buf).
  - by apply (round_ok cfg net env now fds s IH).
  - cbn [srv]. apply (loop_inv_keeps (srv s)); [done|eapply tx_ok; [apply IH|done]|].
    unfold tx_step in H. destruct (tx_queue (srv s)) as [|[q m] r]; [done|]. inv_bind H. destruct a as [c n].
    inv_bind H. injection H as <-. apply of_opt_Ok in Ha. etrans; [by eapply (keeps_update q c n (set_tx (u32 (txFrame c + 1)) c) (srv s) (srv s))|].
    by apply keeps_eq.
Qed.

(** ** The status page *)

Section Page.
Context (net : nat -> nat -> send_ev) (client now : Z).
(** The network takes what it is given, in pieces of any size. *)
Hypothesis Hnet : forall j k, exists n, net j k = SentN n.

(** The texts [ts] went to the client; the rest of the server is as before. *)
Definition delivered (ts : list cstr) (s s' : services) : Prop :=
  srv s' = set_tcp (tcp (srv s) ++ map (fun t => (client, t, 0)) ts) (srv s) /\ held s' = held s /\
  length (webbuf s') = length (webbuf s).

Lemma delivered_trans a b s1 s2 s3 : delivered a s1 s2 -> delivered b s2 s3 -> delivered (a ++ b) s1 s3.
Proof.
  intros (H1 & H2 & H3) (H1' & H2' & H3'). split; [|split; congruence].
  rewrite H1', H1, map_app, app_assoc. done.
Qed.

Lemma send_delivered t s : t <> [] -> exists s', on_srv (send_to net client t) s = Ok s' /\ delivered [t] s s'.
Proof.
  intros Ht. unfold on_srv, send_to.
  destruct (sendAll_spec (net (length (tcp (srv s)))) t) as [[-> _]|[[_ ->]|(j & b & Hj & _)]]; [done| |].
  - rewrite !bind_Ok. eexists. split; [done|]. by repeat split.
  - destruct (Hnet (length (tcp (srv s))) j) as [n Hn]. congruence.
Qed.

Lemma buffer_delivered t rest s :
  webbuf s = t ++ rest -> t <> [] -> exists s', send_buffer net client (length t) s = Ok s' /\ delivered [t] s s'.
Proof.
  intros Hb Ht. unfold send_buffer. rewrite Hb, length_app. destruct (Nat.leb_spec (length t) (length t + length rest)); [|lia].
  rewrite take_app_length. by apply send_delivered.
Qed.

Lemma cat_delivered d t s :
  cstr_at (webbuf s) 0 = Some d -> no_nul t -> d ++ t <> [] -> (length (d ++ t) < BUFSIZE <= length (webbuf s))%nat ->
  exists s', cat_and_send net client t s = Ok s' /\ delivered [d ++ t] s s'.
Proof.
  intros Hd Ht Hne Hlen. rewrite length_app in Hlen. unfold cat_and_send.
  destruct (strlcat_ok (webbuf s) d t BUFSIZE Hd) as (b & -> & Hl & Hc); [lia|done|]. rewrite bind_Ok.
  rewrite take_ge in Hc by (rewrite length_app; lia). unfold cstr_at in Hc. rewrite drop_0 in Hc.
  apply until0_Some in Hc as (_ & r & Hb). rewrite <- length_app.
  destruct (buffer_delivered (d ++ t) (0 :: r) (set_webbuf b s)) as (s' & Hs & H1 & H2 & H3); [done|done|].
  exists s'. split; [done|]. split; [done|]. split; [done|]. rewrite H3. exact Hl.
Qed.

(** The row of a client; the code is defined when its two times are comparable. *)
Definition row_of (c : Client) : cstr := match flowRate now c with Ok r => row_text c r | _ => [] end.
Definition row_fits (c : Client) : Prop := int_range (now - connectTime c) /\ (length (row_of c) < BUFSIZE)%nat.

Lemma row_delivered c s :
  row_fits c -> (BUFSIZE <= length (webbuf s))%nat ->
  exists s', send_row net client now c s = Ok s' /\ delivered [row_of c] s s'.
Proof.
  intros [Ht Hlen] Hb. unfold send_row, row_of, flowRate in *. rewrite add_int_Ok in * by exact Ht.
  rewrite !bind_Ok in *. cbv zeta in *. set (row := row_text c _) in *.
  unfold snprintf. rewrite take_ge by lia. rewrite write_at_Ok by (rewrite length_app; cbn [length]; lia).
  rewrite bind_Ok, take_0. cbn [app].
  destruct (buffer_delivered row ([0] ++ drop (0 + length (row ++ [0])) (webbuf s))
    (set_webbuf ((row ++ [0]) ++ drop (0 + length (row ++ [0])) (webbuf s)) s)) as (s' & -> & H1 & H2 & H3).
  - cbn [webbuf set_webbuf]. by rewrite <- app_assoc.
  - subst row. unfold row_text. by intros [= ].
  - exists s'. split; [done|]. split; [done|]. split; [done|]. rewrite H3. cbn [webbuf set_webbuf].
    rewrite !length_app, length_drop. cbn [length]. lia.
Qed.

Lemma rows_delivered cs s :
  Forall row_fits cs -> (BUFSIZE <= length (webbuf s))%nat ->
  exists s', send_rows net client now cs s = Ok s' /\ delivered (map row_of cs) s s'.
Proof.
  revert s. induction cs as [|c cs IH]; intros s Hf Hb; cbn [send_rows map].
  - exists s. split; [done|]. unfold delivered. rewrite app_nil_r. by destruct s as [[]].
  - apply Forall_cons in Hf as [Hc Hf]. destruct (row_delivered c s Hc Hb) as (s1 & -> & D1). rewrite bind_Ok.
    destruct (IH s1 Hf) as (s2 & -> & D2); [destruct D1 as (_ & _ & ->); done|].
    exists s2. split; [done|]. exact (delivered_trans [_] _ _ _ _ D1 D2).
Qed.

(** The page, in the pieces in which it is sent. *)
Definition page (cs : list Client) : list cstr :=
  match cs with
  | [] => [http_header ++ no_clients]
  | _ => (http_header ++ table_head) :: map row_of cs ++ [str "</table>"]
  end.

Lemma response_delivered s :
  Forall row_fits (clientList (srv s)) -> length (webbuf s) = S BUFSIZE ->
  exists s', web_response net client now s = Ok s' /\ delivered (page (clientList (srv s))) s s'.
Proof.
  intros Hf Hb. unfold web_response. rewrite write_at_Ok by (rewrite Hb; unfold BUFSIZE; vm_compute; lia).
  rewrite bind_Ok, take_0. cbn [app]. cbv zeta. set (b := _ ++ _). set (s1 := set_webbuf b s).
  assert (Hb1 : length (webbuf s1) = S BUFSIZE).
  { subst s1 b. cbn [webbuf set_webbuf]. rewrite !length_app, length_drop, Hb. unfold BUFSIZE. cbn [length]. vm_compute. done. }
  assert (Hd : forall ts s', delivered ts s1 s' -> delivered ts s s')
    by (intros ts s' (H1 & H2 & H3); split; [done|]; split; [done|]; congruence).
  assert (Hh : cstr_at (webbuf s1) 0 = Some http_header).
  { subst s1 b. cbn [webbuf set_webbuf]. rewrite <- app_assoc. apply (cstr_at_app []). by repeat constructor. }
  change (clientList (srv s1)) with (clientList (srv s)). unfold page.
  destruct (clientList (srv s)) as [|c cs] eqn:Hcs.
  - destruct (cat_delivered http_header no_clients s1 Hh) as (s' & -> & D);
      [by repeat constructor|done|rewrite Hb1; vm_compute; lia|]. eauto.
  - destruct (cat_delivered http_header table_head s1 Hh) as (s2 & -> & D2);
      [by repeat constructor|done|rewrite Hb1; vm_compute; lia|]. rewrite bind_Ok.
    destruct (rows_delivered (c :: cs) s2 Hf) as (s3 & -> & D3); [destruct D2 as (_ & _ & ->); rewrite Hb1; lia|]. rewrite bind_Ok.
    destruct (send_delivered (str "</table>") s3) as (s4 & -> & D4); [done|]. exists s4. split; [done|]. apply Hd.
    exact (delivered_trans [_] _ _ _ _ D2 (delivered_trans _ [_] _ _ _ D3 D4)).
Qed.

End Page.

(** A host on which every port can be bound, and a program with one client on
    descriptor 9 that has sent a filter and closes its connection. *)
Definition demo_os (port : Z) : bind_answers := mkBind (port mod 1000 + 3) true (fun _ => true) true.
Definition demo_main : iserver :=
  match iserver_main true true 4 9996 demo_os (library_state 4 1 (load_packet []) (replicate 1512 0)) with Ok w => w | _ => demo_srv end.
Definition demo_program : services := mkServices demo_main (replicate (S BUFSIZE) 0) [].
Definition demo_env (_ : Z) : ready :=
  mkReady [str "<cmd><flt+>a.b.c</flt+></cmd>"] true 9 (str "10.0.0.2") (Some (str "GET / HTTP/1.0")) None.
Definition demo_program1 : services :=
  match iserver_round demo_cfg demo_net demo_env 100 [999] demo_program with Ok s => s | _ => demo_program end.

Lemma demo_program1_reachable : program_reachable demo_cfg demo_net demo_program1.
Proof.
  eapply (p_round _ _ demo_program demo_env 100 [999]); [|vm_compute; reflexivity].
  eapply (p_main _ _ true true 4 9996 demo_os 1 (load_packet []) (replicate 1512 0)); [lia| |vm_compute; reflexivity].
  apply (load_packet_sized []). simpl. lia.
Qed.

(** * Theorems *)

(** C11.  The main loop of the server.  From [main] on, after any passes over the
    listeners with whatever the sockets deliver and any rounds of the transmit
    thread, the listener of a client carries the address of a client that is
    still allocated and has this listener, and the next pass, in which callbacks
    connect and disconnect clients while the list is walked, touches no freed
    listener, client or filter. *)
Theorem iserver_loop_safe (cfg : config) (net : nat -> nat -> send_ev) (s : services) :
  program_reachable cfg net s ->
  (forall x, x ∈ connectionList (srv s) -> sc_callback x = clientListener_cb ->
     exists c, c ∈ clientList (srv s) /\ sc_user_data x = Some (cl_addr c) /\ xapSocketHandler c = sc_addr x) /\
  (forall env now fds, iserver_round cfg net env now fds s <> Undef UseAfterFree).
Proof.
  intros Hr. pose proof (program_inv _ _ _ Hr) as Hw. split; [|intros; by apply round_ok].
  intros x Hx Hcb. destruct Hw as (_ & Ho & _). rewrite Forall_forall in Ho.
  destruct (Ho x Hx Hcb) as (p & Hu & (c & Heq & Hc)%list_elem_of_fmap). injection Heq as -> Ha. eauto.
Qed.

Lemma iserver_loop_safe_witness :
  listens demo_main = [(81, webServerHandler_cb); (846, flashPolicyServerHandler_cb); (999, serverListener_cb); (4, incomingXapPacket_cb)] /\
  map cl_fd (clientList (srv demo_program1)) = [9] /\
  iserver_round demo_cfg demo_net demo_env 100 [9; 81; 999] demo_program1 <> Undef UseAfterFree /\
  exists s, iserver_round demo_cfg demo_net demo_env 100 [9; 81; 999] demo_program1 = Ok s /\
    client_addrs (srv demo_program1) = [6%positive] /\ client_addrs (srv s) = [9%positive].
Proof.
  split; [vm_compute; reflexivity|]. split; [vm_compute; reflexivity|]. split.
  - apply (iserver_loop_safe demo_cfg demo_net demo_program1 demo_program1_reachable).
  - eexists. split; [vm_compute; reflexivity|]. split; vm_compute; reflexivity.
Defined.

(** [main] never leaves defined behaviour: it dies when the queue, the thread or
    a socket other than by a refused [bind] cannot be had, and otherwise its
    state is an initial state of the server in which the program's own packet
    handler has replaced the one of the library and every port that could be
    bound is served. *)
Theorem iserver_main_spec (cfg : config) (net : nat -> nat -> send_ev) (queue thread : bool) (rxSockfd port : Z)
    (os : Z -> bind_answers) (p : addr) (frame : xAPFrame) (buf : list Z) :
  0 <= rxSockfd -> frame_sized frame ->
  iserver_main queue thread rxSockfd port os (library_state rxSockfd p frame buf) = Die \/
  exists w, iserver_main queue thread rxSockfd port os (library_state rxSockfd p frame buf) = Ok w /\
    srv_reachable cfg net w /\
    listens w = bound 78 (os 78) webServerHandler_cb ++ bound 843 (os 843) flashPolicyServerHandler_cb ++
                bound port (os port) serverListener_cb ++ [(rxSockfd, incomingXapPacket_cb)].
Proof.
  intros Hfd Hf. destruct (iserver_main queue thread rxSockfd port os (library_state rxSockfd p frame buf)) as [w|u|] eqn:H; [| |by left].
  - right. exists w. destruct (main_starting _ _ _ _ _ _ _ _ _ Hfd Hf H) as [(? & ? & ? & ? & ? & _) Hl].
    split; [done|]. split; [by apply r_init|done].
  - exfalso. rewrite main_eq in H. destruct (_ || _); [done|].
    destruct (serverBind_out port (os port)) as [E1|[f1 E1]]; rewrite E1 in H; [done|].
    destruct (serverBind_out 843 (os 843)) as [E2|[f2 E2]]; rewrite E2 in H; [done|].
    destruct (serverBind_out 78 (os 78)) as [E3|[f3 E3]]; rewrite E3 in H; done.
Qed.

Lemma iserver_main_spec_witness :
  exists w, iserver_main true true 4 9996 demo_os (library_state 4 1 (load_packet []) (replicate 1512 0)) = Ok w /\
    srv_reachable demo_cfg demo_net w.
Proof.
  destruct (iserver_main_spec demo_cfg demo_net true true 4 9996 demo_os 1 (load_packet []) (replicate 1512 0))
    as [H|(w & H & Hr & _)].
  - lia.
  - apply (load_packet_sized []). simpl. lia.
  - vm_compute in H. discriminate H.
  - exists w. by split.
Defined.

(** The status page.  A GET request shorter than the buffer is answered, on a
    network that takes everything in pieces of any size, with the page: a header
    and one row per client, in the order of the client list, each sent whole and
    exactly once.  Nothing else of the server changes and the connection is not
    held. *)
Theorem status_page_spec (net : nat -> nat -> send_ev) (client now : Z) (r : cstr) (s : services) :
  (forall j k, exists n, net j k = SentN n) -> 0 <= client -> (length r < BUFSIZE - 4)%nat ->
  length (webbuf s) = S BUFSIZE -> Forall (row_fits now) (clientList (srv s)) ->
  exists s', webServerHandler net client (Some (str "GET " ++ r)) now s = Ok s' /\
    delivered client (page now (clientList (srv s))) s s'.
Proof.
  intros Hnet Hc Hr Hb Hf. unfold webServerHandler. destruct (Z.ltb_spec client 0); [lia|].
  change (str "GET " ++ r) with (71 :: 69 :: 84 :: 32 :: r). cbv beta iota zeta. rewrite take_ge by (cbn [length]; lia).
  set (q := 71 :: _). assert (Hq : (length q < BUFSIZE)%nat) by (subst q; cbn [length]; lia).
  destruct (Nat.ltb_spec (length q) BUFSIZE); [|lia]. pose proof (write_cstr (webbuf s) 0 q) as Hw.
  rewrite <- bind_assoc. cbn [Nat.add] in Hw. rewrite Hw by lia. rewrite bind_Ok, take_0. cbn [app].
  set (b := q ++ _). assert (Hlb : length b = S BUFSIZE).
  { subst b. rewrite !length_app. cbn [length]. rewrite length_drop, Hb. lia. }
  unfold cstr_at. rewrite drop_0.
  destruct (until0_is_Some (r ++ 0 :: drop (length q + 1) (webbuf s))) as [t Ht].
  { exists (length r). by rewrite list_lookup_middle. }
  assert (Hu : until0 b = Some (71 :: 69 :: 84 :: 32 :: t)).
  { subst b q. cbn [app until0 Z.eqb]. by rewrite Ht. }
  rewrite Hu. cbn [of_opt]. rewrite bind_Ok. change (strncmp0 4 _ (str "GET ")) with true. cbn [negb andb].
  destruct (response_delivered net client now Hnet (set_webbuf b s)) as (s' & -> & H1 & H2 & H3); [done|done|].
  exists s'. split; [done|]. split; [done|]. split; [done|]. rewrite H3, Hb. exact Hlb.
Qed.

Lemma status_page_spec_witness :
  exists s', webServerHandler demo_net 12 (Some (str "GET / HTTP/1.0")) 400 demo_program1 = Ok s' /\
    length (tcp (srv s')) = (length (tcp (srv demo_program1)) + 3)%nat /\
    last (removelast (tcp (srv s'))) = Some (12, str "<tr><td>9</td><td>10.0.0.2</td><td>(null)" ++ td_right ++ str "0" ++
      td_right ++ str "1" ++ td_right ++ str "  0.2</td></tr>", 0).
Proof.
  destruct (status_page_spec demo_net 12 400 (str "/ HTTP/1.0") demo_program1) as (s' & H & D & _).
  - intros j k. by exists 4096%nat.
  - lia.
  - vm_compute. lia.
  - vm_compute. reflexivity.
  - apply (bool_decide_eq_true_1 (Forall (fun c => (INT_MIN <= 400 - connectTime c <= INT_MAX) /\ (length (row_of 400 c) < 2048)%nat) _)).
    vm_compute. reflexivity.
  - exists s'. split; [exact H|]. rewrite D. split; vm_compute; reflexivity.
Defined.

(** Requests that fail.  When nothing can be read, the accepted connection is
    never closed; a request that is not a GET, or one that fills the buffer,
    ends in the call of [error] of the C library with the message as the exit
    status. *)
Theorem status_page_refused (net : nat -> nat -> send_ev) (client now : Z) (r : cstr) (s : services) :
  0 <= client -> length (webbuf s) = S BUFSIZE ->
  held (match webServerHandler net client None now s with Ok s' => s' | _ => s end) = client :: held s /\
  ((BUFSIZE <= length r)%nat -> webServerHandler net client (Some r) now s = Undef BadCall) /\
  webServerHandler net client (Some (str "POST / HTTP/1.0")) now s = Undef BadCall.
Proof.
  intros Hc Hb. unfold webServerHandler. destruct (Z.ltb_spec client 0); [lia|]. split; [done|]. split.
  - intros Hr. destruct r as [|x r]; [unfold BUFSIZE in Hr; simpl in Hr; lia|]. cbv zeta.
    assert (Hl : length (take BUFSIZE (x :: r)) = BUFSIZE) by (rewrite length_take; lia).
    rewrite write_at_Ok by lia. rewrite bind_Ok, Hl, Nat.ltb_irrefl, take_0. cbn [app].
    rewrite write_at_Ok by (rewrite length_app, Hl; cbn [length]; unfold BUFSIZE; lia). by rewrite bind_Ok.
  - destruct (webbuf s) as [|b0 rest] eqn:Hw; [done|]. rewrite <- Hw in *. cbv zeta.
    change (take BUFSIZE (str "POST / HTTP/1.0")) with (str "POST / HTTP/1.0"). set (q := str "POST / HTTP/1.0").
    change (length q <? BUFSIZE)%nat with true. pose proof (write_cstr (webbuf s) 0 q) as Hq. cbn [Nat.add] in Hq.
    change (str "POST / HTTP/1.0") with q. subst q. cbv iota. rewrite <- bind_assoc, Hq by (rewrite Hb; vm_compute; lia). by rewrite bind_Ok.
Qed.

Lemma status_page_refused_witness :
  webServerHandler demo_net 12 (Some (replicate 3000 71)) 400 demo_program1 = Undef BadCall.
Proof.
  destruct (status_page_refused demo_net 12 400 (replicate 3000 71) demo_program1) as (_ & H & _).
  - lia.
  - vm_compute. reflexivity.
  - apply H. vm_compute. lia.
Defined.

(** The flash policy service answers the one request it knows, terminated or not,
    with the policy and its terminator, and any other request with nothing;
    when [recv] fails it writes in front of its buffer. *)
Theorem flash_policy_spec (net : nat -> nat -> send_ev) (client : Z) (s : services) :
  (forall j k, exists n, net j k = SentN n) -> 0 <= client ->
  (forall tail, tail = [] \/ head tail = Some 0 ->
     exists s', flashPolicyServerHandler net client (Some (str "<policy-file-request/>" ++ tail)) s = Ok s' /\
       delivered client [policyResponse ++ [0]] s s') /\
  (forall r, until0 (take BUFSIZE r ++ [0]) <> Some (str "<policy-file-request/>") ->
     flashPolicyServerHandler net client (Some r) s = Ok s) /\
  flashPolicyServerHandler net client None s = Undef OutOfBounds.
Proof.
  intros Hnet Hc. unfold flashPolicyServerHandler. destruct (Z.ltb_spec client 0); [lia|]. cbn [of_opt].
  split; [|split; [|done]].
  - intros tail Ht. rewrite bind_Ok. unfold cstr_at. rewrite drop_0.
    assert (until0 (take BUFSIZE (str "<policy-file-request/>" ++ tail) ++ [0]) = Some (str "<policy-file-request/>")) as ->.
    { rewrite take_app_ge by (vm_compute; lia). rewrite <- app_assoc.
      assert (exists z, take (BUFSIZE - length (str "<policy-file-request/>")) tail ++ [0] = 0 :: z) as [z ->].
      { destruct tail as [|y tail]; [by exists []|]. destruct Ht as [|[= ->]]; [done|]. by eexists. }
      apply until0_app. by repeat constructor. }
    cbn [of_opt]. rewrite bind_Ok. change (strcmp0 _ _) with true. cbv iota.
    by apply (send_delivered net client Hnet).
  - intros r Hr. rewrite bind_Ok. unfold cstr_at. rewrite drop_0.
    destruct (until0_is_Some (take BUFSIZE r ++ [0])) as [t Ht].
    { exists (length (take BUFSIZE r)). by rewrite list_lookup_middle. }
    rewrite Ht in Hr |- *. cbn [of_opt]. rewrite bind_Ok. destruct (strcmp0 _ t) eqn:E; [|done].
    apply strcmp0_spec in E. by subst t.
Qed.

Lemma flash_policy_spec_witness :
  exists s', flashPolicyServerHandler demo_net 12 (Some (str "<policy-file-request/>" ++ [0])) demo_program1 = Ok s' /\
    delivered 12 [policyResponse ++ [0]] demo_program1 s'.
Proof.
  destruct (flash_policy_spec demo_net 12 demo_program1) as (H & _).
  - intros j k. by exists 4096%nat.
  - lia.
  - apply H. by right.
Defined.
