(* ===== verification/Xively.v ===== *)
(** * The Xively adaptor (xap-xively/dscache.c, main.c, xively.c)

    Values of xAP messages are kept in a cache of datastreams and uploaded
    periodically, one XML document per feed.  The document is built in a buffer
    that grows while it is printed.  The HTTP library (pachulib.c) is not
    modelled: an upload is recorded with its arguments.  The theorems: the cache
    is a finite map from feeds and identifiers to datastreams, the document of a
    feed has exactly its datastreams whatever the buffer's size, every feed is
    uploaded once, and what messages do to the cache. *)

From Stdlib Require Import SpecFloat.
From S2P Require Import Prelude UtList Strings Frame Wire Filter Timeout Xap MinIni Float.

(** ** State *)

Record datastream := mkStream {
  feed : Z;
  ds_id : Z;
  tag : cstr;
  value : spec_float;
  ds_min : option cstr;
  ds_max : option cstr;
  unit_ : option cstr;
}.

Record webFilter := mkWeb {
  wf_feed : Z;
  wf_id : Z;
  wf_min : option cstr;
  wf_max : option cstr;
  wf_unit : option cstr;
  wf_tag : cstr;
  wf_section : cstr;
  wf_key : cstr;
}.

Inductive xv_filter := broadcastUpdate_cb | xivelyUpdate_cb.
Inductive xv_timeout := xivelyWebUpdate_cb.
#[export] Instance xv_timeout_eq_dec : EqDecision xv_timeout.
Proof. solve_decision. Defined.

(** [xml]: the static buffer of [xmlDatastream] and its size, once allocated;
    [posted]: the uploads. *)
Record xively := mkXively {
  ds : list datastream;
  feeds : list Z;
  xml : option (list Z);
  xmllen : Z;
  g_apikey : cstr;
  g_feedid : Z;
  g_ufreq : Z;
  filters : list (xAPFilterCallback xv_filter (option webFilter));
  timeouts : list (xAPTimeoutCallback xv_timeout unit);
  gframe : xAPFrame;
  posted : list (Z * cstr * cstr);
  next : addr;
}.

Definition set_cache (d : list datastream) (f : list Z) (w : xively) : xively :=
  mkXively d f (xml w) (xmllen w) (g_apikey w) (g_feedid w) (g_ufreq w) (filters w) (timeouts w) (gframe w) (posted w) (next w).
Definition set_xml (b : list Z) (n : Z) (w : xively) : xively :=
  mkXively (ds w) (feeds w) (Some b) n (g_apikey w) (g_feedid w) (g_ufreq w) (filters w) (timeouts w) (gframe w) (posted w) (next w).
Definition set_timeouts (l : list (xAPTimeoutCallback xv_timeout unit)) (w : xively) : xively :=
  mkXively (ds w) (feeds w) (xml w) (xmllen w) (g_apikey w) (g_feedid w) (g_ufreq w) (filters w) l (gframe w) (posted w) (next w).
Definition post (f : Z) (body : cstr) (w : xively) : xively :=
  mkXively (ds w) (feeds w) (xml w) (xmllen w) (g_apikey w) (g_feedid w) (g_ufreq w) (filters w) (timeouts w) (gframe w)
    (posted w ++ [(f, g_apikey w, body)]) (next w).
Definition set_config (k : cstr) (f u : Z) (w : xively) : xively :=
  mkXively (ds w) (feeds w) (xml w) (xmllen w) k f u (filters w) (timeouts w) (gframe w) (posted w) (next w).
Definition add_action (c : xv_filter) (f : list xAPFilter) (ud : option webFilter) (w : xively) : xively :=
  mkXively (ds w) (feeds w) (xml w) (xmllen w) (g_apikey w) (g_feedid w) (g_ufreq w)
    (xapAddFilterAction (next w) c f ud (filters w)) (timeouts w) (gframe w) (posted w) (Pos.succ (next w)).

(** ** dscache.c: the document *)

Section Buffer.
(** What [malloc] and [realloc] leave in new memory. *)
Context (junk : Z).

(** One [vsnprintf] into the space behind [offset], and the growth when the text
    did not fit; the second attempt does.  The buffer, its size and the number
    of characters; [None] when the rounds are used up. *)
Fixpoint append_loop (fuel : nat) (s : list Z) (size offset : Z) (t : cstr) : out (option (list Z * Z * Z)) :=
  match fuel with
  | O => Ok None
  | S f =>
      let space := size - offset in
      let n := Z.of_nat (length t) in
      s ← (if 0 <? space then write_at s (Z.to_nat offset) (take (Z.to_nat space - 1) t ++ [0]) else Undef OutOfBounds);
      if n <? space then Ok (Some (s, size, n))
      else size ← add_int size (n + 1);
           append_loop f (s ++ replicate (Z.to_nat (n + 1)) junk) size offset t
  end.

Definition appendXml (s : list Z) (size offset : Z) (t : cstr) : out (list Z * Z * Z) :=
  r ← append_loop 2 s size offset t;
  of_opt OutOfBounds r.

(** The calls for one datastream, in order: [None] entries are skipped. *)
Definition q : cstr := [34].
Definition stream_parts (d : datastream) : list cstr :=
  [str "<data id=" ++ q ++ fmt_d (s32 (ds_id d)) ++ q ++ str "><tag>" ++ tag d ++ str "</tag><value"] ++
  match ds_min d with Some m => [str " minValue=" ++ q ++ m ++ q] | None => [] end ++
  match ds_max d with Some m => [str " maxValue=" ++ q ++ m ++ q] | None => [] end ++
  [str ">" ++ fmt_f2 (value d) ++ str "</value>"] ++
  match unit_ d with Some u => [str "<unit symbol=" ++ q ++ u ++ q ++ str ">" ++ u ++ str "</unit>"] | None => [] end ++
  [str "</data>"].

(** [j += appendXml(&xml, &xmllen, j, ...)] for each part. *)
Fixpoint append_parts (ts : list cstr) (s : list Z) (size j : Z) : out (list Z * Z * Z) :=
  match ts with
  | [] => Ok (s, size, j)
  | t :: r =>
      '(s, size, n) ← appendXml s size j t;
      j ← add_int j n;
      append_parts r s size j
  end.

Fixpoint stream_loop (l : list datastream) (f : Z) (s : list Z) (size j : Z) : out (list Z * Z * Z) :=
  match l with
  | [] => Ok (s, size, j)
  | d :: r =>
      if feed d =? f then
        '(s, size, j) ← append_parts (stream_parts d) s size j;
        stream_loop r f s size j
      else stream_loop r f s size j
  end.

(** The string in the buffer, NULL without datastreams. *)
Definition xmlDatastream (f : Z) (w : xively) : out (option cstr * xively) :=
  match ds w with
  | [] => Ok (None, w)
  | l =>
      let b := match xml w with Some b => b | None => replicate (Z.to_nat (xmllen w)) junk end in
      '(b, size, _) ← stream_loop l f b (xmllen w) 0;
      t ← of_opt OutOfBounds (cstr_at b 0);
      Ok (Some t, set_xml b size w)
  end.

(** ** xively.c: the upload *)

Definition eeml_head : cstr :=
  str "<eeml xmlns=" ++ q ++ str "http://www.eeml.org/xsd/005" ++ q ++
  str "xmlns:xsi=" ++ q ++ str "http://www.w3.org/2001/XMLSchema-instance" ++ q ++
  str "xsi:schemaLocation=" ++ q ++ str "http://www.eeml.org/xsd/005 http://www.eeml.org/xsd/005/005.xsd" ++ q ++
  str " version=" ++ q ++ str "5" ++ q ++ str "><environment>".
Definition eeml_foot : cstr := str "</environment></eeml>".

Definition pach_updateDatastreamXml (f : Z) (doc : option cstr) (w : xively) : xively :=
  match doc with None => w | Some t => post f (eeml_head ++ t ++ eeml_foot) w end.

Fixpoint web_loop (l : list Z) (w : xively) : out xively :=
  match l with
  | [] => Ok w
  | f :: r => '(t, w) ← xmlDatastream f w; web_loop r (pach_updateDatastreamXml f t w)
  end.

Definition xivelyWebUpdate (w : xively) : out xively := web_loop (feeds w) w.

End Buffer.

(** ** dscache.c: the cache *)

Definition key_of (d : datastream) : Z * Z := (feed d, ds_id d).
Definition with_value (v : spec_float) (d : datastream) : datastream :=
  mkStream (feed d) (ds_id d) (tag d) v (ds_min d) (ds_max d) (unit_ d).

Fixpoint find_from (i : nat) (l : list datastream) (f n : Z) : option nat :=
  match l with
  | [] => None
  | d :: r => if (ds_id d =? n) && (feed d =? f) then Some i else find_from (S i) r f n
  end.

Definition findDatastream (f n : Z) (w : xively) : option nat := find_from 0 (ds w) f n.

Definition addFeed (f : Z) (l : list Z) : list Z := if existsb (fun g => g =? f) l then l else l ++ [f].

(** A NULL tag is passed to [strlen] when the datastream is new. *)
Definition updateDatastream (f n : Z) (tg : option cstr) (v : spec_float) (mn mx un : option cstr) (now : bool) (w : xively) : out xively :=
  '(idx, w) ← match findDatastream f n w with
              | Some i => Ok (i, w)
              | None =>
                  t ← of_opt NullDeref tg;
                  Ok (length (ds w), set_cache (ds w ++ [mkStream f n t v mn mx un]) (addFeed f (feeds w)) w)
              end;
  d ← of_opt OutOfBounds (ds w !! idx);
  let w := set_cache (<[idx := with_value v d]> (ds w)) (feeds w) w in
  if now : bool then
    l ← xapTimeoutExpire (tc_addr <$> xapFindTimeoutByFunc xivelyWebUpdate_cb (timeouts w)) (timeouts w);
    Ok (set_timeouts l w)
  else Ok w.

(** ** main.c: messages *)

Definition get (sec key : cstr) (w : xively) : out (option cstr) := xapGetValueF (gframe w) sec (Some key).

Definition float_1 : spec_float := to_float (atof (str "1")).
Definition float_0 : spec_float := fzero.

Definition broadcastUpdate (ud : option webFilter) (w : xively) : out xively :=
  match ud with
  | None => Die
  | Some wf =>
      v ← get (wf_section wf) (wf_key wf) w;
      v ← of_opt NullDeref v;
      let '(f, now) := if strcasecmp0 (str "on") v then (float_1, true)
                       else if strcasecmp0 (str "off") v then (float_0, true)
                       else (to_float (atof v), false) in
      updateDatastream (wf_feed wf) (wf_id wf) (Some (wf_tag wf)) f (wf_min wf) (wf_max wf) (wf_unit wf) now w
  end.

Definition datastream_value (k : string) (w : xively) : out (option cstr) := get (str "datastream") (str k) w.

(** [idn] and [feedn] are unsigned: the tests only refuse zero. *)
Definition xivelyUpdate (w : xively) : out xively :=
  fd ← datastream_value "feed" w;
  i ← datastream_value "id" w;
  tg ← datastream_value "tag" w;
  v ← datastream_value "value" w;
  mn ← datastream_value "min" w;
  mx ← datastream_value "max" w;
  un ← datastream_value "unit" w;
  now ← datastream_value "now" w;
  i ← of_opt NullDeref i;
  let idn := u32 (atoi i) in
  if (idn <=? 0) && negb (strcmp0 (str "0") i) then Ok w
  else
    let update f := v ← of_opt NullDeref v;
      updateDatastream f idn tg (to_float (atof v)) mn mx un (match now with Some _ => true | None => false end) w in
    match fd with
    | Some fd => let feedn := u32 (atoi fd) in if feedn <=? 0 then Ok w else update feedn
    | None => update (g_feedid w)
    end.

Definition run_filter (c : xv_filter) (ud : option webFilter) (w : xively) : out xively :=
  match c with broadcastUpdate_cb => broadcastUpdate ud w | xivelyUpdate_cb => xivelyUpdate w end.

Definition run_timeout (junk : Z) (c : xv_timeout) (interval : Z) (_ : unit) (w : xively) : out xively :=
  match c with xivelyWebUpdate_cb => xivelyWebUpdate junk w end.

(** ** main.c: the INI file *)

Section Ini.
Context (inifile : option (list Z)).

Definition getDynINI (key : string) (i : Z) (mandatory : bool) : out (option cstr) :=
  dkey ← sprintf_buf 32 (str key ++ fmt_d (s32 i));
  let '(n, v) := ini_gets (Some (str "xively")) (Some dkey) [] [] 129 inifile in
  if n =? 0 then if mandatory then Die else Ok None
  else Ok (Some v).

(** One filter of the INI file. *)
Definition ini_filter (i : Z) (w : xively) : out xively :=
  n ← getDynINI "id" i true; n ← of_opt NullDeref n;
  f ← getDynINI "feed" i false;
  mn ← getDynINI "min" i false;
  mx ← getDynINI "max" i false;
  un ← getDynINI "unit" i false;
  tg ← getDynINI "tag" i true; tg ← of_opt NullDeref tg;
  sec ← getDynINI "section" i true; sec ← of_opt NullDeref sec;
  key ← getDynINI "key" i true; key ← of_opt NullDeref key;
  src ← getDynINI "source" i true; src ← of_opt NullDeref src;
  cls ← getDynINI "class" i true; cls ← of_opt NullDeref cls;
  let wf := mkWeb (match f with Some f => u32 (atoi f) | None => g_feedid w end) (u32 (atoi n)) mn mx un tg sec key in
  let xf := xapAddFilter (xapAddFilter (xapAddFilter [] (str "xap-header") (str "source") src)
              (str "xap-header") (str "class") cls) sec key XAP_FILTER_ANY in
  Ok (add_action broadcastUpdate_cb xf (Some wf) w).

Fixpoint ini_filters (n : nat) (i : Z) (w : xively) : out xively :=
  match n with
  | O => Ok w
  | S m => w ← ini_filter i w; ini_filters m (i + 1) w
  end.

Definition xi_getl (k : string) (d : Z) : Z := ini_getl (Some (str "xively")) (Some (str k)) d inifile.

Definition parseINI (w : xively) : out xively :=
  let '(_, apikey) := ini_gets (Some (str "xively")) (Some (str "apikey")) [] [] 129 inifile in
  if (length apikey =? 0)%nat then Die
  else
    let f := u32 (xi_getl "feedid" 0) in
    if f =? 0 then Die
    else
      let u := u32 (xi_getl "ufreq" 60) in
      let u := if (u <? 6) || (900 <? u) then 60 else u in
      ini_filters (Z.to_nat (xi_getl "count" 0)) 0 (set_config apikey f u w).

(** [main] before the main loop; [src]: the address of the program. *)
Definition xively_main (src : cstr) (w : xively) : out xively :=
  w ← parseINI w;
  let f := xapAddFilter (xapAddFilter (xapAddFilter (xapAddFilter (xapAddFilter []
             (str "xap-header") (str "target") src) (str "xap-header") (str "class") (str "xively.update"))
             (str "datastream") (str "id") XAP_FILTER_ANY) (str "datastream") (str "tag") XAP_FILTER_ANY)
             (str "datastream") (str "value") XAP_FILTER_ANY in
  let w := add_action xivelyUpdate_cb f None w in
  l ← xapAddTimeoutAction (next w) xivelyWebUpdate_cb (g_ufreq w) tt (timeouts w);
  Ok (mkXively (ds w) (feeds w) (xml w) (xmllen w) (g_apikey w) (g_feedid w) (g_ufreq w) (filters w) l (gframe w) (posted w)
        (Pos.succ (next w))).

End Ini.

(** * Properties *)

(** ** The buffer *)

Section BufferProps.
Context (junk : Z).

Lemma write_behind (pre r bytes : list Z) :
  (length bytes <= length r)%nat -> write_at (pre ++ r) (length pre) bytes = Ok (pre ++ bytes ++ drop (length bytes) r).
Proof.
  intros Hl. rewrite write_at_Ok by (rewrite length_app; lia). rewrite take_app_length.
  rewrite drop_app_ge by lia. by replace (length pre + length bytes - length pre)%nat with (length bytes) by lia.
Qed.

(** A text is written behind what the buffer holds, and two attempts are enough. *)
Lemma append_ok (pre r : list Z) (t : cstr) :
  (0 < length r)%nat -> Z.of_nat (length pre + length r + length t + 1) <= INT_MAX ->
  exists r', appendXml junk (pre ++ r) (Z.of_nat (length (pre ++ r))) (Z.of_nat (length pre)) t
    = Ok (pre ++ t ++ 0 :: r', Z.of_nat (length (pre ++ t ++ 0 :: r')), Z.of_nat (length t)) /\
    (length (pre ++ t ++ 0%Z :: r') <= length (pre ++ r) + length t + 1)%nat.
Proof.
  intros Hr Hmax. unfold appendXml. cbn [append_loop]. rewrite !length_app, !Nat2Z.id.
  replace (Z.of_nat (length pre + length r) - Z.of_nat (length pre)) with (Z.of_nat (length r)) by lia. rewrite Nat2Z.id.
  destruct (Z.ltb_spec 0 (Z.of_nat (length r))); [|lia].
  rewrite write_behind by (rewrite length_app, length_take; simpl; lia). rewrite bind_Ok.
  destruct (Z.ltb_spec (Z.of_nat (length t)) (Z.of_nat (length r))) as [Hfit|Hgrow].
  - rewrite take_ge by lia. exists (drop (length (t ++ [0])) r). rewrite bind_Ok. cbn [of_opt].
    rewrite <- !app_assoc. cbn [app]. rewrite ?length_app, ?length_cons, ?length_drop, ?length_app. cbn [length]. split; [|lia].
    do 3 f_equal. lia.
  - rewrite add_int_Ok by (unfold int_range, INT_MIN, INT_MAX in *; lia). rewrite !bind_Ok.
    set (r1 := take (length r - 1) t ++ [0] ++ drop (length (take (length r - 1) t ++ [0])) r).
    assert (Hr1 : (pre ++ (take (length r - 1) t ++ [0]) ++ drop (length (take (length r - 1) t ++ [0])) r) = pre ++ r1) by (unfold r1; by rewrite <- app_assoc).
    rewrite Hr1. assert (Hl1 : length r1 = length r).
    { unfold r1. rewrite !length_app, length_drop, ?length_app, length_take. simpl. lia. }
    rewrite <- app_assoc. set (r2 := r1 ++ replicate (Z.to_nat (Z.of_nat (length t) + 1)) junk).
    assert (Hl2 : length r2 = (length r + length t + 1)%nat) by (unfold r2; rewrite length_app, length_replicate; lia).
    replace (Z.of_nat (length pre + length r) + (Z.of_nat (length t) + 1) - Z.of_nat (length pre)) with (Z.of_nat (length r2)) by lia.
    rewrite Nat2Z.id. destruct (Z.ltb_spec 0 (Z.of_nat (length r2))); [|lia].
    rewrite take_ge by lia. rewrite write_behind by (rewrite length_app; simpl; lia). rewrite bind_Ok.
    destruct (Z.ltb_spec (Z.of_nat (length t)) (Z.of_nat (length r2))); [|lia].
    exists (drop (length (t ++ [0])) r2). rewrite bind_Ok. cbn [of_opt]. rewrite <- !app_assoc. cbn [app].
    rewrite ?length_app, ?length_cons, ?length_drop, ?length_app. cbn [length]. split; [|lia]. do 3 f_equal. lia.
Qed.

(** The cost of a document: its characters and a terminator per part. *)
Fixpoint parts_cost (ts : list cstr) : nat := match ts with [] => 0%nat | t :: r => (S (length t) + parts_cost r)%nat end.

Lemma parts_ok ts (pre r : list Z) :
  (0 < length r)%nat -> Z.of_nat (length (pre ++ r) + length (concat ts) + parts_cost ts) <= INT_MAX ->
  exists r', append_parts junk ts (pre ++ r) (Z.of_nat (length (pre ++ r))) (Z.of_nat (length pre))
    = Ok ((pre ++ concat ts) ++ r', Z.of_nat (length ((pre ++ concat ts) ++ r')), Z.of_nat (length (pre ++ concat ts))) /\
    (0 < length r')%nat /\ (ts <> [] -> head r' = Some 0) /\
    (length ((pre ++ concat ts) ++ r') <= length (pre ++ r) + parts_cost ts)%nat.
Proof.
  revert pre r. induction ts as [|t ts IH]; intros pre r Hr Hmax.
  - exists r. cbn [append_parts concat]. rewrite app_nil_r. split; [done|]. split; [done|]. split; [done|]. simpl. lia.
  - cbn [append_parts parts_cost concat] in *.
    destruct (append_ok pre r t Hr) as (r1 & E & Hl1).
    { rewrite !length_app in Hmax. lia. }
    rewrite (app_assoc pre t (0 :: r1)) in E. rewrite (app_assoc pre t (0%Z :: r1)) in Hl1. rewrite (app_assoc pre t (concat ts)).
    rewrite E, bind_Ok. cbv beta iota. rewrite add_int_Ok, bind_Ok by (rewrite !length_app in Hmax; unfold int_range, INT_MIN, INT_MAX in *; lia).
    replace (Z.of_nat (length pre) + Z.of_nat (length t)) with (Z.of_nat (length (pre ++ t))) by (rewrite length_app; lia).
    destruct (IH (pre ++ t) (0 :: r1)) as (r' & E' & Hr' & Hz & Hl').
    { simpl. lia. }
    { rewrite !length_app in Hl1. rewrite !length_app in Hmax. rewrite !length_app. cbn [length] in *. lia. }
    rewrite E'. exists r'. split; [done|]. split; [done|]. split.
    + intros _. destruct ts as [|t2 ts]; [|by apply Hz]. cbn [append_parts concat] in E'. rewrite !app_nil_r in E'.
      injection E' as E' _. apply app_inv_head in E'. by subst r'.
    + etransitivity; [exact Hl'|]. lia.
Qed.

(** The document of a feed: the parts of its datastreams. *)
Definition feed_parts (f : Z) (l : list datastream) : list cstr :=
  concat (map stream_parts (List.filter (fun d => feed d =? f) l)).
Definition feed_doc (f : Z) (l : list datastream) : cstr := concat (feed_parts f l).

Lemma parts_cost_app a b : parts_cost (a ++ b) = (parts_cost a + parts_cost b)%nat.
Proof. induction a as [|t a IH]; [done|]. cbn [app parts_cost]. lia. Qed.

Lemma parts_cost_length ts : (length (concat ts) <= parts_cost ts)%nat.
Proof. induction ts as [|t ts IH]; [done|]. cbn [concat parts_cost]. rewrite length_app. lia. Qed.

Lemma append_parts_app a b s size j :
  append_parts junk (a ++ b) s size j = ('(s, size, j) ← append_parts junk a s size j; append_parts junk b s size j).
Proof.
  revert s size j. induction a as [|t a IH]; intros s size j; [done|]. cbn [app append_parts]. rewrite bind_assoc.
  destruct (appendXml junk s size j t) as [[[s1 size1] n]| |]; [|done|done]. rewrite !bind_Ok. cbv beta iota. rewrite bind_assoc.
  destruct (add_int j n); [|done|done]. rewrite !bind_Ok. apply IH.
Qed.

(** The loop over the datastreams appends the parts of the feed. *)
Lemma stream_loop_parts l f s size j : stream_loop junk l f s size j = append_parts junk (feed_parts f l) s size j.
Proof.
  revert s size j. induction l as [|d l IH]; intros s size j; [done|]. unfold feed_parts. cbn [stream_loop List.filter].
  destruct (feed d =? f); [|apply IH]. cbn [map concat]. rewrite append_parts_app.
  destruct (append_parts junk (stream_parts d) s size j) as [[[s1 size1] j1]| |]; [|done|done]. rewrite !bind_Ok. apply IH.
Qed.

Definition buffer_ok (w : xively) : Prop :=
  0 < xmllen w /\ match xml w with Some b => Z.of_nat (length b) = xmllen w | None => True end.

(** The strings of a datastream are C strings. *)
Definition opt_no_nul (s : option cstr) : Prop := match s with Some s => no_nul s | None => True end.
Definition stream_ok (d : datastream) : Prop := no_nul (tag d) /\ opt_no_nul (ds_min d) /\ opt_no_nul (ds_max d) /\ opt_no_nul (unit_ d).

#[export] Instance opt_no_nul_dec s : Decision (opt_no_nul s).
Proof. destruct s; apply _. Defined.
#[export] Instance stream_ok_dec d : Decision (stream_ok d).
Proof. unfold stream_ok. apply _. Defined.

Lemma no_nul_text (s : cstr) : Forall (fun c => 32 <= c) s -> no_nul s.
Proof. intros Hs. eapply Forall_impl; [exact Hs|]. intros c Hc. simpl in Hc. lia. Qed.

Lemma no_nul_bool (s : cstr) : bool_decide (no_nul s) = true -> no_nul s.
Proof. apply bool_decide_eq_true_1. Qed.

Lemma no_nul_fmt_d n : no_nul (fmt_d n).
Proof. apply no_nul_text, fmt_d_text. Qed.

Lemma no_nul_pad w s : no_nul s -> no_nul (pad0 w s).
Proof. intros Hs. unfold pad0. apply Forall_app. split; [|done]. by apply Forall_replicate. Qed.

Lemma no_nul_fmt_f2 v : no_nul (fmt_f2 v).
Proof.
  unfold fmt_f2, fmt_fixed, fmt_hundredths. assert (Hs : forall (b : bool) t, no_nul t -> no_nul (if b then 45 :: t else t)) by (intros []; [by constructor|done]).
  destruct v; try apply Hs; try (by apply no_nul_bool). apply Forall_app. split; [apply no_nul_fmt_d|]. apply Forall_app. split; [by apply no_nul_bool|].
  apply no_nul_pad, no_nul_fmt_d.
Qed.

Lemma no_nul_app (a b : cstr) : no_nul a -> no_nul b -> no_nul (a ++ b).
Proof. intros. by apply Forall_app. Qed.

Create HintDb no_nul discriminated.
#[local] Hint Resolve no_nul_app no_nul_fmt_d no_nul_fmt_f2 : no_nul.
#[local] Hint Extern 2 (no_nul (str _)) => apply no_nul_bool; reflexivity : no_nul.
#[local] Hint Extern 2 (no_nul q) => apply no_nul_bool; reflexivity : no_nul.

Lemma stream_parts_ok d : stream_ok d -> Forall no_nul (stream_parts d).
Proof.
  intros (Ht & Hn & Hx & Hu). unfold stream_parts. destruct (ds_min d), (ds_max d), (unit_ d); cbn [app opt_no_nul] in *;
    repeat apply (Forall_cons_2 no_nul); try apply (Forall_nil_2 no_nul); auto 20 with no_nul.
Qed.

Lemma feed_doc_ok f l : Forall stream_ok l -> no_nul (feed_doc f l).
Proof.
  intros Hl. unfold feed_doc, feed_parts. apply Forall_concat, Forall_concat, Forall_map, List.Forall_forall. intros d [Hd _]%filter_In.
  apply stream_parts_ok. rewrite List.Forall_forall in Hl. by apply Hl.
Qed.

Lemma feed_parts_nonempty f l : (exists d, d ∈ l /\ feed d = f) -> feed_parts f l <> [].
Proof.
  intros (d & Hd & Hf) H. unfold feed_parts in H. assert (Hin : In d (List.filter (fun d => feed d =? f) l)).
  { apply filter_In. split; [by apply list_elem_of_In|by apply Z.eqb_eq]. }
  destruct (List.filter _ l) as [|d' l']; [done|]. by cbn in H.
Qed.

Lemma feed_cost f l : (parts_cost (feed_parts f l) <= parts_cost (concat (map stream_parts l)))%nat.
Proof.
  unfold feed_parts. induction l as [|d l IH]; [done|]. cbn [List.filter]. destruct (feed d =? f); cbn [map concat]; rewrite !parts_cost_app; lia.
Qed.

(** The size all documents together can need. *)
Definition total_cost (w : xively) : nat := parts_cost (concat (map stream_parts (ds w))).

Lemma document_ok f w :
  buffer_ok w -> Forall stream_ok (ds w) -> (exists d, d ∈ ds w /\ feed d = f) ->
  xmllen w + 2 * Z.of_nat (total_cost w) <= INT_MAX ->
  exists b size, xmlDatastream junk f w = Ok (Some (feed_doc f (ds w)), set_xml b size w) /\
    Z.of_nat (length b) = size /\ 0 < size <= xmllen w + Z.of_nat (total_cost w).
Proof.
  intros [Hlen Hb] Hs Hf Hmax. unfold xmlDatastream. destruct (ds w) as [|d0 l0] eqn:Hd; [by destruct Hf as (d & Hd' & _); apply elem_of_nil in Hd'|].
  set (b0 := match xml w with Some b => b | None => replicate (Z.to_nat (xmllen w)) junk end).
  assert (Hb0 : Z.of_nat (length b0) = xmllen w) by (unfold b0; destruct (xml w); [done|rewrite length_replicate; lia]).
  rewrite stream_loop_parts. set (l := d0 :: l0) in *. rewrite <- Hb0.
  pose proof (feed_cost f l) as Hc. pose proof (parts_cost_length (feed_parts f l)) as Hcl. assert (Ht : total_cost w = parts_cost (concat (map stream_parts l))) by (unfold total_cost; by rewrite Hd).
  destruct (parts_ok (feed_parts f l) [] b0) as (r & E & Hr & Hz & Hl); [lia|cbn [app]; lia|].
  cbn [app length] in E. change (Z.of_nat 0) with 0 in E. rewrite E, bind_Ok. cbv beta iota. cbn [app] in Hl.
  destruct r as [|z r]; [simpl in Hr; lia|]. specialize (Hz (feed_parts_nonempty f l Hf)). injection Hz as ->.
  change (concat (feed_parts f l)) with (feed_doc f l) in *.
  assert (Hat : cstr_at (feed_doc f l ++ 0 :: r) 0 = Some (feed_doc f l)) by (apply (cstr_at_app []), feed_doc_ok, Hs).
  rewrite Hat. cbn [of_opt]. rewrite bind_Ok. eexists _, _. split; [reflexivity|]. split; [done|]. rewrite length_app in *. simpl in *. lia.
Qed.

End BufferProps.

(** ** The cache *)

(** Keys are unique, and the feeds are those of the datastreams, once each. *)
Record cache_wf (w : xively) : Prop := mkCacheWf {
  cw_keys : NoDup (map key_of (ds w));
  cw_feeds : NoDup (feeds w);
  cw_feed : forall f, f ∈ feeds w <-> exists d, d ∈ ds w /\ feed d = f;
}.

(** The abstract cache. *)
Definition cache_map (w : xively) : gmap (Z * Z) datastream := list_to_map (map (fun d => (key_of d, d)) (ds w)).

Lemma cache_lookup w k d : NoDup (map key_of (ds w)) -> cache_map w !! k = Some d <-> d ∈ ds w /\ key_of d = k.
Proof.
  intros Hnd. unfold cache_map. rewrite <- elem_of_list_to_map.
  - rewrite list_elem_of_fmap. split; [by intros (d' & [= -> ->] & Hd)|]. intros [Hd <-]. by exists d.
  - by rewrite <- list_fmap_compose.
Qed.

Lemma find_from_Some i l f n j : find_from i l f n = Some j -> exists d, (i <= j)%nat /\ l !! (j - i)%nat = Some d /\ key_of d = (f, n).
Proof.
  revert i. induction l as [|d l IH]; intros i H; [done|]. cbn [find_from] in H.
  destruct ((ds_id d =? n) && (feed d =? f)) eqn:Hk.
  - injection H as <-. exists d. rewrite Nat.sub_diag. apply andb_true_iff in Hk as [H1%Z.eqb_eq H2%Z.eqb_eq].
    unfold key_of. rewrite H1, H2. auto.
  - apply IH in H as (d' & Hle & Hl & Hk'). exists d'. split; [lia|]. replace (j - i)%nat with (S (j - S i)) by lia. done.
Qed.

Lemma find_from_None i l f n : find_from i l f n = None -> (f, n) ∉ map key_of l.
Proof.
  revert i. induction l as [|d l IH]; intros i H; [apply not_elem_of_nil|]. cbn [find_from] in H. cbn [map].
  destruct ((ds_id d =? n) && (feed d =? f)) eqn:Hk; [done|]. apply not_elem_of_cons. split; [|by eapply IH].
  unfold key_of. intros [= -> ->]. by rewrite !Z.eqb_refl in Hk.
Qed.

(** An update of the abstract cache. *)
Record upd := mkUpd {
  u_feed : Z; u_id : Z; u_tag : cstr; u_value : spec_float; u_min : option cstr; u_max : option cstr; u_unit : option cstr; u_now : bool }.

Definition spec_update (u : upd) (m : gmap (Z * Z) datastream) : gmap (Z * Z) datastream :=
  <[(u_feed u, u_id u) := match m !! (u_feed u, u_id u) with
                          | Some d => with_value (u_value u) d
                          | None => mkStream (u_feed u) (u_id u) (u_tag u) (u_value u) (u_min u) (u_max u) (u_unit u)
                          end]> m.

Definition do_update (u : upd) (w : xively) : out xively :=
  updateDatastream (u_feed u) (u_id u) (Some (u_tag u)) (u_value u) (u_min u) (u_max u) (u_unit u) (u_now u) w.

(** The timeout that uploads is registered. *)
Definition has_timeout (w : xively) : Prop := ll_wf (timeouts w) /\ timeouts w <> [].

Lemma expire_ok (l : list (xAPTimeoutCallback xv_timeout unit)) :
  ll_wf l -> l <> [] ->
  exists t r, l = t :: r /\ xapTimeoutExpire (tc_addr <$> xapFindTimeoutByFunc xivelyWebUpdate_cb l) l = Ok (set_ttl 0 t :: r).
Proof.
  intros Hwf Hne. destruct l as [|t r]; [done|]. exists t, r. split; [done|]. unfold xapFindTimeoutByFunc. cbn [ll_search].
  destruct (tc_callback t) eqn:Ht. cbn [bool_decide]. rewrite bool_decide_eq_true_2 by done. cbn [fmap option_fmap option_map xapTimeoutExpire].
  change (tc_addr t) with (node_addr t). rewrite (ll_node_app [] t r) by apply not_elem_of_nil. cbn [of_opt]. rewrite bind_Ok. f_equal.
  by apply (ll_update_mid [] t (set_ttl 0) r).
Qed.

Lemma expire_timeout w :
  has_timeout w -> exists l, xapTimeoutExpire (tc_addr <$> xapFindTimeoutByFunc xivelyWebUpdate_cb (timeouts w)) (timeouts w) = Ok l /\
    ll_wf l /\ l <> [].
Proof.
  intros [Hwf Hne]. destruct (expire_ok (timeouts w) Hwf Hne) as (t & r & Hl & ->). eexists. split; [done|]. split; [|done].
  by rewrite Hl in Hwf.
Qed.

Lemma addFeed_spec f l : NoDup l -> NoDup (addFeed f l) /\ forall g, g ∈ addFeed f l <-> g ∈ l \/ g = f.
Proof.
  intros Hl. unfold addFeed. destruct (existsb _ l) eqn:He.
  - apply existsb_exists in He as (g & Hg%list_elem_of_In & ->%Z.eqb_eq). split; [done|]. intros h. split; [by left|]. by intros [?| ->].
  - split.
    + apply NoDup_app. split; [done|]. split; [|apply NoDup_singleton]. intros g Hg ->%list_elem_of_singleton.
      assert (existsb (fun g => g =? f) l = true); [|congruence]. apply existsb_exists. exists f. split; [by apply list_elem_of_In|by apply Z.eqb_refl].
    + intros g. by rewrite elem_of_app, list_elem_of_singleton.
Qed.

(** What updates leave alone. *)
Definition same_rest (w w' : xively) : Prop :=
  xml w' = xml w /\ xmllen w' = xmllen w /\ g_apikey w' = g_apikey w /\ posted w' = posted w /\ gframe w' = gframe w /\ filters w' = filters w.

(** Replacing a datastream by one with the same key. *)
Lemma replace_wf i d d' (w w' : xively) :
  cache_wf w -> ds w !! i = Some d -> key_of d' = key_of d -> ds w' = <[i := d']> (ds w) -> feeds w' = feeds w ->
  cache_wf w' /\ cache_map w' = <[key_of d := d']> (cache_map w).
Proof.
  intros [H1 H2 H3] Hi Hk Hd Hf. assert (Hlen : (i < length (ds w))%nat) by (by eapply lookup_lt_Some).
  assert (Hkeys : map key_of (ds w') = map key_of (ds w)).
  { rewrite Hd. rewrite (list_fmap_insert key_of). apply list_insert_id. rewrite list_lookup_fmap, Hi. simpl. by rewrite Hk. }
  assert (Hin : forall e, e ∈ ds w' <-> e = d' \/ (e ∈ ds w /\ key_of e <> key_of d)).
  { intros e. rewrite Hd, !list_elem_of_lookup. split.
    - intros (j & Hj). destruct (decide (j = i)) as [->|Hne].
      + rewrite list_lookup_insert_eq in Hj by done. injection Hj as <-. by left.
      + rewrite list_lookup_insert_ne in Hj by done. right. split; [by exists j|]. intros Heq. apply Hne.
        apply (NoDup_lookup (map key_of (ds w)) j i (key_of d)); [done| |]; rewrite list_lookup_fmap; [rewrite Hj|rewrite Hi]; simpl; congruence.
    - intros [->|[(j & Hj) Hne]]; [exists i; by apply list_lookup_insert_eq|]. exists j. rewrite list_lookup_insert_ne; [done|].
      intros ->. congruence. }
  assert (Hd' : key_of d' = key_of d -> feed d' = feed d) by (by intros [= ? ?]).
  assert (Hwf : cache_wf w').
  { split.
    - by rewrite Hkeys.
    - by rewrite Hf.
    - intros f. rewrite Hf, H3. split.
      + intros (e & He & Hfe). destruct (decide (key_of e = key_of d)) as [Heq|Hne].
        * exists d'. split; [apply Hin; by left|]. rewrite Hd' by done. unfold key_of in Heq. congruence.
        * exists e. split; [apply Hin; by right|done].
      + intros (e & [->|[He _]]%Hin & Hfe); [|by exists e]. exists d. split; [by eapply list_elem_of_lookup_2|]. by rewrite <- Hd'. }
  split; [done|]. apply map_eq. intros k. apply option_eq. intros e. rewrite (cache_lookup w') by apply Hwf. rewrite Hin.
  destruct (decide (k = key_of d)) as [->|Hne].
  - rewrite lookup_insert_eq. split; [by intros [[->|[_ ?]] ?]|]. intros [= <-]. split; [by left|done].
  - rewrite lookup_insert_ne by done. rewrite cache_lookup by done. split; [intros [[->|[? ?]] ?]; [congruence|done]|].
    intros [He <-]. split; [by right|done].
Qed.

Lemma cache_append_wf d (w w' : xively) :
  cache_wf w -> key_of d ∉ map key_of (ds w) -> ds w' = ds w ++ [d] -> feeds w' = addFeed (feed d) (feeds w) ->
  cache_wf w' /\ cache_map w' = <[key_of d := d]> (cache_map w).
Proof.
  intros [H1 H2 H3] Hk Hd Hf. destruct (addFeed_spec (feed d) (feeds w) H2) as [Hnd Hfeeds].
  assert (Hin : forall e, e ∈ ds w' <-> e ∈ ds w \/ e = d) by (intros e; by rewrite Hd, elem_of_app, list_elem_of_singleton).
  assert (Hwf : cache_wf w').
  { split.
    - rewrite Hd, map_app. apply NoDup_app. split; [done|]. split; [|apply NoDup_singleton]. by intros k Hk1 ->%list_elem_of_singleton.
    - by rewrite Hf.
    - intros f. rewrite Hf, Hfeeds, H3. split.
      + intros [(e & He & Hfe)| ->]; [exists e|exists d]; (split; [apply Hin|done]); auto.
      + intros (e & [He| ->]%Hin & Hfe); [left; by exists e|by right]. }
  split; [done|]. apply map_eq. intros k. apply option_eq. intros e. rewrite (cache_lookup w') by apply Hwf. rewrite Hin.
  destruct (decide (k = key_of d)) as [->|Hne].
  - rewrite lookup_insert_eq. split; [|intros [= <-]; split; [by right|done]]. intros [[He| ->] Heq]; [|done]. exfalso. apply Hk.
    rewrite <- Heq. by apply list_elem_of_fmap_2.
  - rewrite lookup_insert_ne by done. rewrite cache_lookup by done. split; [intros [[?| ->] ?]; [done|congruence]|]. intros [He <-]. by split; [left|].
Qed.

Lemma update_ok u w :
  cache_wf w -> has_timeout w ->
  exists w', do_update u w = Ok w' /\ cache_wf w' /\ has_timeout w' /\ cache_map w' = spec_update u (cache_map w) /\ same_rest w w'.
Proof.
  intros Hw Ht. unfold do_update, updateDatastream, spec_update.
  set (k := (u_feed u, u_id u)).
  assert (Hstep : exists d w1, match findDatastream (u_feed u) (u_id u) w with
      | Some i => Ok (i, w)
      | None => t ← of_opt NullDeref (Some (u_tag u));
          Ok (length (ds w), set_cache (ds w ++ [mkStream (u_feed u) (u_id u) t (u_value u) (u_min u) (u_max u) (u_unit u)]) (addFeed (u_feed u) (feeds w)) w)
      end = Ok w1 /\ ds (snd w1) !! fst w1 = Some d /\ key_of d = k /\ cache_wf (snd w1) /\
      timeouts (snd w1) = timeouts w /\ same_rest w (snd w1) /\
      cache_map (snd w1) = (match cache_map w !! k with Some _ => cache_map w | None => <[k := d]> (cache_map w) end) /\
      match cache_map w !! k with Some d0 => d = d0 | None => d = mkStream (u_feed u) (u_id u) (u_tag u) (u_value u) (u_min u) (u_max u) (u_unit u) end).
  { destruct (findDatastream (u_feed u) (u_id u) w) as [i|] eqn:Hf.
    - apply find_from_Some in Hf as (d & _ & Hl & Hk). rewrite Nat.sub_0_r in Hl. exists d, (i, w). cbn [fst snd].
      assert (Hc : cache_map w !! k = Some d) by (apply cache_lookup; [apply Hw|]; split; [by eapply list_elem_of_lookup_2|done]).
      rewrite Hc. by split_and!.
    - apply find_from_None in Hf. cbn [of_opt]. rewrite bind_Ok. eexists _, _. split; [reflexivity|]. cbn [fst snd].
      assert (Hc : cache_map w !! k = None).
      { apply eq_None_not_Some. intros [d Hd]. apply cache_lookup in Hd as [Hd Hk]; [|apply Hw]. apply Hf. fold k. rewrite <- Hk. by apply list_elem_of_fmap_2. }
      rewrite Hc. set (d := mkStream _ _ _ _ _ _ _). destruct (cache_append_wf d w (set_cache (ds w ++ [d]) (addFeed (u_feed u) (feeds w)) w) Hw) as [Hw' Hm]; [done|done|done|].
      split; [cbn [set_cache ds]; by rewrite lookup_app_r, Nat.sub_diag by lia|]. by split_and!. }
  destruct Hstep as (d & [i w1] & -> & Hi & Hk & Hw1 & Ht1 & Hr1 & Hm1 & Hd). cbn [fst snd] in *. rewrite bind_Ok. cbv beta iota. rewrite Hi. cbn [of_opt].
  rewrite bind_Ok. cbv zeta. set (w2 := set_cache _ _ w1).
  destruct (replace_wf i d (with_value (u_value u) d) w1 w2 Hw1 Hi eq_refl eq_refl eq_refl) as [Hw2 Hm2].
  assert (Hmap : cache_map w2 = <[k := match cache_map w !! k with Some d => with_value (u_value u) d
      | None => mkStream (u_feed u) (u_id u) (u_tag u) (u_value u) (u_min u) (u_max u) (u_unit u) end]> (cache_map w)).
  { rewrite Hm2, Hm1, Hk. destruct (cache_map w !! k) as [d0|]; [by subst d0|]. rewrite insert_insert_eq. by subst d. }
  assert (Ht2 : has_timeout w2) by (unfold has_timeout; change (timeouts w2) with (timeouts w1); by rewrite Ht1).
  destruct (u_now u).
  - destruct (expire_timeout w2 Ht2) as (l & -> & Hl). rewrite bind_Ok. exists (set_timeouts l w2). split; [done|].
    split; [by destruct Hw2|]. by split_and!.
  - exists w2. by split_and!.
Qed.

Fixpoint do_updates (us : list upd) (w : xively) : out xively :=
  match us with [] => Ok w | u :: r => w ← do_update u w; do_updates r w end.

Definition spec_updates (us : list upd) (m : gmap (Z * Z) datastream) : gmap (Z * Z) datastream :=
  fold_left (fun m u => spec_update u m) us m.

(** ** Uploads *)

(** The document sent for a feed. *)
Definition upload (w : xively) (f : Z) : Z * cstr * cstr := (f, g_apikey w, eeml_head ++ feed_doc f (ds w) ++ eeml_foot).

Lemma web_loop_ok junk l w :
  buffer_ok w -> Forall stream_ok (ds w) -> (forall f, f ∈ l -> exists d, d ∈ ds w /\ feed d = f) ->
  xmllen w + (Z.of_nat (length l) + 2) * Z.of_nat (total_cost w) <= INT_MAX ->
  exists w', web_loop junk l w = Ok w' /\ posted w' = posted w ++ map (upload w) l /\
    ds w' = ds w /\ feeds w' = feeds w /\ timeouts w' = timeouts w /\ buffer_ok w'.
Proof.
  revert w. induction l as [|f l IH]; intros w Hb Hs Hl Hmax.
  - exists w. cbn. by rewrite app_nil_r.
  - cbn [web_loop]. destruct (document_ok junk f w Hb Hs) as (b & size & -> & Hsize & Hbound).
    { apply Hl. by left. }
    { cbn [length] in Hmax. lia. }
    rewrite bind_Ok. cbv beta iota. cbn [pach_updateDatastreamXml].
    set (w1 := post _ _ _). destruct (IH w1) as (w' & E & Hp & Hd & Hf & Ht & Hb').
    + split; [cbn; lia|done].
    + done.
    + intros g Hg. apply Hl. by right.
    + change (total_cost w1) with (total_cost w). cbn [w1 post set_xml xmllen length] in *. lia.
    + exists w'. split; [done|]. split; [|done]. rewrite Hp. cbn [map]. change (map (upload w1) l) with (map (upload w) l).
      cbn [w1 post set_xml posted]. by rewrite <- app_assoc.
Qed.

(** ** Examples *)

Definition demo_upd (i : Z) (v : string) : upd :=
  mkUpd 1234 i (str "Outside Temperature") (to_float (atof (str v))) None (Some (str "40")) (Some (str "C")) false.
Definition demo_timeouts : list (xAPTimeoutCallback xv_timeout unit) := [mkTimeout 1 xivelyWebUpdate_cb tt 60 500].
Definition empty_cache : xively :=
  mkXively [] [] None 200 (str "key") 1234 60 [] demo_timeouts (load_packet []) [] 2.
Definition demo_cache : xively :=
  match do_updates [demo_upd 3 "10.4"; demo_upd 4 "7"] empty_cache with Ok w => w | _ => empty_cache end.

Lemma empty_cache_wf : cache_wf empty_cache.
Proof. split; [constructor|constructor|]. intros f. cbn. rewrite elem_of_nil. split; [done|]. by intros (d & ?%elem_of_nil & _). Qed.

Lemma empty_cache_timeout : has_timeout empty_cache.
Proof. split; [|done]. apply (bool_decide_eq_true_1 (NoDup _)). reflexivity. Qed.

Lemma demo_cache_wf : cache_wf demo_cache.
Proof.
  destruct (update_ok (demo_upd 3 "10.4") empty_cache empty_cache_wf empty_cache_timeout) as (w1 & E1 & H1 & T1 & _).
  destruct (update_ok (demo_upd 4 "7") w1 H1 T1) as (w2 & E2 & H2 & _). unfold demo_cache. cbn [do_updates]. by rewrite E1, bind_Ok, E2, bind_Ok.
Qed.

(** * Theorems *)

(** C21.  The cache of datastreams refines a finite map from pairs of a feed and an
    identifier: any sequence of updates completes and has exactly the effect of
    the corresponding insertions, an update of a known datastream changing its
    value only; and the list of feeds holds each feed in use once. *)
Theorem updateDatastream_refines (us : list upd) (w : xively) :
  cache_wf w -> has_timeout w ->
  exists w', do_updates us w = Ok w' /\ cache_map w' = spec_updates us (cache_map w) /\ cache_wf w' /\ has_timeout w' /\ same_rest w w'.
Proof.
  revert w. induction us as [|u us IH]; intros w Hw Ht; [by exists w|]. cbn [do_updates].
  destruct (update_ok u w Hw Ht) as (w1 & -> & Hw1 & Ht1 & Hm1 & Hr1). rewrite bind_Ok.
  destruct (IH w1 Hw1 Ht1) as (w2 & -> & Hm2 & Hw2 & Ht2 & Hr2). exists w2. split; [done|]. split.
  - unfold spec_updates. cbn [fold_left]. by rewrite <- Hm1.
  - split; [done|]. split; [done|]. unfold same_rest in *. split_and!; intuition congruence.
Qed.

Lemma updateDatastream_refines_witness :
  exists w', do_updates [demo_upd 3 "10.4"; demo_upd 4 "7"; demo_upd 3 "11"] empty_cache = Ok w' /\
    (fmt_f2 ∘ value <$> cache_map w' !! (1234, 3)) = Some (str "11.00").
Proof.
  destruct (updateDatastream_refines [demo_upd 3 "10.4"; demo_upd 4 "7"; demo_upd 3 "11"] empty_cache empty_cache_wf empty_cache_timeout)
    as (w' & E & Hm & _). exists w'. split; [exact E|]. rewrite Hm. vm_compute. reflexivity.
Defined.

(** An upload sends one document per feed in use, each once, and a document holds
    exactly the datastreams of its feed, in the order they were created, whatever
    the size of the print buffer was: the buffer grows as far as needed and is
    never overrun. *)
Theorem xivelyWebUpdate_spec (junk : Z) (w : xively) :
  cache_wf w -> buffer_ok w -> Forall stream_ok (ds w) ->
  xmllen w + (Z.of_nat (length (feeds w)) + 2) * Z.of_nat (total_cost w) <= INT_MAX ->
  exists w', xivelyWebUpdate junk w = Ok w' /\ posted w' = posted w ++ map (upload w) (feeds w) /\ NoDup (feeds w) /\
    (forall d, d ∈ ds w -> feed d ∈ feeds w) /\ ds w' = ds w /\ buffer_ok w'.
Proof.
  intros Hw Hb Hs Hmax. destruct (web_loop_ok junk (feeds w) w Hb Hs) as (w' & E & Hp & Hd & _ & _ & Hb').
  - intros f. by apply (cw_feed w Hw).
  - done.
  - exists w'. split; [done|]. split; [done|]. split; [apply Hw|]. split; [|done]. intros d Hd'. apply (cw_feed w Hw). by exists d.
Qed.

Lemma xivelyWebUpdate_spec_witness :
  exists w', xivelyWebUpdate 170 demo_cache = Ok w' /\ length (posted w') = 1%nat.
Proof.
  destruct (xivelyWebUpdate_spec 170 demo_cache) as (w' & E & Hp & _).
  - exact demo_cache_wf.
  - split; [by vm_compute|by vm_compute].
  - apply (bool_decide_eq_true_1 (Forall _ _)). vm_compute. reflexivity.
  - apply Z.leb_le. vm_compute. reflexivity.
  - exists w'. split; [exact E|]. rewrite Hp. vm_compute. reflexivity.
Defined.

(** ** Messages *)

(** The value of a key in the entries of a message. *)
Definition stream_key (es : list entry) (k : string) : option cstr := entries_lookup es (str "datastream") (Some (str k)).

(** The update a message [xively.update] asks for. *)
Definition message_update (es : list entry) (default_feed : Z) (i tg v : cstr) : upd :=
  mkUpd (match stream_key es "feed" with Some f => u32 (atoi f) | None => default_feed end) (u32 (atoi i)) tg (to_float (atof v))
    (stream_key es "min") (stream_key es "max") (stream_key es "unit") (match stream_key es "now" with Some _ => true | None => false end).

Lemma update_message_eq es w i tg v :
  frame_rep (gframe w) es -> stream_key es "id" = Some i -> stream_key es "tag" = Some tg -> stream_key es "value" = Some v ->
  xivelyUpdate w =
  if (u32 (atoi i) <=? 0) && negb (strcmp0 (str "0") i) then Ok w
  else if match stream_key es "feed" with Some f => u32 (atoi f) <=? 0 | None => false end then Ok w
  else do_update (message_update es (g_feedid w) i tg v) w.
Proof.
  intros Hrep Hi Ht Hv. unfold stream_key in *. unfold xivelyUpdate, datastream_value, get. rewrite !(get_value_rep _ _ _ _ Hrep), !bind_Ok, Hi, Ht, Hv.
  cbn [of_opt]. rewrite bind_Ok. cbv zeta. destruct (_ && _); [done|]. unfold do_update, message_update, stream_key. cbn [u_feed u_id u_tag u_value u_min u_max u_unit u_now].
  destruct (entries_lookup es (str "datastream") (Some (str "feed"))) as [f|]; [|done]. by destruct (u32 (atoi f) <=? 0).
Qed.

(** A message [xively.update] with an identifier, a tag and a value updates the
    abstract cache with them, except when the identifier reads as zero without
    being ["0"] or the feed reads as zero.  Negative numbers are meant to be
    refused too, but the tests are on unsigned numbers: an identifier of [-n] is
    taken as [2^32 - n]. *)
Theorem xivelyUpdate_spec (es : list entry) (n : Z) (tg v : cstr) (w : xively) :
  frame_rep (gframe w) es -> cache_wf w -> has_timeout w -> int_range n ->
  stream_key es "id" = Some (fmt_d n) -> stream_key es "tag" = Some tg -> stream_key es "value" = Some v -> stream_key es "feed" = None ->
  exists w', xivelyUpdate w = Ok w' /\ cache_wf w' /\
    cache_map w' = spec_update (message_update es (g_feedid w) (fmt_d n) tg v) (cache_map w) /\
    u_id (message_update es (g_feedid w) (fmt_d n) tg v) = (if n <? 0 then 2 ^ 32 + n else n) /\
    u_feed (message_update es (g_feedid w) (fmt_d n) tg v) = g_feedid w.
Proof.
  intros Hrep Hw Ht Hn Hi Htg Hv Hf. rewrite (update_message_eq es w _ _ _ Hrep Hi Htg Hv), Hf, atoi_fmt_d by done.
  assert (Hid : u32 n = if n <? 0 then 2 ^ 32 + n else n).
  { unfold u32, int_range, INT_MIN, INT_MAX in *. destruct (Z.ltb_spec n 0); [|rewrite Z.mod_small; lia]. symmetry. apply (Z.mod_unique n (2 ^ 32) (-1)); lia. }
  assert (Hz : (u32 n <=? 0) && negb (strcmp0 (str "0") (fmt_d n)) = false).
  { rewrite Hid. unfold int_range, INT_MIN, INT_MAX in Hn. destruct (Z.ltb_spec n 0).
    - destruct (Z.leb_spec (2 ^ 32 + n) 0); [lia|done].
    - destruct (Z.leb_spec n 0); [|done]. by replace n with 0 by lia. }
  rewrite Hz. destruct (update_ok (message_update es (g_feedid w) (fmt_d n) tg v) w Hw Ht) as (w' & E & Hw' & _ & Hm & _).
  exists w'. split; [exact E|]. split; [done|]. split; [exact Hm|]. split; [|unfold message_update; cbn [u_feed]; by rewrite Hf].
  unfold message_update. cbn [u_id]. by rewrite atoi_fmt_d.
Qed.

Definition demo_update_msg : message :=
  [mkBlock (str "xap-header") [(str "class", str "xively.update")];
   mkBlock (str "datastream") [(str "id", str "-3"); (str "tag", str "Outside"); (str "value", str "10.4")]].
Definition update_world : xively :=
  mkXively [] [] None 200 (str "key") 1234 60 [] demo_timeouts (parsed_frame demo_update_msg [0] []) [] 2.

Lemma demo_update_wf : msg_wf demo_update_msg.
Proof. repeat constructor; try (by apply text_wf_str); try (by apply (bool_decide_eq_true_1 (_ ∉ _))); done. Qed.

Lemma xivelyUpdate_spec_witness :
  exists w', xivelyUpdate update_world = Ok w' /\ is_Some (cache_map w' !! (1234, 4294967293)).
Proof.
  destruct (xivelyUpdate_spec (msg_entries demo_update_msg) (-3) (str "Outside") (str "10.4") update_world) as (w' & E & _ & Hm & Hid & Hfd).
  - exact (parsed_frame_rep demo_update_msg [0] [] demo_update_wf).
  - split; [constructor|constructor|]. intros f. cbn. rewrite elem_of_nil. split; [done|]. by intros (d & ?%elem_of_nil & _).
  - split; [|done]. apply (bool_decide_eq_true_1 (NoDup _)). reflexivity.
  - unfold int_range, INT_MIN, INT_MAX. lia.
  - reflexivity.
  - reflexivity.
  - reflexivity.
  - reflexivity.
  - exists w'. split; [exact E|]. rewrite Hm. vm_compute. by eexists.
Defined.

(** A value of ["on"] or ["off"] that a filter of the INI file watches is uploaded
    at once: the update expires the timer, and the next dispatch of the timeouts,
    at whatever time, sends every feed with the new value. *)
Theorem broadcastUpdate_immediate (junk now : Z) (es : list entry) (wf : webFilter) (v : cstr) (w : xively) :
  frame_rep (gframe w) es -> cache_wf w -> ll_wf (timeouts w) -> length (timeouts w) = 1%nat ->
  entries_lookup es (wf_section wf) (Some (wf_key wf)) = Some v ->
  lower v = str "on" \/ lower v = str "off" ->
  0 <= now -> (forall t, t ∈ timeouts w -> int_range (now + interval t)) ->
  (forall w1, broadcastUpdate (Some wf) w = Ok w1 -> buffer_ok w1 /\ Forall stream_ok (ds w1) /\
     xmllen w1 + (Z.of_nat (length (feeds w1)) + 2) * Z.of_nat (total_cost w1) <= INT_MAX) ->
  exists w1 w2 d, broadcastUpdate (Some wf) w = Ok w1 /\
    cache_map w1 !! (wf_feed wf, wf_id wf) = Some d /\ value d = (if strcasecmp0 (str "on") v then float_1 else float_0) /\
    timeoutDispatch timeouts set_timeouts (run_timeout junk) now w1 = Ok w2 /\
    posted w2 = posted w ++ map (upload w1) (feeds w1).
Proof.
  intros Hrep Hw Hwf Hlen Hv Hon Hnow Hint Hbuf. set (b := strcasecmp0 (str "on") v).
  assert (Ht : has_timeout w) by (split; [done|]; by destruct (timeouts w)).
  set (u := mkUpd (wf_feed wf) (wf_id wf) (wf_tag wf) (if b then float_1 else float_0) (wf_min wf) (wf_max wf) (wf_unit wf) true).
  assert (Hb : broadcastUpdate (Some wf) w = do_update u w).
  { unfold broadcastUpdate, get. rewrite (get_value_rep _ _ _ _ Hrep), bind_Ok, Hv. cbn [of_opt]. rewrite bind_Ok. unfold u, b.
    destruct Hon as [Hon|Hoff].
    - assert (strcasecmp0 (str "on") v = true) as ->; [|done]. apply bool_decide_eq_true_2. unfold lower in Hon. by rewrite Hon.
    - assert (strcasecmp0 (str "on") v = false) as ->.
      { apply bool_decide_eq_false_2. unfold lower in Hoff. rewrite Hoff. by apply (bool_decide_eq_false_1 (_ = _)). }
      assert (strcasecmp0 (str "off") v = true) as ->; [|done]. apply bool_decide_eq_true_2. unfold lower in Hoff. by rewrite Hoff. }
  destruct (update_ok u w Hw Ht) as (w1 & E & Hw1 & _ & Hm & (_ & _ & _ & Hp & _)). rewrite Hb in *.
  destruct (Hbuf w1 E) as (Hb1 & Hs1 & Hmax1).
  assert (Htl : exists t, timeouts w = [t] /\ timeouts w1 = [set_ttl 0 t]).
  { destruct (timeouts w) as [|t [|t2 r]] eqn:Htw; [done| |done]. exists t. split; [done|].
    unfold do_update, updateDatastream in E. inv_bind E. destruct a as [i w0]. assert (Ht0 : timeouts w0 = [t]).
    { destruct (findDatastream _ _ _); [injection Ha as _ <-; done|]. cbn [of_opt] in Ha. rewrite bind_Ok in Ha. injection Ha as _ <-. exact Htw. }
    inv_bind E. cbv zeta in E. cbn [u_now u] in E. cbn [set_cache timeouts] in E. rewrite Ht0 in E.
    destruct (expire_ok [t]) as (t' & r' & [= <- <-] & E'); [done|done|]. rewrite E', bind_Ok in E. by injection E as <-. }
  destruct Htl as (t & Htw & Ht1).
  destruct (web_loop_ok junk (feeds w1) (set_timeouts [set_ttl (now + interval t) t] w1)) as (w2 & E2 & Hp2 & _ & _ & Ht2 & _); [done|done| |done|].
  { intros f. by apply (cw_feed w1 Hw1). }
  exists w1, w2. eexists. split; [exact E|]. split; [rewrite Hm; unfold spec_update; apply lookup_insert_eq|].
  split; [by destruct (cache_map w !! _)|]. split.
  - unfold timeoutDispatch, LL_FOREACH. rewrite Ht1. cbn [length ll_head head fmap option_fmap option_map foreach]. rewrite Ht1.
    cbn [ll_node node_addr timeout_node tc_addr set_ttl]. rewrite bool_decide_eq_true_2 by done. cbn [of_opt]. rewrite bind_Ok. cbv beta iota.
    unfold timeout_body, fire. cbn [ttl set_ttl interval tc_addr tc_callback tc_user_data]. destruct (Z.leb_spec 0 now); [|lia].
    rewrite add_int_Ok, bind_Ok by (apply Hint; rewrite Htw; by left). rewrite Ht1. destruct (tc_callback t). cbn [run_timeout].
    unfold ll_update. cbn [map]. rewrite bool_decide_eq_true_2 by done. unfold xivelyWebUpdate. cbn [set_timeouts feeds].
    change (set_ttl (now + interval t) (set_ttl 0 t)) with (set_ttl (now + interval t) t). rewrite E2, bind_Ok.
    rewrite Ht2. cbn [set_timeouts timeouts ll_node node_addr timeout_node tc_addr set_ttl]. rewrite bool_decide_eq_true_2 by done. done.
  - rewrite Hp2. cbn [set_timeouts posted]. by rewrite Hp.
Qed.

Definition demo_on_msg : message :=
  [mkBlock (str "xap-header") [(str "class", str "xAPBSC.event")]; mkBlock (str "output.state") [(str "state", str "ON")]].
Definition on_world : xively :=
  mkXively [] [] None 200 (str "key") 1234 60 [] demo_timeouts (parsed_frame demo_on_msg [0] []) [] 2.
Definition demo_web : webFilter := mkWeb 1234 7 None None None (str "Relay") (str "output.state") (str "state").

Lemma demo_on_wf : msg_wf demo_on_msg.
Proof. repeat constructor; try (by apply text_wf_str); try (by apply (bool_decide_eq_true_1 (_ ∉ _))); done. Qed.

Lemma broadcastUpdate_immediate_witness :
  exists w1 w2, broadcastUpdate (Some demo_web) on_world = Ok w1 /\
    timeoutDispatch timeouts set_timeouts (run_timeout 170) 100 w1 = Ok w2 /\ length (posted w2) = 1%nat.
Proof.
  destruct (broadcastUpdate_immediate 170 100 (msg_entries demo_on_msg) demo_web (str "ON") on_world) as (w1 & w2 & d & E1 & _ & _ & E2 & Hp).
  - exact (parsed_frame_rep demo_on_msg [0] [] demo_on_wf).
  - split; [constructor|constructor|]. intros f. cbn. rewrite elem_of_nil. split; [done|]. by intros (d & ?%elem_of_nil & _).
  - apply (bool_decide_eq_true_1 (NoDup _)). reflexivity.
  - reflexivity.
  - reflexivity.
  - left. reflexivity.
  - lia.
  - intros t ->%list_elem_of_singleton. cbn. unfold int_range, INT_MIN, INT_MAX. lia.
  - intros w1 H. vm_compute in H. injection H as <-. split; [split; vm_compute; done|]. split.
    + apply (bool_decide_eq_true_1 (Forall _ _)). vm_compute. reflexivity.
    + apply Z.leb_le. vm_compute. reflexivity.
  - exists w1, w2. split; [exact E1|]. split; [exact E2|]. rewrite Hp. vm_compute in E1. injection E1 as <-. reflexivity.
Defined.
