(* ===== verification/CurrentCost.v ===== *)
(** * The CurrentCost adaptor (xap-currentcost/currentcost.c)

    An energy monitor sends XML documents over a serial line.  The bytes are
    collected until the end of a document; the events of the XML parser fill the
    fields of a message or, for the EDF model, update endpoints directly; at the
    end of a message its readings are put into BSC endpoints, created when they
    are first seen.  The XML library is a parameter, the list of events of a
    document; the contents of the INI file and the identity of the program are
    parameters as well.  The static variables of [serialInputHandler] are a
    record of their own. *)

From S2P Require Import Prelude UtList Strings Frame Wire Filter Timeout Xap MinIni Bsc Termios.

(** ** State *)

Inductive cc_model := CC128 | CLASSIC | ORIGINAL | EDF.
Inductive cc_state := ST_NONE | ST_SENSOR | ST_CH1 | ST_CH2 | ST_CH3 | ST_TEMPR | ST_TEMPRF | ST_IMP | ST_TYPE | ST_DATA.

(** [struct _msg] *)
Record cc_msg := mkMsg {
  tempr : option cstr;
  temprf : option cstr;
  sensor : Z;
  mtype : Z;
  ch1 : option cstr;
  ch2 : option cstr;
  ch3 : option cstr;
  imp : option cstr;
}.

Record UserData := mkUser {
  utype : Z;
  previousValue : option cstr;
  currentValue : option cstr;
  uhysteresis : Z;
  unit_ : option cstr;
}.

(** The hooks of the endpoints. *)
Inductive cc_info := infoEventChannel_cb | infoEventTemp_cb | sensorInfoEvent_cb.

Record currentcost := mkCC {
  endpointList : list addr;
  userData : gmap addr UserData;
  hysteresis : Z;
  model : cc_model;
  state : cc_state;
  currentTag : option addr;
  ccTotal : option addr;
  msg : cc_msg;
}.

Abbreviation world := (bsc Empty_set cc_info Empty_set Empty_set currentcost).
Abbreviation endpoint := (bscEndpoint Empty_set cc_info).

Definition on_app (f : currentcost -> currentcost) (w : world) : world :=
  mkBsc (endpoints w) (filters w) (timeouts w) (bframe w) (sent w) (id w) (next w) (f (app_state w)).

Definition set_list (l : list addr) (a : currentcost) : currentcost :=
  mkCC l (userData a) (hysteresis a) (model a) (state a) (currentTag a) (ccTotal a) (msg a).
Definition set_user (m : gmap addr UserData) (a : currentcost) : currentcost :=
  mkCC (endpointList a) m (hysteresis a) (model a) (state a) (currentTag a) (ccTotal a) (msg a).
Definition set_state (s : cc_state) (a : currentcost) : currentcost :=
  mkCC (endpointList a) (userData a) (hysteresis a) (model a) s (currentTag a) (ccTotal a) (msg a).
Definition set_tag (p : option addr) (a : currentcost) : currentcost :=
  mkCC (endpointList a) (userData a) (hysteresis a) (model a) (state a) p (ccTotal a) (msg a).
Definition set_total (p : option addr) (a : currentcost) : currentcost :=
  mkCC (endpointList a) (userData a) (hysteresis a) (model a) (state a) (currentTag a) p (msg a).
Definition set_msg (m : cc_msg) (a : currentcost) : currentcost :=
  mkCC (endpointList a) (userData a) (hysteresis a) (model a) (state a) (currentTag a) (ccTotal a) m.

Definition get_user (p : addr) (w : world) : out UserData := of_opt NullDeref (userData (app_state w) !! p).
Definition put_user (p : addr) (u : UserData) (w : world) : world :=
  on_app (fun a => set_user (<[p := u]> (userData a)) a) w.
Definition with_previous (v : option cstr) (u : UserData) : UserData :=
  mkUser (utype u) v (currentValue u) (uhysteresis u) (unit_ u).

(** ** Hooks *)

(** [new > old + h || new < old - h] *)
Definition beyond (new old h : Z) : out bool :=
  hi ← add_int old h;
  if hi <? new then Ok true else lo ← add_int old (- h); Ok (new <? lo).

Definition previous_int (u : UserData) : Z := match previousValue u with Some v => atoi v | None => 0 end.

Definition infoEventChannel (p : addr) (clazz : cstr) (w : world) : out (bool * world) :=
  e ← get_ep p w;
  u ← get_user p w;
  t ← of_opt NullDeref (text e);
  let new := atoi t in
  b ← (if strcmp0 clazz BSC_INFO_CLASS then Ok true else beyond new (previous_int u) (hysteresis (app_state w)));
  if (b : bool) then Ok (true, put_ep p (with_display (snprintf 15 (fmt_d new ++ str " Watts")) e) w)
  else Ok (false, w).

(** A name of no characters would be read before its start. *)
Definition infoEventTemp (p : addr) (clazz : cstr) (w : world) : out (bool * world) :=
  e ← get_ep p w;
  u ← get_user p w;
  b ← (if strcmp0 clazz BSC_INFO_CLASS then Ok true
       else match previousValue u with
            | None => Ok true
            | Some v => t ← of_opt NullDeref (text e); Ok (negb (strcmp0 t v))
            end);
  if (b : bool) then
    c ← of_opt OutOfBounds (last (name e));
    Ok (true, put_ep p (with_display (snprintf 15 (str "Temp " ++ pstr (text e) ++ [if c =? 70 then 70 else 67])) e) w)
  else Ok (false, w).

Definition sensorInfoEvent (p : addr) (clazz : cstr) (w : world) : out (bool * world) :=
  e ← get_ep p w;
  u ← get_user p w;
  t ← of_opt NullDeref (text e);
  let new := atoi t in
  b ← (if strcmp0 clazz BSC_INFO_CLASS then Ok true
       else b ← beyond new (previous_int u) (uhysteresis u); Ok (b || (last_report e =? 0)));
  if (b : bool) then
    match unit_ u with
    | Some n =>
        d ← (if type e =? BSC_BINARY then s ← bscStateToString e; Ok (n ++ [32] ++ s) else Ok (t ++ [32] ++ n));
        Ok (true, put_ep p (with_display (snprintf 30 d) e) w)
    | None => Ok (true, w)
    end
  else Ok (false, w).

Definition run_info (i : cc_info) (p : addr) (clazz : cstr) (w : world) : out (bool * world) :=
  match i with
  | infoEventChannel_cb => infoEventChannel p clazz w
  | infoEventTemp_cb => infoEventTemp p clazz w
  | sensorInfoEvent_cb => sensorInfoEvent p clazz w
  end.

(** ** Endpoints *)

(** The text of the endpoint is the new reading, the old text the previous value. *)
Definition rotate (p : addr) (u : UserData) (e : endpoint) (v : option cstr) (w : world) : world :=
  put_ep p (with_text v e) (put_user p (with_previous (text e) u) w).

(** [type == BSC_BINARY]: off for a reading of zero, on for any other. *)
Definition reading_state (e : endpoint) : out endpoint :=
  if type e =? BSC_BINARY
  then t ← of_opt NullDeref (text e); Ok (bscSetState (if atoi t =? 0 then BSC_STATE_OFF else BSC_STATE_ON) e)
  else Ok (bscSetState BSC_STATE_ON e).

(** The new reading replaces the text, and an event is sent. *)
Definition new_reading (now : Z) (p : addr) (v : option cstr) (w : world) : out world :=
  e ← get_ep p w;
  u ← get_user p w;
  e' ← reading_state (with_text v e);
  bscSendEvent run_info now p (put_ep p e' (rotate p u e v w)).

Definition same_text (t : option cstr) (v : cstr) : bool := match t with Some t => strcmp0 v t | None => false end.

Definition updateEndpointValue (now : Z) (p : addr) (value : cstr) (w : world) : out world :=
  e ← get_ep p w;
  u ← get_user p w;
  if utype u =? 73 then
    match currentValue u with
    | None => Ok (put_user p (mkUser (utype u) (previousValue u) (Some value) (uhysteresis u) (unit_ u)) w)
    | Some cur =>
        if match text e with None => true | Some _ => false end || negb (strcmp0 value cur) ||
           match previousValue u with Some prev => negb (strcmp0 cur prev) | None => false end
        then
          d ← add_int (atoi value) (- atoi cur);
          let w := put_user p (mkUser (utype u) (Some cur) (Some value) (uhysteresis u) (unit_ u)) w in
          let e := bscSetState BSC_STATE_ON (with_text (Some (snprintf 16 (fmt_d d))) e) in
          bscSendEvent run_info now p (put_ep p e w)
        else Ok w
    end
  else if same_text (text e) value then Ok w
  else new_reading now p (Some value) w.

Section Ini.
Context (inifile : option (list Z)) (x : xAPIdent).

(** The key is printed into ten bytes. *)
Definition loadSensorINI (key : string) (n size : Z) : out (Z * cstr) :=
  buff ← sprintf_buf 10 (str key ++ fmt_d n);
  Ok (ini_gets (Some (str "currentcost")) (Some buff) [] [] size inifile).

Definition newBscEndpoint (n : cstr) (sub : option cstr) (typ : Z) (ie : option cc_info) (sensorType : Z) (w : world)
    : out (addr * world) :=
  '(p, l, w) ← bscAddEndpoint (endpointList (app_state w)) (Some n) sub BSC_INPUT typ None ie w;
  let w := on_app (set_list l) w in
  '(h, un) ← match sub with
             | Some (c :: r) =>
                 if isdigit c then
                   let sensorId := atoi (c :: r) in
                   '(n, v) ← loadSensorINI "hysteresis" sensorId 4;
                   '(m, un) ← loadSensorINI "unit" sensorId 10;
                   Ok (if 0 <? n then atoi v else 0, if 0 <? m then Some un else None)
                 else Ok (0, None)
             | _ => Ok (0, None)
             end;
  w ← bscAddEndpointFilter x p 120 (put_user p (mkUser sensorType None None h un) w);
  Ok (p, w).

(** [fmt]: what the format appends to the number of the sensor. *)
Definition updateSensor (now sensorId : Z) (fmt : string) (value : cstr) (ie : option cc_info) (uidOffset : Z) (w : world)
    : out world :=
  let sub := snprintf 20 (fmt_d sensorId ++ str fmt) in
  f ← bscFindEndpoint (endpointList (app_state w)) (str "sensor") (Some sub) w;
  '(p, w) ← match f with
            | Some p => Ok (p, w)
            | None =>
                k ← add_int sensorId (-1); k ← mul_int k 4; k ← add_int k (uidOffset + 10);
                '(_, stype) ← loadSensorINI "type" sensorId 2;
                let t := default 0 (head stype) in
                newBscEndpoint (str "sensor") (Some sub) (if t =? 68 then BSC_BINARY else BSC_STREAM) ie t
                  (bscSetEndpointUID (u8 k) w)
            end;
  updateEndpointValue now p value w.

(** ** The fields of a message *)

Fixpoint strip_zeros (s : cstr) : cstr :=
  match s with 48 :: r => strip_zeros r | _ => s end.

(** Of zeros only, the last one stays. *)
Definition dupZero (s : cstr) : option cstr :=
  match s with
  | [] => None
  | _ => match strip_zeros s with [] => Some [48] | t => Some t end
  end.

(** The characters of a text event, cut at 39. *)
Definition cdata_text (ch : cstr) : cstr := c_text (take 39 ch).

Inductive sax_event := StartElement (n : cstr) | Characters (ch : cstr) | EndElement (n : cstr).

(** ** The EDF model *)

Definition startElementEDFCB (n : cstr) (w : world) : out world :=
  if strncmp0 2 (str "ch") n then
    let '(ename, sub, w, ie) :=
      if strncmp0 3 (str "chH") n then (str "ch", str "H", bscSetEndpointUID 1 w, infoEventChannel_cb)
      else let sub := drop 2 n in
           let sub := match sub with 48 :: r => r | _ => sub end in
           (str "sensor", sub, bscSetEndpointUID (9 + atoi sub) w, sensorInfoEvent_cb) in
    let w := on_app (set_state ST_DATA) w in
    f ← bscFindEndpoint (endpointList (app_state w)) ename (Some sub) w;
    match f with
    | Some p => Ok (on_app (set_tag (Some p)) w)
    | None => '(p, w) ← newBscEndpoint ename (Some sub) BSC_STREAM (Some ie) 65 w; Ok (on_app (set_tag (Some p)) w)
    end
  else Ok w.

Definition cdataBlockEDFCB (now : Z) (ch : cstr) (w : world) : out world :=
  let output := cdata_text ch in
  match state (app_state w) with
  | ST_NONE => Ok w
  | ST_DATA =>
      p ← of_opt NullDeref (currentTag (app_state w));
      e ← get_ep p w;
      w ← (if same_text (text e) output then Ok w else new_reading now p (dupZero output) w);
      Ok (on_app (set_state ST_NONE) w)
  | _ => Ok (on_app (set_state ST_NONE) w)
  end.

(** ** The other models *)

Definition clear_msg (m : cc_model) (g : cc_msg) : cc_msg :=
  mkMsg None None (match m with ORIGINAL | CLASSIC => 0 | _ => -1 end) (mtype g) None None None None.

Definition startElementCB (n : cstr) (w : world) : world :=
  if strcmp0 (str "sensor") n then on_app (set_state ST_SENSOR) w
  else if strcmp0 n (str "ch1") then on_app (set_state ST_CH1) w
  else if strcmp0 n (str "ch2") then on_app (set_state ST_CH2) w
  else if strcmp0 n (str "ch3") then on_app (set_state ST_CH3) w
  else if strcmp0 n (str "imp") then on_app (set_state ST_IMP) w
  else if strcmp0 n (str "tmpr") then on_app (set_state ST_TEMPR) w
  else if strcmp0 n (str "tmprF") then on_app (set_state ST_TEMPRF) w
  else if strcmp0 n (str "type") then on_app (set_state ST_TYPE) w
  else if strcmp0 n (str "msg") then on_app (fun a => set_msg (clear_msg (model a) (msg a)) a) w
  else w.

(** The field of the message a state stands for. *)
Definition store_field (s : cc_state) (output : cstr) (g : cc_msg) : cc_msg :=
  match s with
  | ST_SENSOR => mkMsg (tempr g) (temprf g) (atoi output) (mtype g) (ch1 g) (ch2 g) (ch3 g) (imp g)
  | ST_TYPE => mkMsg (tempr g) (temprf g) (sensor g) (atoi output) (ch1 g) (ch2 g) (ch3 g) (imp g)
  | ST_CH1 => mkMsg (tempr g) (temprf g) (sensor g) (mtype g) (dupZero output) (ch2 g) (ch3 g) (imp g)
  | ST_CH2 => mkMsg (tempr g) (temprf g) (sensor g) (mtype g) (ch1 g) (dupZero output) (ch3 g) (imp g)
  | ST_CH3 => mkMsg (tempr g) (temprf g) (sensor g) (mtype g) (ch1 g) (ch2 g) (dupZero output) (imp g)
  | ST_IMP => mkMsg (tempr g) (temprf g) (sensor g) (mtype g) (ch1 g) (ch2 g) (ch3 g) (dupZero output)
  | ST_TEMPR => mkMsg (Some output) (temprf g) (sensor g) (mtype g) (ch1 g) (ch2 g) (ch3 g) (imp g)
  | ST_TEMPRF => mkMsg (tempr g) (Some output) (sensor g) (mtype g) (ch1 g) (ch2 g) (ch3 g) (imp g)
  | _ => g
  end.

Definition cdataBlockCB (ch : cstr) (w : world) : world :=
  match state (app_state w) with
  | ST_NONE => w
  | s => on_app (fun a => set_state ST_NONE (set_msg (store_field s (cdata_text ch) (msg a)) a)) w
  end.

(** The sum and the number of the channels in a list of endpoints. *)
Fixpoint sum_channels (l : list addr) (total : Z) (count : nat) (w : world) : out (Z * nat) :=
  match l with
  | [] => Ok (total, count)
  | p :: r =>
      e ← get_ep p w;
      if strcmp0 (str "ch") (name e) then
        s ← of_opt NullDeref (subaddr e);
        if strcmp0 (str "total") s then sum_channels r total count w
        else t ← of_opt NullDeref (text e); total ← add_int total (atoi t); sum_channels r total (S count) w
      else sum_channels r total count w
  end.

(** The pseudo channel [ch.total]. *)
Definition update_total (now total : Z) (w : world) : out world :=
  '(p, w) ← match ccTotal (app_state w) with
            | Some p => Ok (p, w)
            | None =>
                '(p, w) ← newBscEndpoint (str "ch") (Some (str "total")) BSC_STREAM (Some infoEventChannel_cb) 65 (bscSetEndpointUID 5 w);
                let w := on_app (set_total (Some p)) w in
                e ← get_ep p w;
                Ok (p, put_ep p (bscSetState BSC_STATE_ON e) w)
            end;
  u ← get_user p w;
  e ← get_ep p w;
  bscSendEvent run_info now p (rotate p u e (Some (snprintf 10 (fmt_d total))) w).

Definition updateWholeOfHouseEndpoint (now : Z) (n : string) (sub : option cstr) (value : cstr) (ie : cc_info) (uidOffset : Z) (w : world)
    : out world :=
  f ← bscFindEndpoint (endpointList (app_state w)) (str n) sub w;
  '(p, w) ← match f with
            | Some p => Ok (p, w)
            | None => newBscEndpoint (str n) sub BSC_STREAM (Some ie) 65 (bscSetEndpointUID uidOffset w)
            end;
  w ← updateEndpointValue now p value w;
  if strcmp0 (str "ch") (str n) then
    '(total, count) ← sum_channels (endpointList (app_state w)) 0 0 w;
    if (1 <? count)%nat then update_total now total w else Ok w
  else Ok w.

(** [if(field) update(...)] *)
Definition when (field : option cstr) (f : cstr -> world -> out world) (w : world) : out world :=
  match field with Some v => f v w | None => Ok w end.

Definition channel (now : Z) (sub : string) (uidOffset : Z) (v : cstr) : world -> out world :=
  updateWholeOfHouseEndpoint now "ch" (Some (str sub)) v infoEventChannel_cb uidOffset.
Definition temperature (now : Z) (n : string) (v : cstr) : world -> out world :=
  updateWholeOfHouseEndpoint now n None v infoEventTemp_cb 4.

Definition endElementCB (now : Z) (n : cstr) (w : world) : out world :=
  if strcmp0 (str "msg") n then
    let g := msg (app_state w) in
    if sensor g =? 0 then
      w ← when (ch1 g) (channel now "1" 1) w;
      w ← when (ch2 g) (channel now "2" 2) w;
      w ← when (ch3 g) (channel now "3" 3) w;
      w ← when (tempr g) (temperature now "temp") w;
      when (temprf g) (temperature now "tempF") w
    else if 0 <? sensor g then
      let update fmt off v := updateSensor now (sensor g) fmt v (Some sensorInfoEvent_cb) off in
      w ← when (ch1 g) (update "" 1) w;
      w ← when (ch2 g) (update ".2" 2) w;
      w ← when (ch3 g) (update ".3" 3) w;
      w ← when (imp g) (fun v => updateSensor now (sensor g) "" v None 1) w;
      w ← when (tempr g) (temperature now "temp") w;
      when (temprf g) (temperature now "tempF") w
    else Ok w
  else Ok w.

(** ** Documents *)

(** What the handlers of the model do with an event. *)
Definition sax_step (now : Z) (ev : sax_event) (w : world) : out world :=
  match model (app_state w), ev with
  | EDF, StartElement n => startElementEDFCB n w
  | EDF, Characters ch => cdataBlockEDFCB now ch w
  | EDF, EndElement _ => Ok w
  | _, StartElement n => Ok (startElementCB n w)
  | _, Characters ch => Ok (cdataBlockCB ch w)
  | _, EndElement n => endElementCB now n w
  end.

Fixpoint sax_run (now : Z) (evs : list sax_event) (w : world) : out world :=
  match evs with
  | [] => Ok w
  | ev :: r => w ← sax_step now ev w; sax_run now r w
  end.

(** The XML library: the events of a document, up to its first error. *)
Context (sax : cstr -> list sax_event).

Definition parseXml (now : Z) (data : cstr) (w : world) : out world :=
  sax_run now (sax data) (on_app (set_state ST_NONE) w).

End Ini.

(** ** The serial line *)

(** [serial_xml]: the bytes below the cursor. *)
Record serial := mkSerial { serial_xml : list Z; bstate : Z; estate : Z }.

Section Serial.
(** What is done with a document. *)
Context {W : Type} (parse : cstr -> W -> out W).

(** The two automata that look for [<msg>] and [</msg>]. *)
Definition begin_step (c : Z) (s : serial) : serial :=
  if (bstate s =? 0) && (c =? 60) then mkSerial (serial_xml s) 1 (estate s)
  else if (bstate s =? 1) && (c =? 109) then mkSerial (serial_xml s) 2 (estate s)
  else if (bstate s =? 2) && (c =? 115) then mkSerial (serial_xml s) 3 (estate s)
  else if (bstate s =? 3) && (c =? 103) then mkSerial (serial_xml s) 4 (estate s)
  else if (bstate s =? 4) && (c =? 62) && (5 <? length (serial_xml s))%nat then mkSerial (str "<msg>") 0 (estate s)
  else mkSerial (serial_xml s) 0 (estate s).

Definition end_step (c : Z) (s : serial) (w : W) : out (serial * W) :=
  if (estate s =? 0) && (c =? 60) then Ok (mkSerial (serial_xml s) (bstate s) 1, w)
  else if (estate s =? 1) && (c =? 47) then Ok (mkSerial (serial_xml s) (bstate s) 2, w)
  else if (estate s =? 2) && (c =? 109) then Ok (mkSerial (serial_xml s) (bstate s) 3, w)
  else if (estate s =? 3) && (c =? 115) then Ok (mkSerial (serial_xml s) (bstate s) 4, w)
  else if (estate s =? 4) && (c =? 103) then Ok (mkSerial (serial_xml s) (bstate s) 5, w)
  else if (estate s =? 5) && (c =? 62) then
    w ← parse (serial_xml s) w;
    Ok (mkSerial [] (bstate s) 0, w)
  else Ok (mkSerial (serial_xml s) (bstate s) 0, w).

Definition serial_char (c : Z) (s : serial) (w : W) : out (serial * W) :=
  if isspace c then Ok (s, w)
  else
    let b := if (length (serial_xml s) =? 4095)%nat then [] else serial_xml s in
    end_step c (begin_step c (mkSerial (b ++ [c]) (bstate s) (estate s))) w.

Fixpoint serial_chars (l : list Z) (s : serial) (w : W) : out (serial * W) :=
  match l with
  | [] => Ok (s, w)
  | c :: r => '(s, w) ← serial_char c s w; serial_chars r s w
  end.

(** [reads]: the bytes of the successive reads; the loop ends with the first read
    of nothing. *)
Fixpoint serialInputHandler (reads : list (list Z)) (s : serial) (w : W) : out (serial * W) :=
  match reads with
  | [] | [] :: _ => Ok (s, w)
  | b :: r => '(s, w) ← serial_chars b s w; serialInputHandler r s w
  end.

End Serial.

(** ** Start *)

(** The attributes of the line: the speed of the model. *)
Definition cc_speed (m : cc_model) : Z :=
  match m with CC128 | EDF => B57600 | ORIGINAL => B2400 | CLASSIC => B9600 end.

Definition is_device (port : cstr) : bool := strncmp0 5 port (str "/dev/").

(** [fd]: the result of [open]; [locked]: did [flock] succeed?  The descriptor
    and the attributes set on it. *)
Definition setupSerialPort (m : cc_model) (port : cstr) (fd : Z) (locked : bool) : out (Z * option termios) :=
  if is_device port then
    if fd <? 0 then Die
    else if negb locked then Die
    else Ok (fd, Some (mkTermios IGNPAR (Z.lor (cc_speed m) (Z.lor CS8 (Z.lor CLOCAL CREAD)))))
  else if fd <? 0 then Die else Ok (fd, None).

(** The configuration: the interface, the port, the hysteresis and the model. *)
Record cc_config := mkConfig { interfaceName : option cstr; serialPort : cstr; cfg_hysteresis : Z; cfg_model : cc_model }.

(** The first pass over the command line; an option at its end takes the NULL
    behind the arguments. *)
Fixpoint cc_options (argv : list cstr) (o : cc_config) : out cc_config :=
  let opt a s l := strcmp0 (str s) a || strcmp0 (str l) a in
  match argv with
  | [] => Ok o
  | a :: r =>
      if opt a "-i" "--interface" then
        match r with
        | v :: r => cc_options r (mkConfig (Some v) (serialPort o) (cfg_hysteresis o) (cfg_model o))
        | [] => Ok (mkConfig None (serialPort o) (cfg_hysteresis o) (cfg_model o))
        end
      else if opt a "-s" "--serial" then
        match r with
        | v :: r => cc_options r (mkConfig (interfaceName o) (snprintf 20 v) (cfg_hysteresis o) (cfg_model o))
        | [] => Undef NullDeref
        end
      else if opt a "-d" "--debug" then match r with _ :: r => cc_options r o | [] => Undef NullDeref end
      else if opt a "-h" "--help" then Die
      else cc_options r o
  end.

Definition setupXap (inifile : option (list Z)) (o : cc_config) : cc_config :=
  let sec := Some (str "currentcost") in
  let h := ini_getl sec (Some (str "hysteresis")) 10 inifile in
  let '(_, port) := ini_gets sec (Some (str "usbserial")) (serialPort o) [] 20 inifile in
  let '(_, m) := ini_gets sec (Some (str "model")) (str "classic") [] 20 inifile in
  let m := if strcasecmp0 m (str "CC128") then CC128
           else if strcasecmp0 m (str "ORIGINAL") then ORIGINAL
           else if strcasecmp0 m (str "CC128") then CC128
           else if strcasecmp0 m (str "EDF") then EDF
           else CLASSIC in
  mkConfig (interfaceName o) port h m.

(** The second pass: the model option overrides the INI file. *)
Fixpoint model_option (argv : list cstr) (m : cc_model) : out cc_model :=
  match argv with
  | [] => Ok m
  | a :: r =>
      if strcmp0 (str "-m") a || strcmp0 (str "--model") a then
        match r with
        | v :: r =>
            model_option r (if strcasecmp0 (str "CC128") v then CC128
                            else if strcasecmp0 (str "EDF") v then EDF
                            else if strcasecmp0 (str "ORIGINAL") v then ORIGINAL
                            else if strcasecmp0 (str "CLASSIC") v then CLASSIC
                            else m)
        | [] => Undef NullDeref
        end
      else model_option r m
  end.

Definition cc_configure (inifile : option (list Z)) (argv : list cstr) : out cc_config :=
  o ← cc_options argv (mkConfig None (str "/dev/ttyUSB0") 0 CC128);
  let o := setupXap inifile o in
  m ← model_option argv (cfg_model o);
  Ok (mkConfig (interfaceName o) (serialPort o) (cfg_hysteresis o) m).
