(* ===== verification/CurrentCostProps.v ===== *)
(** * Properties of the CurrentCost adaptor

    The serial line delivers exactly the documents sent on it; the fields of a
    message; the readings of the endpoints: differences of an impulse meter, the
    hysteresis, the total of the channels; and the overrun in the names of the
    INI file's keys. *)

From S2P Require Import Prelude UtList Strings Frame Wire Filter Timeout Xap MinIni Bsc Termios CurrentCost.

(** ** The serial line *)

Section Framing.
Context {W : Type} (parse : cstr -> W -> out W).
Abbreviation chars := (serial_chars parse).

Definition printing (l : list Z) : list Z := List.filter (fun c => negb (isspace c)) l.

Lemma chars_app l1 l2 s w : chars (l1 ++ l2) s w = ('(s, w) ← chars l1 s w; chars l2 s w).
Proof.
  revert s w. induction l1 as [|c l1 IH]; intros s w; [done|]. cbn [app serial_chars]. rewrite bind_assoc.
  destruct (serial_char parse c s w) as [[s1 w1]| |]; [|done|done]. rewrite !bind_Ok. apply IH.
Qed.

Lemma chars_printing l s w : chars l s w = chars (printing l) s w.
Proof.
  revert s w. induction l as [|c l IH]; intros s w; [done|]. unfold printing. cbn [serial_chars List.filter].
  destruct (isspace c) eqn:Hc; cbn [negb].
  - unfold serial_char at 1. rewrite Hc, bind_Ok. apply IH.
  - cbn [serial_chars]. destruct (serial_char parse c s w) as [[s1 w1]| |]; [|done|done]. rewrite !bind_Ok. apply IH.
Qed.

Lemma handler_chars reads s w :
  Forall (fun b => b <> []) reads -> serialInputHandler parse reads s w = chars (concat reads) s w.
Proof.
  intros H. revert s w. induction H as [|b reads Hb _ IH]; intros s w; [done|]. cbn [serialInputHandler concat].
  rewrite chars_app. destruct b as [|c b]; [done|].
  destruct (chars (c :: b) s w) as [[s1 w1]| |]; [|done|done]. rewrite !bind_Ok. apply IH.
Qed.

(** The automata on a character that completes nothing. *)
Definition bnext (b c : Z) : Z :=
  if (b =? 0) && (c =? 60) then 1 else if (b =? 1) && (c =? 109) then 2
  else if (b =? 2) && (c =? 115) then 3 else if (b =? 3) && (c =? 103) then 4 else 0.
Definition enext (e c : Z) : Z :=
  if (e =? 0) && (c =? 60) then 1 else if (e =? 1) && (c =? 47) then 2 else if (e =? 2) && (c =? 109) then 3
  else if (e =? 3) && (c =? 115) then 4 else if (e =? 4) && (c =? 103) then 5 else 0.

Lemma quiet_char c b x y w :
  isspace c = false -> (length b < 4095)%nat -> c <> 62 \/ (x <> 4 /\ y <> 5) ->
  serial_char parse c (mkSerial b x y) w = Ok (mkSerial (b ++ [c]) (bnext x c) (enext y c), w).
Proof.
  intros Hs Hl Hq. unfold serial_char. rewrite Hs. cbn [serial_xml bstate estate].
  destruct (Nat.eqb_spec (length b) 4095); [lia|].
  assert (begin_step c (mkSerial (b ++ [c]) x y) = mkSerial (b ++ [c]) (bnext x c) y) as ->.
  { unfold begin_step, bnext. cbn [serial_xml bstate estate].
    assert ((x =? 4) && (c =? 62) && (5 <? length (b ++ [c]))%nat = false) as ->.
    { destruct (Z.eqb_spec x 4), (Z.eqb_spec c 62); try done. lia. }
    by repeat case_match. }
  assert (Hy : (y =? 5) && (c =? 62) = false) by (destruct (Z.eqb_spec y 5), (Z.eqb_spec c 62); try done; lia).
  unfold end_step, enext. cbn [serial_xml bstate estate]. rewrite Hy. by repeat case_match.
Qed.

(** Characters other than [>] complete nothing. *)
Definition plain (c : Z) : Prop := isspace c = false /\ c <> 62.

Lemma plain_chars t b x y w :
  Forall plain t -> (length b + length t <= 4095)%nat ->
  chars t (mkSerial b x y) w = Ok (mkSerial (b ++ t) (fold_left bnext t x) (fold_left enext t y), w).
Proof.
  intros Ht. revert b x y. induction Ht as [|c t [Hs Hc] _ IH]; intros b x y Hl; cbn [serial_chars fold_left].
  - by rewrite app_nil_r.
  - cbn [length] in Hl. rewrite quiet_char by (auto; lia). rewrite bind_Ok. cbv beta iota.
    rewrite IH by (rewrite length_app; cbn [length]; lia). by rewrite <- app_assoc.
Qed.

Lemma bnext_0 t : 60 ∉ t -> fold_left bnext t 0 = 0.
Proof.
  induction t as [|c t IH]; intros H; [done|]. apply not_elem_of_cons in H as [Hc H]. cbn [fold_left].
  replace (bnext 0 c) with 0; [by apply IH|]. unfold bnext. by destruct (Z.eqb_spec c 60); [lia|].
Qed.

Lemma enext_0 t : 60 ∉ t -> fold_left enext t 0 = 0.
Proof.
  induction t as [|c t IH]; intros H; [done|]. apply not_elem_of_cons in H as [Hc H]. cbn [fold_left].
  replace (enext 0 c) with 0; [by apply IH|]. unfold enext. by destruct (Z.eqb_spec c 60); [lia|].
Qed.

(** One step along the text an automaton looks for. *)
Ltac follow next next_0 t :=
  let c := fresh "c" in let r := fresh "r" in let Hc := fresh "Hc" in
  destruct t as [|c r]; [done|]; cbn [fold_left];
  match goal with H : 60 ∉ _ |- _ => apply not_elem_of_cons in H as [Hc H] end;
  unfold next at 2; cbn [Z.eqb Pos.eqb andb];
  match goal with |- context [c =? ?k] => destruct (Z.eqb_spec c k) as [->|]; [|by rewrite next_0] end.

Lemma bnext_msg t : 60 ∉ t -> t <> str "msg" -> fold_left bnext t 1 <> 4.
Proof.
  intros H Hn. follow bnext bnext_0 t. follow bnext bnext_0 r. follow bnext bnext_0 r0.
  destruct r as [|d r]; [done|]. cbn [fold_left]. apply not_elem_of_cons in H as [_ H].
  replace (bnext 4 d) with 0 by (unfold bnext; by cbn). by rewrite bnext_0.
Qed.

Lemma enext_msg t : 60 ∉ t -> t <> str "/msg" -> fold_left enext t 1 <> 5.
Proof.
  intros H Hn. follow enext enext_0 t. follow enext enext_0 r. follow enext enext_0 r0. follow enext enext_0 r.
  destruct r0 as [|d r0]; [done|]. cbn [fold_left]. apply not_elem_of_cons in H as [_ H].
  replace (enext 5 d) with 0 by (unfold enext; by cbn). by rewrite enext_0.
Qed.

(** ** Documents *)

(** What is sent: tags and text. *)
Inductive item := Tag (n : cstr) | Text (t : cstr).
Definition print_item (i : item) : cstr := match i with Tag n => [60] ++ n ++ [62] | Text t => t end.
Definition print_items (l : list item) : cstr := concat (map print_item l).

Definition text_ok (t : cstr) : Prop := Forall plain t /\ 60 ∉ t.

Lemma text_ok_str t : forallb (fun c => negb (isspace c) && negb (c =? 62) && negb (c =? 60)) t = true -> text_ok t.
Proof.
  rewrite forallb_forall. intros H. split.
  - apply Forall_forall. intros c Hc%list_elem_of_In%H. split; [by destruct (isspace c)|]. intros ->. by rewrite andb_false_r in Hc.
  - intros Hc%list_elem_of_In%H. by rewrite andb_false_r in Hc.
Qed.

Definition item_ok (i : item) : Prop :=
  match i with Tag n => text_ok n /\ n <> str "msg" /\ n <> str "/msg" | Text t => text_ok t end.

Lemma item_chars i b w :
  item_ok i -> (length b + length (print_item i) <= 4095)%nat ->
  chars (print_item i) (mkSerial b 0 0) w = Ok (mkSerial (b ++ print_item i) 0 0, w).
Proof.
  destruct i as [n|t]; cbn [item_ok print_item]; intros Hi Hl.
  - destruct Hi as ((Hp & H60) & Hm & He). rewrite !length_app in Hl. cbn [length] in Hl.
    rewrite app_assoc, chars_app.
    rewrite plain_chars; [|by constructor|rewrite length_app; cbn [length]; lia]. rewrite bind_Ok. cbv beta iota.
    cbn [app fold_left serial_chars]. change (bnext 0 60) with 1. change (enext 0 60) with 1.
    rewrite quiet_char; [|done|rewrite length_app; cbn [length]; lia|right; split; [by apply bnext_msg|by apply enext_msg]].
    rewrite bind_Ok. unfold bnext at 1, enext at 1. rewrite !andb_false_r. by rewrite <- app_assoc.
  - destruct Hi as [Hp H60]. rewrite plain_chars by done. by rewrite bnext_0, enext_0.
Qed.

Lemma items_chars l b w :
  Forall item_ok l -> (length b + length (print_items l) <= 4095)%nat ->
  chars (print_items l) (mkSerial b 0 0) w = Ok (mkSerial (b ++ print_items l) 0 0, w).
Proof.
  intros H. revert b. induction H as [|i l Hi _ IH]; intros b Hl; unfold print_items in *; cbn [map concat] in *.
  - cbn [serial_chars]. by rewrite app_nil_r.
  - rewrite length_app in Hl. rewrite chars_app, item_chars by (done || lia). rewrite bind_Ok. cbv beta iota.
    rewrite IH by (rewrite length_app; lia). by rewrite <- app_assoc.
Qed.

Lemma begin_chars b w :
  (length b + 5 <= 4095)%nat -> chars (str "<msg>") (mkSerial b 0 0) w = Ok (mkSerial (str "<msg>") 0 0, w).
Proof.
  intros Hl. change (str "<msg>") with (str "<msg" ++ [62]) at 1. rewrite chars_app.
  rewrite plain_chars; [|by repeat constructor|exact ltac:(cbn; lia)]. rewrite bind_Ok. cbv beta iota.
  change (fold_left bnext (str "<msg") 0) with 4. change (fold_left enext (str "<msg") 0) with 0.
  cbn [serial_chars]. unfold serial_char. change (isspace 62) with false. cbv iota. cbn [serial_xml bstate estate].
  destruct (Nat.eqb_spec (length (b ++ str "<msg")) 4095) as [E|]; [rewrite length_app in E; cbn in E; lia|].
  unfold begin_step. cbn [serial_xml bstate estate Z.eqb Pos.eqb andb].
  destruct (Nat.ltb_spec 5 (length ((b ++ str "<msg") ++ [62]))) as [|Hb]; [done|].
  destruct b as [|c b]; [done|]. rewrite !length_app in Hb. cbn in Hb. lia.
Qed.

Lemma end_chars b w :
  (length b + 6 <= 4095)%nat ->
  chars (str "</msg>") (mkSerial b 0 0) w = (w ← parse (b ++ str "</msg>") w; Ok (mkSerial [] 0 0, w)).
Proof.
  intros Hl. change (str "</msg>") with (str "</msg" ++ [62]) at 1. rewrite chars_app.
  rewrite plain_chars; [|by repeat constructor|exact ltac:(cbn; lia)]. rewrite bind_Ok. cbv beta iota.
  change (fold_left bnext (str "</msg") 0) with 0. change (fold_left enext (str "</msg") 0) with 5.
  cbn [serial_chars]. unfold serial_char. change (isspace 62) with false. cbv iota. cbn [serial_xml bstate estate].
  destruct (Nat.eqb_spec (length (b ++ str "</msg")) 4095) as [E|]; [rewrite length_app in E; cbn in E; lia|].
  unfold begin_step. cbn [serial_xml bstate estate Z.eqb Pos.eqb andb]. unfold end_step. cbn [serial_xml bstate estate Z.eqb Pos.eqb andb].
  rewrite <- app_assoc. change (str "</msg" ++ [62]) with (str "</msg>"). by destruct (parse (b ++ str "</msg>") w).
Qed.

(** A document with what precedes it on the line. *)
Record sent_doc := mkSent { gap : list item; body : list item }.
Definition doc_text (d : sent_doc) : cstr := str "<msg>" ++ print_items (body d) ++ str "</msg>".
Definition sent_text (d : sent_doc) : cstr := print_items (gap d) ++ doc_text d.
Definition doc_ok (d : sent_doc) : Prop :=
  Forall item_ok (gap d) /\ Forall item_ok (body d) /\ (length (print_items (gap d)) <= 4090)%nat /\
  (length (doc_text d) <= 4095)%nat.

Fixpoint parse_all (l : list cstr) (w : W) : out W :=
  match l with [] => Ok w | t :: r => w ← parse t w; parse_all r w end.

Lemma doc_chars d w :
  doc_ok d -> chars (sent_text d) (mkSerial [] 0 0) w = (w ← parse (doc_text d) w; Ok (mkSerial [] 0 0, w)).
Proof.
  intros (Hg & Hb & Hlg & Hlb). unfold sent_text. rewrite chars_app, items_chars by (done || (cbn; lia)). rewrite bind_Ok.
  cbv beta iota. cbn [app]. unfold doc_text in *. rewrite !length_app in Hlb. change (length (str "<msg>")) with 5%nat in Hlb.
  change (length (str "</msg>")) with 6%nat in Hlb.
  rewrite chars_app, begin_chars, bind_Ok by lia. cbv beta iota.
  rewrite chars_app, items_chars by (done || (change (length (str "<msg>")) with 5%nat; lia)). rewrite bind_Ok. cbv beta iota.
  rewrite end_chars by (rewrite length_app; change (length (str "<msg>")) with 5%nat; lia). by rewrite <- app_assoc.
Qed.

End Framing.

Lemma docs_chars {W} (parse : cstr -> W -> out W) ds w :
  Forall doc_ok ds ->
  serial_chars parse (concat (map sent_text ds)) (mkSerial [] 0 0) w
  = (w ← parse_all parse (map doc_text ds) w; Ok (mkSerial [] 0 0, w)).
Proof.
  intros H. revert w. induction H as [|d ds Hd _ IH]; intros w; [done|]. cbn [map concat parse_all].
  rewrite chars_app, doc_chars by done. rewrite !bind_assoc. destruct (parse (doc_text d) w); [|done|done]. rewrite !bind_Ok. apply IH.
Qed.

(** ** The fields of a message *)

(** The elements of a message: with text, or a channel with its power inside. *)
Inductive field := Plain (tag v : cstr) | Channel (tag v : cstr).
Definition field_items (f : field) : list item :=
  match f with
  | Plain t v => [Tag t; Text v; Tag ([47] ++ t)]
  | Channel t v => [Tag t; Tag (str "watts"); Text v; Tag (str "/watts"); Tag ([47] ++ t)]
  end.
Definition field_events (f : field) : list sax_event :=
  match f with
  | Plain t v => [StartElement t; Characters v; EndElement t]
  | Channel t v => [StartElement t; StartElement (str "watts"); Characters v; EndElement (str "watts"); EndElement t]
  end.
Definition doc_items (fs : list field) : list item := concat (map field_items fs).
Definition doc_events (fs : list field) : list sax_event :=
  [StartElement (str "msg")] ++ concat (map field_events fs) ++ [EndElement (str "msg")].

Definition field_tag (f : field) : cstr := match f with Plain t _ | Channel t _ => t end.
Definition field_text (f : field) : cstr := match f with Plain _ v | Channel _ v => v end.

(** The value of the last element with a tag. *)
Definition last_value (fs : list field) (tag : string) : option cstr :=
  fold_left (fun r f => if strcmp0 (field_tag f) (str tag) then Some (field_text f) else r) fs None.
Definition last_number (fs : list field) (tag : string) (d : Z) : Z :=
  match last_value fs tag with Some v => atoi v | None => d end.

(** The message of the elements. *)
Definition fields_msg (m : cc_model) (old_type : Z) (fs : list field) : cc_msg :=
  mkMsg (last_value fs "tmpr") (last_value fs "tmprF")
    (last_number fs "sensor" (match m with ORIGINAL | CLASSIC => 0 | _ => -1 end)) (last_number fs "type" old_type)
    (last_value fs "ch1" ≫= dupZero) (last_value fs "ch2" ≫= dupZero) (last_value fs "ch3" ≫= dupZero)
    (last_value fs "imp" ≫= dupZero).

(** Texts of at most 39 characters; the element of a channel is one of them. *)
Definition field_ok (f : field) : Prop :=
  field_text f <> [] /\ (length (field_text f) <= 39)%nat /\ 0 ∉ field_text f /\ field_tag f <> str "msg" /\
  match f with Plain _ _ => True | Channel t _ => t = str "ch1" \/ t = str "ch2" \/ t = str "ch3" end.

Lemma cdata_id v : (length v <= 39)%nat -> 0 ∉ v -> cdata_text v = v.
Proof. intros Hl H0. unfold cdata_text. rewrite take_ge by lia. by apply c_text_id. Qed.

Lemma last_value_snoc fs f tag :
  last_value (fs ++ [f]) tag = if strcmp0 (field_tag f) (str tag) then Some (field_text f) else last_value fs tag.
Proof. unfold last_value. by rewrite fold_left_app. Qed.

(** The state with the message of the elements read so far. *)
Definition reading (g : cc_msg) (w : world) : world := on_app (fun a => set_state ST_NONE (set_msg g a)) w.

Section Sax.
Context (inifile : option (list Z)) (x : xAPIdent) (now : Z).

Lemma sax_run_app a b w : sax_run inifile x now (a ++ b) w = (w ← sax_run inifile x now a w; sax_run inifile x now b w).
Proof.
  revert w. induction a as [|ev a IH]; intros w; [done|]. cbn [app sax_run]. rewrite bind_assoc.
  destruct (sax_step inifile x now ev w); [|done|done]. rewrite !bind_Ok. apply IH.
Qed.

Lemma end_other t (w : world) : t <> str "msg" -> endElementCB inifile x now t w = Ok w.
Proof. intros H. unfold endElementCB. assert (strcmp0 (str "msg") t = false) as ->; [|done]. apply bool_decide_eq_false_2. congruence. Qed.

Lemma text_step s v g (w : world) :
  model (app_state w) <> EDF -> s <> ST_NONE ->
  sax_step inifile x now (Characters v) (on_app (set_state s) (reading g w)) = Ok (reading (store_field s (cdata_text v) g) w).
Proof.
  intros Hm Hs. unfold sax_step. cbn [app_state reading on_app model set_state set_msg]. unfold cdataBlockCB.
  cbn [app_state reading on_app state set_state set_msg msg]. by destruct (model (app_state w)), s.
Qed.

Lemma text_ignored v g (w : world) :
  model (app_state w) <> EDF -> sax_step inifile x now (Characters v) (reading g w) = Ok (reading g w).
Proof. intros Hm. unfold sax_step. cbn [app_state reading on_app model set_state set_msg]. by destruct (model (app_state w)). Qed.

Lemma run_start n r (w : world) :
  model (app_state w) <> EDF -> sax_run inifile x now (StartElement n :: r) w = sax_run inifile x now r (startElementCB n w).
Proof. intros Hm. cbn [sax_run]. unfold sax_step. by destruct (model (app_state w)). Qed.

Lemma run_end n r (w : world) :
  model (app_state w) <> EDF -> n <> str "msg" -> sax_run inifile x now (EndElement n :: r) w = sax_run inifile x now r w.
Proof. intros Hm Hn. cbn [sax_run]. unfold sax_step. destruct (model (app_state w)); try done; by rewrite end_other. Qed.

Lemma strcmp0_ne a b : a <> b -> strcmp0 a b = false.
Proof. apply bool_decide_eq_false_2. Qed.

(** The state an element of a message leads to, and the field it stands for. *)
Lemma start_known t v fs m ty g (w : world) :
  field_ok (Plain t v) -> g = fields_msg m ty fs ->
  (exists s, s <> ST_NONE /\ startElementCB t (reading g w) = on_app (set_state s) (reading g w) /\
     store_field s v g = fields_msg m ty (fs ++ [Plain t v])) \/
  (startElementCB t (reading g w) = reading g w /\ g = fields_msg m ty (fs ++ [Plain t v])).
Proof.
  intros (_ & _ & _ & Hmsg & _) ->. cbn [field_tag] in Hmsg. unfold fields_msg, last_number. rewrite !last_value_snoc. cbn [field_tag field_text].
  unfold startElementCB.
  destruct (decide (t = str "sensor")) as [->|]; [left; by exists ST_SENSOR|].
  destruct (decide (t = str "ch1")) as [->|]; [left; by exists ST_CH1|].
  destruct (decide (t = str "ch2")) as [->|]; [left; by exists ST_CH2|].
  destruct (decide (t = str "ch3")) as [->|]; [left; by exists ST_CH3|].
  destruct (decide (t = str "imp")) as [->|]; [left; by exists ST_IMP|].
  destruct (decide (t = str "tmpr")) as [->|]; [left; by exists ST_TEMPR|].
  destruct (decide (t = str "tmprF")) as [->|]; [left; by exists ST_TEMPRF|].
  destruct (decide (t = str "type")) as [->|]; [left; by exists ST_TYPE|].
  right. rewrite !strcmp0_ne by congruence. done.
Qed.

Lemma start_channel t (w : world) : t = str "ch1" \/ t = str "ch2" \/ t = str "ch3" -> exists s, startElementCB t w = on_app (set_state s) w.
Proof. intros [->|[->| ->]]; [by exists ST_CH1|by exists ST_CH2|by exists ST_CH3]. Qed.

Lemma field_run f fs m ty (w : world) :
  model (app_state w) <> EDF -> field_ok f ->
  sax_run inifile x now (field_events f) (reading (fields_msg m ty fs) w) = Ok (reading (fields_msg m ty (fs ++ [f])) w).
Proof.
  intros Hm Hf. pose proof Hf as (Hne & Hl & H0 & Hmsg & Hch).
  assert (Hp : field_ok (Plain (field_tag f) (field_text f))) by (by destruct f).
  assert (Hs : fields_msg m ty (fs ++ [f]) = fields_msg m ty (fs ++ [Plain (field_tag f) (field_text f)])).
  { unfold fields_msg, last_number. by rewrite !last_value_snoc. }
  destruct (start_known _ _ fs m ty _ w Hp eq_refl) as [(s & Hns & Hst & Hg)|[Hst Hg]].
  - assert (Hrun : forall r, sax_run inifile x now (Characters (field_text f) :: r) (on_app (set_state s) (reading (fields_msg m ty fs) w))
      = sax_run inifile x now r (reading (fields_msg m ty (fs ++ [f])) w)).
    { intros r. cbn [sax_run]. rewrite text_step, bind_Ok by done. by rewrite cdata_id, Hg, Hs by done. }
    destruct f as [t v|t v]; cbn [field_events field_tag field_text] in *; rewrite run_start, Hst by done.
    + by rewrite Hrun, run_end.
    + rewrite run_start by done. change (startElementCB (str "watts") ?w) with w. by rewrite Hrun, !run_end.
  - destruct f as [t v|t v]; cbn [field_events field_tag field_text] in *.
    + rewrite run_start, Hst by done. cbn [sax_run]. rewrite text_ignored, bind_Ok by done.
      change (w0 ← sax_step inifile x now (EndElement t) (reading (fields_msg m ty fs) w); Ok w0)
        with (sax_run inifile x now [EndElement t] (reading (fields_msg m ty fs) w)).
      rewrite run_end by done. by rewrite <- Hg.
    + exfalso. clear -Hst Hch. destruct Hch as [->|[->| ->]]; apply (f_equal (fun w => state (app_state w))) in Hst; done.
Qed.

Lemma fields_run fs done_ m ty (w : world) :
  model (app_state w) <> EDF -> Forall field_ok fs ->
  sax_run inifile x now (concat (map field_events fs)) (reading (fields_msg m ty done_) w) = Ok (reading (fields_msg m ty (done_ ++ fs)) w).
Proof.
  intros Hm H. revert done_. induction H as [|f fs Hf _ IH]; intros d; cbn [map concat]; [by rewrite app_nil_r|].
  rewrite sax_run_app, field_run, bind_Ok by done. rewrite IH. by rewrite <- app_assoc.
Qed.

(** A document is the end of a message with the fields of its elements. *)
Lemma doc_run fs (w : world) :
  model (app_state w) <> EDF -> state (app_state w) = ST_NONE -> Forall field_ok fs ->
  sax_run inifile x now (doc_events fs) w
  = endElementCB inifile x now (str "msg") (reading (fields_msg (model (app_state w)) (mtype (msg (app_state w))) fs) w).
Proof.
  intros Hm Hn Hf. unfold doc_events. rewrite app_assoc, sax_run_app.
  assert (sax_run inifile x now ([StartElement (str "msg")] ++ concat (map field_events fs)) w
    = Ok (reading (fields_msg (model (app_state w)) (mtype (msg (app_state w))) fs) w)) as ->.
  { cbn [app]. rewrite run_start by done.
    replace (startElementCB (str "msg") w) with (reading (fields_msg (model (app_state w)) (mtype (msg (app_state w))) []) w).
    - by rewrite fields_run.
    - destruct w as [? ? ? ? ? ? ? [? ? ? ? st ? ? g]]. cbn [state app_state] in Hn. by subst st. }
  rewrite bind_Ok. cbn [sax_run]. unfold sax_step. cbn [app_state reading on_app model set_state set_msg].
  destruct (model (app_state w)); try done; by destruct (endElementCB _ _ _ _ _).
Qed.

End Sax.

(** ** What the operations leave alone *)

(** A hook changes nothing but the text to display. *)
Lemma run_info_app i p c (w : world) b w' :
  run_info i p c w = Ok (b, w') ->
  w' = w \/ exists e d, endpoints w !! p = Some e /\ w' = put_ep p (with_display d e) w.
Proof.
  intros H. destruct i; cbn [run_info] in H; unfold infoEventChannel, infoEventTemp, sensorInfoEvent in H.
  all: inv_bind H; unfold get_ep in Ha; apply of_opt_Ok in Ha; repeat (inv_bind H).
  - case_match; injection H as <- <-; eauto.
  - destruct a1; [|injection H as <- <-; eauto]. inv_bind H. injection H as <- <-. eauto.
  - destruct a2; [|injection H as <- <-; eauto]. destruct (unit_ a0); [|injection H as <- <-; eauto].
    inv_bind H. injection H as <- <-. eauto.
Qed.

(** The endpoints stay with their names; [R] relates their contents. *)
Definition eps_rel (R : endpoint -> endpoint -> Prop) (w w' : world) : Prop :=
  forall q, match endpoints w !! q with
            | Some e => exists e', endpoints w' !! q = Some e' /\ name e' = name e /\ subaddr e' = subaddr e /\ R e e'
            | None => True
            end.

Lemma eps_rel_refl R (w : world) : (forall e, R e e) -> eps_rel R w w.
Proof. intros H q. destruct (endpoints w !! q); [|done]. eauto 10. Qed.

Lemma eps_rel_trans (R : endpoint -> endpoint -> Prop) a b c :
  (forall e1 e2 e3, name e1 = name e2 -> subaddr e1 = subaddr e2 -> R e1 e2 -> R e2 e3 -> R e1 e3) -> eps_rel R a b -> eps_rel R b c -> eps_rel R a c.
Proof.
  intros HR H1 H2 q. specialize (H1 q). destruct (endpoints a !! q) as [e1|]; [|done]. destruct H1 as (e2 & He2 & Hn & Hs & H12).
  specialize (H2 q). rewrite He2 in H2. destruct H2 as (e3 & He3 & Hn' & Hs' & H23). exists e3. split; [done|]. split; [congruence|]. split; [congruence|].
  by eapply HR.
Qed.

Lemma eps_rel_put (R : endpoint -> endpoint -> Prop) p e e' (w : world) :
  (forall e, R e e) -> endpoints w !! p = Some e -> name e' = name e -> subaddr e' = subaddr e -> R e e' -> eps_rel R w (put_ep p e' w).
Proof.
  intros Hr He Hn Hs HR q. cbn. destruct (decide (p = q)) as [->|Hne]; [rewrite He, lookup_insert_eq; eauto|].
  rewrite lookup_insert_ne by done. destruct (endpoints w !! q); eauto 10.
Qed.

(** An event changes the text to display and the time of the report. *)
Lemma send_event_eps now p (w w' : world) :
  bscSendEvent run_info now p w = Ok w' ->
  eps_rel (fun e e' => text e' = text e) w w' /\ app_state w' = app_state w /\ next w' = next w /\ dom (endpoints w') = dom (endpoints w).
Proof.
  assert (Hput : forall q e d (v : world), endpoints v !! q = Some e -> dom (endpoints (put_ep q d v)) = dom (endpoints v)).
  { intros q e d v He. cbn. rewrite dom_insert_L. apply subseteq_union_1_L, singleton_subseteq_l, elem_of_dom. eauto. }
  unfold bscSendEvent, bscSendInfoEvent. intros H. inv_bind H. inv_bind H. destruct a0 as [b w1].
  assert (H1 : eps_rel (fun e e' => text e' = text e) w w1 /\ app_state w1 = app_state w /\ next w1 = next w /\ dom (endpoints w1) = dom (endpoints w)).
  { destruct (infoEvent a); [|injection Ha0 as _ <-; split; [by apply eps_rel_refl|done]].
    destruct (run_info_app _ _ _ _ _ _ Ha0) as [->|(e & d & He & ->)]; [split; [by apply eps_rel_refl|done]|].
    split; [by eapply eps_rel_put|]. split; [done|]. split; [done|by eapply Hput]. }
  destruct H1 as (H1 & H2 & H3 & H4). destruct b; [|by injection H as <-].
  unfold bscInfoEvent in H. repeat (inv_bind H). unfold get_ep in Ha1. apply of_opt_Ok in Ha1.
  case_match; injection H as <-; [done|]. split.
  - eapply eps_rel_trans; [|exact H1|by apply (eps_rel_put _ p a0 (with_report now a0) w1)]. cbv beta. congruence.
  - split; [done|]. split; [done|]. rewrite <- H4. by apply (Hput p a0 (with_report now a0) w1).
Qed.

(** Endpoints are below [next]; [ccTotal] is the endpoint [ch.total]. *)
Record cc_wf (w : world) : Prop := {
  wf_next : forall q, is_Some (endpoints w !! q) -> (q < next w)%positive;
  wf_total : forall p, ccTotal (app_state w) = Some p ->
    exists e, endpoints w !! p = Some e /\ name e = str "ch" /\ subaddr e = Some (str "total");
}.

Definition any (e e' : endpoint) : Prop := True.

(** What every operation does: the configuration stays, and a well-formed state
    stays well-formed with its endpoints. *)
Definition keeps (w w' : world) : Prop :=
  model (app_state w') = model (app_state w) /\ hysteresis (app_state w') = hysteresis (app_state w) /\
  (cc_wf w -> cc_wf w' /\ eps_rel any w w').

#[export] Instance keeps_preorder : PreOrder keeps.
Proof.
  split.
  - intros w. split; [done|]. split; [done|]. intros H. split; [done|]. by apply eps_rel_refl.
  - intros a b c (H1 & H2 & H3) (H4 & H5 & H6). split; [congruence|]. split; [congruence|]. intros Ha.
    destruct (H3 Ha) as [Hb Hab]. destruct (H6 Hb) as [Hc Hbc]. split; [done|]. by eapply eps_rel_trans; [| |exact Hbc].
Qed.

(** A change of endpoints in place. *)
Lemma keeps_eps (w w' : world) :
  eps_rel any w w' -> dom (endpoints w') = dom (endpoints w) -> next w' = next w -> ccTotal (app_state w') = ccTotal (app_state w) ->
  model (app_state w') = model (app_state w) -> hysteresis (app_state w') = hysteresis (app_state w) -> keeps w w'.
Proof.
  intros He Hd Hn Ht Hm Hh. split; [done|]. split; [done|]. intros Hw. split; [|done]. split.
  - intros q Hq. rewrite Hn. apply (wf_next w Hw). rewrite <- elem_of_dom, <- Hd. by apply elem_of_dom.
  - intros p. rewrite Ht. intros (e & Hp & Hna & Hsu)%(wf_total w Hw). specialize (He p). rewrite Hp in He.
    destruct He as (e' & ? & ? & ? & _). exists e'. split; [done|]. split; congruence.
Qed.

Lemma keeps_send now p (w w' : world) : bscSendEvent run_info now p w = Ok w' -> keeps w w'.
Proof.
  intros (H1 & H2 & H3 & H4)%send_event_eps. apply keeps_eps; [|done|done|by rewrite H2|by rewrite H2|by rewrite H2].
  intros q. specialize (H1 q). destruct (endpoints w !! q); [|done]. destruct H1 as (e' & ? & ? & ? & _). by exists e'.
Qed.

Lemma keeps_put p e e' (w : world) : endpoints w !! p = Some e -> name e' = name e -> subaddr e' = subaddr e -> keeps w (put_ep p e' w).
Proof.
  intros He Hn Hs. apply keeps_eps; try done; [by eapply eps_rel_put|]. cbn. rewrite dom_insert_L.
  apply subseteq_union_1_L, singleton_subseteq_l, elem_of_dom. eauto.
Qed.

Lemma keeps_app f (w : world) :
  (forall a, model (f a) = model a /\ hysteresis (f a) = hysteresis a /\ ccTotal (f a) = ccTotal a) -> keeps w (on_app f w).
Proof. intros H. apply keeps_eps; try done; [exact (eps_rel_refl any w (fun _ => I))|apply H..]. Qed.

Lemma keeps_user p u (w : world) : keeps w (put_user p u w).
Proof. by apply keeps_app. Qed.

Lemma keeps_uid n (w : world) : keeps w (bscSetEndpointUID n w).
Proof. apply keeps_eps; try done. exact (eps_rel_refl any w (fun _ => I)). Qed.

(** An event of an endpoint that was changed in place. *)
Lemma keeps_update_send now p e e' u (w w' : world) :
  endpoints w !! p = Some e -> name e' = name e -> subaddr e' = subaddr e ->
  bscSendEvent run_info now p (put_ep p e' (put_user p u w)) = Ok w' -> keeps w w'.
Proof.
  intros He Hn Hs H%keeps_send. etransitivity; [|exact H]. etransitivity; [apply (keeps_user p u)|]. by eapply keeps_put.
Qed.

Lemma reading_state_name (e e' : endpoint) : reading_state e = Ok e' -> name e' = name e /\ subaddr e' = subaddr e /\ text e' = text e.
Proof. unfold reading_state. intros H. destruct (_ =? _); [inv_bind H|]; by injection H as <-. Qed.

Lemma rotate_put p u e e' v (w : world) : put_ep p e' (rotate p u e v w) = put_ep p e' (put_user p (with_previous (text e) u) w).
Proof. unfold put_ep, rotate. cbn. unfold set_endpoints. cbn. by rewrite insert_insert_eq. Qed.

Lemma keeps_new_reading now p v (w w' : world) : new_reading now p v w = Ok w' -> keeps w w'.
Proof.
  unfold new_reading. intros H. do 3 inv_bind H. unfold get_ep in Ha. apply of_opt_Ok in Ha. rewrite rotate_put in H.
  apply reading_state_name in Ha1 as (Hn & Hs & _). by eapply keeps_update_send; [exact Ha|exact Hn|exact Hs|].
Qed.

Lemma keeps_update_value now p v (w w' : world) : updateEndpointValue now p v w = Ok w' -> keeps w w'.
Proof.
  unfold updateEndpointValue. intros H. inv_bind H. inv_bind H. destruct (utype a0 =? 73).
  - destruct (currentValue a0); [|injection H as <-; apply keeps_user]. destruct (_ || _); [|by injection H as <-].
    inv_bind H. unfold get_ep in Ha. apply of_opt_Ok in Ha. by eapply keeps_update_send in H.
  - destruct (same_text _ _); [by injection H as <-|]. by apply keeps_new_reading in H.
Qed.

Lemma add_filter_shape x p i (w w' : world) :
  bscAddEndpointFilter x p i w = Ok w' ->
  exists e u src, endpoints w !! p = Some e /\ endpoints w' = <[p := with_address u src e]> (endpoints w) /\ app_state w' = app_state w /\
    (next w <= next w')%positive.
Proof.
  intros H. unfold bscAddEndpointFilter in H. inv_bind H. inv_bind H. unfold get_ep in Ha. apply of_opt_Ok in Ha. cbv zeta in H.
  exists a, a0, (bscFQEN (source x) a). split; [done|].
  destruct (io a =? BSC_OUTPUT); inv_bind H; destruct a1 as [tl nx]; apply Ok_inj in H; subst w'; cbn [endpoints put_ep set_endpoints app_state next];
    (split; [done|]); (split; [done|]); (destruct (0 <? i); [inv_bind Ha1|]; injection Ha1 as _ <-; lia).
Qed.

(** A new endpoint has its name and is added to the list. *)
Lemma new_endpoint_ok inifile x n s t ie st (w w' : world) p :
  newBscEndpoint inifile x n s t ie st w = Ok (p, w') ->
  keeps w w' /\ ccTotal (app_state w') = ccTotal (app_state w) /\ endpointList (app_state w') = p :: endpointList (app_state w) /\ p = next w /\
  (exists e, endpoints w' !! p = Some e /\ name e = n /\ subaddr e = s) /\
  (forall q, q <> p -> endpoints w' !! q = endpoints w !! q).
Proof.
  unfold newBscEndpoint. intros H. inv_bind H. destruct a as [[p1 l1] w1]. inv_bind H. destruct a as [h un]. inv_bind H. injection H as <- <-.
  unfold bscAddEndpoint in Ha. inv_bind Ha. injection Ha as <- <- <-.
  apply add_filter_shape in Ha1 as (e0 & u & src & He0 & Hep & Happ & Hnx). cbn [endpoints put_user on_app next] in He0, Hnx, Hep.
  rewrite lookup_insert_eq in He0. injection He0 as <-.
  assert (Hlk : forall q, q <> next w -> endpoints a !! q = endpoints w !! q).
  { intros q Hq. by rewrite Hep, !lookup_insert_ne. }
  split; [|split; [by rewrite Happ|split; [by rewrite Happ|split; [done|split]]]].
  - split; [by rewrite Happ|]. split; [by rewrite Happ|]. intros Hw.
    assert (Hfresh : endpoints w !! next w = None).
    { apply eq_None_not_Some. intros Hx%(wf_next w Hw). lia. }
    split; [split|].
    + intros q Hq. destruct (decide (q = next w)) as [->|Hne]; [lia|]. rewrite Hlk in Hq by done. apply (wf_next w Hw) in Hq. lia.
    + intros p Hp. rewrite Happ in Hp. destruct (wf_total w Hw p Hp) as (e & He & Hn & Hs). exists e. split; [|done]. rewrite Hlk; [done|]. congruence.
    + intros q. destruct (endpoints w !! q) as [e|] eqn:He; [|done]. exists e. split; [|done]. rewrite Hlk; [done|]. congruence.
  - eexists. split; [by rewrite Hep, lookup_insert_eq|done].
  - done.
Qed.

Lemma keeps_update_sensor inifile x now i fmt v ie o (w w' : world) :
  updateSensor inifile x now i fmt v ie o w = Ok w' -> keeps w w'.
Proof.
  unfold updateSensor. intros H. inv_bind H. inv_bind H. destruct a0 as [p w1]. apply keeps_update_value in H.
  transitivity w1; [|done]. destruct a; [by injection Ha0 as _ <-|]. do 3 inv_bind Ha0. inv_bind Ha0. destruct a2.
  apply new_endpoint_ok in Ha0 as [Ha0 _]. etransitivity; [apply keeps_uid|exact Ha0].
Qed.

(** *** The total of the channels *)

(** The texts of the channels other than the total. *)
Definition is_channel (e : endpoint) : Prop := name e = str "ch" /\ subaddr e <> Some (str "total").
Definition same_reading (e e' : endpoint) : Prop := is_channel e -> text e' = text e.

Lemma same_reading_trans (e1 e2 e3 : endpoint) :
  name e1 = name e2 -> subaddr e1 = subaddr e2 -> same_reading e1 e2 -> same_reading e2 e3 -> same_reading e1 e3.
Proof. intros Hn Hs H12 H23 H. rewrite H23; [by apply H12|]. unfold is_channel in *. congruence. Qed.

Lemma sum_same l t n (w w' : world) r :
  eps_rel same_reading w w' -> sum_channels l t n w = Ok r -> sum_channels l t n w' = Ok r.
Proof.
  intros Hs. revert t n. induction l as [|p l IH]; intros t n H; [done|]. cbn [sum_channels] in *. inv_bind H.
  unfold get_ep in Ha. apply of_opt_Ok in Ha. specialize (Hs p) as He. rewrite Ha in He. destruct He as (e' & He' & Hn & Hsub & Htxt).
  unfold get_ep. rewrite He'. cbn [of_opt].
  rewrite bind_Ok, Hn. destruct (strcmp0 (str "ch") (name a)) eqn:Hch; [|by apply IH]. rewrite Hsub. inv_bind H. rewrite Ha0, bind_Ok.
  destruct (strcmp0 (str "total") a0) eqn:Htot; [by apply IH|]. rewrite Htxt, ?bind_Ok.
  - inv_bind H. rewrite Ha1, bind_Ok. inv_bind H. rewrite Ha2, bind_Ok. by apply IH.
  - apply of_opt_Ok in Ha0. apply strcmp0_spec in Hch. split; [done|]. rewrite Ha0. intros [= ->]. by rewrite strcmp0_refl in Htot.
Qed.

(** The total is in the list or is added to it, and shows the sum. *)
Definition shows_total (t : Z) (w : world) : Prop :=
  exists p e, ccTotal (app_state w) = Some p /\ endpoints w !! p = Some e /\ text e = Some (snprintf 10 (fmt_d t)).

Lemma total_text now t (w w' : world) p e u :
  cc_wf w -> ccTotal (app_state w) = Some p -> endpoints w !! p = Some e ->
  bscSendEvent run_info now p (rotate p u e (Some (snprintf 10 (fmt_d t))) w) = Ok w' ->
  keeps w w' /\ eps_rel same_reading w w' /\ shows_total t w' /\ endpointList (app_state w') = endpointList (app_state w).
Proof.
  intros Hw Hp He H. unfold rotate in H. pose proof H as (H1 & H2 & H3 & H4)%send_event_eps.
  destruct (wf_total w Hw p Hp) as (e1 & He1 & Hn & Hs). assert (e1 = e) as -> by congruence.
  set (e' := with_text (Some (snprintf 10 (fmt_d t))) e) in *.
  assert (He' : name e' = name e /\ subaddr e' = subaddr e /\ text e' = Some (snprintf 10 (fmt_d t))) by done. clearbody e'.
  destruct He' as (Hn' & Hs' & Ht'). split; [|split; [|split]].
  - by eapply keeps_update_send in H.
  - eapply eps_rel_trans; [apply same_reading_trans| |].
    + apply (eps_rel_put _ p e e' w); try done. by intros [_ Hc].
    + intros q. specialize (H1 q). cbn in H1 |- *. destruct (<[p := e']> (endpoints w) !! q); [|done].
      destruct H1 as (e2 & ? & ? & ? & ?). exists e2. by split_and!; [..|intros _].
  - specialize (H1 p). cbn in H1. rewrite lookup_insert_eq in H1. destruct H1 as (e2 & He2 & _ & _ & Ht).
    exists p, e2. split; [by rewrite H2|]. split; [done|]. by rewrite Ht.
  - by rewrite H2.
Qed.

(** The endpoint [ch.total], created when it is first needed. *)
Lemma total_created inifile x (w w1 : world) p :
  cc_wf w -> ccTotal (app_state w) = None ->
  ('(p, w) ← newBscEndpoint inifile x (str "ch") (Some (str "total")) BSC_STREAM (Some infoEventChannel_cb) 65 (bscSetEndpointUID 5 w);
   e ← get_ep p (on_app (set_total (Some p)) w);
   Ok (p, put_ep p (bscSetState BSC_STATE_ON e) (on_app (set_total (Some p)) w))) = Ok (p, w1) ->
  cc_wf w1 /\ eps_rel same_reading w w1 /\ ccTotal (app_state w1) = Some p /\
  forall r, sum_channels (endpointList (app_state w)) 0 0 w = Ok r -> sum_channels (endpointList (app_state w1)) 0 0 w1 = Ok r.
Proof.
  intros Hw Hq Ha. inv_bind Ha. destruct a as [p2 w2]. inv_bind Ha. injection Ha as <- <-.
  apply new_endpoint_ok in Ha0 as (Hk & Ht & Hl & Hp & (e & He & Hn & Hs) & Hrest). cbn in Hp, Hrest, Hl, Ht.
  pose proof (keeps_uid 5 w) as (_ & _ & Hku). destruct (Hku Hw) as [Hwu Heu]. destruct Hk as (_ & _ & Hk). destruct (Hk Hwu) as [Hw2 Hr2].
  unfold get_ep in Ha1. cbn in Ha1. rewrite He in Ha1. cbn [of_opt] in Ha1. injection Ha1 as <-.
  assert (Hrel : eps_rel same_reading w (put_ep p2 (bscSetState BSC_STATE_ON e) (on_app (set_total (Some p2)) w2))).
  { intros q. cbn. destruct (endpoints w !! q) as [e1|] eqn:He1; [|done]. destruct (decide (p2 = q)) as [<-|Hne].
    - exfalso. assert (next w < next w)%positive by (apply (wf_next w Hw); rewrite <- Hp; eauto). lia.
    - rewrite lookup_insert_ne, Hrest by done. by exists e1. }
  split; [|split; [done|split; [done|]]].
  - split; cbn.
    + intros q Hq'. apply (wf_next w2 Hw2). destruct (decide (p2 = q)) as [<-|Hne]; [eauto|]. by rewrite lookup_insert_ne in Hq'.
    + intros q [= <-]. rewrite lookup_insert_eq. by eexists.
  - intros r Hsum. cbn [put_ep set_endpoints on_app app_state set_total endpointList]. rewrite Hl. cbn [sum_channels].
    unfold get_ep at 1. cbn [put_ep set_endpoints endpoints on_app].
    rewrite lookup_insert_eq. cbn [of_opt]. rewrite bind_Ok. change (name (bscSetState BSC_STATE_ON e)) with (name e).
    change (subaddr (bscSetState BSC_STATE_ON e)) with (subaddr e). rewrite Hn, strcmp0_refl, Hs. cbn [of_opt]. rewrite bind_Ok, strcmp0_refl.
    by eapply sum_same.
Qed.

Lemma eps_rel_any R (w w' : world) : eps_rel R w w' -> eps_rel any w w'.
Proof. intros H q. specialize (H q). destruct (endpoints w !! q); [|done]. destruct H as (e' & ? & ? & ? & _). by exists e'. Qed.

Lemma update_total_ok inifile x now t (w w' : world) :
  update_total inifile x now t w = Ok w' ->
  keeps w w' /\ (cc_wf w -> shows_total t w' /\
    forall r, sum_channels (endpointList (app_state w)) 0 0 w = Ok r -> sum_channels (endpointList (app_state w')) 0 0 w' = Ok r).
Proof.
  intros H. unfold update_total in H. inv_bind H. destruct a as [p w1]. do 2 inv_bind H. unfold get_ep in Ha1. apply of_opt_Ok in Ha1.
  assert (H1 : model (app_state w1) = model (app_state w) /\ hysteresis (app_state w1) = hysteresis (app_state w) /\
    (cc_wf w -> cc_wf w1 /\ eps_rel same_reading w w1 /\ ccTotal (app_state w1) = Some p /\
       forall r, sum_channels (endpointList (app_state w)) 0 0 w = Ok r -> sum_channels (endpointList (app_state w1)) 0 0 w1 = Ok r)).
  { destruct (ccTotal (app_state w)) as [q|] eqn:Hq.
    - injection Ha as <- <-. split; [done|]. split; [done|]. intros Hw. split_and!; [done|by apply eps_rel_refl|done|done].
    - assert (Hc : model (app_state w1) = model (app_state w) /\ hysteresis (app_state w1) = hysteresis (app_state w)).
      { clear -Ha. inv_bind Ha. destruct a as [p2 w2]. cbv zeta in Ha. inv_bind Ha. injection Ha as <- <-.
        apply new_endpoint_ok in Ha0 as ((H1 & H2 & _) & _). done. }
      destruct Hc. split; [done|]. split; [done|]. intros Hw. by eapply total_created. }
  destruct H1 as (Hm1 & Hh1 & H1). pose proof H as Hs. unfold rotate in Hs.
  eapply keeps_update_send in Hs as (Hm2 & Hh2 & Hk2); [|exact Ha1|done|done].
  split.
  - split; [congruence|]. split; [congruence|]. intros Hw. destruct (H1 Hw) as (Hw1 & Hr1 & _). destruct (Hk2 Hw1) as [Hw2 Hr2].
    split; [done|]. eapply eps_rel_trans; [|by eapply eps_rel_any|exact Hr2]. done.
  - intros Hw. destruct (H1 Hw) as (Hw1 & Hr1 & Hp1 & Hs1). apply total_text in H as (_ & Hr & Hsh & Hl); [|done..].
    split; [done|]. intros r Hsum%Hs1. rewrite Hl. by eapply sum_same.
Qed.

Lemma keeps_whole inifile x now n s v ie o (w w' : world) :
  updateWholeOfHouseEndpoint inifile x now n s v ie o w = Ok w' -> keeps w w'.
Proof.
  unfold updateWholeOfHouseEndpoint. intros H. inv_bind H. inv_bind H. destruct a0 as [p w1]. inv_bind H. apply keeps_update_value in Ha1.
  transitivity w1.
  { destruct a; [by injection Ha0 as _ <-|]. apply new_endpoint_ok in Ha0 as [Ha0 _]. etransitivity; [apply keeps_uid|exact Ha0]. }
  transitivity a0; [done|]. destruct (strcmp0 (str "ch") (str n)); [|by injection H as <-]. inv_bind H. destruct a1.
  case_match; [by apply update_total_ok in H as [H _]|by injection H as <-].
Qed.

Lemma keeps_when f g (w w' : world) : (forall v w w', g v w = Ok w' -> keeps w w') -> when f g w = Ok w' -> keeps w w'.
Proof. intros Hg H. destruct f; cbn [when] in H; [by apply Hg in H|by injection H as <-]. Qed.

Lemma keeps_end inifile x now n (w w' : world) : endElementCB inifile x now n w = Ok w' -> keeps w w'.
Proof.
  unfold endElementCB, channel, temperature. intros H. destruct (strcmp0 _ _); [|by injection H as <-].
  destruct (_ =? 0); [|destruct (0 <? _); [|by injection H as <-]].
  all: repeat match type of H with (_ ≫= _) = _ => let a := fresh "a" in let Ha := fresh "Ha" in apply bind_Ok_inv in H; destruct H as (a & Ha & H);
         apply keeps_when in Ha; [|intros ? ? ?; (apply keeps_whole || apply keeps_update_sensor)] end.
  all: apply keeps_when in H; [|intros ? ? ?; apply keeps_whole].
  all: repeat (etransitivity; [eassumption|]); done.
Qed.

(** ** Messages on the line *)

(** A message with what precedes it on the line. *)
Record sent_msg := mkSentMsg { msg_gap : list item; msg_fields : list field }.
Definition as_doc (m : sent_msg) : sent_doc := mkSent (msg_gap m) (doc_items (msg_fields m)).
Definition sent_ok (m : sent_msg) : Prop := doc_ok (as_doc m) /\ Forall field_ok (msg_fields m).

(** What a message does: the readings of its fields are taken. *)
Definition deliver (inifile : option (list Z)) (x : xAPIdent) (now : Z) (fs : list field) (w : world) : out world :=
  endElementCB inifile x now (str "msg") (reading (fields_msg (model (app_state w)) (mtype (msg (app_state w))) fs) w).
Fixpoint deliver_all (inifile : option (list Z)) (x : xAPIdent) (now : Z) (l : list (list field)) (w : world) : out world :=
  match l with [] => Ok w | fs :: r => w ← deliver inifile x now fs w; deliver_all inifile x now r w end.

Lemma parse_messages inifile x sax now ms (w : world) :
  model (app_state w) <> EDF -> Forall sent_ok ms ->
  (forall m, m ∈ ms -> sax (doc_text (as_doc m)) = doc_events (msg_fields m)) ->
  parse_all (parseXml inifile x sax now) (map doc_text (map as_doc ms)) w = deliver_all inifile x now (map msg_fields ms) w.
Proof.
  intros Hm Hok Hsax. revert w Hm. induction Hok as [|m ms [_ Hf] _ IH]; intros w Hm; [done|]. cbn [map parse_all deliver_all].
  assert (parseXml inifile x sax now (doc_text (as_doc m)) w = deliver inifile x now (msg_fields m) w) as ->.
  { unfold parseXml. rewrite Hsax by (by left). by rewrite doc_run. }
  destruct (deliver inifile x now (msg_fields m) w) as [w1| |] eqn:E; [|done|done]. rewrite !bind_Ok. apply IH.
  - intros m' Hm'. apply Hsax. by right.
  - unfold deliver in E. apply keeps_end in E as [E _]. rewrite E. by cbn [reading on_app app_state model set_state set_msg].
Qed.

(** ** Readings *)

(** An endpoint whose messages fit, with texts of at most 15 characters. *)
Definition small_ep (e : endpoint) : Prop :=
  fields_ok e /\ (length (pstr (ep_uid e)) + length (pstr (ep_source e)) + length (pstr (displayText e)) <= 1200)%nat.

Lemma small_event_fits (e : endpoint) : small_ep e -> (length (pstr (text e)) <= 100)%nat -> (length (print_msg (info_msg e BSC_EVENT_CLASS)) <= 1499)%nat.
Proof.
  intros ([Hio Hst] & Hlen) Ht. rewrite info_text, !length_app.
  assert (length (match displayText e with Some (d :: ds) => str "displaytext=" ++ (d :: ds) ++ [10%Z] | _ => [] end)
          <= 13 + length (pstr (displayText e)))%nat.
  { destruct (displayText e) as [[|d ds]|]; cbn [pstr]; rewrite ?length_app; simpl; lia. }
  assert (length (if (type e =? BSC_LEVEL)%Z then str "level=" ++ pstr (text e) ++ [10%Z]
                  else if (type e =? BSC_STREAM)%Z then str "text=" ++ pstr (text e) ++ [10%Z] else [])
          <= 7 + length (pstr (text e)))%nat.
  { repeat case_match; rewrite ?length_app; simpl; lia. }
  assert (length (state_text (ep_state e)) <= 3)%nat by (unfold state_text; repeat case_match; simpl; lia).
  assert (length (io_text (io e)) <= 6)%nat by (unfold io_text; repeat case_match; simpl; lia).
  simpl in *. lia.
Qed.

Lemma send_default now p (w : world) e :
  endpoints w !! p = Some e -> infoEvent e = None -> small_ep e -> (length (pstr (text e)) <= 100)%nat ->
  bscSendEvent run_info now p w = Ok (reported now p e (print_msg (info_msg e BSC_EVENT_CLASS)) w).
Proof.
  intros He Hi Hs Ht. pose proof (small_event_fits e Hs Ht). unfold bscSendEvent, bscSendInfoEvent, get_ep. rewrite He. cbn [of_opt].
  rewrite bind_Ok, Hi, bind_Ok. rewrite (info_event_eq now p _ w e); [|done|apply Hs|lia]. by rewrite take_ge by lia.
Qed.

Lemma fmt_d_inj a b : int_range a -> int_range b -> fmt_d a = fmt_d b -> a = b.
Proof. intros Ha Hb H. rewrite <- (atoi_fmt_d a), <- (atoi_fmt_d b) by done. by rewrite H. Qed.

Lemma strcmp0_fmt a b : int_range a -> int_range b -> strcmp0 (fmt_d a) (fmt_d b) = (a =? b).
Proof.
  intros Ha Hb. destruct (Z.eqb_spec a b) as [->|Hn]; [by apply strcmp0_refl|]. apply bool_decide_eq_false_2. intros H. by apply fmt_d_inj in H.
Qed.

(** Readings of a meter at their times. *)
Fixpoint readings (p : addr) (l : list (Z * Z)) (w : world) : out world :=
  match l with
  | [] => Ok w
  | (now, v) :: r => w ← updateEndpointValue now p (fmt_d v) w; readings p r w
  end.

(** *** Impulse meters *)

(** An endpoint of an impulse meter with its last two readings. *)
Definition meter (p : addr) (e0 : endpoint) (cur prev : option Z) (w : world) : Prop :=
  (exists e t n, endpoints w !! p = Some e /\ e = with_report n (with_text (Some t) (with_state (ep_state e) e0)) /\ fields_ok e) /\
  exists h un, userData (app_state w) !! p = Some (mkUser 73 (fmt_d <$> prev) (fmt_d <$> cur) h un).

(** The event with a difference. *)
Definition delta_msg (e0 : endpoint) (d : Z) : cstr :=
  print_msg (info_msg (with_text (Some (fmt_d d)) (with_state BSC_STATE_ON e0)) BSC_EVENT_CLASS).

Definition meter_ep (e : endpoint) : Prop := small_ep e /\ infoEvent e = None.

(** A reading that is announced, or not. *)
Lemma meter_step p e0 c prev now v (w : world) :
  meter_ep e0 -> meter p e0 (Some c) prev w -> int_range c -> int_range v -> int_range (v - c) -> match prev with Some q => int_range q | None => True end ->
  if negb (v =? c) || match prev with Some q => negb (c =? q) | None => false end
  then exists w', updateEndpointValue now p (fmt_d v) w = Ok w' /\ meter p e0 (Some v) (Some c) w' /\ sent w' = sent w ++ [delta_msg e0 (v - c)]
  else updateEndpointValue now p (fmt_d v) w = Ok w.
Proof.
  intros (Hs & Hi) ((e & t & n & He & Heq & Hf) & h & un & Hu) Hc Hv Hd Hq. unfold updateEndpointValue, get_ep, get_user.
  rewrite He, Hu. cbn [of_opt fmap option_fmap option_map]. rewrite !bind_Ok. cbn [utype currentValue previousValue uhysteresis unit_].
  change (73 =? 73) with true. cbv iota.
  assert (Ht : text e = Some t) by (by rewrite Heq). rewrite Ht. cbn [orb]. rewrite strcmp0_fmt by done.
  assert (Hprev : match fmt_d <$> prev with Some q => negb (strcmp0 (fmt_d c) q) | None => false end
                  = match prev with Some q => negb (c =? q) | None => false end).
  { destruct prev as [q|]; [|done]. cbn [fmap option_fmap option_map]. by rewrite strcmp0_fmt. }
  cbn [fmap option_fmap option_map] in Hprev |- *. rewrite Hprev.
  destruct (negb (v =? c) || _); [|done].
  rewrite !atoi_fmt_d by done. replace (v - c) with (v + - c) in * by lia. rewrite add_int_Ok, bind_Ok by done.
  destruct (fmt_d_value (v + - c)) as [_ Hl]; [done|]. unfold snprintf. rewrite take_ge by lia. cbv zeta.
  set (e1 := bscSetState BSC_STATE_ON (with_text (Some (fmt_d (v + - c))) e)).
  assert (He1 : e1 = with_report n (with_text (Some (fmt_d (v + - c))) (with_state BSC_STATE_ON e0))) by (unfold e1; by rewrite Heq).
  clearbody e1.
  rewrite (send_default now p _ e1); [|apply lookup_insert_eq|rewrite He1; done| |rewrite He1; cbn [pstr text with_report with_text]; lia].
  - eexists. split; [reflexivity|]. split; [split|].
    + exists (with_report now e1), (fmt_d (v + - c)), now. split; [cbn; by rewrite lookup_insert_eq|]. split; [rewrite He1; done|].
      rewrite He1. destruct Hs as [[? ?] _]. split; cbn; unfold BSC_STATE_ON; lia.
    + exists h, un. cbn. by rewrite lookup_insert_eq.
    + cbn. rewrite He1. done.
  - rewrite He1. destruct Hs as [[? ?] ?]. split; [split; cbn; unfold BSC_STATE_ON; lia|done].
Qed.

(** Announced differences: no zero follows a zero or comes first. *)
Fixpoint settled (z : bool) (ds : list Z) : Prop :=
  match ds with [] => True | d :: r => (z = true -> d <> 0) /\ settled (d =? 0) r end.
Definition sum (ds : list Z) : Z := fold_right Z.add 0 ds.

(** Every reading and every difference between two is an [int]. *)
Definition in_range (l : list Z) : Prop := forall a b, a ∈ l -> b ∈ l -> int_range a /\ int_range (a - b).

Lemma in_range_sub l l' : l ⊆ l' -> in_range l' -> in_range l.
Proof. intros Hs H a b Ha Hb. apply H; by apply Hs. Qed.

Lemma meter_run p e0 l c prev (w : world) :
  meter_ep e0 -> meter p e0 (Some c) prev w -> in_range (option_list prev ++ c :: map snd l) ->
  exists ds w', readings p l w = Ok w' /\ sent w' = sent w ++ map (delta_msg e0) ds /\ sum ds = List.last (map snd l) c - c /\
    settled (match prev with Some q => c =? q | None => true end) ds.
Proof.
  intros Hm. revert c prev w. induction l as [|[now v] l IH]; intros c prev w Hw Hr.
  - exists [], w. cbn [readings map List.last sum fold_right settled]. rewrite app_nil_r. split_and!; [done|done|lia|done].
  - cbn [map snd] in Hr.
    assert (Hc : int_range c) by (apply (Hr c c); apply elem_of_app; right; by left).
    assert (Hv : int_range v /\ int_range (v - c)) by (apply Hr; apply elem_of_app; right; [right; by left|by left]).
    pose proof (meter_step p e0 c prev now v w Hm Hw Hc (proj1 Hv) (proj2 Hv)) as Hstep.
    assert (Hq : match prev with Some q => int_range q | None => True end).
    { destruct prev as [q|]; [|done]. apply (Hr q q); by left. }
    specialize (Hstep Hq). cbn [readings]. assert (Hlast : forall d, List.last (v :: map snd l) d = List.last (map snd l) v).
    { intros d. clear. revert v. induction (map snd l) as [|y r IHl]; intros v; [done|]. cbn. destruct r; [done|]. apply IHl. }
    destruct (negb (v =? c) || _) eqn:Hb.
    + destruct Hstep as (w1 & -> & Hw1 & Hs1). rewrite bind_Ok.
      destruct (IH v (Some c) w1 Hw1) as (ds & w2 & E & Hs2 & Hsum & Hset).
      { eapply in_range_sub; [|exact Hr]. cbn [option_list app]. set_solver. }
      exists ((v - c) :: ds), w2. split; [done|]. split; [rewrite Hs2, Hs1, <- app_assoc; done|]. split.
      * cbn [map snd sum fold_right]. rewrite Hlast. unfold sum in Hsum. lia.
      * cbn [settled]. split; [|by replace (v - c =? 0) with (v =? c) by (destruct (Z.eqb_spec v c), (Z.eqb_spec (v - c) 0); lia)].
        intros Hz. destruct (Z.eqb_spec v c); [|lia]. destruct prev as [q|]; [|done]. by rewrite Hz in Hb.
    + rewrite Hstep, bind_Ok. apply orb_false_iff in Hb as [Hvc Hcq]. destruct (Z.eqb_spec v c) as [->|]; [|done].
      destruct (IH c prev w Hw) as (ds & w2 & E & Hs2 & Hsum & Hset).
      { eapply in_range_sub; [|exact Hr]. set_solver. }
      exists ds, w2. split; [done|]. split; [done|]. split; [|done]. cbn [map snd]. by rewrite Hlast.
Qed.

(** *** Hysteresis *)

(** A channel with its last reading. *)
Definition channel_at (p : addr) (v : Z) (w : world) : Prop :=
  (exists e, endpoints w !! p = Some e /\ infoEvent e = Some infoEventChannel_cb /\ type e <> BSC_BINARY /\ text e = Some (fmt_d v)) /\
  exists u, userData (app_state w) !! p = Some u /\ utype u <> 73.

Lemma beyond_small v old h : int_range (old + h) -> int_range (old - h) -> Z.abs (v - old) <= h -> beyond v old h = Ok false.
Proof.
  intros H1 H2 H. unfold beyond. rewrite (add_int_Ok old h), bind_Ok by done. cbv beta.
  assert (old + h <? v = false) as -> by (apply Z.ltb_ge; lia).
  rewrite add_int_Ok, bind_Ok by (by replace (old + - h) with (old - h) by lia). cbv beta.
  by assert (v <? old + - h = false) as -> by (apply Z.ltb_ge; lia).
Qed.

Lemma quiet_step p old v now (w : world) :
  let h := hysteresis (app_state w) in
  channel_at p old w -> int_range old -> int_range v -> int_range (old + h) -> int_range (old - h) -> Z.abs (v - old) <= h ->
  exists w', updateEndpointValue now p (fmt_d v) w = Ok w' /\ channel_at p v w' /\ hysteresis (app_state w') = h /\ sent w' = sent w.
Proof.
  intros h ((e & He & Hi & Hty & Ht) & u & Hu & Hut) Ho Hv H1 H2 Hd. unfold updateEndpointValue, get_ep, get_user.
  rewrite He, Hu. cbn [of_opt]. rewrite !bind_Ok. destruct (Z.eqb_spec (utype u) 73); [done|]. rewrite Ht. cbn [same_text].
  rewrite strcmp0_fmt by done. destruct (Z.eqb_spec v old) as [->|_].
  - exists w. split_and!; [done| |done|done]. split; [by exists e|by exists u].
  - unfold new_reading, get_ep, get_user. rewrite He, Hu. cbn [of_opt]. rewrite !bind_Ok. unfold reading_state. cbn [type with_text].
    destruct (Z.eqb_spec (type e) BSC_BINARY); [done|]. rewrite bind_Ok.
    set (e' := bscSetState BSC_STATE_ON (with_text (Some (fmt_d v)) e)).
    assert (He' : infoEvent e' = Some infoEventChannel_cb /\ type e' = type e /\ text e' = Some (fmt_d v)) by done. clearbody e'.
    destruct He' as (Hi' & Hty' & Ht'). set (w1 := put_ep p e' _).
    assert (Hw1 : endpoints w1 !! p = Some e' /\ userData (app_state w1) !! p = Some (with_previous (text e) u) /\
                  hysteresis (app_state w1) = h /\ sent w1 = sent w).
    { subst w1. cbn. by rewrite !lookup_insert_eq. }
    clearbody w1. destruct Hw1 as (He1 & Hu1 & Hh1 & Hs1).
    unfold bscSendEvent, bscSendInfoEvent, get_ep. rewrite He1. cbn [of_opt]. rewrite bind_Ok, Hi'. cbn [run_info].
    unfold infoEventChannel, get_ep, get_user. rewrite He1, Hu1. cbn [of_opt]. rewrite !bind_Ok, Ht'. cbn [of_opt]. rewrite bind_Ok.
    change (strcmp0 BSC_EVENT_CLASS BSC_INFO_CLASS) with false. cbv iota. unfold previous_int. cbn [previousValue with_previous].
    rewrite Ht, !atoi_fmt_d, Hh1, beyond_small by done. rewrite !bind_Ok. exists w1. split_and!; [done| |done|done].
    split; [exists e'; by rewrite Hty'|by exists (with_previous (text e) u)].
Qed.

(** Readings each within the hysteresis of the one before. *)
Fixpoint slow (h v : Z) (l : list Z) : Prop :=
  match l with
  | [] => True
  | y :: r => int_range v /\ int_range (v + h) /\ int_range (v - h) /\ int_range y /\ Z.abs (y - v) <= h /\ slow h y r
  end.

(** *** The channels and their total *)

(** The readings of the channels in the list. *)
Definition channel_reading (w : world) (p : addr) : option Z :=
  e ← endpoints w !! p;
  if bool_decide (name e = str "ch" /\ subaddr e <> Some (str "total")) then atoi <$> text e else None.
Definition channel_readings (w : world) : list Z := omap (channel_reading w) (endpointList (app_state w)).

Lemma sum_channels_spec l t n (w : world) t' n' :
  sum_channels l t n w = Ok (t', n') -> t' = t + sum (omap (channel_reading w) l) /\ n' = (n + length (omap (channel_reading w) l))%nat.
Proof.
  revert t n. induction l as [|p l IH]; intros t n H; cbn [sum_channels] in H.
  - injection H as <- <-. cbn. lia.
  - inv_bind H. unfold get_ep in Ha. apply of_opt_Ok in Ha. cbn [omap list_omap].
    assert (channel_reading w p = if bool_decide (name a = str "ch" /\ subaddr a <> Some (str "total")) then atoi <$> text a else None) as ->
      by (unfold channel_reading; by rewrite Ha).
    destruct (strcmp0 (str "ch") (name a)) eqn:Hch.
    + apply strcmp0_spec in Hch. inv_bind H. apply of_opt_Ok in Ha0. destruct (strcmp0 (str "total") a0) eqn:Ht.
      * apply strcmp0_spec in Ht. rewrite bool_decide_eq_false_2 by (rewrite Ha0; intros [_ Hx]; congruence). by apply IH.
      * rewrite bool_decide_eq_true_2.
        2:{ split; [done|]. rewrite Ha0. intros [= ->]. by rewrite strcmp0_refl in Ht. }
        inv_bind H. apply of_opt_Ok in Ha1. rewrite Ha1. cbn [fmap option_fmap option_map]. inv_bind H. unfold add_int in Ha2.
        destruct (_ && _) in Ha2; [|done]. injection Ha2 as <-. apply IH in H as [-> ->]. cbn [sum fold_right length]. unfold sum. lia.
    + rewrite bool_decide_eq_false_2; [by apply IH|]. intros [Hx _]. rewrite Hx, strcmp0_refl in Hch. done.
Qed.

(** *** Keys of the INI file *)

Lemma new_endpoint_overrun inifile x n c r t ie st (w : world) :
  isdigit c = true -> 0 <= id w < 256 -> newBscEndpoint inifile x n (Some (c :: r)) t ie st w = Undef OutOfBounds.
Proof.
  intros Hc Hid. unfold newBscEndpoint, bscAddEndpoint. unfold sprintf_buf at 1. rewrite fmt_X2_length by done.
  change (Z.of_nat 2 <? 3) with true. cbv iota. rewrite !bind_Ok. cbv beta iota zeta. rewrite Hc.
  assert (loadSensorINI inifile "hysteresis" (atoi (c :: r)) 4 = Undef OutOfBounds) as ->; [|done].
  unfold loadSensorINI, sprintf_buf. rewrite length_app. change (length (str "hysteresis")) with 10%nat.
  by destruct (Z.ltb_spec (Z.of_nat (10 + length (fmt_d (atoi (c :: r))))) 10); [lia|].
Qed.

(** *** Documents of any kind *)

Lemma keeps_start_edf inifile x n (w w' : world) : startElementEDFCB inifile x n w = Ok w' -> keeps w w'.
Proof.
  unfold startElementEDFCB. intros H. destruct (strncmp0 2 _ n); [|by injection H as <-].
  destruct (if strncmp0 3 (str "chH") n then _ else _) as [[[en sub] w1] ie] eqn:E.
  assert (H1 : keeps w w1) by (destruct (strncmp0 3 (str "chH") n); injection E as _ _ <- _; apply keeps_uid). clear E.
  cbv zeta in H. inv_bind H. etransitivity; [exact H1|]. etransitivity; [by apply (keeps_app (set_state ST_DATA))|].
  destruct a as [p|]; [injection H as <-; by apply keeps_app|]. inv_bind H. destruct a as [p w2]. injection H as <-.
  apply new_endpoint_ok in Ha0 as [Hk _]. etransitivity; [exact Hk|]. by apply keeps_app.
Qed.

Lemma keeps_cdata_edf now ch (w w' : world) : cdataBlockEDFCB now ch w = Ok w' -> keeps w w'.
Proof.
  unfold cdataBlockEDFCB. intros H. destruct (state (app_state w)); try (injection H as <-; first [done|by apply keeps_app]).
  do 3 inv_bind H. injection H as <-. transitivity a1; [|by apply keeps_app].
  destruct (same_text _ _); [by injection Ha1 as <-|by apply keeps_new_reading in Ha1].
Qed.

Lemma keeps_start n (w : world) : keeps w (startElementCB n w).
Proof. unfold startElementCB. repeat (case_match; [by apply keeps_app|]). done. Qed.

Lemma keeps_cdata ch (w : world) : keeps w (cdataBlockCB ch w).
Proof. unfold cdataBlockCB. case_match; [done|by apply keeps_app..]. Qed.

Lemma keeps_sax inifile x now evs (w w' : world) : sax_run inifile x now evs w = Ok w' -> keeps w w'.
Proof.
  revert w. induction evs as [|ev evs IH]; intros w H; cbn [sax_run] in H; [by injection H as <-|]. inv_bind H. transitivity a; [|by apply IH].
  unfold sax_step in Ha. destruct (model (app_state w)), ev;
    first [injection Ha as <-; first [done|apply keeps_start|apply keeps_cdata]|by apply keeps_end in Ha|by apply keeps_start_edf in Ha|by apply keeps_cdata_edf in Ha].
Qed.

(** * Theorems *)

(** The serial line: when documents are sent, each a pair of tags [<msg>] and
    [</msg>] with other tags and text between, after other tags and text, then
    however the bytes are split into reads and whatever white space is between
    them, exactly the documents are parsed, in order, and the buffer is empty
    afterwards.  A document has at most 4095 characters, what precedes it at most
    4090. *)
Theorem serialInputHandler_documents {W : Type} (parse : cstr -> W -> out W) (ds : list sent_doc) (reads : list (list Z)) (w : W) :
  Forall doc_ok ds -> Forall (fun b => b <> []) reads -> printing (concat reads) = concat (map sent_text ds) ->
  CurrentCost.serialInputHandler parse reads (mkSerial [] 0 0) w
  = (w ← parse_all parse (map doc_text ds) w; Ok (mkSerial [] 0 0, w)).
Proof. intros Hd Hr Hp. by rewrite handler_chars, chars_printing, Hp, docs_chars. Qed.

Definition demo_doc : sent_doc := mkSent [Text (str "00"); Tag (str "/hist")] [Tag (str "ch1"); Text (str "00345"); Tag (str "/ch1")].
Definition demo_reads : list (list Z) := [str "00"; str "</hi"; str "st><"; str " msg><ch1>00345</c"; str "h1></m"; str "sg>"].

Lemma demo_doc_ok : doc_ok demo_doc.
Proof.
  split; [|split; [|split; [apply Nat.leb_le; reflexivity|apply Nat.leb_le; reflexivity]]];
    repeat (constructor; [first [by apply text_ok_str|by split; [apply text_ok_str|]]|]); constructor.
Qed.

Lemma serialInputHandler_documents_witness :
  CurrentCost.serialInputHandler (fun t l => Ok (l ++ [t])) demo_reads (mkSerial [] 0 0) []
  = Ok (mkSerial [] 0 0, [str "<msg><ch1>00345</ch1></msg>"]).
Proof.
  rewrite (serialInputHandler_documents _ [demo_doc]).
  - reflexivity.
  - constructor; [exact demo_doc_ok|constructor].
  - repeat (constructor; [discriminate|]). constructor.
  - reflexivity.
Defined.


Definition demo_cc (m : cc_model) : currentcost := mkCC [] ∅ 10 m ST_NONE None None (mkMsg None None 0 0 None None None None).
Definition demo_ident : xAPIdent := mkIdent (str "dbzoo.livebox.CurrentCost") (str "FF00DC00") 3639 (str "192.168.1.9").
Definition demo_world (m : cc_model) : world := mkBsc ∅ [] [] (load_packet []) [] 1 2 (demo_cc m).
Definition demo_msg : sent_msg := mkSentMsg [Text (str "00"); Tag (str "/hist")] [Plain (str "sensor") (str "0"); Plain (str "tmpr") (str "18.7")].

Lemma demo_msg_ok : sent_ok demo_msg.
Proof.
  split.
  - split; [|split; [|split; [apply Nat.leb_le; reflexivity|apply Nat.leb_le; reflexivity]]];
      repeat (constructor; [first [by apply text_ok_str|by split; [apply text_ok_str|]]|]); constructor.
  - repeat (constructor; [split_and!; [done|apply Nat.leb_le; reflexivity|by apply (bool_decide_eq_true_1 (_ ∉ _))|done|done]|]). constructor.
Qed.


(** C20.  The meter of an impulse sensor: for any sequence of readings, the
    differences that are announced sum up to the difference between the last and
    the first reading, so that no consumption is lost or counted twice; a
    difference of zero is announced only once after a change. *)
Theorem impulse_conserved (p : addr) (e0 : endpoint) (now r0 : Z) (l : list (Z * Z)) (w : world) :
  meter_ep e0 -> meter p e0 None None w -> in_range (r0 :: map snd l) ->
  exists ds w', readings p ((now, r0) :: l) w = Ok w' /\ sent w' = sent w ++ map (delta_msg e0) ds /\
    sum ds = List.last (map snd l) r0 - r0 /\ settled true ds.
Proof.
  intros Hm ((e & t & n & He & Heq & Hf) & h & un & Hu) Hr. cbn [readings]. unfold updateEndpointValue at 1, get_ep, get_user.
  rewrite He, Hu. cbn [of_opt]. rewrite !bind_Ok. cbn [utype currentValue fmap option_fmap option_map]. change (73 =? 73) with true. cbv iota.
  rewrite bind_Ok. set (w1 := put_user p _ w). destruct (meter_run p e0 l r0 None w1) as (ds & w' & E & Hs & Hsum & Hset); [done| |done|].
  - split; [by exists e, t, n|]. exists h, un. cbn. by rewrite lookup_insert_eq.
  - by exists ds, w'.
Qed.

Definition meter_demo_ep : endpoint :=
  mkEndpoint (str "sensor") (Some (str "5")) (str "1B") BSC_INPUT BSC_STREAM BSC_STATE_UNKNOWN (Some (str "?")) None None None 0
    (Some (str "FF00DC1B")) (Some (str "dbzoo.livebox.CurrentCost:sensor.5")).
Definition meter_world : world :=
  mkBsc {[ 7%positive := meter_demo_ep ]} [] [] (load_packet []) [] 28 8
    (mkCC [7%positive] {[ 7%positive := mkUser 73 None None 0 None ]} 10 CC128 ST_NONE None None (mkMsg None None (-1) 0 None None None None)).

Lemma meter_demo_fields : fields_ok meter_demo_ep.
Proof. split; split; apply Z.leb_le; reflexivity. Qed.

Lemma impulse_conserved_witness :
  exists ds w', readings 7 [(10, 500); (16, 500); (22, 507); (28, 507); (34, 507); (40, 520)] meter_world = Ok w' /\
    sent w' = map (delta_msg meter_demo_ep) ds /\ sum ds = 20.
Proof.
  destruct (impulse_conserved 7 meter_demo_ep 10 500 [(16, 500); (22, 507); (28, 507); (34, 507); (40, 520)] meter_world) as (ds & w' & E & Hs & Hsum & _).
  - split; [|done]. split; [exact meter_demo_fields|apply Nat.leb_le; reflexivity].
  - split; [|by exists 0, None]. exists meter_demo_ep, (str "?"), 0. split; [done|]. split; [done|]. exact meter_demo_fields.
  - intros a b Ha Hb. unfold int_range, INT_MIN, INT_MAX. cbn [map snd] in *. rewrite !elem_of_cons, elem_of_nil in Ha, Hb. lia.
  - exists ds, w'. split; [exact E|]. split; [exact Hs|]. exact Hsum.
Defined.

(** The hysteresis of a channel compares a reading with the one before and not
    with the one last announced: when every reading differs from the one before by
    at most the hysteresis, no event is ever sent, however far the power moves. *)
Theorem slow_ramp_silent (p : addr) (v : Z) (l : list (Z * Z)) (w : world) :
  channel_at p v w -> slow (hysteresis (app_state w)) v (map snd l) ->
  exists w', readings p l w = Ok w' /\ channel_at p (List.last (map snd l) v) w' /\ sent w' = sent w.
Proof.
  revert v w. induction l as [|[now y] l IH]; intros v w Hc Hs; [by exists w|]. cbn [map snd slow] in Hs. destruct Hs as (H1 & H2 & H3 & H4 & H5 & H6).
  destruct (quiet_step p v y now w Hc) as (w1 & E1 & Hc1 & Hh1 & Hs1); [done..|]. cbn [readings]. rewrite E1, bind_Ok.
  rewrite <- Hh1 in H6. destruct (IH y w1 Hc1 H6) as (w2 & E2 & Hc2 & Hs2). exists w2. split; [done|]. split; [|congruence].
  cbn [map snd]. replace (List.last (y :: map snd l) v) with (List.last (map snd l) y); [done|].
  clear. revert y. induction (map snd l) as [|z r IHr]; intros y; [done|]. cbn. destruct r; [done|]. apply IHr.
Qed.

Definition ramp_world : world :=
  mkBsc {[ 7%positive := mkEndpoint (str "ch") (Some (str "1")) (str "01") BSC_INPUT BSC_STREAM BSC_STATE_ON (Some (str "100")) None
            (Some infoEventChannel_cb) None 50 (Some (str "FF00DC01")) (Some (str "dbzoo.livebox.CurrentCost:ch.1")) ]} [] [] (load_packet []) [] 2 8
    (mkCC [7%positive] {[ 7%positive := mkUser 65 None None 0 None ]} 10 CC128 ST_NONE None None (mkMsg None None (-1) 0 None None None None)).

Definition ramp : list (Z * Z) := map (fun i => (100 + Z.of_nat i, 100 + 10 * Z.of_nat i)) (seq 1 30).

(** From 100 to 400 Watts without an event. *)
Lemma slow_ramp_silent_witness :
  exists w', readings 7 ramp ramp_world = Ok w' /\ channel_at 7 400 w' /\ sent w' = [].
Proof.
  destruct (slow_ramp_silent 7 100 ramp ramp_world) as (w' & E & Hc & Hs).
  - split; [|by eexists]. eexists. split; [reflexivity|]. by split_and!.
  - change (hysteresis (app_state ramp_world)) with 10. cbn. unfold int_range, INT_MIN, INT_MAX. split_and!; lia.
  - exists w'. split; [exact E|]. split; [exact Hc|exact Hs].
Defined.

(** The pseudo channel [ch.total]: after every reading of a channel, when there
    are at least two channels, the endpoint of the total exists and its text is the
    sum of the readings of all channels (its first nine characters); it is created
    when the second channel appears and never counted itself. *)
Theorem ch_total_spec (inifile : option (list Z)) (x : xAPIdent) (now : Z) (sub : string) (off : Z) (v : cstr) (w w' : world) :
  cc_wf w -> channel inifile x now sub off v w = Ok w' ->
  cc_wf w' /\ ((1 < length (channel_readings w'))%nat -> shows_total (sum (channel_readings w')) w').
Proof.
  intros Hw H. split.
  - unfold channel in H. apply keeps_whole in H as (_ & _ & H). by apply H.
  - unfold channel, updateWholeOfHouseEndpoint in H. inv_bind H. inv_bind H. destruct a0 as [p w1]. inv_bind H. apply keeps_update_value in Ha1.
    assert (H1 : keeps w w1).
    { destruct a; [by injection Ha0 as _ <-|]. apply new_endpoint_ok in Ha0 as [Ha0 _]. etransitivity; [apply keeps_uid|exact Ha0]. }
    rewrite strcmp0_refl in H. inv_bind H. destruct a1 as [t n].
    assert (Hw1 : cc_wf a0) by (destruct Ha1 as (_ & _ & Ha1), H1 as (_ & _ & H1); apply Ha1, H1, Hw).
    destruct (Nat.ltb_spec 1 n) as [Hn|Hn].
    + apply update_total_ok in H as [_ H]. destruct (H Hw1) as [Hs Hsum]. specialize (Hsum _ Ha2). apply sum_channels_spec in Hsum as [Ht _].
      intros _. unfold channel_readings. by rewrite <- (Z.add_0_l (sum _)), <- Ht.
    + injection H as <-. apply sum_channels_spec in Ha2 as [_ Hl]. unfold channel_readings. lia.
Qed.

Definition channel_ep (sub : string) (t : string) : endpoint :=
  mkEndpoint (str "ch") (Some (str sub)) (str "01") BSC_INPUT BSC_STREAM BSC_STATE_ON (Some (str t)) None
    (Some infoEventChannel_cb) None 50 (Some (str "FF00DC01")) (Some (str "dbzoo.livebox.CurrentCost:ch")).
Definition two_channels : world :=
  mkBsc (list_to_map [(7%positive, channel_ep "1" "100"); (8%positive, channel_ep "2" "250")]) [] [] (load_packet []) [] 2 9
    (mkCC [8%positive; 7%positive] (list_to_map [(7%positive, mkUser 65 None None 0 None); (8%positive, mkUser 65 None None 0 None)])
       10 CC128 ST_NONE None None (mkMsg None None (-1) 0 None None None None)).

Lemma ch_total_spec_witness :
  exists w', channel None demo_ident 100 "1" 1 (str "345") two_channels = Ok w' /\ shows_total 595 w' /\ length (sent w') = 2%nat.
Proof.
  destruct (channel None demo_ident 100 "1" 1 (str "345") two_channels) as [w'| |] eqn:E; [|vm_compute in E; discriminate|vm_compute in E; discriminate].
  destruct (ch_total_spec None demo_ident 100 "1" 1 (str "345") two_channels w') as [_ Hs].
  - split; [|done]. intros q [e He]. assert (q = 7%positive \/ q = 8%positive) as [->| ->]; [|reflexivity|reflexivity].
    apply elem_of_list_to_map_2 in He. apply elem_of_cons in He as [[= -> _]|He]; [by left|].
    apply elem_of_cons in He as [[= -> _]|He]; [by right|]. by apply elem_of_nil in He.
  - exact E.
  - exists w'. split; [done|]. vm_compute in E. injection E as <-. split; [|reflexivity].
    apply Hs. vm_compute. lia.
Defined.

(** The first reading of a channel or of a sensor: its endpoint is created, and
    the key of its hysteresis in the INI file, [hysteresis] and a digit, is printed
    into a buffer of ten bytes, which it overruns. *)
Theorem first_reading_overrun (inifile : option (list Z)) (x : xAPIdent) (now n : Z) (v : cstr) (w : world) :
  1 <= n <= 9 ->
  (bscFindEndpoint (endpointList (app_state w)) (str "ch") (Some (str "1")) w = Ok None -> channel inifile x now "1" 1 v w = Undef OutOfBounds) /\
  (bscFindEndpoint (endpointList (app_state w)) (str "sensor") (Some (fmt_d n)) w = Ok None ->
     updateSensor inifile x now n "" v (Some sensorInfoEvent_cb) 1 w = Undef OutOfBounds).
Proof.
  intros Hn. assert (Hu : forall k, 0 <= id (bscSetEndpointUID k w) < 256) by (intros k; cbn; apply u8_range). split; intros Hf.
  - unfold channel, updateWholeOfHouseEndpoint. rewrite Hf, bind_Ok. change (str "1") with [49]. by rewrite new_endpoint_overrun.
  - unfold updateSensor. assert (Hd : exists c, fmt_d n = [c] /\ isdigit c = true).
    { assert (n = 1 \/ n = 2 \/ n = 3 \/ n = 4 \/ n = 5 \/ n = 6 \/ n = 7 \/ n = 8 \/ n = 9) as Hc by lia.
      repeat destruct Hc as [->|Hc]; [by eexists..|]. subst n. by eexists. }
    destruct Hd as (c & Hc & Hdig). assert (snprintf 20 (fmt_d n ++ str "") = fmt_d n) as -> by (by rewrite Hc).
    rewrite Hf, bind_Ok. rewrite add_int_Ok, bind_Ok by (unfold int_range, INT_MIN, INT_MAX; lia).
    unfold mul_int. destruct (Z.leb_spec INT_MIN ((n + -1) * 4)); [|unfold INT_MIN in *; lia].
    destruct (Z.leb_spec ((n + -1) * 4) INT_MAX); [|unfold INT_MAX in *; lia]. cbn [andb]. rewrite bind_Ok.
    rewrite add_int_Ok, bind_Ok by (unfold int_range, INT_MIN, INT_MAX; lia). 
    assert (loadSensorINI inifile "type" n 2 = Ok (ini_gets (Some (str "currentcost")) (Some (str "type" ++ fmt_d n)) [] [] 2 inifile)) as ->.
    { unfold loadSensorINI, sprintf_buf. by rewrite Hc. }
    rewrite bind_Ok, Hc. destruct (ini_gets _ _ _ _ _ _). by rewrite new_endpoint_overrun.
Qed.

Lemma first_reading_overrun_witness :
  channel None demo_ident 100 "1" 1 (str "345") (demo_world CC128) = Undef OutOfBounds /\
  updateSensor None demo_ident 100 3 "" (str "345") (Some sensorInfoEvent_cb) 1 (demo_world CC128) = Undef OutOfBounds.
Proof. destruct (first_reading_overrun None demo_ident 100 3 (str "345") (demo_world CC128) ltac:(lia)) as [H1 H2]. split; [by apply H1|by apply H2]. Defined.


