(* ===== verification/Sms.v ===== *)
(** * The SMS adaptor (xap-sms/sms.c, modem.c, getsms.c, putsms.c)

    Messages of the bus are sent as SMS through a GSM modem, SMS that arrive are
    relayed to the bus.  The modem answers commands with text: [put_command] writes
    a command and collects the answer until it recognises its end or the modem was
    silent for too long.  What the modem delivers is a script, the results of the
    successive [ioctl] and [read] calls, followed by silence; the commands and their
    answers are recorded.  Reading memory that was never written is an outcome. *)

From S2P Require Import Prelude UtList Strings Frame Wire Filter Timeout Xap MinIni Bsc.

(** ** modem.c: commands *)

(** One round of the loop of [put_command]: the characters available, those
    available after a short sleep, and what [read] returns. *)
Record round := mkRound { avail1 : Z; avail2 : Z; rd : option (list Z) }.

(** [heard]: the commands written, each with its answer ([None] when reading
    failed). *)
Record modem := mkModem { script : list round; heard : list (cstr * option cstr) }.

Definition MAX_BUF : Z := 2048.
Definition CRLF : cstr := [13; 10].

(** [strstr(optz(n,l), p)]: the last [n + l] characters of the buffer are searched;
    the offset of the match in the buffer. *)
Definition window_find (p : cstr) (n l : nat) (buf : list Z) : option nat :=
  let off := (length buf - (n + l))%nat in
  (fun i => off + i)%nat <$> strstr (c_text (drop off buf)) p.

(** The end of the answer, if the [n] new characters complete it. *)
Definition find_end (exp_end : option cstr) (n : nat) (buf : list Z) : option nat :=
  match exp_end with
  | None =>
      match window_find (str "OK" ++ CRLF) n 4 buf with
      | Some pos => Some (pos + 4)%nat
      | None =>
          foo ← window_find (str "ERROR") n 5 buf;
          j ← strstr (c_text (drop (foo + 5) buf)) CRLF;
          Some (foo + 5 + j + 2)%nat
      end
  | Some x => (fun pos => pos + length x)%nat <$> window_find x n (length x) buf
  end.

(** The loop: the buffer and the end of the answer, [None] for an error of
    [read]; and the rest of the script.  After the script there is silence, which
    ends the loop. *)
Fixpoint read_loop (s : list round) (timeout tc : Z) (exp_end : option cstr) (buf : list Z)
    : option (list Z * option nat) * list round :=
  match s with
  | [] => (Some (buf, None), [])
  | r :: s =>
      let '(available, tc) := if avail1 r <? 1 then (avail2 r, tc + 1) else (avail1 r, tc) in
      let again buf := if tc <? timeout then read_loop s timeout tc exp_end buf else (Some (buf, None), s) in
      if 0 <? available then
        let room := MAX_BUF - Z.of_nat (length buf) - 1 in
        let n := if room <? available then room else available in
        match rd r with
        | None => (None, s)
        | Some bytes =>
            match take (Z.to_nat n) bytes with
            | [] => again buf
            | bs =>
                let buf := buf ++ bs in
                match find_end exp_end (length bs) buf with
                | Some e => (Some (buf, Some e), s)
                | None => again buf
                end
            end
        end
      else again buf
  end.

(** The number of characters of the answer and the answer; on an error 0 and an
    answer that is left unwritten. *)
Definition put_command (cmd : cstr) (max timeout : Z) (exp_end : option cstr) (m : modem) : Z * option cstr * modem :=
  match read_loop (script m) timeout 0 exp_end [] with
  | (None, s) => (0, None, mkModem s (heard m ++ [(cmd, None)]))
  | (Some (buf, e), s) =>
      let e := match e with Some e => e | None => length buf end in
      let answer := c_text (take (Z.to_nat (Z.min (max - 1) (Z.of_nat e))) buf) in
      (Z.of_nat e, Some answer, mkModem s (heard m ++ [(cmd, Some answer)]))
  end.

Definition MODEM_INIT : cstr := str "AT&FE0+CMGF=1;+CNMI=2,1,0,0,0" ++ [13].
Definition has (s : cstr) (c : Z) : bool := match strchr s c with Some _ => true | None => false end.
Definition contains (s p : cstr) : bool := match strstr s p with Some _ => true | None => false end.

Definition creg (max : Z) (m : modem) : out (cstr * modem) :=
  let '(_, a, m) := put_command (str "AT+CREG?" ++ [13]) max 100 None m in
  a ← of_opt Uninitialised a;
  Ok (a, m).

(** The loop of [initmodem]; [None] when the rounds are used up, which the number
    given by [initmodem] excludes. *)
Fixpoint init_loop (fuel : nat) (retries : Z) (m : modem) : out (option (bool * modem)) :=
  match fuel with
  | O => Ok None
  | S f =>
      '(answer, m) ← creg 100 m;
      let '(success, retries) :=
        if has answer 49 then (true, retries + 1)
        else if has answer 50 then (false, retries)
        else if has answer 53 then (true, retries + 1)
        else if contains answer (str "ERROR") then (true, retries + 1)
        else (false, retries + 1) in
      if negb success && (retries <? 20) then init_loop f retries m else Ok (Some (success, m))
  end.

Definition initmodem (m : modem) : out (Z * modem) :=
  r ← init_loop (20 + length (script m)) 0 m;
  '(success, m) ← of_opt OutOfBounds r;
  if (success : bool) then
    let '(_, a, m) := put_command MODEM_INIT 100 100 None m in
    a ← of_opt Uninitialised a;
    Ok (if contains a (str "ERROR") then -1 else 0, m)
  else Ok (-1, m).

Definition checkmodem (m : modem) : out (Z * modem) :=
  '(answer, m) ← creg 500 m;
  if has answer 49 then Ok (0, m) else initmodem m.

(** The speeds [getBaud] accepts. *)
Definition baud_rates : list Z :=
  [50; 75; 110; 134; 150; 200; 300; 600; 1200; 1800; 2400; 4800; 9600; 19200; 38400; 57600; 115200].
Definition getBaud (inifile : option (list Z)) : out Z :=
  let n := ini_getl (Some (str "sms")) (Some (str "baud")) 19200 inifile in
  if bool_decide (n ∈ baud_rates) then Ok n else Die.

(** [fd], [locked]: the results of [open] and [flock].  The descriptor, the device
    and the speed. *)
Definition setup_serial_port (inifile : option (list Z)) (fd : Z) (locked : bool) : out (Z * cstr * Z) :=
  let '(_, port) := ini_gets (Some (str "sms")) (Some (str "usbserial")) (str "/dev/ttyUSB0") [] 32 inifile in
  if fd <? 0 then Die
  else if negb locked then Die
  else b ← getBaud inifile; Ok (fd, port, b).

(** ** putsms.c *)

Definition number_command (num : cstr) : cstr := str "AT+CMGS=" ++ [34] ++ num ++ [34; 13].
Definition text_command (msg : cstr) : cstr := msg ++ [26].

(** One attempt: the modem asks for the text and confirms it. *)
Definition attempt (command command2 : cstr) (m : modem) : bool * modem :=
  let '(n, _, m) := put_command command 100 50 (Some (CRLF ++ str "> ")) m in
  if n =? 0 then (false, m)
  else
    let '(n, answer, m) := put_command command2 100 1000 None m in
    if n =? 0 then (false, m)
    else (match answer with Some a => contains a (str "OK") | None => false end, m).

Fixpoint putsms_loop (tries : nat) (command command2 : cstr) (err_code : Z) (m : modem) : out (Z * modem) :=
  match tries with
  | O => Ok (err_code, m)
  | S t =>
      if err_code <? 2 then
        let '(ok, m) := attempt command command2 m in
        if ok : bool then putsms_loop t command command2 2 m
        else
          '(status, m) ← checkmodem m;
          putsms_loop t command command2 (if status =? -1 then 0 else if err_code =? 0 then 1 else 3) m
      else Ok (err_code, m)
  end.

Definition putsms (msg num : cstr) (m : modem) : out (Z * modem) :=
  command ← sprintf_buf 50 (number_command num);
  command2 ← sprintf_buf 500 (text_command msg);
  putsms_loop 3 command command2 0 m.

(** ** getsms.c *)

Record inbound_sms := mkSms { sender : cstr; sms_name : cstr; date : cstr; time : cstr; ascii : cstr; userdatalength : Z }.

(** The stored message, [None] when there is none. *)
Definition fetch_pdu (answer : cstr) : out (option cstr) :=
  match strstr answer (str "+CMGR:") with
  | None => Ok None
  | Some i =>
      if contains answer (str ",,0" ++ [13]) then Ok None
      else if (length answer <? i + 7)%nat then Undef Uninitialised
      else
        let b := drop (i + 7) answer in
        match strchr b 13 with
        | None => Ok None
        | Some e1 =>
            if (e1 <? 4)%nat then Ok None
            else match strchr (drop (S e1) b) 13 with
                 | None => Ok None
                 | Some e2 => pdu ← sprintf_buf 512 (take (S e1 + e2) b); Ok (Some pdu)
                 end
        end
  end.

Definition fetchsms (sim : Z) (m : modem) : out (option cstr * modem) :=
  command ← sprintf_buf 16 (str "AT+CMGR=" ++ fmt_d sim ++ [13]);
  let '(_, a, m) := put_command command 512 50 None m in
  a ← of_opt Uninitialised a;
  pdu ← fetch_pdu a;
  Ok (if sim =? 0 then None else pdu, m).

(** [s[i]]: the terminating NUL may be read, what follows was never written. *)
Definition char_at (s : cstr) (i : nat) : out Z :=
  if (i <? length s)%nat then of_opt OutOfBounds (s !! i) else if (i =? length s)%nat then Ok 0 else Undef Uninitialised.

(** [start += n] *)
Definition advance (n : nat) (s : cstr) : out cstr := if (n <=? length s)%nat then Ok (drop n s) else Undef Uninitialised.

(** Six characters at their places, printed with two separators. *)
Definition stamp (sep : Z) (s : cstr) : out cstr :=
  c0 ← char_at s 0; c1 ← char_at s 1; c3 ← char_at s 3; c4 ← char_at s 4; c6 ← char_at s 6; c7 ← char_at s 7;
  Ok (c_text [c0; c1; sep; c3; c4; sep; c6; c7]).

Definition quote_comma : cstr := [34; 44].

(** The rest of the header from the date on. *)
Definition split_date (sd nm txt start : cstr) : out inbound_sms :=
  d ← stamp 45 start;
  start ← advance 9 start;
  t ← stamp 58 start;
  Ok (mkSms sd nm d t txt (Z.of_nat (length txt))).

Definition splitascii (source : cstr) : out inbound_sms :=
  match strchr source 10 with
  | None => Ok (mkSms [] [] [] [] [] 0)
  | Some i =>
      txt ← sprintf_buf 500 (drop (S i) source);
      let partial sd := Ok (mkSms sd [] [] [] txt (Z.of_nat (length txt))) in
      match strstr source ([34] ++ [44] ++ [34]) with
      | None => partial []
      | Some j =>
          let start := drop (j + 3) source in
          match strstr start quote_comma with
          | None => partial []
          | Some k =>
              sd ← sprintf_buf 31 (take k start);
              start ← advance (k + 3) start;
              c0 ← char_at start 0;
              start ← (if c0 =? 34 then advance 1 start else Ok start);
              c2 ← char_at start 2;
              if c2 =? 47 then split_date sd [] txt start
              else match strstr start quote_comma with
                   | None => partial sd
                   | Some l =>
                       nm ← sprintf_buf 64 (take l start);
                       start ← advance (l + 3) start;
                       split_date sd nm txt start
                   end
          end
      end
  end.

Definition deletesms (sim : Z) (m : modem) : out modem :=
  command ← sprintf_buf 32 (str "at+cmgd=" ++ fmt_d sim ++ [13]);
  let '(_, _, m) := put_command command 32 50 None m in
  Ok m.

(** [None]: the message could not be fetched and the structure stays unwritten. *)
Definition getsms (sim : Z) (m : modem) : out (option inbound_sms * modem) :=
  '(found, m) ← fetchsms sim m;
  match found with
  | None => Ok (None, m)
  | Some pdu =>
      sms ← splitascii pdu;
      m ← deletesms sim m;
      Ok (Some sms, m)
  end.

(** ** sms.c *)

Record sms_world := mkWorld { mdm : modem; sframe : xAPFrame; xsent : list cstr }.

Section Sms.
Context (x : xAPIdent).

Definition XAP_CLASS : cstr := str "sms.message".

(** Both messages start alike. *)
Definition sms_header (class : cstr) : cstr :=
  line "xap-header" ++ line "{" ++ line "v=12" ++ line "hop=1" ++ str "uid=" ++ uid x ++ [10] ++
  str "class=" ++ class ++ [10] ++ str "source=" ++ source x ++ [10] ++ line "}".

(** [snprintf] into a buffer of [XAP_DATA_LEN] and [xapSend], unless it was cut by
    more than one character. *)
Definition send_text (t : cstr) (w : sms_world) : sms_world :=
  if XAP_DATA_LEN <? Z.of_nat (length t) then w
  else mkWorld (mdm w) (sframe w) (xsent w ++ [take (Z.to_nat (XAP_DATA_LEN - 1)) t]).

Definition xap_receipt (msg num sent err : cstr) (w : sms_world) : sms_world :=
  send_text (sms_header (str "SMS.Receipt") ++ line "Receipt" ++ line "{" ++ str "msg=" ++ msg ++ [10] ++ str "num=" ++ num ++ [10] ++
    str "sent=" ++ sent ++ [10] ++ str "error=" ++ err ++ [10] ++ line "}") w.

Definition xap_relay_sms (msg num d t : cstr) (w : sms_world) : sms_world :=
  send_text (sms_header XAP_CLASS ++ line "inbound" ++ line "{" ++ str "msg=" ++ msg ++ [10] ++ str "num=" ++ num ++ [10] ++
    str "timestamp=" ++ d ++ [32] ++ t ++ [10] ++ line "}") w.

(** [cmd]: the characters up to the cursor; the last is overwritten. *)
Definition processSerialMsg (cmd : list Z) (w : sms_world) : out sms_world :=
  let a_cmd := c_text (take (length cmd - 1) cmd) in
  if strncmp0 6 a_cmd (str "+CMTI:") then
    match strchr a_cmd 44 with
    | None => Ok w
    | Some p =>
        '(msg, m) ← getsms (atoi (drop (S p) a_cmd)) (mdm w);
        msg ← of_opt Uninitialised msg;
        Ok (xap_relay_sms (ascii msg) (sender msg) (date msg) (time msg) (mkWorld m (sframe w) (xsent w)))
    end
  else Ok w.

Definition receipt_of (code : Z) : cstr * cstr :=
  if code =? 0 then (str "no", str "Modem not ready")
  else if code =? 1 then (str "no", str "Possible corrupt sms")
  else if code =? 2 then (str "yes", [])
  else (str "no", str "No idea!").

Definition xapSendSMS (w : sms_world) : out sms_world :=
  num ← xapGetValueF (sframe w) (str "outbound") (Some (str "num"));
  msg ← xapGetValueF (sframe w) (str "outbound") (Some (str "msg"));
  let '(num, msg) := (pstr num, pstr msg) in
  '(code, m) ← putsms msg num (mdm w);
  let '(s, e) := receipt_of code in
  Ok (xap_receipt msg num s e (mkWorld m (sframe w) (xsent w))).

(** The loop over the characters of a read: the line collected so far and whether
    a carriage return was seen.  Both are local: a read starts with an empty line. *)
Fixpoint accumulate (l : list Z) (cmd : list Z) (flag : bool) (w : sms_world) : out sms_world :=
  match l with
  | [] => Ok w
  | c :: r =>
      let cmd := cmd ++ [c] in
      if c =? 13 then accumulate r cmd true w
      else if flag && (c =? 10) then w ← processSerialMsg cmd w; accumulate r [] flag w
      else accumulate r cmd false w
  end.

(** [data]: what [read] returns, at most 250 characters. *)
Definition xapSerialAccumulator (data : option (list Z)) (w : sms_world) : out sms_world :=
  match data with None => Ok w | Some l => accumulate (take 250 l) [] false w end.

End Sms.

(** [main]: the filter of outgoing messages, and the modem. *)
Definition outbound_filter (src : cstr) : list xAPFilter :=
  xapAddFilter (xapAddFilter (xapAddFilter (xapAddFilter [] (str "xap-header") (str "target") src)
    (str "xap-header") (str "class") XAP_CLASS) (str "outbound") (str "msg") XAP_FILTER_ANY)
    (str "outbound") (str "num") XAP_FILTER_ANY.

Definition sms_main (inifile : option (list Z)) (fd : Z) (locked : bool) (src : cstr) (m : modem) : out (list xAPFilter * modem) :=
  _ ← setup_serial_port inifile fd locked;
  '(r, m) ← initmodem m;
  if r =? 0 then Ok (outbound_filter src, m) else Die.
