(* ===== verification/SmsProps.v ===== *)
(** * Properties of the SMS adaptor

    The answers of the modem are recognised however they are cut into reads; the
    registration loop ends; a message is confirmed on the bus only when the modem
    confirmed it, after at most three attempts; a message that arrives is relayed
    with its sender, its time and its text; and what happens to notifications that
    are cut and to numbers that are too long. *)

From S2P Require Import Prelude UtList Strings Frame Wire Filter Timeout Xap MinIni Bsc Sms.

(** ** Searching *)

Definition occurs (p s : cstr) (i : nat) : Prop := take (length p) (drop i s) = p.

Lemma strstr_Some s p i : strstr s p = Some i <-> (i <= length s)%nat /\ occurs p s i /\ forall j, (j < i)%nat -> ~ occurs p s j.
Proof.
  revert i. induction s as [|c s IH]; intros i; cbn [strstr].
  - case_bool_decide as H.
    + split; [intros [= <-]; split; [done|]; split; [done|lia]|]. intros (Hi & _). by replace i with 0%nat by (cbn in Hi; lia).
    + split; [done|]. intros (Hi & Ho & _). replace i with 0%nat in Ho by (cbn in Hi; lia). done.
  - case_bool_decide as H.
    + split; [intros [= <-]; split; [cbn; lia|]; split; [done|lia]|]. intros (_ & _ & Hmin). destruct i; [done|].
      exfalso. apply (Hmin 0%nat); [lia|done].
    + destruct i as [|i].
      * split; [destruct (strstr s p); done|]. by intros (_ & Ho & _).
      * rewrite fmap_Some. split.
        -- intros (k & Hk & [= ->]). apply IH in Hk as (Hl & Ho & Hmin). split; [cbn; lia|]. split; [done|]. intros [|j] Hj; [done|]. apply Hmin. lia.
        -- intros (Hl & Ho & Hmin). exists i. split; [|done]. apply IH. split; [cbn in Hl; lia|]. split; [done|]. intros j Hj. apply (Hmin (S j)). lia.
Qed.

Lemma strstr_None s p : strstr s p = None <-> forall j, (j <= length s)%nat -> ~ occurs p s j.
Proof.
  split.
  - revert p. induction s as [|c s IH]; intros p; cbn [strstr]; case_bool_decide as H; try done.
    + intros _ j Hj. by replace j with 0%nat by (cbn in Hj; lia).
    + intros Hn j Hj. destruct j as [|j]; [done|]. apply (IH p); [by destruct (strstr s p)|cbn in Hj; lia].
  - intros H. destruct (strstr s p) as [i|] eqn:E; [|done]. apply strstr_Some in E as (Hl & Ho & _). by apply H in Ho.
Qed.

Lemma occurs_length p s i : p <> [] -> occurs p s i -> (i + length p <= length s)%nat.
Proof.
  intros Hp H. unfold occurs in H. apply (f_equal length) in H. rewrite length_take, length_drop in H. destruct p; [done|]. cbn [length] in *. lia.
Qed.

Lemma occurs_drop p s off i : occurs p (drop off s) i <-> occurs p s (off + i).
Proof. unfold occurs. by rewrite drop_drop. Qed.

(** An occurrence in the front part is one in the whole. *)
Lemma occurs_app p a b i : p <> [] -> occurs p a i -> occurs p (a ++ b) i.
Proof.
  intros Hp H. pose proof (occurs_length p a i Hp H). unfold occurs in *.
  rewrite drop_app_le, take_app_le by (rewrite ?length_drop; lia). done.
Qed.

Lemma occurs_head c p s i : occurs (c :: p) s i -> s !! i = Some c.
Proof.
  unfold occurs. cbn [length]. intros H. destruct (drop i s) as [|d r] eqn:E; [done|]. cbn [take] in H. injection H as -> _.
  rewrite <- (Nat.add_0_r i), <- lookup_drop, E. done.
Qed.

Lemma drop_no_nul k buf : 0 ∉ buf -> 0 ∉ drop k buf.
Proof. intros H0 Hc. apply H0. rewrite <- (take_drop k buf). apply elem_of_app. by right. Qed.

Lemma take_no_nul k buf : 0 ∉ buf -> 0 ∉ take k buf.
Proof. intros H0 Hc. apply H0. rewrite <- (take_drop k buf). apply elem_of_app. by left. Qed.

(** The window of the loop. *)
Lemma window_None p n l buf : 0 ∉ buf -> (forall j, ~ occurs p buf j) -> window_find p n l buf = None.
Proof.
  intros H0 H. unfold window_find. rewrite c_text_id by (by apply drop_no_nul).
  assert (strstr (drop (length buf - (n + l)) buf) p = None) as ->; [|done]. apply strstr_None. intros j _. rewrite occurs_drop. apply H.
Qed.

Lemma window_Some p n l buf k :
  0 ∉ buf -> occurs p buf k -> (forall j, (j < k)%nat -> ~ occurs p buf j) -> (k <= length buf)%nat -> (length buf - (n + l) <= k)%nat ->
  window_find p n l buf = Some k.
Proof.
  intros H0 Ho Hmin Hk Hw. unfold window_find. rewrite c_text_id by (by apply drop_no_nul). set (off := (length buf - (n + l))%nat) in *.
  assert (strstr (drop off buf) p = Some (k - off)%nat) as ->; [|cbn [fmap option_fmap option_map]; f_equal; lia].
  apply strstr_Some. rewrite length_drop. split; [lia|]. split.
  - rewrite occurs_drop. by replace (off + (k - off))%nat with k by lia.
  - intros j Hj. rewrite occurs_drop. apply Hmin. lia.
Qed.

(** ** Answers *)

(** The modem speaks: rounds without data, and reads of what is available. *)
Inductive spoken : list round -> list Z -> Z -> Prop :=
| sp_last r bs : rd r = Some bs -> bs <> [] -> 1 <= avail1 r -> Z.of_nat (length bs) <= avail1 r -> spoken [r] bs 0
| sp_last_late r bs : rd r = Some bs -> bs <> [] -> avail1 r < 1 -> Z.of_nat (length bs) <= avail2 r -> spoken [r] bs 1
| sp_quiet r s t k : avail1 r < 1 -> avail2 r < 1 -> spoken s t k -> spoken (r :: s) t (k + 1)
| sp_late r bs s t k : rd r = Some bs -> bs <> [] -> avail1 r < 1 -> Z.of_nat (length bs) <= avail2 r -> spoken s t k -> spoken (r :: s) (bs ++ t) (k + 1)
| sp_data r bs s t k : rd r = Some bs -> bs <> [] -> 1 <= avail1 r -> Z.of_nat (length bs) <= avail1 r -> spoken s t k -> spoken (r :: s) (bs ++ t) k.

(** The end of the text is found with its last character and not before. *)
Definition ends_at (exp : option cstr) (t : cstr) : Prop :=
  (forall pre post n, t = pre ++ post -> post <> [] -> find_end exp n pre = None) /\
  (forall n, (1 <= n)%nat -> find_end exp n t = Some (length t)).

Lemma spoken_nonempty rs t k : spoken rs t k -> t <> [] /\ 0 <= k.
Proof.
  induction 1 as [| |?????? H [IH ?]|????? ? Hb ?? H [IH ?]|????? ? Hb ?? H [IH ?]]; (split; [|lia]); try done;
    intros Hx; by apply app_eq_nil in Hx as [? _].
Qed.

(** A round with data. *)
Lemma data_round r bs s timeout tc exp buf :
  rd r = Some bs -> bs <> [] -> Z.of_nat (length bs) <= (if avail1 r <? 1 then avail2 r else avail1 r) ->
  Z.of_nat (length (buf ++ bs)) < MAX_BUF ->
  read_loop (r :: s) timeout tc exp buf =
  (let tc := if avail1 r <? 1 then tc + 1 else tc in
   match find_end exp (length bs) (buf ++ bs) with
   | Some e => (Some (buf ++ bs, Some e), s)
   | None => if tc <? timeout then read_loop s timeout tc exp (buf ++ bs) else (Some (buf ++ bs, None), s)
   end).
Proof.
  intros Hrd Hne Hav Hl. cbn [read_loop]. assert (0 < Z.of_nat (length bs)) by (destruct bs; [done|cbn; lia]).
  rewrite length_app in Hl. 
  assert (Htake : forall av, Z.of_nat (length bs) <= av ->
    take (Z.to_nat (if MAX_BUF - Z.of_nat (length buf) - 1 <? av then MAX_BUF - Z.of_nat (length buf) - 1 else av)) bs = bs).
  { intros av Hav'. apply take_ge. destruct (Z.ltb_spec (MAX_BUF - Z.of_nat (length buf) - 1) av); lia. }
  destruct (avail1 r <? 1).
  - destruct (Z.ltb_spec 0 (avail2 r)); [|lia]. rewrite Hrd, Htake by done. by destruct bs.
  - destruct (Z.ltb_spec 0 (avail1 r)); [|lia]. rewrite Hrd, Htake by done. by destruct bs.
Qed.

Lemma quiet_round r s timeout tc exp buf :
  avail1 r < 1 -> avail2 r < 1 -> tc + 1 < timeout -> read_loop (r :: s) timeout tc exp buf = read_loop s timeout (tc + 1) exp buf.
Proof.
  intros H1 H2 H3. cbn [read_loop]. destruct (Z.ltb_spec (avail1 r) 1); [|lia]. destruct (Z.ltb_spec 0 (avail2 r)); [lia|].
  by destruct (Z.ltb_spec (tc + 1) timeout); [|lia].
Qed.

Lemma read_spoken rs t k rest timeout exp :
  spoken rs t k -> forall buf tc, ends_at exp (buf ++ t) -> tc + k < timeout -> Z.of_nat (length (buf ++ t)) < MAX_BUF ->
  read_loop (rs ++ rest) timeout tc exp buf = (Some (buf ++ t, Some (length (buf ++ t))), rest).
Proof.
  induction 1 as [r bs Hrd Hne H1 H2|r bs Hrd Hne H1 H2|r s t k H1 H2 Hs IH|r bs s t k Hrd Hne H1 H2 Hs IH|r bs s t k Hrd Hne H1 H2 Hs IH];
    intros buf tc Hend Ht Hl; cbn [app].
  3:{ apply spoken_nonempty in Hs as [_ Hk]. rewrite quiet_round by lia. by apply IH; [| |]; [|lia|]. }
  all: assert (Hav : Z.of_nat (length bs) <= (if avail1 r <? 1 then avail2 r else avail1 r)) by (destruct (Z.ltb_spec (avail1 r) 1); lia).
  all: assert (Hlb : (1 <= length bs)%nat) by (destruct bs; [done|cbn; lia]).
  1,2: rewrite (data_round r bs) by done; cbv zeta; by rewrite (proj2 Hend) by done.
  all: apply spoken_nonempty in Hs as [Htn Hk]; rewrite app_assoc in *;
    rewrite (data_round r bs) by (rewrite ?length_app in *; done || lia); cbv zeta;
    rewrite (proj1 Hend (buf ++ bs) t) by done.
  - destruct (Z.ltb_spec (avail1 r) 1); [|lia]. destruct (Z.ltb_spec (tc + 1) timeout); [|lia]. apply IH; [done|lia|done].
  - destruct (Z.ltb_spec (avail1 r) 1); [lia|]. destruct (Z.ltb_spec tc timeout); [|lia]. apply IH; [done|lia|done].
Qed.

Definition OKCRLF : cstr := str "OK" ++ CRLF.

Lemma prefix_only p t pre post j : p <> [] -> t = pre ++ post -> post <> [] ->
  (forall j, occurs p t j -> (j + length p = length t)%nat) -> ~ occurs p pre j.
Proof.
  intros Hp -> Hpost H Ho. pose proof (occurs_length p pre j Hp Ho). apply (occurs_app p pre post j Hp) in Ho. apply H in Ho.
  rewrite length_app in Ho. destruct post; [done|cbn in Ho; lia].
Qed.

Lemma window_end p n l t :
  p <> [] -> 0 ∉ t -> (length p <= l)%nat -> (forall j, occurs p t j -> (j + length p = length t)%nat) -> occurs p t (length t - length p) ->
  window_find p n l t = Some (length t - length p)%nat.
Proof.
  intros Hp H0 Hl H Ho. pose proof (occurs_length _ _ _ Hp Ho). apply window_Some; [done|done| |lia|lia]. intros j Hj Hj'. apply H in Hj'. lia.
Qed.

Lemma occurs_end p pre : occurs p (pre ++ p) (length (pre ++ p) - length p).
Proof. unfold occurs. rewrite length_app. replace (length pre + length p - length p)%nat with (length pre) by lia. by rewrite drop_app_length, firstn_all. Qed.

(** A confirmation ends the answer, and so does a prompt that is waited for. *)
Lemma ends_ok pre :
  0 ∉ pre -> (forall j, occurs OKCRLF (pre ++ OKCRLF) j -> (j + 4 = length (pre ++ OKCRLF))%nat) ->
  (forall j, ~ occurs (str "ERROR") (pre ++ OKCRLF) j) -> ends_at None (pre ++ OKCRLF).
Proof.
  intros H0 Hok Herr. assert (H0' : 0 ∉ pre ++ OKCRLF) by (rewrite elem_of_app; intros [?|Hx]; [done|by revert Hx; apply (bool_decide_eq_true_1 (_ ∉ _))]).
  split.
  - intros a b n E Hb. unfold find_end. fold OKCRLF.
    assert (Ha : 0 ∉ a) by (rewrite E in H0'; intros Hx; apply H0', elem_of_app; by left).
    rewrite (window_None OKCRLF); [|done|intros j; by eapply prefix_only].
    rewrite (window_None (str "ERROR")); [done|done|]. intros j Hj. apply (Herr j). rewrite E. by apply occurs_app.
  - intros n Hn. unfold find_end. fold OKCRLF. rewrite (window_end OKCRLF); [|done|done|done|done|apply occurs_end].
    f_equal. rewrite length_app. change (length OKCRLF) with 4%nat. lia.
Qed.

Lemma ends_prompt p pre :
  p <> [] -> 0 ∉ pre ++ p -> (forall j, occurs p (pre ++ p) j -> (j + length p = length (pre ++ p))%nat) -> ends_at (Some p) (pre ++ p).
Proof.
  intros Hp H0 H. split.
  - intros a b n E Hb. unfold find_end. assert (Ha : 0 ∉ a) by (rewrite E in H0; intros Hx; apply H0, elem_of_app; by left).
    by rewrite window_None; [|done|intros j; by eapply prefix_only].
  - intros n Hn. unfold find_end. rewrite window_end; [|done|done|lia|done|apply occurs_end]. cbn [fmap option_fmap option_map]. f_equal.
    rewrite length_app. lia.
Qed.

Lemma command_spoken cmd mx timeout exp m rs t k rest :
  spoken rs t k -> script m = rs ++ rest -> ends_at exp t -> k < timeout -> Z.of_nat (length t) < MAX_BUF -> 0 ∉ t ->
  put_command cmd mx timeout exp m
  = (Z.of_nat (length t), Some (take (Z.to_nat (mx - 1)) t), mkModem rest (heard m ++ [(cmd, Some (take (Z.to_nat (mx - 1)) t))])).
Proof.
  intros Hs Hm He Ht Hl H0. unfold put_command. rewrite Hm, (read_spoken rs t k rest timeout exp Hs [] 0) by (done || lia). cbn [app].
  assert (c_text (take (Z.to_nat (Z.min (mx - 1) (Z.of_nat (length t)))) t) = take (Z.to_nat (mx - 1)) t) as ->; [|done].
  rewrite c_text_id by (by apply take_no_nul). destruct (Z.min_spec (mx - 1) (Z.of_nat (length t))) as [[_ ->]|[Hge ->]]; [done|].
  rewrite Nat2Z.id, firstn_all. by rewrite take_ge by lia.
Qed.

(** ** The registration *)

Lemma read_loop_consumes s timeout tc exp buf : s <> [] -> (length (snd (read_loop s timeout tc exp buf)) < length s)%nat.
Proof.
  intros Hs. assert (H : forall s timeout tc exp buf, (length (snd (read_loop s timeout tc exp buf)) <= length s - 1)%nat).
  2:{ specialize (H s timeout tc exp buf). destruct s; [done|]. cbn [length] in *. lia. }
  clear. induction s as [|r s IH]; intros timeout tc exp buf; [cbn; lia|]. cbn [read_loop].
  assert (Hag : forall b tc', (length (snd (if (tc' <? timeout)%Z then read_loop s timeout tc' exp b else (Some (b, None), s))) <= length (r :: s) - 1)%nat).
  { intros b tc'. cbn [length]. destruct (_ <? _)%Z; [|cbn; lia]. specialize (IH timeout tc' exp b). lia. }
  destruct (if avail1 r <? 1 then _ else _) as [av tc']. destruct (0 <? av); [|apply Hag].
  destruct (rd r); [|cbn; lia]. destruct (take _ _); [apply Hag|]. destruct (find_end _ _ _); [cbn; lia|apply Hag].
Qed.

Lemma command_consumes cmd mx timeout exp m n a m' :
  put_command cmd mx timeout exp m = (n, a, m') ->
  (script m <> [] -> (length (script m') < length (script m))%nat) /\ (script m = [] -> script m' = [] /\ a = Some []).
Proof.
  unfold put_command. intros H. split.
  - intros Hs. pose proof (read_loop_consumes (script m) timeout 0 exp [] Hs). destruct (read_loop _ _ _ _ _) as [[[buf e]|] s]; by injection H as _ _ <-.
  - intros Hs. rewrite Hs in H. cbn [read_loop] in H. injection H as _ <- <-. split; [done|]. by rewrite take_nil.
Qed.

Lemma creg_consumes mx m a m' :
  creg mx m = Ok (a, m') -> (script m <> [] -> (length (script m') < length (script m))%nat) /\ (script m = [] -> script m' = [] /\ a = []).
Proof.
  unfold creg. intros H. destruct (put_command _ _ _ _ _) as [[n b] m1] eqn:E. inv_bind H. injection H as <- <-. apply of_opt_Ok in Ha0. subst b.
  apply command_consumes in E as [H1 H2]. split; [done|]. intros Hs. destruct (H2 Hs) as [? [= ->]]. done.
Qed.

(** The result of the loop does not depend on the number of rounds it is given,
    once that is at least the rounds of the script and the retries left. *)
Lemma init_loop_fuel f retries m :
  retries < 20 -> (Z.to_nat (20 - retries) + length (script m) <= f)%nat ->
  init_loop f retries m <> Ok None /\ forall g, (f <= g)%nat -> init_loop g retries m = init_loop f retries m.
Proof.
  revert retries m. induction f as [|f IH]; intros retries m Hr Hf; [lia|].
  assert (Hstep : match creg 100 m with
    | Ok (a, m') => let '(success, r') :=
        if has a 49 then (true, retries + 1) else if has a 50 then (false, retries) else if has a 53 then (true, retries + 1)
        else if contains a (str "ERROR") then (true, retries + 1) else (false, retries + 1) in
        negb success && (r' <? 20) = true -> r' < 20 /\ (Z.to_nat (20 - r') + length (script m') <= f)%nat
    | _ => True end).
  { destruct (creg 100 m) as [[a m']| |] eqn:E; [|done|done]. apply creg_consumes in E as [H1 H2].
    assert (Hl : (length (script m') <= length (script m))%nat).
    { destruct (script m) eqn:Es; [by destruct H2 as [-> _]|]. specialize (H1 ltac:(done)). lia. }
    destruct (has a 49); [done|]. destruct (has a 50) eqn:Ha50.
    - intros _. split; [done|]. destruct (script m) eqn:Es; [destruct H2 as [_ ->]; done|]. specialize (H1 ltac:(done)). lia.
    - destruct (has a 53); [done|]. destruct (contains a _); [done|]. intros Hx. apply andb_true_iff in Hx as [_ Hx]. apply Z.ltb_lt in Hx. lia. }
  split.
  - cbn [init_loop]. destruct (creg 100 m) as [[a m']| |]; [|done|done]. rewrite bind_Ok. cbv beta iota.
    destruct (if has a 49 then _ else _) as [s r']. destruct (negb s && (r' <? 20)); [|done]. destruct (Hstep eq_refl) as [H1 H2]. by apply IH.
  - intros [|g] Hg; [lia|]. cbn [init_loop]. destruct (creg 100 m) as [[a m']| |]; [|done|done]. rewrite !bind_Ok. cbv beta iota.
    destruct (if has a 49 then _ else _) as [s r']. destruct (negb s && (r' <? 20)); [|done]. destruct (Hstep eq_refl) as [H1 H2].
    apply IH; [done|done|lia].
Qed.

(** ** Sending *)

(** Did the modem confirm? *)
Definition says_ok (a : option cstr) : bool := match a with Some t => contains t (str "OK") | None => false end.

Lemma command_log cmd mx timeout exp m n a m' :
  put_command cmd mx timeout exp m = (n, a, m') -> heard m' = heard m ++ [(cmd, a)] /\ (n = 0 -> says_ok a = false).
Proof.
  unfold put_command. destruct (read_loop _ _ _ _ _) as [[[buf e]|] s].
  - cbv zeta. set (k := match e with Some e => e | None => length buf end). intros [= <- <- <-]. split; [done|]. intros Hn.
    replace k with 0%nat by lia. replace (Z.to_nat (Z.min (mx - 1) (Z.of_nat 0))) with 0%nat by lia. done.
  - by intros [= <- <- <-].
Qed.

(** The commands of the registration. *)
Definition registers (e : cstr * option cstr) : Prop := fst e = str "AT+CREG?" ++ [13] \/ fst e = MODEM_INIT.
Definition only_registers (m m' : modem) : Prop := exists l, heard m' = heard m ++ l /\ Forall registers l.

#[export] Instance only_registers_preorder : PreOrder only_registers.
Proof.
  split; [intros m; exists []; by rewrite app_nil_r|]. intros a b c (l1 & H1 & F1) (l2 & H2 & F2). exists (l1 ++ l2).
  split; [by rewrite H2, H1, app_assoc|by apply Forall_app_2].
Qed.

Lemma creg_log mx m a m' : creg mx m = Ok (a, m') -> only_registers m m'.
Proof.
  unfold creg. intros H. destruct (put_command _ _ _ _ _) as [[n b] m1] eqn:E. inv_bind H. injection H as <- <-.
  apply command_log in E as [E _]. exists [(str "AT+CREG?" ++ [13], b)]. split; [done|]. constructor; [by left|constructor].
Qed.

Lemma init_loop_log f r m s m' : init_loop f r m = Ok (Some (s, m')) -> only_registers m m'.
Proof.
  revert r m. induction f as [|f IH]; intros r m H; cbn [init_loop] in H; [done|]. inv_bind H. destruct a as [a m1]. apply creg_log in Ha.
  destruct (if has a 49 then _ else _) as [s1 r1]. destruct (negb s1 && (r1 <? 20)); [|injection H as _ <-; done].
  etransitivity; [exact Ha|by eapply IH].
Qed.

Lemma check_log m r m' : checkmodem m = Ok (r, m') -> only_registers m m'.
Proof.
  unfold checkmodem. intros H. inv_bind H. destruct a as [a m1]. apply creg_log in Ha. etransitivity; [exact Ha|].
  destruct (has a 49); [by injection H as _ <-|]. unfold initmodem in H. inv_bind H. inv_bind H. destruct a1 as [s m2].
  apply of_opt_Ok in Ha1. subst a0. apply init_loop_log in Ha0. etransitivity; [exact Ha0|]. destruct s; [|by injection H as _ <-].
  destruct (put_command _ _ _ _ _) as [[n b] m3] eqn:E. inv_bind H. injection H as _ <-. apply command_log in E as [E _].
  exists [(MODEM_INIT, b)]. split; [done|]. constructor; [by right|constructor].
Qed.

Lemma attempt_log c1 c2 m b m' :
  attempt c1 c2 m = (b, m') ->
  (exists a, heard m' = heard m ++ [(c1, a)] /\ b = false) \/
  (exists a1 a2, heard m' = heard m ++ [(c1, a1); (c2, a2)] /\ b = says_ok a2).
Proof.
  unfold attempt. destruct (put_command c1 _ _ _ _) as [[n a1] m1] eqn:E1. apply command_log in E1 as [H1 _].
  destruct (n =? 0); [intros [= <- <-]; left; by exists a1|].
  destruct (put_command c2 _ _ _ _) as [[n2 a2] m2] eqn:E2. apply command_log in E2 as [H2 Hz]. intros H. right. exists a1, a2.
  destruct (Z.eqb_spec n2 0) as [Hn|_]; injection H as <- <-; (split; [by rewrite H2, H1, <- app_assoc|]); [by rewrite Hz|done].
Qed.

(** The text was confirmed; the number of times it was sent. *)
Definition confirmed (c2 : cstr) (l : list (cstr * option cstr)) : Prop := exists e, e ∈ l /\ fst e = c2 /\ says_ok (snd e) = true.
Definition transmissions (c2 : cstr) (l : list (cstr * option cstr)) : nat := length (filter (fun e => fst e = c2) l).

Lemma confirmed_app c l1 l2 : confirmed c (l1 ++ l2) <-> confirmed c l1 \/ confirmed c l2.
Proof. unfold confirmed. setoid_rewrite elem_of_app. naive_solver. Qed.

Lemma transmissions_app c l1 l2 : transmissions c (l1 ++ l2) = (transmissions c l1 + transmissions c l2)%nat.
Proof. unfold transmissions. by rewrite filter_app, length_app. Qed.

Lemma registers_other c l : (forall a, ~ registers (c, a)) -> Forall registers l -> ~ confirmed c l /\ transmissions c l = 0%nat.
Proof.
  intros Hc Hl. split.
  - intros ([d a] & He & Hd & _). rewrite Forall_forall in Hl. apply Hl in He. cbn in Hd. subst d. by apply Hc in He.
  - unfold transmissions. induction Hl as [|[d a] l Hd _ IH]; [done|]. rewrite filter_cons. destruct (decide _) as [Hx|]; [|done].
    cbn in Hx. subst d. by apply Hc in Hd.
Qed.

Lemma putsms_loop_log t c1 c2 e m code m' :
  c1 <> c2 -> (forall a, ~ registers (c2, a)) -> 0 <= e < 2 -> putsms_loop t c1 c2 e m = Ok (code, m') ->
  exists l, heard m' = heard m ++ l /\ 0 <= code <= 3 /\ (code = 2 <-> confirmed c2 l) /\ (transmissions c2 l <= t)%nat.
Proof.
  intros Hne Hc. revert e m. induction t as [|t IH]; intros e m He H; cbn [putsms_loop] in H.
  - injection H as <- <-. exists []. rewrite app_nil_r. split; [done|]. split; [lia|]. split; [|cbn; lia]. split; [lia|]. by intros (? & ?%elem_of_nil & _).
  - destruct (Z.ltb_spec e 2); [|lia]. destruct (attempt c1 c2 m) as [ok m1] eqn:Ea. apply attempt_log in Ea.
    assert (Hl : exists l1, heard m1 = heard m ++ l1 /\ (ok = true <-> confirmed c2 l1) /\ (transmissions c2 l1 <= 1)%nat).
    { destruct Ea as [(a & Hh & ->)|(a1 & a2 & Hh & ->)]; (eexists; split; [exact Hh|]).
      - split.
        + split; [done|]. intros (x & ->%list_elem_of_singleton & Hx & _). done.
        + unfold transmissions. rewrite filter_cons, decide_False by done. cbn. lia.
      - split.
        + split; [intros Hs; exists (c2, a2); split; [right; by left|done]|].
          intros (x & Hx & Hf & Hs). apply elem_of_cons in Hx as [->|Hx]; [done|]. apply list_elem_of_singleton in Hx as ->. done.
        + unfold transmissions. rewrite !filter_cons, decide_False by done. by rewrite decide_True. }
    destruct Hl as (l1 & Hh1 & Hok & Htr). destruct ok.
    + assert (Hr : code = 2 /\ m' = m1) by (destruct t; cbn [putsms_loop] in H; by injection H as <- <-). destruct Hr as [-> ->].
      exists l1. split; [done|]. split; [lia|]. split; [|lia]. split; [|done]. intros _. by apply Hok.
    + inv_bind H. destruct a as [st m2]. apply check_log in Ha as (l2 & Hh2 & Hf). destruct (registers_other c2 l2 Hc Hf) as [Hnc Ht0].
      set (e' := if st =? -1 then 0 else if e =? 0 then 1 else 3) in H.
      assert (He' : e' = 3 \/ 0 <= e' < 2) by (subst e'; repeat case_match; lia).
      assert (Hr : exists l3, heard m' = heard m2 ++ l3 /\ 0 <= code <= 3 /\ (code = 2 <-> confirmed c2 l3) /\ (transmissions c2 l3 <= t)%nat).
      { destruct He' as [E3|He']; [|by apply (IH e')]. rewrite E3 in H. assert (code = 3 /\ m' = m2) as [-> ->] by (destruct t; cbn [putsms_loop] in H; by injection H as <- <-).
        exists []. rewrite app_nil_r. split; [done|]. split; [lia|]. split; [|cbn; lia]. split; [lia|]. by intros (? & ?%elem_of_nil & _). }
      destruct Hr as (l3 & Hh3 & Hc3 & Hi3 & Ht3). exists (l1 ++ l2 ++ l3). split; [by rewrite Hh3, Hh2, Hh1, !app_assoc|]. split; [done|].
      rewrite !confirmed_app, !transmissions_app, Ht0. split; [|lia]. rewrite Hi3. destruct Hok as [_ Hok]. split; [tauto|].
      intros [Hx|[Hx|Hx]]; [by apply Hok in Hx|done|done].
Qed.

(** ** Receiving *)

(** [atoi] stops behind the number. *)
Lemma atoi_stop n rest :
  0 <= n <= INT_MAX -> match rest with c :: _ => isdigit c = false | [] => True end -> atoi (fmt_d n ++ rest) = n.
Proof.
  intros Hn Hr. unfold fmt_d. destruct (Z.ltb_spec n 0); [lia|]. destruct (digits_cons n) as (c & r & Hc & Hdc); [lia|].
  pose proof (digits_isdigit n ltac:(lia)) as Hd. pose proof (digits_val_digits n ltac:(lia)) as Hv. rewrite Hc in *. unfold atoi.
  cbn [app skip_while]. unfold isdigit in Hdc. replace (isspace c) with false by (unfold isspace; lia).
  assert (Hm : clamp_int (digits_val (take_while isdigit (c :: r ++ rest))) = n).
  { change (c :: r ++ rest) with ((c :: r) ++ rest). rewrite take_while_app_stop, Hv by done. unfold clamp_int, INT_MIN, INT_MAX in *. lia. }
  destruct (decide (c = 45)) as [->|]; [lia|]. destruct (decide (c = 43)) as [->|]; [lia|]. repeat case_match; done.
Qed.

(** A message in the memory of the modem: its status, the number of the sender,
    the digits of the date and of the time, the time zone and the text. *)
Record stored := mkStored {
  st_status : cstr; st_num : cstr;
  y1 : Z; y2 : Z; m1 : Z; m2 : Z; d1 : Z; d2 : Z;
  h1 : Z; h2 : Z; i1 : Z; i2 : Z; s1 : Z; s2 : Z;
  st_zone : cstr; st_text : cstr;
}.

Definition st_date (s : stored) (sep : Z) : cstr := [y1 s; y2 s; sep; m1 s; m2 s; sep; d1 s; d2 s].
Definition st_time (s : stored) : cstr := [h1 s; h2 s; 58; i1 s; i2 s; 58; s1 s; s2 s].

(** The lines the modem shows. *)
Definition st_header (s : stored) : cstr :=
  [34] ++ st_status s ++ [34; 44; 34] ++ st_num s ++ [34; 44; 44; 34] ++ st_date s 47 ++ [44] ++ st_time s ++ st_zone s ++ [34].
Definition st_reply (s : stored) : cstr :=
  (CRLF ++ str "+CMGR: " ++ st_header s ++ CRLF ++ st_text s ++ CRLF ++ CRLF) ++ OKCRLF.

Definition header_char (c : Z) : Prop := c <> 0 /\ c <> 10 /\ c <> 13 /\ c <> 34 /\ c <> 44.
Record stored_ok (s : stored) : Prop := {
  ok_status : st_status s <> [] /\ Forall header_char (st_status s);
  ok_num : Forall header_char (st_num s) /\ (length (st_num s) <= 30)%nat;
  ok_stamp : Forall header_char [y1 s; y2 s; m1 s; m2 s; d1 s; d2 s; h1 s; h2 s; i1 s; i2 s; s1 s; s2 s];
  ok_zone : Forall header_char (st_zone s);
  ok_text : 0 ∉ st_text s /\ 13 ∉ st_text s;
  ok_length : (length (st_reply s) <= 511)%nat;
  ok_end : forall j, occurs OKCRLF (st_reply s) j -> (j + 4 = length (st_reply s))%nat;
  ok_error : forall j, ~ occurs (str "ERROR") (st_reply s) j;
  ok_marker : forall j, ~ occurs (str ",,0" ++ [13]) (st_reply s) j;
}.

Lemma header_not c l : Forall header_char l -> c = 0 \/ c = 10 \/ c = 13 \/ c = 34 \/ c = 44 -> c ∉ l.
Proof. intros H Hc Hx. rewrite Forall_forall in H. apply H in Hx. unfold header_char in Hx. lia. Qed.

Lemma header_free s c : stored_ok s -> c = 0 \/ c = 10 \/ c = 13 -> c ∉ st_header s.
Proof.
  intros Hs Hc. assert (Hch : forall d, header_char d -> d <> c) by (intros d (? & ? & ? & _); destruct Hc as [->|[->| ->]]; done).
  assert (Hk : forall d, d = 34 \/ d = 44 \/ d = 47 \/ d = 58 -> d <> c) by lia.
  assert (Hall : forall l, Forall header_char l -> Forall (fun d => d <> c) l) by (intros l Hl; by eapply Forall_impl; [exact Hl|]).
  pose proof (Hall _ (ok_stamp s Hs)) as Hst. rewrite !Forall_cons in Hst. destruct Hst as (? & ? & ? & ? & ? & ? & ? & ? & ? & ? & ? & ? & _).
  assert (Hh : Forall (fun d => d <> c) (st_header s)).
  { unfold st_header, st_date, st_time. rewrite !Forall_app. split_and!; try (apply Hall; apply Hs).
    all: repeat (apply Forall_cons; split; [first [assumption|apply Hk; lia]|]); apply Forall_nil; exact I. }
  intros Hx. rewrite Forall_forall in Hh. by apply Hh in Hx.
Qed.

Lemma strstr_at p a r : (forall j, (j < length a)%nat -> ~ occurs p (a ++ p ++ r) j) -> strstr (a ++ p ++ r) p = Some (length a).
Proof.
  intros H. apply strstr_Some. split; [rewrite length_app; lia|]. split; [|done]. unfold occurs. by rewrite drop_app_length, take_app_length.
Qed.

(** A character that the pattern starts with does not occur before. *)
Lemma strstr_first c p a r : c ∉ a -> strstr (a ++ (c :: p) ++ r) (c :: p) = Some (length a).
Proof.
  intros Hc. apply strstr_at. intros j Hj Ho. apply occurs_head in Ho. rewrite lookup_app_l in Ho by done. apply Hc. by eapply list_elem_of_lookup_2.
Qed.

Lemma fetch_reply s : stored_ok s -> fetch_pdu (st_reply s) = Ok (Some (st_header s ++ CRLF ++ st_text s)).
Proof.
  intros Hs. unfold fetch_pdu. set (tail := CRLF ++ CRLF ++ OKCRLF).
  assert (Hr : st_reply s = CRLF ++ str "+CMGR:" ++ [32] ++ st_header s ++ CRLF ++ st_text s ++ tail).
  { unfold st_reply, tail. rewrite <- !app_assoc. done. }
  assert (strstr (st_reply s) (str "+CMGR:") = Some 2%nat) as ->.
  { rewrite Hr. apply (strstr_first 43 (str "CMGR:") CRLF). by apply (bool_decide_eq_true_1 (_ ∉ _)). }
  assert (contains (st_reply s) (str ",,0" ++ [13]) = false) as ->.
  { unfold contains. destruct (strstr _ _) eqn:E; [|done]. apply strstr_Some in E as (_ & Ho & _). by apply (ok_marker s Hs) in Ho. }
  assert (Hd : drop 9 (st_reply s) = st_header s ++ 13 :: 10 :: st_text s ++ tail) by (by rewrite Hr).
  assert (Hl : (9 <= length (st_reply s))%nat) by (rewrite Hr, !length_app; cbn; lia).
  destruct (Nat.ltb_spec (length (st_reply s)) (2 + 7)); [lia|]. change (2 + 7)%nat with 9%nat. rewrite Hd.
  rewrite strchr_app by (apply header_free; auto).
  destruct (Nat.ltb_spec (length (st_header s)) 4) as [Hlt|_].
  { exfalso. unfold st_header in Hlt. rewrite !length_app in Hlt. cbn in Hlt. lia. }
  replace (drop (S (length (st_header s))) (st_header s ++ 13 :: 10 :: st_text s ++ tail)) with ((10 :: st_text s) ++ tail).
  2:{ change (13 :: 10 :: st_text s ++ tail) with ([13] ++ (10 :: st_text s) ++ tail). rewrite app_assoc.
      replace (S (length (st_header s))) with (length (st_header s ++ [13])) by (rewrite length_app; cbn; lia). by rewrite drop_app_length. }
  change tail with (13 :: ([10] ++ CRLF ++ OKCRLF)). rewrite strchr_app.
  2:{ rewrite not_elem_of_cons. split; [done|]. apply (ok_text s Hs). }
  assert (Htk : take (S (length (st_header s)) + length (10 :: st_text s)) (st_header s ++ 13 :: 10 :: st_text s ++ 13 :: [10] ++ CRLF ++ OKCRLF)
    = st_header s ++ CRLF ++ st_text s).
  { replace (st_header s ++ 13 :: 10 :: st_text s ++ 13 :: [10] ++ CRLF ++ OKCRLF) with ((st_header s ++ CRLF ++ st_text s) ++ 13 :: [10] ++ CRLF ++ OKCRLF)
      by (by rewrite <- !app_assoc).
    apply take_app_length'. rewrite !length_app. cbn [length CRLF]. lia. }
  rewrite Htk. unfold sprintf_buf. pose proof (ok_length s Hs) as Hmax. rewrite Hr in Hmax.
  destruct (Z.ltb_spec (Z.of_nat (length (st_header s ++ CRLF ++ st_text s))) 512); [done|]. rewrite !length_app in *. lia.
Qed.

Lemma sprintf_fits N t : Z.of_nat (length t) < N -> sprintf_buf N t = Ok t.
Proof. intros H. unfold sprintf_buf. by destruct (Z.ltb_spec (Z.of_nat (length t)) N); [|lia]. Qed.

Lemma char_at_lookup s i c : s !! i = Some c -> char_at s i = Ok c.
Proof. intros H. unfold char_at. pose proof (lookup_lt_Some _ _ _ H). destruct (Nat.ltb_spec i (length s)); [|lia]. by rewrite H. Qed.

Lemma advance_app a b : advance (length a) (a ++ b) = Ok b.
Proof. unfold advance. rewrite length_app. destruct (Nat.leb_spec (length a) (length a + length b)); [|lia]. by rewrite drop_app_length. Qed.

Lemma stamp_text sep (a b c d e f p q : Z) rest :
  Forall (fun z => z <> 0) [a; b; c; d; e; f; sep] -> stamp sep ([a; b; p; c; d; q; e; f] ++ rest) = Ok [a; b; sep; c; d; sep; e; f].
Proof.
  intros H. unfold stamp. set (s := [a; b; p; c; d; q; e; f] ++ rest).
  rewrite (char_at_lookup s 0 a eq_refl), (char_at_lookup s 1 b eq_refl), (char_at_lookup s 3 c eq_refl), (char_at_lookup s 4 d eq_refl),
    (char_at_lookup s 6 e eq_refl), (char_at_lookup s 7 f eq_refl), !bind_Ok. rewrite c_text_id; [done|]. intros Hx.
  rewrite !Forall_cons in H. destruct H as (? & ? & ? & ? & ? & ? & ? & _). rewrite !elem_of_cons, elem_of_nil in Hx.
  repeat destruct Hx as [Hx|Hx]; congruence.
Qed.

(** The fields of a stored message. *)
Lemma split_stored s :
  stored_ok s -> splitascii (st_header s ++ CRLF ++ st_text s)
  = Ok (mkSms (st_num s) [] (st_date s 45) (st_time s) (st_text s) (Z.of_nat (length (st_text s)))).
Proof.
  intros Hs. destruct (ok_num s Hs) as [Hnum Hnl]. destruct (ok_status s Hs) as [Hsne Hst].
  assert (Htl : (length (st_text s) < 500)%nat).
  { pose proof (ok_length s Hs) as H. unfold st_reply, st_header, st_date, st_time in H. rewrite !length_app in H. cbn in H. lia. }
  pose proof (ok_stamp s Hs) as Hsp. assert (Hz : Forall (fun z => z <> 0) [y1 s; y2 s; m1 s; m2 s; d1 s; d2 s; h1 s; h2 s; i1 s; i2 s; s1 s; s2 s]).
  { eapply Forall_impl; [exact Hsp|]. by intros z [? _]. }
  rewrite !Forall_cons in Hz. destruct Hz as (? & ? & ? & ? & ? & ? & ? & ? & ? & ? & ? & ? & _).
  unfold splitascii. change (CRLF ++ st_text s) with ([13] ++ 10 :: st_text s). rewrite app_assoc, strchr_app.
  2:{ rewrite not_elem_of_app. split; [apply header_free; auto|]. by apply (bool_decide_eq_true_1 (_ ∉ _)). }
  assert (drop (S (length (st_header s ++ [13]))) ((st_header s ++ [13]) ++ 10 :: st_text s) = st_text s) as ->.
  { change (10 :: st_text s) with ([10] ++ st_text s). rewrite app_assoc. apply drop_app_length'. rewrite !length_app. cbn. lia. }
  rewrite (sprintf_fits 500), bind_Ok by lia. cbv beta zeta.
  set (rest := st_date s 47 ++ [44] ++ st_time s ++ st_zone s ++ [34] ++ [13] ++ 10 :: st_text s).
  assert (Hsrc : (st_header s ++ [13]) ++ 10 :: st_text s = ([34] ++ st_status s) ++ [34; 44; 34] ++ st_num s ++ [34; 44] ++ [44; 34] ++ rest).
  { unfold st_header, rest. rewrite <- !app_assoc. done. }
  rewrite Hsrc. change ([34] ++ [44] ++ [34]) with [34; 44; 34].
  assert (strstr (([34] ++ st_status s) ++ [34; 44; 34] ++ st_num s ++ [34; 44] ++ [44; 34] ++ rest) [34; 44; 34] = Some (length ([34] ++ st_status s))) as ->.
  { apply strstr_at. intros [|j] Hj Ho.
    - destruct (st_status s) as [|c r] eqn:E; [done|]. unfold occurs in Ho. cbn in Ho. injection Ho as Ho _. rewrite Forall_cons in Hst. destruct Hst as [(_ & _ & _ & _ & Hc) _]. done.
    - apply occurs_head in Ho. cbn in Hj. rewrite lookup_app_l in Ho by (cbn; lia). cbn [app lookup list_lookup] in Ho.
      apply (header_not 34 _ Hst); [auto|]. by eapply list_elem_of_lookup_2. }
  assert (drop (length ([34] ++ st_status s) + 3) (([34] ++ st_status s) ++ [34; 44; 34] ++ st_num s ++ [34; 44] ++ [44; 34] ++ rest)
    = st_num s ++ [34; 44] ++ [44; 34] ++ rest) as ->.
  { rewrite app_assoc. apply drop_app_length'. rewrite !length_app. cbn. lia. }
  unfold quote_comma. rewrite (strstr_first 34 [44] (st_num s)) by (apply (header_not 34 _ Hnum); auto).
  rewrite take_app_length, (sprintf_fits 31), bind_Ok by lia.
  assert (advance (length (st_num s) + 3) (st_num s ++ [34; 44] ++ [44; 34] ++ rest) = Ok ([34] ++ rest)) as ->.
  { replace (length (st_num s) + 3)%nat with (length (st_num s ++ [34; 44; 44])) by (rewrite length_app; done).
    replace (st_num s ++ [34; 44] ++ [44; 34] ++ rest) with ((st_num s ++ [34; 44; 44]) ++ [34] ++ rest) by (by rewrite <- app_assoc). apply advance_app. }
  rewrite bind_Ok, (char_at_lookup ([34] ++ rest) 0 34 eq_refl), bind_Ok. change (34 =? 34) with true. cbv iota.
  change (advance 1 ([34] ++ rest)) with (advance (length [34]) ([34] ++ rest)). rewrite advance_app, bind_Ok. rewrite (char_at_lookup rest 2 47 eq_refl), bind_Ok. change (47 =? 47) with true. cbv iota.
  unfold split_date, rest, st_date. rewrite stamp_text by (repeat (apply Forall_cons; split; [done|]); by apply Forall_nil). rewrite bind_Ok.
  match goal with |- context [advance 9 ([?a; ?b; ?c; ?d; ?e; ?f; ?g; ?h] ++ [44] ++ ?r)] =>
    change ([a; b; c; d; e; f; g; h] ++ [44] ++ r) with ([a; b; c; d; e; f; g; h; 44] ++ r);
    change (advance 9) with (advance (length [a; b; c; d; e; f; g; h; 44])); rewrite (advance_app [a; b; c; d; e; f; g; h; 44] r) end.
  rewrite bind_Ok. unfold st_time. rewrite stamp_text by (repeat (apply Forall_cons; split; [done|]); by apply Forall_nil). done.
Qed.

(** The characters of a line are collected. *)
Lemma accumulate_plain x l r cmd w : 13 ∉ l -> accumulate x (l ++ r) cmd false w = accumulate x r (cmd ++ l) false w.
Proof.
  revert cmd. induction l as [|c l IH]; intros cmd H; cbn [app accumulate]; [by rewrite app_nil_r|]. apply not_elem_of_cons in H as [Hc H].
  destruct (Z.eqb_spec c 13); [congruence|]. cbn [andb]. rewrite IH by done. by rewrite <- app_assoc.
Qed.

Lemma accumulate_line x l w : 13 ∉ l -> accumulate x (l ++ CRLF) [] false w = processSerialMsg x (l ++ CRLF) w.
Proof.
  intros H. rewrite accumulate_plain by done. change CRLF with [13; 10]. cbn [app accumulate Z.eqb Pos.eqb andb]. rewrite <- app_assoc. cbn [app].
  by destruct (processSerialMsg x (l ++ [13; 10]) w).
Qed.

Lemma reply_ends s : stored_ok s -> ends_at None (st_reply s) /\ 0 ∉ st_reply s.
Proof.
  intros Hs. assert (Hpre : 0 ∉ CRLF ++ str "+CMGR: " ++ st_header s ++ CRLF ++ st_text s ++ CRLF ++ CRLF).
  { rewrite !not_elem_of_app. split_and!; try (by apply (bool_decide_eq_true_1 (_ ∉ _))); [apply header_free; auto|apply (ok_text s Hs)]. }
  split; [by apply ends_ok; [|apply (ok_end s Hs)|apply (ok_error s Hs)]|]. unfold st_reply. rewrite not_elem_of_app. split; [done|].
  by apply (bool_decide_eq_true_1 (_ ∉ _)).
Qed.

(** What is in the memory of the modem is fetched and deleted. *)
Lemma getsms_stored s n m rs1 k1 rs2 t2 k2 rest :
  stored_ok s -> 1 <= n -> (length (fmt_d n) <= 6)%nat -> script m = rs1 ++ rs2 ++ rest -> spoken rs1 (st_reply s) k1 -> k1 < 50 ->
  spoken rs2 t2 k2 -> k2 < 50 -> ends_at None t2 -> 0 ∉ t2 -> Z.of_nat (length t2) < MAX_BUF ->
  getsms n m = Ok (Some (mkSms (st_num s) [] (st_date s 45) (st_time s) (st_text s) (Z.of_nat (length (st_text s)))),
    mkModem rest (heard m ++ [(str "AT+CMGR=" ++ fmt_d n ++ [13], Some (st_reply s)); (str "at+cmgd=" ++ fmt_d n ++ [13], Some (take 31 t2))])).
Proof.
  intros Hs Hn Hdig Hm H1 Hk1 H2 Hk2 He2 H02 Hl2. pose proof (ok_length s Hs) as Hlen. destruct (reply_ends s Hs) as [He1 H01].
  unfold getsms, fetchsms. rewrite sprintf_fits, bind_Ok by (rewrite !length_app; cbn; lia).
  rewrite (command_spoken _ 512 50 None m rs1 (st_reply s) k1 (rs2 ++ rest)); [|done|done|done|done|unfold MAX_BUF; lia|done].
  change (Z.to_nat (512 - 1)) with 511%nat. rewrite take_ge by done. cbn [of_opt]. rewrite bind_Ok, fetch_reply, bind_Ok by done.
  destruct (Z.eqb_spec n 0); [lia|]. rewrite bind_Ok. cbv beta iota. rewrite split_stored, bind_Ok by done.
  unfold deletesms. rewrite sprintf_fits, bind_Ok by (rewrite !length_app; cbn; lia).
  rewrite (command_spoken _ 32 50 None _ rs2 t2 k2 rest); [|done|done|done|done|done|done].
  change (Z.to_nat (32 - 1)) with 31%nat. rewrite bind_Ok. cbn [heard]. by rewrite <- app_assoc.
Qed.

(** The notification of a message. *)
Definition notification (n : Z) : cstr := str "+CMTI: " ++ [34] ++ str "SM" ++ [34; 44] ++ fmt_d n.

Lemma fmt_d_free n c : c < 32 -> c ∉ fmt_d n.
Proof. intros Hc Hx. pose proof (fmt_d_text n) as H. rewrite Forall_forall in H. apply H in Hx. lia. Qed.

Lemma notification_free n c : c < 32 -> c ∉ notification n.
Proof.
  intros Hc Hx. assert (H : Forall (fun d => 32 <= d) (notification n)).
  { unfold notification. rewrite !Forall_app. split_and!; [..|apply fmt_d_text]; repeat (apply Forall_cons; split; [done|]); by apply Forall_nil. }
  rewrite Forall_forall in H. apply H in Hx. lia.
Qed.

(** The text of a message is none of the other commands. *)
Lemma number_text num msg : number_command num <> text_command msg.
Proof.
  intros Hx. apply (f_equal last) in Hx. unfold number_command, text_command in Hx. rewrite last_snoc in Hx.
  replace (str "AT+CMGS=" ++ [34] ++ num ++ [34; 13]) with ((str "AT+CMGS=" ++ [34] ++ num ++ [34]) ++ [13]) in Hx by (by rewrite <- !app_assoc).
  by rewrite last_snoc in Hx.
Qed.

Lemma text_not_registers msg a : ~ registers (text_command msg, a).
Proof. intros [Hx|Hx]; cbn [fst] in Hx; apply (f_equal last) in Hx; unfold text_command in Hx; by rewrite last_snoc in Hx. Qed.

(** * Theorems *)

(** The answer of the modem to a command: whatever way it is cut into reads,
    with pauses shorter than the time limit, an answer that ends with the first
    confirmation in it is taken completely (as far as the caller's buffer goes),
    and nothing after it is consumed. *)
Theorem put_command_answer (cmd : cstr) (mx timeout : Z) (m : modem) (rs rest : list round) (pre : cstr) (k : Z) :
  spoken rs (pre ++ OKCRLF) k -> k < timeout -> script m = rs ++ rest ->
  0 ∉ pre -> (forall j, occurs OKCRLF (pre ++ OKCRLF) j -> (j + 4 = length (pre ++ OKCRLF))%nat) ->
  (forall j, ~ occurs (str "ERROR") (pre ++ OKCRLF) j) -> Z.of_nat (length (pre ++ OKCRLF)) < MAX_BUF ->
  let answer := take (Z.to_nat (mx - 1)) (pre ++ OKCRLF) in
  put_command cmd mx timeout None m
  = (Z.of_nat (length (pre ++ OKCRLF)), Some answer, mkModem rest (heard m ++ [(cmd, Some answer)])).
Proof.
  intros Hs Hk Hm H0 Hok Herr Hl answer. eapply command_spoken; [exact Hs|done|by apply ends_ok|done|done|].
  rewrite not_elem_of_app. split; [done|]. by apply (bool_decide_eq_true_1 (_ ∉ _)).
Qed.

(** Text spoken in chunks, without pauses. *)
Definition chunks (l : list cstr) : list round := map (fun bs => mkRound (Z.of_nat (length bs)) 0 (Some bs)) l.

Lemma chunks_spoken l : l <> [] -> Forall (fun bs => bs <> []) l -> spoken (chunks l) (concat l) 0.
Proof.
  intros Hl H. induction H as [|bs l Hb H IH]; [done|]. assert (1 <= Z.of_nat (length bs)) by (destruct bs; [done|cbn; lia]).
  destruct l as [|b2 l].
  - cbn [chunks map concat]. rewrite app_nil_r. by apply sp_last.
  - cbn [chunks map concat]. apply sp_data; [done|done|done|cbn; lia|]. by apply IH.
Qed.

(** An answer without other confirmations, by inspection. *)
Definition occurrences (p s : cstr) : list nat := filter (fun i => take (length p) (drop i s) = p) (seq 0 (length s)).

Lemma occurrences_spec p s i : p <> [] -> occurs p s i -> i ∈ occurrences p s.
Proof.
  intros Hp H. pose proof (occurs_length p s i Hp H). apply list_elem_of_filter. split; [done|]. apply elem_of_seq. destruct p; [done|]. cbn in *. lia.
Qed.

Lemma only_occurrence p s k j : p <> [] -> occurrences p s = [k] -> occurs p s j -> j = k.
Proof. intros Hp E H%(occurrences_spec _ _ _ Hp). rewrite E in H. by apply list_elem_of_singleton in H. Qed.

Lemma no_occurrence p s j : p <> [] -> occurrences p s = [] -> ~ occurs p s j.
Proof. intros Hp E H%(occurrences_spec _ _ _ Hp). rewrite E in H. by apply elem_of_nil in H. Qed.

Lemma put_command_answer_witness :
  put_command (str "AT" ++ [13]) 100 50 None (mkModem (mkRound 0 0 None :: chunks [CRLF ++ str "+CREG: 0,1"; CRLF ++ CRLF ++ str "O"; str "K" ++ [13]; [10]] ++ chunks [str "+CMTI"]) [])
  = (20, Some (CRLF ++ str "+CREG: 0,1" ++ CRLF ++ CRLF ++ OKCRLF),
     mkModem (chunks [str "+CMTI"]) [(str "AT" ++ [13], Some (CRLF ++ str "+CREG: 0,1" ++ CRLF ++ CRLF ++ OKCRLF))]).
Proof.
  refine (put_command_answer (str "AT" ++ [13]) 100 50 _
    (mkRound 0 0 None :: chunks [CRLF ++ str "+CREG: 0,1"; CRLF ++ CRLF ++ str "O"; str "K" ++ [13]; [10]]) (chunks [str "+CMTI"])
    (CRLF ++ str "+CREG: 0,1" ++ CRLF ++ CRLF) 1 _ _ _ _ _ _ _).
  - apply (sp_quiet _ _ _ 0); [done|done|]. apply (chunks_spoken [CRLF ++ str "+CREG: 0,1"; CRLF ++ CRLF ++ str "O"; str "K" ++ [13]; [10]]); [done|].
    repeat (constructor; [done|]). constructor.
  - done.
  - reflexivity.
  - by apply (bool_decide_eq_true_1 (_ ∉ _)).
  - intros j Hj. apply (only_occurrence _ _ 16) in Hj as ->; [reflexivity|done|reflexivity].
  - intros j. apply no_occurrence; [done|reflexivity].
  - reflexivity.
Defined.




Definition demo_x : xAPIdent := mkIdent (str "dbzoo.livebox.SMS") (str "FF00DD00") 3639 (str "192.168.1.9").
Definition demo_out : message :=
  [mkBlock (str "xap-header") [(str "class", str "sms.message")]; mkBlock (str "outbound") [(str "msg", str "Hello"); (str "num", str "+441234567")]].
Definition demo_sms_world (s : list round) : sms_world := mkWorld (mkModem s []) (parsed_frame demo_out [0] []) [].

Lemma demo_out_wf : msg_wf demo_out.
Proof. repeat constructor; try (by apply text_wf_str); try (by apply (bool_decide_eq_true_1 (_ ∉ _))); done. Qed.

Definition prompt : cstr := CRLF ++ str "> ".
Definition demo_confirm : cstr := (CRLF ++ str "+CMGS: 7" ++ CRLF ++ CRLF) ++ OKCRLF.


(** A message of the bus is sent: when the modem asks for the text and confirms
    it, in whatever pieces its answers arrive, exactly the two commands of one
    attempt are written, the number in quotes and the text with its end mark, and the
    receipt says yes. *)
Theorem xapSendSMS_sent (x : xAPIdent) (es : list entry) (num msg : cstr) (rs1 rs2 rest : list round) (k1 k2 : Z) (pre : cstr) (w : sms_world) :
  frame_rep (sframe w) es -> entries_lookup es (str "outbound") (Some (str "num")) = Some num ->
  entries_lookup es (str "outbound") (Some (str "msg")) = Some msg -> (length num <= 38)%nat -> (length msg <= 498)%nat ->
  script (mdm w) = rs1 ++ rs2 ++ rest -> spoken rs1 prompt k1 -> k1 < 50 ->
  spoken rs2 (pre ++ OKCRLF) k2 -> k2 < 1000 -> 0 ∉ pre -> (length pre <= 95)%nat ->
  (forall j, occurs OKCRLF (pre ++ OKCRLF) j -> (j + 4 = length (pre ++ OKCRLF))%nat) -> (forall j, ~ occurs (str "ERROR") (pre ++ OKCRLF) j) ->
  xapSendSMS x w = Ok (xap_receipt x msg num (str "yes") []
    (mkWorld (mkModem rest (heard (mdm w) ++ [(number_command num, Some prompt); (text_command msg, Some (pre ++ OKCRLF))])) (sframe w) (xsent w))).
Proof.
  intros Hrep Hn Hm Hln Hlm Hs H1 Hk1 H2 Hk2 H0 Hlp Hok Herr. unfold xapSendSMS. rewrite !(get_value_rep _ _ _ _ Hrep), !bind_Ok, Hn, Hm. cbn [pstr].
  assert (Hlen : (length (pre ++ OKCRLF) <= 99)%nat) by (rewrite length_app; change (length OKCRLF) with 4%nat; lia).
  assert (Hput : putsms msg num (mdm w) = Ok (2, mkModem rest (heard (mdm w) ++ [(number_command num, Some prompt); (text_command msg, Some (pre ++ OKCRLF))]))).
  { unfold putsms. rewrite (sprintf_fits 50), bind_Ok by (unfold number_command; rewrite !length_app; cbn; lia).
    rewrite (sprintf_fits 500), bind_Ok by (unfold text_command; rewrite !length_app; cbn; lia). cbn [putsms_loop]. change (0 <? 2) with true. cbv iota.
    unfold attempt. fold prompt.
    rewrite (command_spoken _ 100 50 (Some prompt) (mdm w) rs1 prompt k1 (rs2 ++ rest)).
    - change (Z.of_nat (length prompt) =? 0) with false. cbv iota. change (take (Z.to_nat (100 - 1)) prompt) with prompt.
      rewrite (command_spoken _ 100 1000 None _ rs2 (pre ++ OKCRLF) k2 rest); [|done|done|by apply ends_ok|done|unfold MAX_BUF; lia|].
      2:{ rewrite not_elem_of_app. split; [done|]. by apply (bool_decide_eq_true_1 (_ ∉ _)). }
      change (Z.to_nat (100 - 1)) with 99%nat. rewrite take_ge by done.
      destruct (Z.eqb_spec (Z.of_nat (length (pre ++ OKCRLF))) 0) as [Hz|_]; [rewrite length_app in Hz; change (length OKCRLF) with 4%nat in Hz; lia|].
      assert (contains (pre ++ OKCRLF) (str "OK") = true) as ->.
      { unfold contains. destruct (strstr _ _) eqn:E; [done|]. rewrite strstr_None in E. exfalso. apply (E (length pre)); [rewrite length_app; lia|].
        unfold occurs. by rewrite drop_app_length. }
      cbn [heard]. by rewrite <- app_assoc.
    - done.
    - done.
    - apply (ends_prompt prompt []); [done|by apply (bool_decide_eq_true_1 (_ ∉ _))|]. intros j Hj. by apply (only_occurrence _ _ 0) in Hj as ->.
    - done.
    - done.
    - by apply (bool_decide_eq_true_1 (_ ∉ _)). }
  rewrite Hput, bind_Ok. done.
Qed.

Lemma xapSendSMS_sent_witness :
  exists w', xapSendSMS demo_x (demo_sms_world (chunks [CRLF; str "> "] ++ chunks [demo_confirm] ++ [])) = Ok w' /\ length (xsent w') = 1%nat.
Proof.
  rewrite (xapSendSMS_sent demo_x (msg_entries demo_out) (str "+441234567") (str "Hello") (chunks [CRLF; str "> "]) (chunks [demo_confirm]) [] 0 0
    (CRLF ++ str "+CMGS: 7" ++ CRLF ++ CRLF)).
  - eexists. split; [reflexivity|]. vm_compute. reflexivity.
  - exact (parsed_frame_rep demo_out [0] [] demo_out_wf).
  - reflexivity.
  - reflexivity.
  - apply Nat.leb_le. reflexivity.
  - apply Nat.leb_le. reflexivity.
  - reflexivity.
  - apply (chunks_spoken [CRLF; str "> "]); [done|]. repeat (constructor; [done|]). constructor.
  - done.
  - apply (chunks_spoken [demo_confirm]); [done|]. repeat (constructor; [done|]). constructor.
  - done.
  - by apply (bool_decide_eq_true_1 (_ ∉ _)).
  - apply Nat.leb_le. reflexivity.
  - intros j Hj. apply (only_occurrence _ _ 14) in Hj as ->; [reflexivity|done|reflexivity].
  - intros j. apply no_occurrence; [done|reflexivity].
Defined.


Definition demo_stored : stored :=
  mkStored (str "REC UNREAD") (str "+31625012345") 48 55 48 55 48 53 48 57 53 53 49 54 (str "+08") (str "Heating on").

Lemma demo_stored_ok : stored_ok demo_stored.
Proof.
  assert (Hh : forall l, forallb (fun c => negb (existsb (Z.eqb c) [0; 10; 13; 34; 44])) l = true -> Forall header_char l).
  { intros l Hl. apply Forall_forall. intros c Hc%list_elem_of_In. rewrite forallb_forall in Hl. apply Hl in Hc. cbn in Hc.
    unfold header_char. repeat split; intros ->; done. }
  split.
  - split; [done|]. by apply Hh.
  - split; [by apply Hh|]. apply Nat.leb_le. reflexivity.
  - by apply Hh.
  - by apply Hh.
  - split; by apply (bool_decide_eq_true_1 (_ ∉ _)).
  - apply Nat.leb_le. reflexivity.
  - intros j Hj. apply (only_occurrence _ _ 76) in Hj as ->; [reflexivity|done|vm_compute; reflexivity].
  - intros j. apply no_occurrence; [done|vm_compute; reflexivity].
  - intros j. apply no_occurrence; [done|vm_compute; reflexivity].
Qed.


(** The line collected by [xapSerialAccumulator] is local to one read: a
    notification that arrives in two reads is dropped, and its message is neither
    fetched nor announced. *)
Theorem notification_cut (x : xAPIdent) (n : Z) (a b : cstr) (w : sms_world) :
  0 <= n -> (length (fmt_d n) <= 6)%nat -> notification n ++ CRLF = a ++ b -> a <> [] -> b <> [] ->
  xapSerialAccumulator x (Some a) w = Ok w /\ xapSerialAccumulator x (Some b) w = Ok w.
Proof.
  intros Hn0 Hl E Ha Hb. assert (Hlen : (length a + length b <= 250)%nat).
  { rewrite <- length_app, <- E. unfold notification. rewrite !length_app. cbn. lia. }
  assert (Hfin : b = [10] \/ exists b', b = b' ++ CRLF /\ 13 ∉ b' /\ 13 ∉ a /\ a ++ b' = notification n).
  { destruct (decide (length b <= 1)%nat) as [H1|H1].
    - left. destruct b as [|c [|]]; [done| |cbn in H1; lia]. apply (f_equal last) in E. rewrite last_snoc in E. change CRLF with ([13] ++ [10]) in E.
      rewrite app_assoc, last_snoc in E. by injection E as <-.
    - right. exists (take (length b - 2) b). assert (Hx : notification n = a ++ take (length b - 2) b /\ CRLF = drop (length b - 2) b).
      { rewrite <- (take_drop (length b - 2) b) in E. rewrite app_assoc in E. apply app_inj_2 in E; [done|]. rewrite length_drop. cbn. lia. }
      destruct Hx as [Hx Hy]. pose proof (notification_free n 13 ltac:(lia)) as Hf. rewrite Hx, not_elem_of_app in Hf. destruct Hf.
      split_and!; [by rewrite Hy, take_drop|done|done|done]. }
  unfold xapSerialAccumulator. rewrite !take_ge by lia. destruct Hfin as [->|(b' & -> & H13b & H13a & Hab)].
  - split; [|done]. change CRLF with ([13] ++ [10]) in E. rewrite app_assoc in E. apply app_inj_2 in E as [<- _]; [|done].
    rewrite accumulate_plain by (by apply notification_free). done.
  - split.
    + rewrite <- (app_nil_r a), accumulate_plain by done. done.
    + rewrite accumulate_line by done. unfold processSerialMsg.
      assert (strncmp0 6 (c_text (take (length (b' ++ CRLF) - 1) (b' ++ CRLF))) (str "+CMTI:") = false) as ->; [|done].
      assert (Hplus : 43 ∉ b').
      { destruct a as [|c a']; [done|]. assert (Hr : a' ++ b' = drop 1 (notification n)) by (by rewrite <- Hab).
        intros Hx. assert (Hin : 43 ∈ drop 1 (notification n)) by (rewrite <- Hr; apply elem_of_app; by right).
        change (drop 1 (notification n)) with (str "CMTI: " ++ [34] ++ str "SM" ++ [34; 44] ++ fmt_d n) in Hin.
        assert (Hd : Forall (fun d => d <> 43) (str "CMTI: " ++ [34] ++ str "SM" ++ [34; 44] ++ fmt_d n)).
        { rewrite !Forall_app. split_and!; try (repeat (apply Forall_cons; split; [done|]); by apply Forall_nil).
          unfold fmt_d. destruct (Z.ltb_spec n 0); [lia|]. eapply Forall_impl; [by apply digits_isdigit|]. intros d Hd. unfold isdigit in Hd. lia. }
        rewrite Forall_forall in Hd. by apply Hd in Hin. }
      assert (take (length (b' ++ CRLF) - 1) (b' ++ CRLF) = b' ++ [13]) as ->.
      { change CRLF with ([13] ++ [10]). rewrite app_assoc. apply take_app_length'. rewrite !length_app. cbn. lia. }
      apply bool_decide_eq_false_2. intros Hx. assert (Hh : head (c_text (b' ++ [13])) = Some 43).
      { destruct (c_text _) as [|z l]; [done|]. cbn [take] in Hx. by injection Hx as -> _. }
      destruct b' as [|c b']; [done|]. unfold c_text in Hh. cbn in Hh. destruct (c =? 0); [done|]. injection Hh as ->. apply Hplus. by left.
Qed.

Lemma notification_cut_witness :
  xapSerialAccumulator demo_x (Some (str "+CM")) (demo_sms_world []) = Ok (demo_sms_world []) /\
  xapSerialAccumulator demo_x (Some (str "TI: " ++ [34] ++ str "SM" ++ [34; 44; 51] ++ CRLF)) (demo_sms_world []) = Ok (demo_sms_world []).
Proof.
  apply (notification_cut demo_x 3 (str "+CM") (str "TI: " ++ [34] ++ str "SM" ++ [34; 44; 51] ++ CRLF)); [lia|apply Nat.leb_le; reflexivity|reflexivity|done|done].
Defined.

(** A number of more than 38 characters overruns the buffer of the command, and
    a message text of more than 498 characters the one of the text. *)
Theorem xapSendSMS_overrun (x : xAPIdent) (es : list entry) (num msg : cstr) (w : sms_world) :
  frame_rep (sframe w) es -> entries_lookup es (str "outbound") (Some (str "num")) = Some num ->
  entries_lookup es (str "outbound") (Some (str "msg")) = Some msg -> (38 < length num)%nat \/ (498 < length msg)%nat ->
  xapSendSMS x w = Undef OutOfBounds.
Proof.
  intros Hrep Hn Hm Hl. unfold xapSendSMS. rewrite !(get_value_rep _ _ _ _ Hrep), !bind_Ok, Hn, Hm. cbn [pstr].
  assert (putsms msg num (mdm w) = Undef OutOfBounds) as ->; [|done]. unfold putsms, sprintf_buf.
  assert (length (number_command num) = (length num + 11)%nat) as -> by (unfold number_command; rewrite !length_app; cbn; lia).
  assert (length (text_command msg) = (length msg + 1)%nat) as -> by (unfold text_command; rewrite !length_app; cbn; lia).
  destruct (Z.ltb_spec (Z.of_nat (length num + 11)) 50); [|done]. rewrite bind_Ok. destruct (Z.ltb_spec (Z.of_nat (length msg + 1)) 500); [lia|done].
Qed.

Definition long_out : message :=
  [mkBlock (str "xap-header") [(str "class", str "sms.message")]; mkBlock (str "outbound") [(str "msg", str "Hello"); (str "num", replicate 40 49)]].

Lemma long_out_wf : msg_wf long_out.
Proof. repeat constructor; try (by apply text_wf_str); try (by apply (bool_decide_eq_true_1 (_ ∉ _))); done. Qed.

Lemma xapSendSMS_overrun_witness : xapSendSMS demo_x (mkWorld (mkModem [] []) (parsed_frame long_out [0] []) []) = Undef OutOfBounds.
Proof.
  apply (xapSendSMS_overrun demo_x (msg_entries long_out) (replicate 40 49) (str "Hello")).
  - exact (parsed_frame_rep long_out [0] [] long_out_wf).
  - reflexivity.
  - reflexivity.
  - left. apply Nat.leb_le. reflexivity.
Defined.
