(* ===== verification/Jsmn.v ===== *)
(** * The JSON tokenizer of the Twitter adaptor (opensource/jsmn/jsmn.c)

    [jsmn_parse] in the configuration the firmware builds (not strict, without
    parent links): it fills an array of tokens with the type, the bounds and the
    number of children of every value of a text.  The array is a parameter of the
    caller's size, an access outside the text or the array is an outcome.  The
    theorems show that there is none, that the tokens lie inside the text, and
    that the tokens of a printed JSON value are exactly those of the value. *)

From S2P Require Import Prelude.

Inductive jsmntype_t := JSMN_PRIMITIVE | JSMN_OBJECT | JSMN_ARRAY | JSMN_STRING.
Inductive jsmnerr_t := JSMN_ERROR_NOMEM | JSMN_ERROR_INVAL | JSMN_ERROR_PART | JSMN_SUCCESS.

#[global] Instance jsmntype_eq_dec : EqDecision jsmntype_t.
Proof. solve_decision. Defined.
#[global] Instance jsmnerr_eq_dec : EqDecision jsmnerr_t.
Proof. solve_decision. Defined.

Record jsmntok_t := mkTok {
  type_ : jsmntype_t;
  start : Z;
  end_ : Z;
  size_ : Z;
}.

#[global] Instance jsmntok_eq_dec : EqDecision jsmntok_t.
Proof. solve_decision. Defined.

(** [pos] and [toknext] only hold offsets of the text and of the array. *)
Record jsmn_parser := mkParser {
  pos : nat;
  toknext : nat;
  toksuper : Z;
}.

Definition jsmn_init : jsmn_parser := mkParser 0 0 (-1).

Definition set_pos (n : nat) (p : jsmn_parser) : jsmn_parser := mkParser n (toknext p) (toksuper p).
Definition set_super (i : Z) (p : jsmn_parser) : jsmn_parser := mkParser (pos p) (toknext p) i.

Abbreviation toks := (list jsmntok_t).

(** [js[i]]: the terminator follows the text. *)
Definition js_at (js : cstr) (i : nat) : out Z :=
  if (i =? length js)%nat then Ok 0 else of_opt OutOfBounds (js !! i).

(** A write through [&tokens[i]]. *)
Definition tok_update (i : nat) (f : jsmntok_t -> jsmntok_t) (t : toks) : out toks :=
  if (i <? length t)%nat then Ok (alter f i t) else Undef OutOfBounds.

(** The index of the token, or [None]. *)
Definition jsmn_alloc_token (p : jsmn_parser) (t : toks) (num_tokens : nat) : out (option (nat * jsmn_parser * toks)) :=
  if (num_tokens <=? toknext p)%nat then Ok None else
  t ← tok_update (toknext p) (fun k => mkTok (type_ k) (-1) (-1) 0) t;
  Ok (Some (toknext p, mkParser (pos p) (S (toknext p)) (toksuper p), t)).

Definition jsmn_fill_token (i : nat) (ty : jsmntype_t) (s e : nat) (t : toks) : out toks :=
  tok_update i (fun _ => mkTok ty (Z.of_nat s) (Z.of_nat e) 0) t.

Definition separator (c : Z) : bool := (c =? 9) || (c =? 13) || (c =? 10) || (c =? 32) || (c =? 44).
(** The end of a primitive. *)
Definition prim_end (c : Z) : bool := (c =? 58) || separator c || (c =? 93) || (c =? 125).

(** The offset behind the primitive, [None] at an invalid character.  The fuel
    of the loops over the text is one more than its length. *)
Fixpoint prim_loop (fuel : nat) (js : cstr) (i : nat) : out (option nat) :=
  match fuel with
  | O => Undef OutOfBounds
  | S f =>
      c ← js_at js i;
      if c =? 0 then Ok (Some i)
      else if prim_end c then Ok (Some i)
      else if (schar c <? 32) || (127 <=? schar c) then Ok None
      else prim_loop f js (S i)
  end.

Definition jsmn_parse_primitive (p : jsmn_parser) (js : cstr) (t : toks) (num_tokens : nat)
    : out (jsmnerr_t * jsmn_parser * toks) :=
  e ← prim_loop (S (length js)) js (pos p);
  match e with
  | None => Ok (JSMN_ERROR_INVAL, p, t)
  | Some e =>
      a ← jsmn_alloc_token (set_pos e p) t num_tokens;
      match a with
      | None => Ok (JSMN_ERROR_NOMEM, p, t)
      | Some (i, q, t) =>
          t ← jsmn_fill_token i JSMN_PRIMITIVE (pos p) e t;
          Ok (JSMN_SUCCESS, set_pos (e - 1) q, t)
      end
  end.

Definition escapable (c : Z) : bool :=
  (c =? 34) || (c =? 47) || (c =? 92) || (c =? 98) || (c =? 102) || (c =? 114) || (c =? 110) || (c =? 116) || (c =? 117).

(** The offset of the closing quote, or the error. *)
Fixpoint string_loop (fuel : nat) (js : cstr) (i : nat) : out (jsmnerr_t + nat) :=
  match fuel with
  | O => Undef OutOfBounds
  | S f =>
      c ← js_at js i;
      if c =? 0 then Ok (inl JSMN_ERROR_PART)
      else if c =? 34 then Ok (inr i)
      else if c =? 92 then
        d ← js_at js (S i);
        if escapable d then string_loop f js (S (S i)) else Ok (inl JSMN_ERROR_INVAL)
      else string_loop f js (S i)
  end.

Definition jsmn_parse_string (p : jsmn_parser) (js : cstr) (t : toks) (num_tokens : nat)
    : out (jsmnerr_t * jsmn_parser * toks) :=
  e ← string_loop (S (length js)) js (S (pos p));
  match e with
  | inl r => Ok (r, p, t)
  | inr e =>
      a ← jsmn_alloc_token (set_pos e p) t num_tokens;
      match a with
      | None => Ok (JSMN_ERROR_NOMEM, p, t)
      | Some (i, q, t) =>
          t ← jsmn_fill_token i JSMN_STRING (S (pos p)) e t;
          Ok (JSMN_SUCCESS, q, t)
      end
  end.

(** [start != -1 && end == -1] *)
Definition tok_open (k : jsmntok_t) : bool := negb (start k =? -1) && (end_ k =? -1).

(** The last open token below [n]. *)
Fixpoint find_open (n : nat) (t : toks) : out (option nat) :=
  match n with
  | O => Ok None
  | S i =>
      k ← of_opt OutOfBounds (t !! i);
      if tok_open k then Ok (Some i) else find_open i t
  end.

(** [if (parser->toksuper != -1) tokens[parser->toksuper].size++;] *)
Definition count_child (p : jsmn_parser) (t : toks) : out toks :=
  if toksuper p =? -1 then Ok t else
  if toksuper p <? 0 then Undef OutOfBounds else
  tok_update (Z.to_nat (toksuper p)) (fun k => mkTok (type_ k) (start k) (end_ k) (size_ k + 1)) t.

Definition on_open (c : Z) (p : jsmn_parser) (t : toks) (num_tokens : nat) : out (jsmnerr_t * jsmn_parser * toks) :=
  a ← jsmn_alloc_token p t num_tokens;
  match a with
  | None => Ok (JSMN_ERROR_NOMEM, p, t)
  | Some (i, q, t) =>
      t ← count_child q t;
      t ← tok_update i (fun k => mkTok (if c =? 123 then JSMN_OBJECT else JSMN_ARRAY) (Z.of_nat (pos q)) (end_ k) (size_ k)) t;
      Ok (JSMN_SUCCESS, set_super (Z.of_nat (toknext q) - 1) q, t)
  end.

(** The token is closed, and the search for the enclosing one goes on below it,
    where the closed token itself is looked at again. *)
Definition on_close (c : Z) (p : jsmn_parser) (t : toks) : out (jsmnerr_t * jsmn_parser * toks) :=
  let ty := if c =? 125 then JSMN_OBJECT else JSMN_ARRAY in
  o ← find_open (toknext p) t;
  match o with
  | None => Ok (JSMN_ERROR_INVAL, p, t)
  | Some i =>
      k ← of_opt OutOfBounds (t !! i);
      if bool_decide (type_ k = ty) then
        t ← tok_update i (fun k => mkTok (type_ k) (start k) (Z.of_nat (S (pos p))) (size_ k)) t;
        s ← find_open (S i) t;
        Ok (JSMN_SUCCESS, set_super (match s with Some j => Z.of_nat j | None => -1 end) p, t)
      else Ok (JSMN_ERROR_INVAL, p, t)
  end.

(** A string or a primitive, counted as a child of the open token. *)
Definition on_value (r : out (jsmnerr_t * jsmn_parser * toks)) : out (jsmnerr_t * jsmn_parser * toks) :=
  '(r, p, t) ← r;
  if bool_decide (r = JSMN_SUCCESS) then t ← count_child p t; Ok (JSMN_SUCCESS, p, t) else Ok (r, p, t).

(** The body of the main loop at the character [c]. *)
Definition on_char (c : Z) (js : cstr) (p : jsmn_parser) (t : toks) (num_tokens : nat)
    : out (jsmnerr_t * jsmn_parser * toks) :=
  if (c =? 123) || (c =? 91) then on_open c p t num_tokens
  else if (c =? 125) || (c =? 93) then on_close c p t
  else if c =? 34 then on_value (jsmn_parse_string p js t num_tokens)
  else if separator c || (c =? 58) then Ok (JSMN_SUCCESS, p, t)
  else on_value (jsmn_parse_primitive p js t num_tokens).

Fixpoint parse_loop (fuel : nat) (p : jsmn_parser) (js : cstr) (t : toks) (num_tokens : nat)
    : out (jsmnerr_t * jsmn_parser * toks) :=
  match fuel with
  | O => Undef OutOfBounds
  | S f =>
      c ← js_at js (pos p);
      if c =? 0 then
        o ← find_open (toknext p) t;
        Ok (match o with Some _ => JSMN_ERROR_PART | None => JSMN_SUCCESS end, p, t)
      else
        '(r, p, t) ← on_char c js p t num_tokens;
        if bool_decide (r = JSMN_SUCCESS) then parse_loop f (set_pos (S (pos p)) p) js t num_tokens else Ok (r, p, t)
  end.

Definition jsmn_parse (p : jsmn_parser) (js : cstr) (t : toks) (num_tokens : nat) : out (jsmnerr_t * jsmn_parser * toks) :=
  parse_loop (S (length js)) p js t num_tokens.

Example jsmn_example :
  match jsmn_parse jsmn_init (str "[{'id':1,'a':[true,{}]}]") (replicate 9 (mkTok JSMN_STRING 7 7 7)) 9 with
  | Ok (r, p, t) => r = JSMN_SUCCESS /\ toknext p = 8%nat /\ take 7 t =
      [mkTok JSMN_ARRAY 0 24 1; mkTok JSMN_OBJECT 1 23 4; mkTok JSMN_PRIMITIVE 2 6 0; mkTok JSMN_PRIMITIVE 7 8 0;
       mkTok JSMN_PRIMITIVE 9 12 0; mkTok JSMN_ARRAY 13 22 2; mkTok JSMN_PRIMITIVE 14 18 0]
  | _ => False
  end.
Proof. vm_compute. repeat split. Qed.

(** * Properties *)

(** ** Bounds *)

Lemma js_at_ok js i : (i <= length js)%nat -> exists c, js_at js i = Ok c /\ (c <> 0 -> (i < length js)%nat).
Proof.
  intros Hi. unfold js_at. destruct (Nat.eqb_spec i (length js)); [by exists 0|].
  destruct (lookup_lt_is_Some_2 js i) as [c Hc]; [lia|]. rewrite Hc. exists c. split; [done|lia].
Qed.

Lemma tok_update_ok i f t : (i < length t)%nat -> tok_update i f t = Ok (alter f i t).
Proof. intros. unfold tok_update. destruct (Nat.ltb_spec i (length t)); [done|lia]. Qed.

(** The loops over the text end inside it. *)
Lemma prim_loop_ok fuel js i :
  (i <= length js)%nat -> (length js - i < fuel)%nat ->
  exists r, prim_loop fuel js i = Ok r /\ forall e, r = Some e ->
    (i <= e <= length js)%nat /\ forall c, js_at js i = Ok c -> c <> 0 -> prim_end c = false -> (i < e)%nat.
Proof.
  revert i. induction fuel as [|f IH]; intros i Hi Hf; [lia|]. cbn [prim_loop].
  destruct (js_at_ok js i Hi) as (c & Hc & Hlt). rewrite Hc. rewrite bind_Ok.
  destruct (Z.eqb_spec c 0) as [->|Hc0].
  { eexists. split; [done|]. intros e [= <-]. split; [lia|]. by intros c [= <-]. }
  destruct (prim_end c) eqn:Hp.
  { eexists. split; [done|]. intros e [= <-]. split; [lia|]. intros c' [= <-] _. congruence. }
  destruct (_ || _); [eexists; by split|]. specialize (Hlt Hc0).
  destruct (IH (S i)) as (r & -> & Hr); [lia|lia|]. exists r. split; [done|]. intros e He. destruct (Hr e He) as [H _].
  split; lia.
Qed.

Lemma string_loop_ok fuel js i :
  (i <= length js)%nat -> (length js - i < fuel)%nat ->
  exists r, string_loop fuel js i = Ok r /\ (forall e, r = inr e -> (i <= e < length js)%nat) /\ r <> inl JSMN_SUCCESS.
Proof.
  revert i. induction fuel as [|f IH]; intros i Hi Hf; [lia|]. cbn [string_loop].
  destruct (js_at_ok js i Hi) as (c & -> & Hlt). rewrite bind_Ok.
  destruct (Z.eqb_spec c 0) as [->|Hc0]; [eexists; by split|]. specialize (Hlt Hc0).
  destruct (c =? 34); [eexists; split; [done|]; split; [intros e [= <-]; lia|done]|].
  destruct (c =? 92).
  - destruct (js_at_ok js (S i)) as (d & -> & Hd); [lia|]. rewrite bind_Ok. destruct (escapable d) eqn:Hes; [|eexists; by split].
    assert (d <> 0) by (intros ->; done). destruct (IH (S (S i))) as (r & -> & Hr & Hs); [lia|lia|]. exists r.
    split; [done|]. split; [|done]. intros e He. specialize (Hr e He). lia.
  - destruct (IH (S i)) as (r & -> & Hr & Hs); [lia|lia|]. exists r. split; [done|]. split; [|done].
    intros e He. specialize (Hr e He). lia.
Qed.

(** ** The invariant of the main loop *)
Section Safety.
Context (js : cstr) (n : nat).

(** A token that is being filled or is filled. *)
Definition tok_wf (at_ : nat) (k : jsmntok_t) : Prop :=
  0 <= start k <= Z.of_nat at_ /\ (end_ k = -1 \/ start k <= end_ k <= Z.of_nat (length js)).

Definition parse_inv (p : jsmn_parser) (t : toks) : Prop :=
  length t = n /\ (toknext p <= n)%nat /\ -1 <= toksuper p < Z.of_nat (toknext p) /\
  Forall (tok_wf (pos p)) (take (toknext p) t).

(** The outcome of a step: it advances and keeps the invariant, or reports an error. *)
Definition step_ok (p : jsmn_parser) (m : out (jsmnerr_t * jsmn_parser * toks)) : Prop :=
  exists r q t, m = Ok (r, q, t) /\ length t = n /\ (toknext q <= n)%nat /\
    (r = JSMN_SUCCESS -> parse_inv q t /\ (pos p <= pos q < length js)%nat).

Lemma tok_wf_mono a b k : (a <= b)%nat -> tok_wf a k -> tok_wf b k.
Proof. intros ? [? ?]. split; [lia|done]. Qed.

Lemma parse_inv_pos a p t : (pos p <= a)%nat -> parse_inv p t -> parse_inv (set_pos a p) t.
Proof.
  intros Ha (H1 & H2 & H3 & H4). do 3 (split; [done|]). eapply Forall_impl; [exact H4|]. intros k. by apply tok_wf_mono.
Qed.

Lemma parse_inv_alter i f p t :
  parse_inv p t -> (forall k, tok_wf (pos p) k -> tok_wf (pos p) (f k)) -> parse_inv p (alter f i t).
Proof.
  intros (H1 & H2 & H3 & H4) Hf. split; [by rewrite length_alter|]. do 2 (split; [done|]).
  apply Forall_lookup. intros j k Hk. apply lookup_take_Some in Hk as [Hk Hj].
  rewrite Forall_lookup in H4. destruct (decide (i = j)) as [->|Hij].
  - rewrite list_lookup_alter_eq in Hk. apply fmap_Some in Hk as (k0 & Hk0 & ->). apply Hf. apply (H4 j).
    by apply lookup_take_Some.
  - rewrite list_lookup_alter_ne in Hk by done. apply (H4 j). by apply lookup_take_Some.
Qed.

Lemma count_child_ok p t : parse_inv p t -> exists t', count_child p t = Ok t' /\ parse_inv p t'.
Proof.
  intros Hi. pose proof Hi as (H1 & H2 & H3 & H4). unfold count_child.
  destruct (Z.eqb_spec (toksuper p) (-1)); [by exists t|]. destruct (Z.ltb_spec (toksuper p) 0); [lia|].
  rewrite tok_update_ok by lia. eexists. split; [done|]. by apply parse_inv_alter.
Qed.

(** Filling the next token. *)
Lemma parse_inv_push k a p t :
  parse_inv p t -> (toknext p < n)%nat -> (pos p <= a)%nat -> tok_wf a k ->
  parse_inv (mkParser a (S (toknext p)) (toksuper p)) (<[toknext p := k]> t).
Proof.
  intros (H1 & H2 & H3 & H4) Hn Ha Hk. split; [by rewrite length_insert|]. cbn [toknext toksuper pos].
  split; [lia|]. split; [lia|]. rewrite (take_S_r _ _ k) by (rewrite list_lookup_insert_eq; [done|lia]).
  rewrite take_insert_ge by lia. apply Forall_app. split; [|by constructor].
  eapply Forall_impl; [exact H4|]. intros x. by apply tok_wf_mono.
Qed.

Lemma alter_as_insert {A} (f : A -> A) i (l : list A) x : l !! i = Some x -> alter f i l = <[i := f x]> l.
Proof.
  intros Hx. apply list_eq. intros j. destruct (decide (i = j)) as [->|Hij].
  - rewrite list_lookup_alter_eq, Hx, list_lookup_insert_eq by (by eapply lookup_lt_Some). done.
  - by rewrite list_lookup_alter_ne, list_lookup_insert_ne.
Qed.

Lemma alter_insert_ne {A} (f : A -> A) i j x (l : list A) : i <> j -> alter f i (<[j := x]> l) = <[j := x]> (alter f i l).
Proof.
  revert i j. induction l as [|y l IH]; intros [|i] [|j] Hij; try done. cbn. f_equal. apply IH. congruence.
Qed.

Lemma alloc_ok p t :
  parse_inv p t ->
  (jsmn_alloc_token p t n = Ok None /\ toknext p = n) \/
  ((toknext p < n)%nat /\ exists k, t !! toknext p = Some k /\
   jsmn_alloc_token p t n = Ok (Some (toknext p, mkParser (pos p) (S (toknext p)) (toksuper p),
                                      <[toknext p := mkTok (type_ k) (-1) (-1) 0]> t))).
Proof.
  intros (H1 & H2 & _). unfold jsmn_alloc_token. destruct (Nat.leb_spec n (toknext p)); [left; split; [done|lia]|right].
  split; [done|]. destruct (lookup_lt_is_Some_2 t (toknext p)) as [k Hk]; [lia|]. exists k. split; [done|].
  rewrite tok_update_ok by lia. by rewrite (alter_as_insert _ _ _ _ Hk).
Qed.

Lemma update_insert i f k (t : toks) : (i < length t)%nat -> tok_update i f (<[i := k]> t) = Ok (<[i := f k]> t).
Proof.
  intros. rewrite tok_update_ok by (by rewrite length_insert).
  rewrite (alter_as_insert _ _ _ k) by (by rewrite list_lookup_insert_eq). by rewrite list_insert_insert_eq.
Qed.

Lemma step_error r p t q : parse_inv p t -> r <> JSMN_SUCCESS -> step_ok q (Ok (r, p, t)).
Proof. intros (H1 & H2 & _) Hr. exists r, p, t. by repeat split. Qed.

(** A string or a primitive that ends at [e] and leaves the parser at [a]. *)
Lemma value_ok ty s e a p t :
  parse_inv p t -> (pos p <= a < length js)%nat -> (s <= a)%nat -> (s <= e <= length js)%nat ->
  step_ok p (on_value (
    m ← jsmn_alloc_token (set_pos e p) t n;
    match m with
    | None => Ok (JSMN_ERROR_NOMEM, p, t)
    | Some (i, q, t) => t ← jsmn_fill_token i ty s e t; Ok (JSMN_SUCCESS, set_pos a q, t)
    end)).
Proof.
  intros Hi Ha Hs He. pose proof Hi as (H1 & H2 & H3 & H4).
  assert (Hi' : parse_inv (set_pos (Nat.max e (pos p)) p) t) by (apply parse_inv_pos; [lia|done]).
  unfold jsmn_alloc_token. cbn [set_pos toknext toksuper pos].
  destruct (Nat.leb_spec n (toknext p)); [by apply step_error|].
  destruct (lookup_lt_is_Some_2 t (toknext p)) as [k Hk]; [lia|].
  rewrite tok_update_ok by lia. rewrite (alter_as_insert _ _ _ _ Hk), !bind_Ok.
  unfold jsmn_fill_token. rewrite update_insert by lia. rewrite bind_Ok. cbn [set_pos toknext toksuper pos].
  unfold on_value. rewrite bind_Ok. rewrite bool_decide_true by done.
  destruct (count_child_ok (mkParser a (S (toknext p)) (toksuper p)) (<[toknext p := mkTok ty (Z.of_nat s) (Z.of_nat e) 0]> t))
    as (t' & Ht' & Hinv).
  { apply parse_inv_push; [done|lia|lia|]. split; [cbn; lia|right; cbn; lia]. }
  unfold set_pos. cbn [toknext toksuper]. rewrite Ht'. cbn. exists JSMN_SUCCESS, (mkParser a (S (toknext p)) (toksuper p)), t'.
  pose proof Hinv as (L1 & L2 & _). split; [done|]. split; [done|]. split; [exact L2|]. intros _. split; [done|]. cbn. lia.
Qed.

Lemma string_step p t : parse_inv p t -> (pos p < length js)%nat -> step_ok p (on_value (jsmn_parse_string p js t n)).
Proof.
  intros Hi Hp. unfold jsmn_parse_string.
  destruct (string_loop_ok (S (length js)) js (S (pos p))) as (r & -> & Hr & Hne); [lia|lia|]. rewrite bind_Ok.
  destruct r as [r|e].
  - unfold on_value. rewrite bind_Ok. rewrite bool_decide_false by congruence. apply step_error; [done|congruence].
  - specialize (Hr e eq_refl). pose proof (value_ok JSMN_STRING (S (pos p)) e e p t Hi) as Hv.
    assert (Hsame : forall q, pos q = e -> set_pos e q = q) by (intros [] <-; done).
    destruct Hv as (r & q & t' & Hv & Hrest); [lia|lia|lia|]. exists r, q, t'. split; [|done]. rewrite <- Hv.
    destruct (jsmn_alloc_token (set_pos e p) t n) as [[[[i q0] t0]|]| |] eqn:Ha; cbn; try done.
    destruct (jsmn_fill_token i JSMN_STRING (S (pos p)) e t0); cbn; [|done|done]. rewrite Hsame; [done|].
    unfold jsmn_alloc_token in Ha. destruct (_ <=? _)%nat; [done|]. inv_bind Ha. by injection Ha as _ <- _.
Qed.

Lemma prim_step c p t :
  parse_inv p t -> (pos p < length js)%nat -> js_at js (pos p) = Ok c -> c <> 0 -> prim_end c = false ->
  step_ok p (on_value (jsmn_parse_primitive p js t n)).
Proof.
  intros Hi Hp Hc Hc0 Hend. unfold jsmn_parse_primitive.
  destruct (prim_loop_ok (S (length js)) js (pos p)) as (r & -> & Hr); [lia|lia|]. rewrite bind_Ok.
  destruct r as [e|]; [|by apply step_error]. destruct (Hr e eq_refl) as [He Hlt]. specialize (Hlt c Hc Hc0 Hend).
  apply value_ok; [done|lia|lia|lia].
Qed.

Lemma open_step c p t : parse_inv p t -> (pos p < length js)%nat -> step_ok p (on_open c p t n).
Proof.
  intros Hi Hp. pose proof Hi as (H1 & H2 & H3 & H4). unfold on_open.
  destruct (alloc_ok p t Hi) as [[-> Hn]|(Hn & k & Hk & ->)]; rewrite bind_Ok; [by apply step_error|].
  assert (Hi1 : parse_inv (mkParser (pos p) (S (toknext p)) (toksuper p))
                  (<[toknext p := mkTok (if c =? 123 then JSMN_OBJECT else JSMN_ARRAY) (Z.of_nat (pos p)) (-1) 0]> t)).
  { apply parse_inv_push; [done|done|done|]. split; [cbn; lia|by left]. }
  unfold count_child. cbn [toksuper]. destruct (Z.eqb_spec (toksuper p) (-1)) as [Hs|Hs].
  - rewrite bind_Ok, update_insert, bind_Ok by lia. cbn [pos end_ size_ toknext set_super].
    eexists _, _, _. split; [done|]. pose proof Hi1 as (L1 & L2 & L3 & L4). split; [exact L1|]. split; [exact L2|].
    intros _. split; [|cbn; lia]. split; [exact L1|]. split; [exact L2|]. split; [cbn; lia|exact L4].
  - destruct (Z.ltb_spec (toksuper p) 0); [lia|]. set (u := Z.to_nat (toksuper p)). assert (Hu : (u < toknext p)%nat) by lia.
    rewrite tok_update_ok by (rewrite length_insert; lia). rewrite bind_Ok.
    rewrite alter_insert_ne by lia. rewrite update_insert by (rewrite length_alter; lia). rewrite bind_Ok.
    cbn [pos end_ size_ toknext set_super]. rewrite <- alter_insert_ne by lia.
    pose proof (parse_inv_alter u (fun k => mkTok (type_ k) (start k) (end_ k) (size_ k + 1)) _ _ Hi1) as Hi2.
    destruct Hi2 as (L1 & L2 & L3 & L4); [done|]. eexists _, _, _. split; [done|]. split; [exact L1|]. split; [exact L2|].
    intros _. split; [|cbn; lia]. split; [exact L1|]. split; [exact L2|]. split; [cbn; lia|exact L4].
Qed.

Lemma find_open_ok m t : (m <= length t)%nat ->
  exists r, find_open m t = Ok r /\
    match r with
    | Some i => (i < m)%nat /\ exists k, t !! i = Some k /\ tok_open k = true
    | None => Forall (fun k => tok_open k = false) (take m t)
    end.
Proof.
  induction m as [|i IH]; intros Hm; cbn [find_open]; [exists None; split; [done|by rewrite take_0]|].
  destruct (lookup_lt_is_Some_2 t i) as [k Hk]; [lia|]. rewrite Hk. cbn [of_opt]. rewrite bind_Ok.
  destruct (tok_open k) eqn:Ho; [exists (Some i); split; [done|]; split; [lia|eauto]|].
  destruct IH as (r & -> & Hr); [lia|]. exists r. split; [done|]. destruct r as [j|].
  - destruct Hr as [? ?]. split; [lia|done].
  - rewrite (take_S_r _ _ k) by done. apply Forall_app. split; [done|by constructor].
Qed.

Lemma close_step c p t : parse_inv p t -> (pos p < length js)%nat -> step_ok p (on_close c p t).
Proof.
  intros Hi Hp. pose proof Hi as (H1 & H2 & H3 & H4). unfold on_close.
  destruct (find_open_ok (toknext p) t) as (r & -> & Hr); [lia|]. cbv zeta. rewrite bind_Ok.
  destruct r as [i|]; [|by apply step_error]. destruct Hr as (Hlt & k & Hk & Ho). rewrite Hk. cbn [of_opt].
  rewrite bind_Ok. destruct (bool_decide _); [|by apply step_error].
  rewrite tok_update_ok by lia. rewrite bind_Ok. set (t1 := alter _ i t).
  assert (Hi1 : parse_inv p t1).
  { apply parse_inv_alter; [done|]. intros x [Hx _]. split; [exact Hx|]. right. cbn [start end_]. lia. }
  destruct (find_open_ok (S i) t1) as (r & -> & Hr); [subst t1; rewrite length_alter; lia|]. rewrite bind_Ok.
  eexists _, _, _. split; [done|]. pose proof Hi1 as (L1 & L2 & L3 & L4). split; [done|]. split; [done|].
  intros _. split; [|cbn; lia]. split; [done|]. split; [done|]. split; [|exact L4]. cbn [toksuper set_super toknext].
  destruct r as [j|]; [destruct Hr|]; lia.
Qed.

Lemma char_step c p t :
  parse_inv p t -> js_at js (pos p) = Ok c -> c <> 0 -> (pos p < length js)%nat -> step_ok p (on_char c js p t n).
Proof.
  intros Hi Hc Hc0 Hp. unfold on_char.
  destruct ((c =? 123) || (c =? 91)); [by apply open_step|].
  destruct ((c =? 125) || (c =? 93)) eqn:E1; [by apply close_step|].
  destruct (c =? 34); [by apply string_step|].
  destruct (separator c || (c =? 58)) eqn:E2.
  - pose proof Hi as (H1 & H2 & _). exists JSMN_SUCCESS, p, t. do 3 (split; [done|]). intros _. split; [done|lia].
  - apply (prim_step c); try done. unfold prim_end. apply orb_false_iff in E1 as [-> ->], E2 as [-> ->]. done.
Qed.

Lemma parse_loop_ok fuel p t :
  parse_inv p t -> (pos p <= length js)%nat -> (length js - pos p < fuel)%nat ->
  exists r q t', parse_loop fuel p js t n = Ok (r, q, t') /\ length t' = n /\ (toknext q <= n)%nat /\
    (r = JSMN_SUCCESS -> parse_inv q t' /\ Forall (fun k => tok_open k = false) (take (toknext q) t')).
Proof.
  revert p t. induction fuel as [|f IH]; intros p t Hi Hp Hf; [lia|]. cbn [parse_loop].
  destruct (js_at_ok js (pos p) Hp) as (c & Hc & Hlt). rewrite Hc, bind_Ok. destruct (Z.eqb_spec c 0) as [->|Hc0].
  - pose proof Hi as (H1 & H2 & _). destruct (find_open_ok (toknext p) t) as (r & -> & Hr); [lia|]. rewrite bind_Ok.
    eexists _, p, t. split; [done|]. split; [done|]. split; [done|]. destruct r; [done|]. by intros _.
  - destruct (char_step c p t Hi Hc Hc0 (Hlt Hc0)) as (r & q & t1 & -> & Hl & Hn & Hok). rewrite bind_Ok.
    destruct (bool_decide_reflect (r = JSMN_SUCCESS)) as [Hr|Hr]; [|exists r, q, t1; by repeat split].
    destruct (Hok Hr) as [Hi1 Hpos]. apply IH; [apply parse_inv_pos; [lia|done]|cbn; lia|cbn; lia].
Qed.

End Safety.

(** ** JSON values and their texts

    A value with its layout: every member of an array or object is preceded by
    its separators (blanks, commas, colons), and [tail] precedes the closing
    bracket.  The members of an object are its keys and values in turn. *)
Unset Elimination Schemes.
Inductive tree :=
| Prim (s : cstr)
| Str (s : cstr)
| Cont (obj : bool) (kids : list (cstr * tree)) (tail : cstr).
Set Elimination Schemes.

Definition tree_ind (P : tree -> Prop) (fp : forall s, P (Prim s)) (fs : forall s, P (Str s))
    (fc : forall obj kids tail, Forall (fun k => P (snd k)) kids -> P (Cont obj kids tail)) : forall v, P v :=
  fix F (v : tree) : P v :=
    match v with
    | Prim s => fp s
    | Str s => fs s
    | Cont obj kids tail => fc obj kids tail
        ((fix G (l : list (cstr * tree)) : Forall (fun k => P (snd k)) l :=
            match l with
            | [] => List.Forall_nil _
            | k :: r => List.Forall_cons _ _ _ (F (snd k)) (G r)
            end) kids)
    end.

Definition bracket (obj : bool) : Z := if obj then 123 else 91.
Definition unbracket (obj : bool) : Z := if obj then 125 else 93.
Definition cont_type (obj : bool) : jsmntype_t := if obj then JSMN_OBJECT else JSMN_ARRAY.

Fixpoint text (v : tree) : cstr :=
  match v with
  | Prim s => s
  | Str s => 34 :: s ++ [34]
  | Cont obj kids tail => bracket obj :: concat (map (fun k => fst k ++ text (snd k)) kids) ++ tail ++ [unbracket obj]
  end.

Definition kids_text (kids : list (cstr * tree)) : cstr := concat (map (fun k => fst k ++ text (snd k)) kids).

(** The tokens of a value at the offset [o], in the order of their opening. *)
Fixpoint tokens_of (o : nat) (v : tree) : toks :=
  match v with
  | Prim s => [mkTok JSMN_PRIMITIVE (Z.of_nat o) (Z.of_nat (o + length s)) 0]
  | Str s => [mkTok JSMN_STRING (Z.of_nat (S o)) (Z.of_nat (S o + length s)) 0]
  | Cont obj kids tail =>
      mkTok (cont_type obj) (Z.of_nat o) (Z.of_nat (o + length (text v))) (Z.of_nat (length kids)) ::
      (fix go (o : nat) (l : list (cstr * tree)) : toks :=
         match l with
         | [] => []
         | (s, v) :: r => tokens_of (o + length s) v ++ go (o + length s + length (text v))%nat r
         end) (S o) kids
  end.

Fixpoint kids_tokens (o : nat) (kids : list (cstr * tree)) : toks :=
  match kids with
  | [] => []
  | (s, v) :: r => tokens_of (o + length s) v ++ kids_tokens (o + length s + length (text v)) r
  end.

(** The number of tokens. *)
Fixpoint ntoks (v : tree) : nat :=
  match v with
  | Prim _ | Str _ => 1
  | Cont _ kids _ => S (list_sum (map (fun k => ntoks (snd k)) kids))
  end.

Definition gap (c : Z) : bool := separator c || (c =? 58).
Definition gaps (s : cstr) : bool := forallb gap s.

Definition prim_char (c : Z) : bool := negb (prim_end c) && (32 <? c) && (c <? 127).
Definition prim_ok (s : cstr) : bool :=
  forallb prim_char s &&
  match s with [] => false | c :: _ => negb ((c =? 34) || (c =? 123) || (c =? 91)) end.

(** The body of a string: characters, or escapes of one character. *)
Fixpoint body_ok (s : cstr) : bool :=
  match s with
  | [] => true
  | c :: r =>
      if c =? 92 then match r with d :: r => escapable d && body_ok r | [] => false end
      else negb ((c =? 0) || (c =? 34)) && body_ok r
  end.

(** Values whose members are apart from each other. *)
Fixpoint tree_ok (v : tree) : bool :=
  match v with
  | Prim s => prim_ok s
  | Str s => body_ok s
  | Cont _ kids tail =>
      forallb (fun k => gaps (fst k) && tree_ok (snd k)) kids &&
      forallb (fun k => negb (bool_decide (fst k = []))) (tl kids) && gaps tail
  end.

(** A JSON array and a JSON object as usually printed. *)
Definition jarray (l : list tree) : tree :=
  Cont false (match l with [] => [] | v :: r => ([], v) :: map (fun v => ([44], v)) r end) [].
Definition jobject (l : list (cstr * tree)) : tree :=
  Cont true (match l with
             | [] => []
             | (k, v) :: r => ([], Str k) :: ([58], v) :: concat (map (fun '(k, v) => [([44], Str k); ([58], v)]) r)
             end) [].

Example jobject_text :
  text (jarray [jobject [(str "id", Prim (str "12")); (str "text", Str (str "hi"))]; Prim (str "null")]) =
  str "[{" ++ [34] ++ str "id" ++ [34] ++ str ":12," ++ [34] ++ str "text" ++ [34; 58; 34] ++ str "hi" ++ [34] ++ str "},null]".
Proof. reflexivity. Qed.

(** ** The last open token *)

Fixpoint last_open (l : toks) : option nat :=
  match l with
  | [] => None
  | k :: r => match last_open r with
              | Some i => Some (S i)
              | None => if tok_open k then Some O else None
              end
  end.

Definition closed (l : toks) : Prop := Forall (fun k => tok_open k = false) l.
Definition super (d : toks) : Z := match last_open d with Some i => Z.of_nat i | None => -1 end.

Definition grow (k : jsmntok_t) : jsmntok_t := mkTok (type_ k) (start k) (end_ k) (size_ k + 1).
(** One more child for the open token. *)
Definition bump (d : toks) : toks := match last_open d with Some i => alter grow i d | None => d end.

Lemma last_open_closed l m : closed m -> last_open (l ++ m) = last_open l.
Proof.
  intros Hm. induction l as [|k l IH]; cbn [app last_open]; [|by rewrite IH].
  induction Hm as [|k m Hk Hm IHm]; [done|]. cbn [last_open]. by rewrite IHm, Hk.
Qed.

Lemma last_open_open l k m : tok_open k = true -> closed m -> last_open (l ++ k :: m) = Some (length l).
Proof.
  intros Hk Hm. induction l as [|x l IH]; cbn [app last_open length]; [|by rewrite IH].
  replace (last_open m) with (last_open ([] ++ m)) by done. rewrite last_open_closed by done. cbn. by rewrite Hk.
Qed.

Lemma last_open_lt l i : last_open l = Some i -> (i < length l)%nat.
Proof.
  revert i. induction l as [|k l IH]; intros i; cbn [last_open length]; [done|].
  destruct (last_open l); [|destruct (tok_open k); [|done]]; intros [= <-]; [|lia]. specialize (IH _ eq_refl). lia.
Qed.

Lemma find_open_last l rest : find_open (length l) (l ++ rest) = Ok (last_open l).
Proof.
  revert rest. induction l as [|k l IH] using rev_ind; intros rest; [done|].
  rewrite length_app, Nat.add_1_r. cbn [find_open length]. rewrite <- app_assoc. cbn [app].
  rewrite list_lookup_middle by done. cbn [of_opt]. rewrite bind_Ok. destruct (tok_open k) eqn:Hk.
  - rewrite last_open_open; [done|done|constructor].
  - rewrite IH, last_open_closed; [done|by constructor].
Qed.

Lemma bump_length d : length (bump d) = length d.
Proof. unfold bump. destruct (last_open d); [by rewrite length_alter|done]. Qed.

Lemma last_open_grow i l : last_open (alter grow i l) = last_open l.
Proof.
  revert i. induction l as [|k l IH]; intros [|i]; try done. change (alter grow (S i) (k :: l)) with (k :: alter grow i l).
  cbn [last_open]. by rewrite IH.
Qed.

Lemma last_open_bump d : last_open (bump d) = last_open d.
Proof. unfold bump. destruct (last_open d) eqn:H; [by rewrite last_open_grow|done]. Qed.

Lemma alter_mid {A} (f : A -> A) a k m : alter f (length a) (a ++ k :: m) = a ++ f k :: m.
Proof. induction a as [|x a IH]; [done|]. cbn. by f_equal. Qed.

Lemma bump_open a k m : tok_open k = true -> closed m -> bump (a ++ k :: m) = a ++ grow k :: m.
Proof. intros Hk Hm. unfold bump. rewrite last_open_open by done. apply alter_mid. Qed.

Lemma count_child_bump p d x : toksuper p = super d -> count_child p (d ++ x) = Ok (bump d ++ x).
Proof.
  intros Hs. unfold count_child. rewrite Hs. unfold super, bump. destruct (last_open d) as [i|] eqn:Hi; [|done].
  apply last_open_lt in Hi. destruct (Z.eqb_spec (Z.of_nat i) (-1)); [lia|]. destruct (Z.ltb_spec (Z.of_nat i) 0); [lia|].
  rewrite Nat2Z.id, tok_update_ok by (rewrite length_app; lia). by rewrite alter_app_l.
Qed.

Lemma tok_update_mid d f k rest : tok_update (length d) f (d ++ k :: rest) = Ok (d ++ f k :: rest).
Proof. rewrite tok_update_ok by (rewrite length_app; cbn; lia). by rewrite alter_mid. Qed.

Lemma js_at_mid pre c post : js_at (pre ++ c :: post) (length pre) = Ok c.
Proof.
  unfold js_at. rewrite length_app. cbn [length]. destruct (Nat.eqb_spec (length pre) (length pre + S (length post))); [lia|].
  by rewrite list_lookup_middle.
Qed.

Lemma js_at_end js : js_at js (length js) = Ok 0.
Proof. unfold js_at. by rewrite Nat.eqb_refl. Qed.

(** ** Scanning strings and primitives *)

Lemma app_snoc {A} (pre : list A) c post : pre ++ c :: post = (pre ++ [c]) ++ post.
Proof. by rewrite <- app_assoc. Qed.

Lemma string_loop_body fuel pre s post :
  body_ok s = true -> (length s < fuel)%nat ->
  string_loop fuel (pre ++ s ++ 34 :: post) (length pre) = Ok (inr (length pre + length s)%nat).
Proof.
  revert pre s. induction fuel as [|f IH]; intros pre s Hs Hf; [lia|]. cbn [string_loop].
  destruct s as [|c s]; cbn [app length]; rewrite js_at_mid, bind_Ok; [cbn; by rewrite Nat.add_0_r|].
  destruct (decide (c = 92)) as [->|Hc].
  - destruct s as [|d s]; [done|]. cbn in Hs. apply andb_true_iff in Hs as [Hd Hs]. cbn [Z.eqb Pos.eqb app].
    rewrite (app_snoc pre 92). replace (S (length pre)) with (length (pre ++ [92])) by (rewrite length_app; cbn; lia).
    rewrite js_at_mid, bind_Ok, Hd. rewrite (app_snoc (pre ++ [92]) d).
    replace (S (length (pre ++ [92]))) with (length ((pre ++ [92]) ++ [d])) by (rewrite !length_app; cbn; lia).
    rewrite IH by (cbn in *; done || lia). do 2 f_equal. rewrite !length_app. cbn [length]. lia.
  - cbn [body_ok] in Hs. destruct (Z.eqb_spec c 92) as [|_]; [done|]. apply andb_true_iff in Hs as [Hc' Hb].
    apply negb_true_iff in Hc'. apply orb_false_iff in Hc' as [Hc1 Hc2]. rewrite Hc1, Hc2. rewrite (app_snoc pre c).
    replace (S (length pre)) with (length (pre ++ [c])) by (rewrite length_app; cbn; lia).
    rewrite IH by (done || (cbn in Hf; lia)). do 2 f_equal. rewrite !length_app. cbn [length]. lia.
Qed.

Definition stops (post : cstr) : bool := match post with [] => true | c :: _ => prim_end c end.

Lemma prim_loop_text fuel pre s post :
  forallb prim_char s = true -> stops post = true -> (length s < fuel)%nat ->
  prim_loop fuel (pre ++ s ++ post) (length pre) = Ok (Some (length pre + length s)%nat).
Proof.
  revert pre s. induction fuel as [|f IH]; intros pre s Hs Hp Hf; [lia|]. cbn [prim_loop].
  destruct s as [|c s]; cbn [app length].
  - rewrite Nat.add_0_r. destruct post as [|c post]; [by rewrite app_nil_r, js_at_end|].
    rewrite js_at_mid, bind_Ok. cbn in Hp. rewrite Hp. by destruct (c =? 0).
  - cbn [forallb] in Hs. apply andb_true_iff in Hs as [Hc Hs]. unfold prim_char in Hc.
    apply andb_true_iff in Hc as [Hc H2]. apply andb_true_iff in Hc as [H0 H1]. apply negb_true_iff in H0.
    rewrite js_at_mid, bind_Ok, H0. unfold schar.
    destruct (Z.eqb_spec c 0); [subst c; done|]. destruct (Z.ltb_spec c 128); [|lia].
    destruct (Z.ltb_spec c 32); [lia|]. destruct (Z.leb_spec 127 c); [lia|]. cbn [orb].
    rewrite (app_snoc pre c). replace (S (length pre)) with (length (pre ++ [c])) by (rewrite length_app; cbn; lia).
    rewrite IH by (done || (cbn in Hf; lia)). do 2 f_equal. rewrite !length_app. cbn [length]. lia.
Qed.

(** ** Parsing a text *)
Section Run.
Context (js : cstr) (n : nat).

(** The parser at the offset [o] with the tokens [d] filled. *)
Definition parser_at (o : nat) (d : toks) : jsmn_parser := mkParser o (length d) (super d).

(** The loop gets from one state to the other; it takes a round per character at most. *)
Definition runs (o : nat) (d rest : toks) (o' : nat) (d' rest' : toks) : Prop :=
  exists k, (k <= o' - o)%nat /\ (o <= o')%nat /\ forall f,
    parse_loop (k + f) (parser_at o d) js (d ++ rest) n = parse_loop f (parser_at o' d') js (d' ++ rest') n.

Lemma runs_refl o d rest : runs o d rest o d rest.
Proof. exists O. split; [lia|]. by split. Qed.

Lemma runs_trans o1 d1 r1 o2 d2 r2 o3 d3 r3 :
  runs o1 d1 r1 o2 d2 r2 -> runs o2 d2 r2 o3 d3 r3 -> runs o1 d1 r1 o3 d3 r3.
Proof.
  intros (k1 & Hk1 & H1 & E1) (k2 & Hk2 & H2 & E2). exists (k1 + k2)%nat. split; [lia|]. split; [lia|]. intros f.
  by rewrite <- Nat.add_assoc, E1, E2.
Qed.

(** One round of the loop. *)
Lemma runs_step pre c post d rest q u o' d' rest' :
  js = pre ++ c :: post -> c <> 0 ->
  on_char c js (parser_at (length pre) d) (d ++ rest) n = Ok (JSMN_SUCCESS, q, u) ->
  set_pos (S (pos q)) q = parser_at o' d' -> u = d' ++ rest' -> (length pre < o')%nat ->
  runs (length pre) d rest o' d' rest'.
Proof.
  intros Hjs Hc Hs Hq -> Ho. exists 1%nat. split; [lia|]. split; [lia|]. intros f. cbn [Nat.add parse_loop].
  cbn [pos parser_at]. rewrite Hjs at 1. rewrite js_at_mid, bind_Ok. destruct (Z.eqb_spec c 0); [done|].
  fold (parser_at (length pre) d). rewrite Hs, bind_Ok, bool_decide_true by done. by rewrite Hq.
Qed.

Lemma gap_char c : gap c = true -> c <> 0 /\ prim_end c = true /\
  (c =? 123) || (c =? 91) = false /\ (c =? 125) || (c =? 93) = false /\ c =? 34 = false.
Proof.
  unfold gap, prim_end, separator. intros H. zcase; cbn in *; try discriminate; repeat split; try lia; done.
Qed.

Lemma runs_gaps pre s post d rest :
  js = pre ++ s ++ post -> gaps s = true -> runs (length pre) d rest (length pre + length s) d rest.
Proof.
  revert pre. induction s as [|c s IH]; intros pre Hjs Hs; [rewrite Nat.add_0_r; apply runs_refl|].
  cbn [gaps forallb] in Hs. apply andb_true_iff in Hs as [Hc Hs]. destruct (gap_char c Hc) as (H0 & _ & H1 & H2 & H3).
  apply (runs_trans _ _ _ (length (pre ++ [c])) d rest).
  - apply (runs_step pre c (s ++ post) d rest (parser_at (length pre) d) (d ++ rest)); [done|done| | |done|rewrite length_app; cbn; lia].
    + unfold on_char. rewrite H1, H2, H3. unfold gap in Hc. by rewrite Hc.
    + unfold set_pos, parser_at. rewrite length_app. cbn. f_equal. lia.
  - replace (length pre + length (c :: s))%nat with (length (pre ++ [c]) + length s)%nat by (rewrite length_app; cbn; lia).
    apply IH; [|done]. rewrite Hjs. by rewrite <- app_assoc.
Qed.

Lemma super_closed d k : tok_open k = false -> super (bump d ++ [k]) = super d.
Proof. intros Hk. unfold super. rewrite last_open_closed, last_open_bump; [done|by constructor]. Qed.

(** A string or a primitive from [s] to [e], after which the parser is at [a]. *)
Lemma on_value_at ty s e a o d k rest :
  n = length (d ++ k :: rest) ->
  on_value (
    m ← jsmn_alloc_token (set_pos e (parser_at o d)) (d ++ k :: rest) n;
    match m with
    | None => Ok (JSMN_ERROR_NOMEM, parser_at o d, d ++ k :: rest)
    | Some (i, q, t) => t ← jsmn_fill_token i ty s e t; Ok (JSMN_SUCCESS, set_pos a q, t)
    end) =
  Ok (JSMN_SUCCESS, mkParser a (S (length d)) (super d), bump d ++ mkTok ty (Z.of_nat s) (Z.of_nat e) 0 :: rest).
Proof.
  intros Hn. unfold jsmn_alloc_token. cbn [set_pos parser_at toknext toksuper pos].
  rewrite length_app in Hn. cbn [length] in Hn. destruct (Nat.leb_spec n (length d)); [lia|].
  rewrite tok_update_mid, !bind_Ok. unfold jsmn_fill_token. rewrite tok_update_mid, bind_Ok.
  unfold on_value. rewrite bind_Ok, bool_decide_true by done. by rewrite count_child_bump.
Qed.

Lemma tok_closed ty a b sz : 0 <= b -> tok_open (mkTok ty a b sz) = false.
Proof. intros. unfold tok_open. cbn. destruct (Z.eqb_spec b (-1)); [lia|]. apply andb_false_r. Qed.

Lemma runs_prim pre s post d k rest :
  js = pre ++ s ++ post -> n = length (d ++ k :: rest) -> prim_ok s = true -> stops post = true ->
  runs (length pre) d (k :: rest) (length pre + length s) (bump d ++ tokens_of (length pre) (Prim s)) rest.
Proof.
  intros Hjs Hn Hs Hp. unfold prim_ok in Hs. apply andb_true_iff in Hs as [Hs Hc]. destruct s as [|c s]; [done|].
  assert (Hc0 : prim_char c = true) by (cbn in Hs; by apply andb_true_iff in Hs as [? _]).
  eapply (runs_step pre c (s ++ post)); [done| | | | |cbn; lia].
  - intros ->. by vm_compute in Hc0.
  - unfold on_char. apply negb_true_iff in Hc. apply orb_false_iff in Hc as [Hc Hc3]. apply orb_false_iff in Hc as [Hc1 Hc2].
    rewrite Hc1, Hc2, Hc3. cbn [orb]. unfold prim_char in Hc0. apply andb_true_iff in Hc0 as [Hc0 _].
    apply andb_true_iff in Hc0 as [Hc0 _]. apply negb_true_iff in Hc0. unfold prim_end in Hc0.
    apply orb_false_iff in Hc0 as [Hc0 H4]. apply orb_false_iff in Hc0 as [Hc0 H3]. apply orb_false_iff in Hc0 as [H1 H2].
    rewrite H1, H2, H3, H4. cbn [orb]. unfold jsmn_parse_primitive. cbn [pos parser_at].
    rewrite Hjs at 2. rewrite prim_loop_text by (done || (rewrite Hjs, !length_app; lia)). rewrite bind_Ok.
    apply on_value_at. exact Hn.
  - unfold set_pos, parser_at. cbn [pos toknext toksuper tokens_of]. rewrite super_closed by (apply tok_closed; lia).
    rewrite length_app, bump_length. cbn [length]. f_equal; lia.
  - cbn [tokens_of]. by rewrite <- app_assoc.
Qed.

Lemma runs_str pre s post d k rest :
  js = pre ++ text (Str s) ++ post -> n = length (d ++ k :: rest) -> body_ok s = true ->
  runs (length pre) d (k :: rest) (length pre + length (text (Str s))) (bump d ++ tokens_of (length pre) (Str s)) rest.
Proof.
  intros Hjs Hn Hs. cbn [text] in *. cbn [app] in Hjs. rewrite <- app_assoc in Hjs. cbn [app] in Hjs.
  eapply (runs_step pre 34 (s ++ 34 :: post)); [done|done| | | |rewrite length_cons; lia].
  - unfold on_char. cbn [Z.eqb Pos.eqb orb]. unfold jsmn_parse_string. cbn [pos parser_at]. rewrite Hjs at 2. rewrite (app_snoc pre 34).
    replace (S (length pre)) with (length (pre ++ [34])) at 1 by (rewrite length_app; cbn; lia).
    rewrite string_loop_body by (done || (rewrite Hjs, length_app; cbn [length]; rewrite length_app; lia)). rewrite bind_Ok.
    pose proof (on_value_at JSMN_STRING (S (length pre)) (length (pre ++ [34]) + length s)
      (length (pre ++ [34]) + length s) (length pre) d k rest Hn) as Hv.
    unfold jsmn_alloc_token in Hv |- *. cbn [set_pos parser_at toknext toksuper pos] in Hv |- *.
    rewrite length_app in Hn. cbn [length] in Hn. destruct (Nat.leb_spec n (length d)); [lia|].
    rewrite tok_update_mid, !bind_Ok in Hv |- *. exact Hv.
  - unfold set_pos, parser_at. cbn [pos toknext toksuper tokens_of]. rewrite super_closed by (apply tok_closed; lia).
    rewrite !length_app, bump_length. cbn [length]. rewrite length_app. cbn [length]. f_equal; lia.
  - cbn [tokens_of]. rewrite length_app. cbn [length]. rewrite <- app_assoc. cbn [app]. do 4 f_equal. lia.
Qed.

Lemma on_char_open obj p t : on_char (bracket obj) js p t n = on_open (bracket obj) p t n.
Proof. by destruct obj. Qed.

Lemma on_char_close obj p t : on_char (unbracket obj) js p t n = on_close (unbracket obj) p t.
Proof. by destruct obj. Qed.

Lemma runs_open obj pre post d k rest :
  js = pre ++ bracket obj :: post -> n = length (d ++ k :: rest) ->
  runs (length pre) d (k :: rest) (S (length pre))
    (bump d ++ [mkTok (cont_type obj) (Z.of_nat (length pre)) (-1) 0]) rest.
Proof.
  intros Hjs Hn. set (k1 := mkTok (cont_type obj) (Z.of_nat (length pre)) (-1) 0).
  apply (runs_step pre (bracket obj) post d (k :: rest)
    (mkParser (length pre) (S (length d)) (Z.of_nat (length d))) (bump d ++ k1 :: rest)); [done|by destruct obj| | | |lia].
  - rewrite on_char_open. unfold on_open, jsmn_alloc_token. cbn [parser_at toknext toksuper pos]. rewrite length_app in Hn. cbn [length] in Hn.
    destruct (Nat.leb_spec n (length d)); [lia|]. rewrite tok_update_mid, !bind_Ok.
    rewrite count_child_bump by done. rewrite bind_Ok. rewrite <- (bump_length d) at 1. rewrite tok_update_mid, bind_Ok.
    cbn [end_ size_ toknext set_super pos toksuper]. unfold set_super. cbn [pos toknext].
    replace (Z.of_nat (S (length d)) - 1) with (Z.of_nat (length d)) by lia. subst k1. by destruct obj.
  - unfold set_pos, parser_at, super. cbn [pos toknext toksuper].
    rewrite last_open_open; [|subst k1; unfold tok_open; cbn; destruct (Z.eqb_spec (Z.of_nat (length pre)) (-1)); [lia|done]|constructor].
    rewrite length_app, bump_length. cbn [length]. f_equal; lia.
  - by rewrite <- app_assoc.
Qed.

Lemma runs_close obj pre post a o sz m rest :
  js = pre ++ unbracket obj :: post -> closed m ->
  let k := mkTok (cont_type obj) (Z.of_nat o) (-1) sz in
  runs (length pre) (a ++ k :: m) rest (S (length pre))
    (a ++ mkTok (cont_type obj) (Z.of_nat o) (Z.of_nat (S (length pre))) sz :: m) rest.
Proof.
  intros Hjs Hm k. set (k1 := mkTok (cont_type obj) (Z.of_nat o) (Z.of_nat (S (length pre))) sz).
  assert (Hk : tok_open k = true) by (subst k; unfold tok_open; cbn; destruct (Z.eqb_spec (Z.of_nat o) (-1)); [lia|done]).
  assert (Hk1 : tok_open k1 = false) by (apply tok_closed; lia).
  apply (runs_step pre (unbracket obj) post (a ++ k :: m) rest
    (mkParser (length pre) (length (a ++ k :: m)) (super a)) ((a ++ k1 :: m) ++ rest)); [done|by destruct obj| | |done|lia].
  - rewrite on_char_close. unfold on_close. cbn [parser_at toknext pos]. rewrite find_open_last, last_open_open by done. cbv zeta. rewrite bind_Ok.
    rewrite <- app_assoc. cbn [app]. rewrite list_lookup_middle by done. cbn [of_opt]. rewrite bind_Ok.
    rewrite bool_decide_true by (by destruct obj). rewrite tok_update_mid, bind_Ok. cbn [type_ start size_ k].
    fold k1. change (k1 :: m ++ rest) with ([k1] ++ m ++ rest). rewrite app_assoc.
    replace (S (length a)) with (length (a ++ [k1])) by (rewrite length_app; cbn; lia). rewrite find_open_last, bind_Ok.
    rewrite last_open_closed by (by constructor). rewrite <- !app_assoc. done.
  - unfold set_pos, parser_at. cbn [pos toknext toksuper]. f_equal.
    + rewrite !length_app. done.
    + unfold super. rewrite last_open_closed; [done|]. by constructor.
Qed.

(** What is known of a value: it is parsed, whatever comes before and after. *)
Definition parses (v : tree) : Prop := forall pre post d rest,
  js = pre ++ text v ++ post -> tree_ok v = true -> stops post = true -> n = length (d ++ rest) ->
  (ntoks v <= length rest)%nat ->
  runs (length pre) d rest (length pre + length (text v)) (bump d ++ tokens_of (length pre) v) (drop (ntoks v) rest).

Lemma gaps_stop s post : gaps s = true -> s <> [] -> stops (s ++ post) = true.
Proof.
  intros Hg Hs. destruct s as [|c s]; [done|]. cbn in Hg |- *. apply andb_true_iff in Hg as [Hc _]. by apply gap_char.
Qed.

Definition kids_ok (kids : list (cstr * tree)) : bool := forallb (fun k => gaps (fst k) && tree_ok (snd k)) kids.
Definition apart (kids : list (cstr * tree)) : bool := forallb (fun k => negb (bool_decide (fst k = []))) kids.
Definition kids_ntoks (kids : list (cstr * tree)) : nat := list_sum (map (fun k => ntoks (snd k)) kids).

Lemma tokens_closed v o : closed (tokens_of o v).
Proof.
  revert o. induction v as [s|s|obj kids tail IH] using tree_ind; intros o.
  - constructor; [apply tok_closed; lia|constructor].
  - constructor; [apply tok_closed; lia|constructor].
  - constructor; [apply tok_closed; lia|]. generalize (S o). induction IH as [|[s v] l Hv Hl IHl]; intros o'; [constructor|].
    apply Forall_app. split; [apply Hv|apply IHl].
Qed.

Lemma tokens_length v o : length (tokens_of o v) = ntoks v.
Proof.
  revert o. induction v as [s|s|obj kids tail IH] using tree_ind; intros o; [done|done|].
  cbn [tokens_of ntoks length]. f_equal. generalize (S o). induction IH as [|[s v] l Hv Hl IHl]; intros o'; [done|].
  cbn [map snd] in *. rewrite length_app, Hv, IHl. done.
Qed.

Lemma runs_kids kids pre post a k m rest :
  Forall (fun k => parses (snd k)) kids ->
  js = pre ++ kids_text kids ++ post -> kids_ok kids = true -> apart (tl kids) = true -> stops post = true ->
  tok_open k = true -> closed m -> n = length ((a ++ k :: m) ++ rest) -> (kids_ntoks kids <= length rest)%nat ->
  runs (length pre) (a ++ k :: m) rest (length pre + length (kids_text kids))
    (a ++ mkTok (type_ k) (start k) (end_ k) (size_ k + Z.of_nat (length kids)) :: m ++ kids_tokens (length pre) kids)
    (drop (kids_ntoks kids) rest).
Proof.
  revert pre k m rest. induction kids as [|[s v] kids IH]; intros pre k m rest Hp Hjs Hok Hap Hst Hk Hm Hn Hlen.
  - cbn. rewrite Nat.add_0_r, Z.add_0_r, app_nil_r. destruct k. apply runs_refl.
  - apply Forall_cons in Hp as [Hv Hp]. unfold kids_ok in Hok. cbn [forallb fst snd] in Hok.
    apply andb_true_iff in Hok as [Hs Hok]. apply andb_true_iff in Hs as [Hs Hvok]. cbn [snd] in Hv.
    unfold kids_text in Hjs |- *. cbn [map concat fst snd] in Hjs |- *. fold (kids_text kids) in Hjs |- *.
    rewrite <- !app_assoc in Hjs. unfold kids_ntoks in Hlen |- *. cbn [map list_sum fold_right snd] in Hlen |- *.
    change (fold_right Nat.add 0%nat) with list_sum in *. fold (kids_ntoks kids) in Hlen |- *.
    eapply runs_trans; [by eapply (runs_gaps pre s)|]. rewrite <- length_app.
    eapply runs_trans.
    { apply (Hv (pre ++ s) (kids_text kids ++ post)); [by rewrite <- app_assoc|done| |done|lia].
      destruct kids as [|[s' v'] kids]; [done|]. cbn [apart tl forallb fst] in Hap. apply andb_true_iff in Hap as [Hne _].
      unfold kids_text. cbn [map concat fst snd]. rewrite <- !app_assoc. cbn [kids_ok forallb fst snd] in Hok.
      apply andb_true_iff in Hok as [Hg _]. apply andb_true_iff in Hg as [Hg _]. apply gaps_stop; [done|].
      by apply negb_true_iff, bool_decide_eq_false_1 in Hne. }
    rewrite bump_open by done. rewrite <- app_assoc. cbn [app]. rewrite <- length_app.
    replace (length pre + length ((s ++ text v) ++ kids_text kids))%nat
      with (length ((pre ++ s) ++ text v) + length (kids_text kids))%nat by (rewrite !length_app; lia).
    specialize (IH ((pre ++ s) ++ text v) (grow k) (m ++ tokens_of (length (pre ++ s)) v) (drop (ntoks v) rest) Hp).
    cbn [grow type_ start end_ size_] in IH.
    replace (size_ k + Z.of_nat (length ((s, v) :: kids))) with (size_ k + 1 + Z.of_nat (length kids)) by (cbn [length]; lia).
    cbn [kids_tokens].
    replace (length pre + length s + length (text v))%nat with (length ((pre ++ s) ++ text v)) by (rewrite !length_app; lia).
    replace (length pre + length s)%nat with (length (pre ++ s)) by (rewrite !length_app; lia). rewrite (app_assoc m).
    replace (drop (ntoks v + kids_ntoks kids) rest) with (drop (kids_ntoks kids) (drop (ntoks v) rest)) by (by rewrite drop_drop).
    apply IH; [by rewrite <- !app_assoc|done| |done|done|apply Forall_app; split; [done|apply tokens_closed]| |rewrite length_drop; lia].
    + destruct kids as [|k' kids]; [done|]. cbn [apart tl forallb] in Hap |- *. by apply andb_true_iff in Hap as [_ ?].
    + rewrite Hn, !length_app. cbn [length]. rewrite !length_app, length_drop.
      rewrite tokens_length. lia.
Qed.

Lemma text_cont obj kids tail : text (Cont obj kids tail) = bracket obj :: kids_text kids ++ tail ++ [unbracket obj].
Proof. done. Qed.

Lemma tokens_cont o obj kids tail :
  tokens_of o (Cont obj kids tail) =
  mkTok (cont_type obj) (Z.of_nat o) (Z.of_nat (o + length (text (Cont obj kids tail)))) (Z.of_nat (length kids)) ::
  kids_tokens (S o) kids.
Proof. reflexivity. Qed.

(** Every value is parsed. *)
Lemma runs_value v : parses v.
Proof.
  induction v as [s|s|obj kids tail IH] using tree_ind; intros pre post d rest Hjs Hok Hst Hn Hlen.
  - destruct rest as [|k rest]; [cbn in Hlen; lia|]. cbn [ntoks drop]. by eapply runs_prim.
  - destruct rest as [|k rest]; [cbn in Hlen; lia|]. cbn [ntoks drop]. by eapply runs_str.
  - cbn [tree_ok] in Hok. apply andb_true_iff in Hok as [Hok Hgt]. apply andb_true_iff in Hok as [Hok Hap].
    cbn [ntoks] in Hlen |- *. fold (kids_ntoks kids) in Hlen |- *. destruct rest as [|k rest]; [cbn in Hlen; lia|].
    rewrite text_cont in Hjs. cbn [app] in Hjs. rewrite <- !app_assoc in Hjs. cbn [app] in Hjs.
    set (o := length pre). set (d1 := bump d).
    eapply runs_trans; [by eapply (runs_open obj pre)|]. fold o d1.
    replace (S o) with (length (pre ++ [bracket obj])) by (rewrite length_app; cbn; subst o; lia).
    eapply runs_trans.
    { apply (runs_kids kids (pre ++ [bracket obj]) (tail ++ unbracket obj :: post) d1 _ []); try done.
      - by rewrite <- app_assoc.
      - destruct tail as [|c tail]; [by destruct obj|]. by apply gaps_stop.
      - unfold tok_open. cbn. destruct (Z.eqb_spec (Z.of_nat o) (-1)); [lia|done].
      - constructor.
      - rewrite Hn. subst d1. rewrite !length_app, bump_length. cbn [length]. lia.
      - cbn in Hlen. lia. }
    cbn [type_ start end_ size_ app]. set (pre2 := (pre ++ [bracket obj]) ++ kids_text kids).
    replace (length (pre ++ [bracket obj]) + length (kids_text kids))%nat with (length pre2) by (subst pre2; by rewrite length_app).
    eapply runs_trans.
    { apply (runs_gaps pre2 tail (unbracket obj :: post)); [|done]. subst pre2. by rewrite <- !app_assoc. }
    rewrite <- length_app. rewrite text_cont.
    replace (o + length (bracket obj :: kids_text kids ++ tail ++ [unbracket obj]))%nat with (S (length (pre2 ++ tail)))
      by (subst pre2 o; rewrite !length_app; cbn [length]; rewrite !length_app; cbn; lia).
    rewrite tokens_cont, text_cont.
    replace (o + length (bracket obj :: kids_text kids ++ tail ++ [unbracket obj]))%nat with (S (length (pre2 ++ tail)))
      by (subst pre2 o; rewrite !length_app; cbn [length]; rewrite !length_app; cbn; lia).
    replace (S o) with (length (pre ++ [bracket obj])) by (rewrite length_app; cbn; subst o; lia).
    cbn [Nat.add drop]. rewrite Z.add_0_l. apply (runs_close obj (pre2 ++ tail) post).
    + subst pre2. by rewrite <- !app_assoc.
    + generalize (length (pre ++ [bracket obj])). clear. induction kids as [|[s v] l IHl]; intros o'; [constructor|].
      cbn [kids_tokens]. apply Forall_app. split; [apply tokens_closed|apply IHl].
Qed.

End Run.

(** * Theorems *)

(** C40.  On every text, terminated or not by its brackets, [jsmn_parse] reads inside
    the text and writes inside the array, whatever the array held before and
    however small it is; when it reports success every token of the result lies
    inside the text. *)
Theorem jsmn_parse_safe (js : cstr) (t : toks) :
  exists r p t', jsmn_parse jsmn_init js t (length t) = Ok (r, p, t') /\ length t' = length t /\
    (toknext p <= length t)%nat /\
    (r = JSMN_SUCCESS ->
       Forall (fun k => 0 <= start k <= end_ k /\ end_ k <= Z.of_nat (length js)) (take (toknext p) t')).
Proof.
  destruct (parse_loop_ok js (length t) (S (length js)) jsmn_init t) as (r & p & t' & H & Hl & Hn & Hok).
  - split; [done|]. split; [cbn; lia|]. split; [cbn; lia|]. constructor.
  - cbn. lia.
  - cbn. lia.
  - exists r, p, t'. do 3 (split; [done|]). intros Hr. destruct (Hok Hr) as [(_ & _ & _ & Hwf) Hcl].
    rewrite Forall_forall in Hwf, Hcl |- *. intros k Hk. destruct (Hwf k Hk) as [Hs He]. specialize (Hcl k Hk).
    unfold tok_open in Hcl. destruct (Z.eqb_spec (start k) (-1)); [lia|]. destruct (Z.eqb_spec (end_ k) (-1)); [done|]. lia.
Qed.

(** C26.  The tokens of a JSON text are the tokens of its value: for every value in
    every layout, [jsmn_parse] reports success and fills the array, from its
    start, with one token per value in the order of the text, with its type, the
    bounds of its text and the number of its members, and leaves the rest of the
    array alone. *)
Theorem jsmn_parse_print (v : tree) (before after : cstr) (t : toks) :
  tree_ok v = true -> gaps before = true -> gaps after = true -> (ntoks v <= length t)%nat ->
  jsmn_parse jsmn_init (before ++ text v ++ after) t (length t) =
  Ok (JSMN_SUCCESS, mkParser (length (before ++ text v ++ after)) (ntoks v) (-1),
      tokens_of (length before) v ++ drop (ntoks v) t).
Proof.
  intros Hv Hb Ha Hn. set (js := before ++ text v ++ after).
  assert (Hrun : runs js (length t) 0 [] t (length js) (tokens_of (length before) v) (drop (ntoks v) t)).
  { eapply (runs_trans _ _ 0 [] t); [by apply (runs_gaps js _ [] before (text v ++ after))|]. cbn [length Nat.add].
    eapply runs_trans.
    { apply (runs_value js (length t) v before after []); try done. destruct after; [done|]. by eapply (gaps_stop _ []) in Ha. }
    cbn [bump last_open app]. rewrite <- length_app.
    replace (length js) with (length (before ++ text v) + length after)%nat by (subst js; rewrite !length_app; lia).
    apply (runs_gaps js _ (before ++ text v) after []); [|done]. subst js. by rewrite app_nil_r, <- app_assoc. }
  destruct Hrun as (k & Hk & _ & E). unfold jsmn_parse. replace (S (length js)) with (k + (S (length js) - k))%nat by lia.
  change jsmn_init with (parser_at 0 []). change t with ([] ++ t) at 1. rewrite E.
  destruct (S (length js) - k)%nat as [|f] eqn:Hf; [lia|]. cbn [parse_loop parser_at pos]. rewrite js_at_end, bind_Ok.
  unfold parser_at. cbn [Z.eqb toknext]. rewrite find_open_last. pose proof (last_open_closed [] _ (tokens_closed v (length before))) as Hl.
  cbn [app last_open] in Hl. unfold parser_at, super. by rewrite Hl, tokens_length.
Qed.

Lemma jsmn_parse_print_witness :
  jsmn_parse jsmn_init (str " " ++ text (jarray [jobject [(str "id", Prim (str "12"))]]) ++ [10])
    (replicate 5 (mkTok JSMN_STRING 0 0 0)) 5 =
  Ok (JSMN_SUCCESS, mkParser 13 4 (-1),
      [mkTok JSMN_ARRAY 1 12 1; mkTok JSMN_OBJECT 2 11 2; mkTok JSMN_STRING 4 6 0; mkTok JSMN_PRIMITIVE 8 10 0;
       mkTok JSMN_STRING 0 0 0]).
Proof.
  apply (jsmn_parse_print (jarray [jobject [(str "id", Prim (str "12"))]]) (str " ") [10]
    (replicate 5 (mkTok JSMN_STRING 0 0 0))); vm_compute; (reflexivity || lia).
Defined.
