(* ===== verification/Twitter.v ===== *)
(** * The Twitter adaptor (xap-twitter/twitter.c, tcurl.c)

    The adaptor polls the latest tweet of its user, puts it on the bus as an
    alias command and deletes it, and sends tweets for messages of the bus.  The
    response of the web service is collected in a buffer that grows and is parsed
    with jsmn.  libcurl and OAuth are parameters: a request is recorded, its
    outcome and the chunks of its response are arguments.  The theorems: the
    response is collected whole; the tweet found is the one of the response,
    whatever its layout; a command is relayed without its prefix and the tweet
    deleted; and what the bounds of the configuration miss. *)

From S2P Require Import Prelude UtList Strings Frame Wire Filter Timeout Xap MinIni Jsmn.

(** ** tcurl.c *)

(** The buffer of the response; [cb_length] is its size as the code sees it.
    The handle of libcurl has been created. *)
Record tcurl := mkTcurl {
  callbackData : list Z;
  cb_length : nat;
}.

Definition clearCallbackBuffers (c : tcurl) : out tcurl :=
  b ← write_at (callbackData c) 0 (replicate (cb_length c) 0);
  Ok (mkTcurl b (cb_length c)).

Definition new_tcurl (junk : Z) : out tcurl := clearCallbackBuffers (mkTcurl (replicate 256 junk) 256).

(** A chunk of the response.  [realloc] answers whether the buffer can grow; the
    size is set before it is asked. *)
Definition write_cb (junk : Z) (realloc : bool) (ptr : list Z) (c : tcurl) : out tcurl :=
  s ← of_opt OutOfBounds (cstr_at (callbackData c) 0);
  let size := length ptr in
  let room := (cb_length c - length s - 1)%nat in
  let text := match until0 ptr with Some t => t | None => ptr end in
  if (room <? size)%nat then
    let n := (length s + size + 1)%nat in
    if realloc then
      let b := callbackData c ++ replicate (n - length (callbackData c)) junk in
      b ← write_at b (length s) (text ++ [0]);
      Ok (mkTcurl b n)
    else Ok (mkTcurl (callbackData c) n)
  else
    b ← write_at (callbackData c) (length s) (text ++ [0]);
    Ok (mkTcurl b (cb_length c)).

Fixpoint write_chunks (junk : Z) (realloc : bool) (chunks : list (list Z)) (c : tcurl) : out tcurl :=
  match chunks with
  | [] => Ok c
  | p :: r => c ← write_cb junk realloc p c; write_chunks junk realloc r c
  end.

(** What the web service answers: [None] when the address was not signed,
    otherwise whether the transfer succeeded and the chunks of the response. *)
Definition answer : Type := option (bool * list (list Z)).

Inductive request := GET (url : cstr) | DELETE (url : cstr) | TWEET (msg : cstr).

Definition TWITCURL_URL_LEN : nat := 512.

Section Service.
Context (junk : Z) (realloc : bool) (userid : cstr).

(** The result and the buffer. *)
Definition performGet (a : answer) (c : tcurl) : out (Z * tcurl) :=
  c ← clearCallbackBuffers c;
  match a with
  | None => Ok (-1, c)
  | Some (ok, chunks) => c ← write_chunks junk realloc chunks c; Ok (if ok : bool then 0 else -1, c)
  end.

Definition performDelete (a : answer) (c : tcurl) : out (Z * tcurl) :=
  c ← clearCallbackBuffers c;
  match a with
  | None => Ok (0, c)
  | Some (ok, chunks) => c ← write_chunks junk realloc chunks c; Ok (if ok : bool then 1 else 0, c)
  end.

Definition destroy_url (id : Z) : cstr :=
  snprintf TWITCURL_URL_LEN (str "https://api.twitter.com/1.1/statuses/destroy/" ++ fmt_d id ++ str ".json").

Definition timeline_url (id : Z) : cstr :=
  let base := str "https://api.twitter.com/1.1/statuses/user_timeline.json?user_id=" ++ userid in
  snprintf TWITCURL_URL_LEN
    (if 0 <? id then base ++ str "&since_id=" ++ fmt_d id ++ str "&trim_user=1&count=1"
     else base ++ str "&trim_user=1&count=1").

(** [strtoll(s, NULL, 10)]: 64 bits, saturating. *)
Definition clamp64 (x : Z) : Z := Z.max (- 2 ^ 63) (Z.min (2 ^ 63 - 1) x).
Definition atoll (s : cstr) : Z :=
  match skip_while isspace s with
  | [] => 0
  | c :: r =>
      if c =? 45 then clamp64 (- digits_val (take_while isdigit r))
      else if c =? 43 then clamp64 (digits_val (take_while isdigit r))
      else clamp64 (digits_val (take_while isdigit (c :: r)))
  end.

(** [TOKEN_STRING(js, t, s)] *)
Definition TOKEN_STRING (js : cstr) (k : jsmntok_t) (s : cstr) : bool :=
  let n := Z.to_nat (end_ k - start k) in
  strncmp0 n (drop (Z.to_nat (start k)) js) s && (length s =? n)%nat.

(** [t[i]]: only the tokens below [toknext] have been written. *)
Definition tok_at (t : toks) (toknext : nat) (i : nat) : out jsmntok_t :=
  if (i <? toknext)%nat then of_opt OutOfBounds (t !! i) else Undef Uninitialised.

(** [for(i=1; i<60 && found<2; i++)]; the result is [found], the identifier and
    the text.  [fuel] bounds the rounds left. *)
Fixpoint tweet_loop (fuel : nat) (js : cstr) (t : toks) (toknext clen : nat) (i found : nat) (id : Z) (content : cstr)
    : out (nat * Z * cstr) :=
  match fuel with
  | O => Ok (found, id, content)
  | S f =>
      if (60 <=? i)%nat || (2 <=? found)%nat then Ok (found, id, content) else
      k ← tok_at t toknext i;
      if TOKEN_STRING js k (str "id") then
        v ← tok_at t toknext (S i);
        if bool_decide (type_ v = JSMN_PRIMITIVE)
        then tweet_loop f js t toknext clen (S (S i)) (S found) (atoll (drop (Z.to_nat (start v)) js)) content
        else tweet_loop f js t toknext clen (S (S i)) found id content
      else if TOKEN_STRING js k (str "text") then
        v ← tok_at t toknext (S i);
        if bool_decide (type_ v = JSMN_STRING)
        then tweet_loop f js t toknext clen (S (S i)) (S found) id
               (take (Nat.min (Z.to_nat (end_ v - start v)) (clen - 1)) (drop (Z.to_nat (start v)) js))
        else tweet_loop f js t toknext clen (S (S i)) found id content
      else tweet_loop f js t toknext clen (S i) found id content
  end.

Definition TOKEN_COUNT : nat := 100.

(** [t0] is the uninitialised array of tokens.  The result, the identifier and
    the text. *)
Definition getLatestTweet (t0 : toks) (a : answer) (content : cstr) (clen : nat) (id : Z) (c : tcurl)
    : out (Z * cstr * Z * tcurl) :=
  '(r, c) ← performGet a c;
  if negb (r =? 0) then Ok (-1, content, id, c) else
  result ← of_opt OutOfBounds (cstr_at (callbackData c) 0);
  if (length result =? 2)%nat then Ok (-1, content, id, c) else
  '(e, p, t) ← jsmn_parse jsmn_init result t0 TOKEN_COUNT;
  if bool_decide (e = JSMN_SUCCESS) then
    '(found, id, content) ← tweet_loop 60 result t (toknext p) clen 1 0 id content;
    Ok (if (0 <? found)%nat then 0 else -1, content, id, c)
  else Ok (-1, content, id, c).

(** The message of [sendTweet]; [msg] has 200 bytes. *)
Definition tweet_msg (tweet : cstr) : cstr := cat_to 200 (str "status=") tweet.

(** ** twitter.c *)

(** [prefix] and [prefix_len]: the command prefix with its blank. *)
Record config := mkConfig {
  self : xAPIdent;
  prefix : cstr;
  freq : Z;
}.

Record twitter := mkTwitter {
  twit : tcurl;
  tweet : cstr;
  last_tweet : Z;
  requests : list request;
  bus : list cstr;
}.

Definition alias_msg (x : xAPIdent) (t : cstr) : cstr :=
  line "xap-header" ++ line "{" ++ line "v=12" ++ line "hop=1" ++ str "uid=" ++ uid x ++ [10] ++
  line "class=alias" ++ str "source=" ++ source x ++ [10] ++ line "}" ++
  line "command" ++ line "{" ++ str "text=" ++ t ++ [10] ++ line "}".

(** [strncasecmp(a, b, n) == 0] *)
Definition strncasecmp0 (n : nat) (a b : cstr) : bool := strcasecmp0 (take n a) (take n b).

(** [getLatestTweet(twit, tweet, sizeof(tweet), &last_tweet)] *)
Definition get_latest (t0 : toks) (a : answer) (w : twitter) : out (Z * twitter) :=
  let rq := GET (timeline_url (last_tweet w)) in
  '(r, txt, id, c) ← getLatestTweet t0 a (tweet w) 141 (last_tweet w) (twit w);
  Ok (r, mkTwitter c txt id (requests w ++ [rq]) (bus w)).

(** [got] and [deleted]: the answers to the two requests. *)
Definition checkForTweets (cfg : config) (t0 : toks) (got deleted : answer) (w : twitter) : out twitter :=
  '(r, w) ← get_latest t0 got w;
  if r =? -1 then Ok w else
  let n := length (prefix cfg) in
  if negb ((n =? 0)%nat || strncasecmp0 n (tweet w) (prefix cfg)) then Ok w else
  let m := alias_msg (self cfg) (drop n (tweet w)) in
  if (1500 <? length m)%nat then Ok w else
  '(_, c) ← performDelete deleted (twit w);
  Ok (mkTwitter c (tweet w) (last_tweet w) (requests w ++ [DELETE (destroy_url (last_tweet w))])
        (bus w ++ [snprintf 1500 m])).

(** [text] is the value of the message; [posted] tells whether the service
    answered. *)
Definition tweetService (t0 : toks) (text : cstr) (posted : bool) (got : answer) (w : twitter) : out twitter :=
  let w := mkTwitter (twit w) (tweet w) (last_tweet w) (requests w ++ [TWEET (tweet_msg text)]) (bus w) in
  if posted then '(_, w) ← get_latest t0 got w; Ok w else Ok w.

End Service.

(** ** Configuration *)

(** The prefix in its array of 20 bytes, and its length: the blank and the
    terminator are stored behind it. *)
Definition setup_prefix (inifile : option (list Z)) (junk : list Z) : out (list Z * nat) :=
  let '(_, p) := ini_gets (Some (str "twitter")) (Some (str "prefix")) [] [] 20 inifile in
  b ← write_at junk 0 (p ++ [0]);
  match p with
  | [] => Ok (b, 0%nat)
  | _ => b ← write_at b (length p) [32]; b ← write_at b (S (length p)) [0]; Ok (b, S (length p))
  end.

Definition setup_freq (inifile : option (list Z)) : Z :=
  let f := ini_getl (Some (str "twitter")) (Some (str "ufreq")) 30 inifile in
  if (f <? 10) || (60 * 5 <? f) then 30 else f.

(** The keys that must not be empty. *)
Definition required : list (cstr * Z) :=
  [(str "access_key", 128); (str "access_secret", 128); (str "consumer_key", 128); (str "consumer_secret", 128);
   (str "user", 32); (str "userid", 16)].

(** Identity and settings of the program, and the user it polls. *)
Definition setupXAPini (x : xAPIdent) (inifile : option (list Z)) (junk : list Z) : out (config * cstr) :=
  '(b, n) ← setup_prefix inifile junk;
  p ← of_opt OutOfBounds (cstr_at b 0);
  let get k size := snd (ini_gets (Some (str "twitter")) (Some k) [] [] size inifile) in
  if existsb (fun k => (length (get (fst k) (snd k)) =? 0)%nat) required then Die
  else Ok (mkConfig x (take n p) (setup_freq inifile), get (str "userid") 16).

(** * Properties *)

(** ** Collecting the response *)

(** A buffer that holds the string [s]. *)
Definition holds (c : tcurl) (s : cstr) : Prop :=
  cb_length c = length (callbackData c) /\ exists r, callbackData c = s ++ 0 :: r /\ no_nul s.

Lemma cstr_head s r : no_nul s -> cstr_at (s ++ 0 :: r) 0 = Some s.
Proof. apply (cstr_at_app []). Qed.

Lemma clear_holds c s : holds c s -> exists c', clearCallbackBuffers c = Ok c' /\ holds c' [] /\ cb_length c' = cb_length c.
Proof.
  intros (Hl & r & Hb & _). unfold clearCallbackBuffers. rewrite Hl, write_at_Ok by (rewrite length_replicate; lia).
  rewrite bind_Ok. eexists. split; [done|]. split; [|by rewrite <- Hl]. unfold holds. cbn [callbackData cb_length].
  rewrite length_replicate, take_0, drop_ge by lia. cbn [app]. rewrite app_nil_r, length_replicate. split; [done|].
  destruct (callbackData c) as [|x b]; [by destruct s|]. exists (replicate (length b) 0). by split; [|constructor].
Qed.

Lemma write_cb_holds junk p c s :
  holds c s -> no_nul p -> exists c', write_cb junk true p c = Ok c' /\ holds c' (s ++ p).
Proof.
  intros (Hl & r & Hb & Hs) Hp. unfold write_cb.
  assert (Hc : cstr_at (callbackData c) 0 = Some s) by (rewrite Hb; by apply cstr_head).
  rewrite Hc. cbn [of_opt]. rewrite bind_Ok. cbv zeta.
  assert (Ht : match until0 p with Some t => t | None => p end = p).
  { destruct (until0 p) as [t|] eqn:Hu; [|done]. apply until0_Some in Hu as (_ & q & ->).
    unfold no_nul in Hp. rewrite Forall_app, Forall_cons in Hp. naive_solver. }
  rewrite Ht. assert (Hlen : length (callbackData c) = (length s + S (length r))%nat) by (rewrite Hb, length_app; done).
  set (b := if (cb_length c - length s - 1 <? length p)%nat
            then callbackData c ++ replicate (length s + length p + 1 - length (callbackData c)) junk else callbackData c).
  assert (Hbl : length b = if (cb_length c - length s - 1 <? length p)%nat then (length s + length p + 1)%nat else length (callbackData c)).
  { subst b. destruct (Nat.ltb_spec (cb_length c - length s - 1) (length p)); [|done].
    rewrite length_app, length_replicate. lia. }
  assert (Hfit : (length s + length (p ++ [0%Z]) <= length b)%nat).
  { rewrite Hbl, length_app. cbn [length]. destruct (Nat.ltb_spec (cb_length c - length s - 1) (length p)); lia. }
  assert (Hts : take (length s) b = s).
  { subst b. rewrite Hb. destruct (_ <? _)%nat; [rewrite <- app_assoc|]; by rewrite take_app_length. }
  assert (Hw : write_at b (length s) (p ++ [0]) = Ok ((s ++ p) ++ 0 :: drop (length s + length (p ++ [0])) b)).
  { rewrite write_at_Ok by done. rewrite Hts. by rewrite <- !app_assoc. }
  assert (Hwl : length ((s ++ p) ++ 0 :: drop (length s + length (p ++ [0])) b) = length b).
  { rewrite !length_app in *. cbn [length] in *. rewrite length_drop. lia. }
  assert (Hnn : no_nul (s ++ p)) by (by apply Forall_app).
  subst b. destruct (_ <? _)%nat; rewrite Hw, bind_Ok; (eexists; split; [done|]); (split; [cbn [cb_length callbackData]; lia|]); eauto.
Qed.

Lemma write_chunks_holds junk chunks c s :
  holds c s -> Forall no_nul chunks -> exists c', write_chunks junk true chunks c = Ok c' /\ holds c' (s ++ concat chunks).
Proof.
  revert c s. induction chunks as [|p r IH]; intros c s Hc Hn; cbn [write_chunks concat]; [rewrite app_nil_r; eauto|].
  apply Forall_cons in Hn as [Hp Hr]. destruct (write_cb_holds junk p c s Hc Hp) as (c1 & -> & H1). rewrite bind_Ok.
  rewrite app_assoc. by apply IH.
Qed.

Lemma performGet_holds junk chunks c s ok :
  holds c s -> Forall no_nul chunks ->
  exists c', performGet junk true (Some (ok, chunks)) c = Ok (if ok : bool then 0 else -1, c') /\ holds c' (concat chunks).
Proof.
  intros Hc Hn. unfold performGet. destruct (clear_holds c s Hc) as (c1 & -> & H1 & _). rewrite bind_Ok.
  destruct (write_chunks_holds junk chunks c1 [] H1 Hn) as (c2 & -> & H2). rewrite bind_Ok. eauto.
Qed.

Lemma performDelete_holds junk a c s :
  holds c s -> (forall ok chunks, a = Some (ok, chunks) -> Forall no_nul chunks) ->
  exists r c', performDelete junk true a c = Ok (r, c') /\ exists s', holds c' s'.
Proof.
  intros Hc Hn. unfold performDelete. destruct (clear_holds c s Hc) as (c1 & -> & H1 & _). rewrite bind_Ok.
  destruct a as [[ok chunks]|]; [|eauto]. destruct (write_chunks_holds junk chunks c1 [] H1 (Hn _ _ eq_refl)) as (c2 & -> & H2).
  rewrite bind_Ok. eauto.
Qed.

(** ** The tokens of a tweet *)

Lemma token_string_at js before w after ty sz s :
  js = before ++ w ++ after ->
  TOKEN_STRING js (mkTok ty (Z.of_nat (length before)) (Z.of_nat (length before + length w)) sz) s = bool_decide (w = s).
Proof.
  intros ->. unfold TOKEN_STRING. cbn [start end_]. rewrite Nat2Z.id.
  replace (Z.to_nat (Z.of_nat (length before + length w) - Z.of_nat (length before))) with (length w) by lia.
  rewrite drop_app_length. unfold strncmp0. rewrite take_app_length.
  destruct (Nat.eqb_spec (length s) (length w)) as [Hl|Hl].
  - rewrite andb_true_r, take_ge by lia. done.
  - rewrite andb_false_r. rewrite bool_decide_false; [done|]. intros ->. done.
Qed.

(** No value in the tree reads [id] or [text]. *)
Fixpoint unnamed (v : tree) : bool :=
  match v with
  | Prim s | Str s => negb (bool_decide (s = str "id")) && negb (bool_decide (s = str "text"))
  | Cont _ kids _ => forallb (fun k => unnamed (snd k)) kids
  end.

Definition kids_unnamed (kids : list (cstr * tree)) : bool := forallb (fun k => unnamed (snd k)) kids.

Definition no_name (js : cstr) (k : jsmntok_t) : Prop :=
  TOKEN_STRING js k (str "id") = false /\ TOKEN_STRING js k (str "text") = false.

Lemma no_name_at js before w after ty sz :
  js = before ++ w ++ after -> w <> str "id" -> w <> str "text" ->
  no_name js (mkTok ty (Z.of_nat (length before)) (Z.of_nat (length before + length w)) sz).
Proof. intros Hjs H1 H2. split; rewrite (token_string_at _ _ _ _ _ _ _ Hjs); by apply bool_decide_eq_false_2. Qed.

Lemma unnamed_ne s : negb (bool_decide (s = str "id")) && negb (bool_decide (s = str "text")) = true -> s <> str "id" /\ s <> str "text".
Proof. intros [H1 H2]%andb_true_iff. split; intros ->; done. Qed.

Lemma kids_no_name js kids before after :
  Forall (fun k => forall before after, js = before ++ text (snd k) ++ after -> unnamed (snd k) = true ->
            Forall (no_name js) (tokens_of (length before) (snd k))) kids ->
  js = before ++ kids_text kids ++ after -> kids_unnamed kids = true ->
  Forall (no_name js) (kids_tokens (length before) kids).
Proof.
  intros Hk. revert before. induction Hk as [|[s v] kids Hv _ IH]; intros before Hjs Hu; [constructor|].
  cbn [kids_tokens kids_unnamed forallb snd] in *. apply andb_true_iff in Hu as [Hu1 Hu2].
  unfold kids_text in Hjs. cbn [map concat fst snd] in Hjs. fold (kids_text kids) in Hjs. rewrite <- !app_assoc in Hjs.
  apply Forall_app. split.
  - rewrite <- length_app. apply (Hv (before ++ s) (kids_text kids ++ after)); [by rewrite <- app_assoc|done].
  - rewrite <- !length_app. apply IH; [by rewrite <- !app_assoc|done].
Qed.

Lemma tokens_no_name js v : forall before after,
  js = before ++ text v ++ after -> unnamed v = true -> Forall (no_name js) (tokens_of (length before) v).
Proof.
  induction v as [s|s|obj kids tail IH] using tree_ind; intros before after Hjs Hu.
  - apply unnamed_ne in Hu as [H1 H2]. constructor; [|constructor]. by eapply no_name_at.
  - apply unnamed_ne in Hu as [H1 H2]. constructor; [|constructor]. cbn [text] in Hjs.
    replace (S (length before)) with (length (before ++ [34])) by (rewrite length_app; cbn; lia).
    apply (no_name_at js (before ++ [34]) s (34 :: after)); [|done|done]. rewrite Hjs. cbn [app]. by rewrite <- !app_assoc.
  - rewrite tokens_cont. constructor.
    + eapply no_name_at; [exact Hjs|by destruct obj|by destruct obj].
    + replace (S (length before)) with (length (before ++ [bracket obj])) by (rewrite length_app; cbn; lia).
      apply (kids_no_name js kids _ (tail ++ [unbracket obj] ++ after)); [done| |done].
      rewrite Hjs, text_cont. cbn [app]. by rewrite <- !app_assoc.
Qed.

Lemma kids_no_name_all js kids before after :
  js = before ++ kids_text kids ++ after -> kids_unnamed kids = true -> Forall (no_name js) (kids_tokens (length before) kids).
Proof. apply kids_no_name. apply Forall_forall. intros k _. apply tokens_no_name. Qed.

Lemma kids_tokens_app o a b : kids_tokens o (a ++ b) = kids_tokens o a ++ kids_tokens (o + length (kids_text a)) b.
Proof.
  revert o. induction a as [|[s v] a IH]; intros o; cbn [app kids_tokens]; [cbn; by rewrite Nat.add_0_r|].
  rewrite IH, <- app_assoc. unfold kids_text. cbn [map concat fst snd]. rewrite !length_app. do 3 f_equal. lia.
Qed.

Lemma kids_text_app a b : kids_text (a ++ b) = kids_text a ++ kids_text b.
Proof. unfold kids_text. by rewrite map_app, concat_app. Qed.

(** ** The loop over the tokens *)
Section Loop.
Context (js : cstr) (clen : nat).

Lemma tok_at_mid A k B : let t := A ++ k :: B in tok_at t (length t) (length A) = Ok k.
Proof.
  intros t. unfold tok_at. destruct (Nat.ltb_spec (length A) (length t)); [|subst t; rewrite length_app in *; cbn in *; lia].
  subst t. by rewrite list_lookup_middle.
Qed.

Lemma loop_skip seg A B f found id content :
  Forall (no_name js) seg -> (length A + length seg <= 60)%nat -> (found < 2)%nat ->
  let t := A ++ seg ++ B in
  tweet_loop (length seg + f) js t (length t) clen (length A) found id content =
  tweet_loop f js t (length t) clen (length A + length seg) found id content.
Proof.
  revert A. induction seg as [|k seg IH]; intros A Hs Hl Hf t; [cbn; by rewrite Nat.add_0_r|].
  apply Forall_cons in Hs as [[H1 H2] Hs]. cbn [length Nat.add tweet_loop] in *.
  destruct (Nat.leb_spec 60 (length A)); [lia|]. destruct (Nat.leb_spec 2 found); [lia|]. cbn [orb].
  subst t. cbn [app]. rewrite (tok_at_mid A k (seg ++ B)), bind_Ok, H1, H2.
  specialize (IH (A ++ [k]) Hs). rewrite length_app in IH. cbn [length] in IH. rewrite <- app_assoc in IH. cbn [app] in IH.
  replace (S (length A)) with (length A + 1)%nat by lia. rewrite IH by lia. f_equal. lia.
Qed.

(** The key of the identifier, and then of the text. *)
Lemma loop_id A k v B f found id content :
  (length A < 60)%nat -> (found < 2)%nat -> TOKEN_STRING js k (str "id") = true -> type_ v = JSMN_PRIMITIVE ->
  let t := A ++ k :: v :: B in
  tweet_loop (S f) js t (length t) clen (length A) found id content =
  tweet_loop f js t (length t) clen (S (S (length A))) (S found) (atoll (drop (Z.to_nat (start v)) js)) content.
Proof.
  intros Hl Hf Hk Hv t. cbn [tweet_loop]. destruct (Nat.leb_spec 60 (length A)); [lia|].
  destruct (Nat.leb_spec 2 found); [lia|]. cbn [orb]. subst t. rewrite (tok_at_mid A k (v :: B)), bind_Ok, Hk.
  replace (S (length A)) with (length (A ++ [k])) by (rewrite length_app; cbn; lia). rewrite (app_snoc A k).
  rewrite (tok_at_mid (A ++ [k]) v B), bind_Ok. rewrite bool_decide_true by done. done.
Qed.

Lemma loop_text A k v B f found id content :
  (length A < 60)%nat -> (found < 2)%nat -> TOKEN_STRING js k (str "id") = false -> TOKEN_STRING js k (str "text") = true ->
  type_ v = JSMN_STRING ->
  let t := A ++ k :: v :: B in
  tweet_loop (S f) js t (length t) clen (length A) found id content =
  tweet_loop f js t (length t) clen (S (S (length A))) (S found) id
    (take (Nat.min (Z.to_nat (end_ v - start v)) (clen - 1)) (drop (Z.to_nat (start v)) js)).
Proof.
  intros Hl Hf Hi Hk Hv t. cbn [tweet_loop]. destruct (Nat.leb_spec 60 (length A)); [lia|].
  destruct (Nat.leb_spec 2 found); [lia|]. cbn [orb]. subst t. rewrite (tok_at_mid A k (v :: B)), bind_Ok, Hi, Hk.
  replace (S (length A)) with (length (A ++ [k])) by (rewrite length_app; cbn; lia). rewrite (app_snoc A k).
  rewrite (tok_at_mid (A ++ [k]) v B), bind_Ok. rewrite bool_decide_true by done. done.
Qed.

(** The identifier comes before the text, and other tokens before and between. *)
Lemma loop_finds A s1 ki vi s2 kt vt B id content :
  Forall (no_name js) s1 -> Forall (no_name js) s2 -> length A = 1%nat ->
  (length (A ++ s1 ++ [ki; vi] ++ s2) < 60)%nat ->
  TOKEN_STRING js ki (str "id") = true -> type_ vi = JSMN_PRIMITIVE ->
  TOKEN_STRING js kt (str "id") = false -> TOKEN_STRING js kt (str "text") = true -> type_ vt = JSMN_STRING ->
  let t := A ++ s1 ++ ki :: vi :: s2 ++ kt :: vt :: B in
  tweet_loop 60 js t (length t) clen 1 0 id content =
  Ok (2%nat, atoll (drop (Z.to_nat (start vi)) js),
      take (Nat.min (Z.to_nat (end_ vt - start vt)) (clen - 1)) (drop (Z.to_nat (start vt)) js)).
Proof.
  intros H1 H2 HA Hl Hki Hvi Hkt1 Hkt2 Hvt t. rewrite !length_app in Hl. cbn [length] in Hl.
  replace (tweet_loop 60 js t (length t) clen 1) with (tweet_loop (length s1 + S (length s2 + S (60 - (length s1 + length s2 + 2)))) js t (length t) clen (length A))
    by (rewrite HA; f_equal; lia).
  subst t. set (rem := (60 - _)%nat). rewrite loop_skip by (done || lia). rewrite <- (length_app A s1), (app_assoc A s1).
  rewrite loop_id by (done || (rewrite ?length_app; lia)).
  replace (S (S (length (A ++ s1)))) with (length ((A ++ s1) ++ [ki; vi])) by (rewrite !length_app; cbn; lia).
  replace ((A ++ s1) ++ ki :: vi :: s2 ++ kt :: vt :: B) with (((A ++ s1) ++ [ki; vi]) ++ s2 ++ kt :: vt :: B) by (by rewrite <- !app_assoc).
  rewrite loop_skip by (done || (rewrite ?length_app; cbn [length]; lia)). rewrite <- (length_app _ s2), (app_assoc _ s2).
  rewrite loop_text by (done || (rewrite ?length_app; cbn [length]; lia)).
  destruct rem; [done|]. cbn [tweet_loop]. by rewrite orb_true_r.
Qed.

End Loop.

(** ** The reply of the web service *)

(** A list of one tweet: an object with an identifier and a text, in this order,
    among other members, in any layout. *)
Record reply := mkReply {
  before : cstr; after : cstr; gap0 : cstr; gap_end : cstr; gap_last : cstr;
  kids_a : list (cstr * tree);
  gap_id : cstr; gap_idv : cstr; id_text : cstr;
  kids_b : list (cstr * tree);
  gap_text : cstr; gap_textv : cstr; body : cstr;
  kids_c : list (cstr * tree);
}.

Definition after_id (r : reply) : list (cstr * tree) :=
  kids_b r ++ (gap_text r, Str (str "text")) :: (gap_textv r, Str (body r)) :: kids_c r.
Definition members (r : reply) : list (cstr * tree) :=
  kids_a r ++ (gap_id r, Str (str "id")) :: (gap_idv r, Prim (id_text r)) :: after_id r.
Definition reply_tree (r : reply) : tree := Cont false [(gap0 r, Cont true (members r) (gap_end r))] (gap_last r).
Definition reply_text (r : reply) : cstr := before r ++ text (reply_tree r) ++ after r.

(** The other members do not mention [id] or [text] up to the text, which is
    among the tokens the code looks at. *)
Definition reply_ok (r : reply) : bool :=
  tree_ok (reply_tree r) && gaps (before r) && gaps (after r) && kids_unnamed (kids_a r) && kids_unnamed (kids_b r) &&
  (kids_ntoks (kids_a r) + kids_ntoks (kids_b r) <? 56)%nat && (ntoks (reply_tree r) <=? 100)%nat.

Lemma gaps_no_nul s : gaps s = true -> no_nul s.
Proof. intros H. apply Forall_forall. intros c Hc ->. apply list_elem_of_In in Hc. unfold gaps in H. rewrite forallb_forall in H. by apply H in Hc. Qed.

Lemma body_no_nul n s : (length s <= n)%nat -> body_ok s = true -> no_nul s.
Proof.
  revert s. induction n as [|n IH]; intros [|c s] Hl H; try (constructor; fail); [cbn in Hl; lia|]. cbn [body_ok] in H.
  destruct (Z.eqb_spec c 92) as [->|].
  - destruct s as [|d s]; [done|]. apply andb_true_iff in H as [Hd H]. constructor; [done|]. constructor; [by intros ->|].
    apply IH; [cbn in Hl; lia|done].
  - apply andb_true_iff in H as [Hc H]. constructor; [by intros ->|]. apply IH; [cbn in Hl; lia|done].
Qed.

Lemma tree_no_nul v : tree_ok v = true -> no_nul (text v).
Proof.
  induction v as [s|s|obj kids tail IH] using tree_ind; intros H.
  - cbn [tree_ok prim_ok] in H. unfold prim_ok in H. apply andb_true_iff in H as [H _]. rewrite forallb_forall in H.
    apply Forall_forall. intros c Hc ->. apply list_elem_of_In, H in Hc. done.
  - cbn [text]. constructor; [done|]. apply Forall_app. split; [by eapply body_no_nul|by repeat constructor].
  - cbn [tree_ok] in H. apply andb_true_iff in H as [H Ht]. apply andb_true_iff in H as [H _]. rewrite text_cont.
    constructor; [by destruct obj|]. apply Forall_app. split.
    + unfold kids_text. induction IH as [|[s v] l Hv _ IHl]; [constructor|]. cbn [map concat fst snd forallb] in *.
      apply andb_true_iff in H as [Hs H]. apply andb_true_iff in Hs as [Hs Hvo].
      apply Forall_app. split; [apply Forall_app; split; [by apply gaps_no_nul|by apply Hv]|by apply IHl].
    + apply Forall_app. split; [by apply gaps_no_nul|]. constructor; [by destruct obj|constructor].
Qed.

Lemma take_while_stop p s rest :
  match rest with [] => True | c :: _ => p c = false end -> take_while p (s ++ rest) = take_while p s.
Proof.
  intros Hr. induction s as [|c s IH]; cbn [app take_while].
  - destruct rest as [|c rest]; [done|]. cbn. by rewrite Hr.
  - by rewrite IH.
Qed.

Lemma stop_not_digit rest : stops rest = true -> match rest with [] => True | c :: _ => isdigit c = false end.
Proof.
  destruct rest as [|c rest]; [done|]. cbn. unfold prim_end, separator, isdigit. intros H. zcase; cbn in *; done || lia.
Qed.

(** The identifier ends where its token ends. *)
Lemma atoll_app s rest : prim_ok s = true -> stops rest = true -> atoll (s ++ rest) = atoll s.
Proof.
  intros Hs Hr. apply stop_not_digit in Hr. unfold prim_ok in Hs. apply andb_true_iff in Hs as [Hs Hne]. unfold atoll.
  destruct s as [|c s]; [done|]. cbn [forallb] in Hs. apply andb_true_iff in Hs as [Hc Hs].
  assert (Hsp : isspace c = false).
  { unfold prim_char in Hc. unfold isspace. apply andb_true_iff in Hc as [Hc _]. apply andb_true_iff in Hc as [_ Hc]. zcase; done || lia. }
  cbn [app skip_while]. rewrite Hsp.
  pose proof (take_while_stop isdigit (c :: s) rest Hr) as E1. pose proof (take_while_stop isdigit s rest Hr) as E2.
  cbn [app] in E1. rewrite E1, E2. done.
Qed.

Lemma apart_suffix a x l : apart (tl (a ++ x :: l)) = true -> apart l = true.
Proof.
  destruct a as [|y a]; [done|]. cbn [app tl]. unfold apart. rewrite forallb_app. cbn [forallb].
  intros [_ H]%andb_true_iff. by apply andb_true_iff in H as [_ H].
Qed.

Lemma kids_stop l rest : kids_ok l = true -> apart l = true -> l <> [] -> stops (kids_text l ++ rest) = true.
Proof.
  destruct l as [|[s v] l]; [done|]. intros Hk Ha _. unfold kids_ok, apart in *. cbn [forallb fst snd] in *.
  apply andb_true_iff in Hk as [Hk _], Ha as [Ha _]. apply andb_true_iff in Hk as [Hk _].
  unfold kids_text. cbn [map concat fst snd]. rewrite <- !app_assoc. apply gaps_stop; [done|].
  by apply negb_true_iff, bool_decide_eq_false_1 in Ha.
Qed.

(** The pieces of [reply_ok]. *)
Lemma reply_ok_inv r : reply_ok r = true ->
  tree_ok (reply_tree r) = true /\ gaps (before r) = true /\ gaps (after r) = true /\
  kids_unnamed (kids_a r) = true /\ kids_unnamed (kids_b r) = true /\
  (kids_ntoks (kids_a r) + kids_ntoks (kids_b r) < 56)%nat /\ (ntoks (reply_tree r) <= 100)%nat.
Proof.
  unfold reply_ok. rewrite !andb_true_iff. intros ((((((H1 & H2) & H3) & H4) & H5) & H6) & H7).
  apply Nat.ltb_lt in H6. apply Nat.leb_le in H7. done.
Qed.

Lemma members_ok r : tree_ok (reply_tree r) = true ->
  kids_ok (members r) = true /\ apart (tl (members r)) = true /\ gaps (gap_end r) = true.
Proof.
  unfold reply_tree. cbn [tree_ok forallb fst snd tl]. fold (kids_ok (members r)). fold (apart (tl (members r))).
  rewrite !andb_true_iff. tauto.
Qed.

Lemma id_ok r : tree_ok (reply_tree r) = true ->
  prim_ok (id_text r) = true /\ forall rest, stops (kids_text (after_id r) ++ rest) = true.
Proof.
  intros H. destruct (members_ok r H) as (Hk & Ha & _). unfold members in Hk, Ha.
  unfold kids_ok in Hk. rewrite forallb_app in Hk. cbn [forallb fst snd] in Hk. rewrite !andb_true_iff in Hk.
  destruct Hk as (_ & _ & (_ & Hid) & Hr). split; [exact Hid|]. intros rest. apply kids_stop; [done| |].
  - rewrite (app_snoc (kids_a r)) in Ha. by apply apart_suffix in Ha.
  - unfold after_id. by destruct (kids_b r).
Qed.

Lemma kids_tokens_length o l : length (kids_tokens o l) = kids_ntoks l.
Proof.
  revert o. induction l as [|[s v] l IH]; intros o; [done|]. cbn [kids_tokens]. rewrite length_app, tokens_length, IH. done.
Qed.

Lemma kids_text_cons s v l : kids_text ((s, v) :: l) = s ++ text v ++ kids_text l.
Proof. unfold kids_text. cbn [map concat fst snd]. by rewrite <- app_assoc. Qed.

(** The tokens of a member in the middle of the others. *)
Lemma kids_split P a s v l :
  kids_tokens (length P) (a ++ (s, v) :: l) =
  kids_tokens (length P) a ++ tokens_of (length (P ++ kids_text a ++ s)) v ++
  kids_tokens (length (P ++ kids_text a ++ s ++ text v)) l.
Proof.
  rewrite kids_tokens_app. cbn [kids_tokens]. rewrite !length_app. do 2 f_equal; [f_equal; lia|]. f_equal. lia.
Qed.

Lemma str_token js P w rest :
  js = P ++ text (Str w) ++ rest ->
  exists k, tokens_of (length P) (Str w) = [k] /\ type_ k = JSMN_STRING /\
    (forall x, TOKEN_STRING js k x = bool_decide (w = x)) /\
    (forall m, take (Nat.min (Z.to_nat (end_ k - start k)) m) (drop (Z.to_nat (start k)) js) = take m w).
Proof.
  intros Hjs. cbn [text] in Hjs.
  assert (Hj : js = (P ++ [34]) ++ w ++ 34 :: rest) by (rewrite Hjs; cbn [app]; by rewrite <- !app_assoc).
  eexists. split; [reflexivity|]. split; [done|].
  replace (S (length P)) with (length (P ++ [34])) by (rewrite length_app; cbn; lia). split.
  - intros x. by eapply token_string_at.
  - intros m. cbn [start end_]. rewrite Nat2Z.id.
    replace (Z.to_nat (Z.of_nat (length (P ++ [34]) + length w) - Z.of_nat (length (P ++ [34])))) with (length w) by lia.
    rewrite Hj, drop_app_length, Nat.min_comm, <- take_take, take_app_length. done.
Qed.

Lemma prim_token js P w rest :
  js = P ++ w ++ rest ->
  exists k, tokens_of (length P) (Prim w) = [k] /\ type_ k = JSMN_PRIMITIVE /\ drop (Z.to_nat (start k)) js = w ++ rest.
Proof.
  intros Hjs. eexists. split; [reflexivity|]. split; [done|]. cbn [start]. by rewrite Nat2Z.id, Hjs, drop_app_length.
Qed.

(** The members of the tweet after [P], and what the loop makes of them. *)
Lemma members_found r js P after head rest id content clen :
  js = P ++ kids_text (members r) ++ after -> reply_ok r = true -> length head = 2%nat -> Forall (no_name js) (tl head) ->
  let t := head ++ kids_tokens (length P) (members r) ++ rest in
  tweet_loop 60 js t (length t) clen 1 0 id content = Ok (2%nat, atoll (id_text r), take (clen - 1) (body r)).
Proof.
  intros Hjs Hok Hh Hhn t. destruct (reply_ok_inv r Hok) as (Ht & _ & _ & Ha & Hb & Hn & _).
  destruct (id_ok r Ht) as [Hid Hstop].
  unfold members, after_id in Hjs. rewrite kids_text_app, !kids_text_cons, kids_text_app, !kids_text_cons in Hjs.
  subst t. unfold members, after_id. rewrite kids_split. change ((gap_idv r, Prim (id_text r)) :: ?l) with ([] ++ (gap_idv r, Prim (id_text r)) :: l).
  rewrite kids_split, kids_split. change ((gap_textv r, Str (body r)) :: ?l) with ([] ++ (gap_textv r, Str (body r)) :: l). rewrite kids_split.
  cbn [kids_tokens app]. change (kids_text []) with (@nil Z). cbn [app].
  set (Q1 := P ++ kids_text (kids_a r) ++ gap_id r ++ text (Str (str "id"))) in *.
  set (Q2 := Q1 ++ gap_idv r ++ text (Prim (id_text r))) in *.
  set (Q3 := Q2 ++ kids_text (kids_b r) ++ gap_text r ++ text (Str (str "text"))) in *.
  destruct (str_token js (P ++ kids_text (kids_a r) ++ gap_id r) (str "id")
    ((gap_idv r ++ id_text r) ++ kids_text (after_id r) ++ after)) as (ki & -> & _ & Hki & _).
  { rewrite Hjs. unfold after_id. rewrite kids_text_app, !kids_text_cons. cbn [text]. by rewrite <- !app_assoc. }
  destruct (prim_token js (Q1 ++ gap_idv r) (id_text r) (kids_text (after_id r) ++ after)) as (vi & -> & Hvi & Hdrop).
  { rewrite Hjs. unfold after_id. subst Q1. rewrite kids_text_app, !kids_text_cons. cbn [text]. by rewrite <- !app_assoc. }
  destruct (str_token js (Q2 ++ kids_text (kids_b r) ++ gap_text r) (str "text")
    (gap_textv r ++ text (Str (body r)) ++ kids_text (kids_c r) ++ after)) as (kt & -> & _ & Hkt & _).
  { rewrite Hjs. subst Q2 Q1. cbn [text]. by rewrite <- !app_assoc. }
  destruct (str_token js (Q3 ++ gap_textv r) (body r) (kids_text (kids_c r) ++ after)) as (vt & -> & Hvt & _ & Htake).
  { rewrite Hjs. subst Q3 Q2 Q1. cbn [text]. by rewrite <- !app_assoc. }
  destruct head as [|h0 [|h1 [|]]]; try done. apply Forall_cons in Hhn as [Hh1 _].
  assert (H1 : Forall (no_name js) (h1 :: kids_tokens (length P) (kids_a r))).
  { constructor; [done|].
    apply (kids_no_name_all js _ P (gap_id r ++ text (Str (str "id")) ++ gap_idv r ++ id_text r ++ kids_text (after_id r) ++ after)); [|done].
    rewrite Hjs. unfold after_id. rewrite kids_text_app, !kids_text_cons. cbn [text]. by rewrite <- !app_assoc. }
  assert (H2 : Forall (no_name js) (kids_tokens (length Q2) (kids_b r))).
  { apply (kids_no_name_all js _ Q2 (gap_text r ++ text (Str (str "text")) ++ gap_textv r ++ text (Str (body r)) ++ kids_text (kids_c r) ++ after)); [|done].
    rewrite Hjs. subst Q2 Q1. cbn [text]. by rewrite <- !app_assoc. }
  pose proof (loop_finds js clen [h0] (h1 :: kids_tokens (length P) (kids_a r)) ki vi (kids_tokens (length Q2) (kids_b r)) kt vt
    (kids_tokens (length (Q3 ++ gap_textv r ++ text (Str (body r)))) (kids_c r) ++ rest) id content) as Hl.
  rewrite Hdrop, Htake, atoll_app in Hl by done. cbn [app] in Hl |- *. rewrite <- !app_assoc. cbn [app]. rewrite <- !app_assoc. cbn [app].
  apply Hl; try done.
  all: rewrite ?Hki, ?Hkt; try done. cbn [app length]. rewrite length_app. cbn [length]. rewrite !kids_tokens_length. lia.
Qed.

(** Only the tokens that were written are looked at. *)
Lemma tweet_loop_app f js a b clen i found id content :
  tweet_loop f js (a ++ b) (length a) clen i found id content = tweet_loop f js a (length a) clen i found id content.
Proof.
  assert (Ht : forall i, tok_at (a ++ b) (length a) i = tok_at a (length a) i).
  { intros j. unfold tok_at. destruct (Nat.ltb_spec j (length a)); [|done]. by rewrite lookup_app_l. }
  revert i found id content. induction f as [|f IH]; intros i found id content; [done|]. cbn [tweet_loop]. rewrite !Ht.
  destruct (_ || _); [done|]. destruct (tok_at a (length a) i) as [k| |]; [|done..]. rewrite !bind_Ok.
  destruct (tok_at a (length a) (S i)) as [v| |]; rewrite ?bind_Ok, ?IH; done.
Qed.

(** What the loop of [getLatestTweet] finds in a reply. *)
Lemma reply_found r rest id content clen :
  reply_ok r = true ->
  tweet_loop 60 (reply_text r) (tokens_of (length (before r)) (reply_tree r) ++ rest) (ntoks (reply_tree r)) clen 1 0 id content =
  Ok (2%nat, atoll (id_text r), take (clen - 1) (body r)).
Proof.
  intros Hok. rewrite <- (tokens_length (reply_tree r) (length (before r))), tweet_loop_app.
  unfold reply_tree at 1 2. rewrite tokens_cont. cbn [kids_tokens]. rewrite app_nil_r, tokens_cont.
  set (P := before r ++ 91 :: gap0 r ++ [123]).
  replace (S (S (length (before r)) + length (gap0 r))) with (length P)
    by (subst P; rewrite !length_app; cbn [length]; rewrite length_app; cbn; lia).
  set (h0 := mkTok _ _ _ (Z.of_nat (length [_]))). set (h1 := mkTok _ _ _ _).
  assert (Hjs : reply_text r = P ++ kids_text (members r) ++ gap_end r ++ 125 :: gap_last r ++ 93 :: after r).
  { subst P. unfold reply_text, reply_tree. rewrite text_cont, kids_text_cons, text_cont. change (kids_text []) with (@nil Z).
    cbn [bracket unbracket]. rewrite app_nil_r. cbn [app]. repeat (rewrite <- app_assoc; cbn [app]). done. }
  pose proof (members_found r (reply_text r) P _ [h0; h1] [] id content clen Hjs Hok eq_refl) as Hm.
  cbn [app] in Hm. rewrite app_nil_r in Hm. apply Hm. constructor; [|constructor].
  subst h1. replace (S (length (before r)) + length (gap0 r))%nat with (length (before r ++ 91 :: gap0 r))
    by (rewrite length_app; cbn; lia).
  apply (no_name_at _ _ _ (gap_last r ++ 93 :: after r)); [|done|done].
  rewrite Hjs. subst P. rewrite text_cont. cbn [bracket unbracket]. repeat (rewrite <- app_assoc; cbn [app]). done.
Qed.

(** The text of the latest tweet of a reply that comes in any chunks. *)
Lemma getLatestTweet_reply junk t0 r chunks content clen id c s :
  holds c s -> reply_ok r = true -> concat chunks = reply_text r -> length t0 = TOKEN_COUNT ->
  exists c', getLatestTweet junk true t0 (Some (true, chunks)) content clen id c =
    Ok (0, take (clen - 1) (body r), atoll (id_text r), c') /\ holds c' (reply_text r).
Proof.
  intros Hc Hok Hch Ht0. destruct (reply_ok_inv r Hok) as (Ht & Hb & Ha & _ & _ & _ & Hn).
  assert (Hnn : no_nul (reply_text r)).
  { unfold reply_text. apply Forall_app. split; [by apply gaps_no_nul|]. apply Forall_app. split; [by apply tree_no_nul|by apply gaps_no_nul]. }
  assert (Hcs : Forall no_nul chunks).
  { rewrite <- Hch in Hnn. clear - Hnn. induction chunks as [|p l IH]; [constructor|]. cbn [concat] in Hnn.
    apply Forall_app in Hnn as [H1 H2]. constructor; [done|by apply IH]. }
  unfold getLatestTweet. destruct (performGet_holds junk chunks c s true Hc Hcs) as (c' & -> & Hc'). rewrite bind_Ok.
  cbn [Z.eqb negb]. rewrite Hch in Hc'. pose proof Hc' as (_ & q & Hq & _).
  rewrite Hq. rewrite cstr_head by done. cbn [of_opt]. rewrite bind_Ok.
  assert (Hl2 : (length (reply_text r) =? 2)%nat = false).
  { apply Nat.eqb_neq. unfold reply_text, reply_tree. rewrite text_cont, kids_text_cons, text_cont. unfold members.
    rewrite kids_text_app, kids_text_cons. cbn [text]. rewrite !length_app. cbn [length]. rewrite !length_app. cbn [length]. rewrite !length_app.
    cbn [length]. rewrite !length_app. cbn [length]. lia. }
  rewrite Hl2. pose proof (jsmn_parse_print (reply_tree r) (before r) (after r) t0 Ht Hb Ha) as Hj.
  rewrite <- Ht0. fold (reply_text r) in Hj. rewrite Hj by (rewrite Ht0; exact Hn). rewrite bind_Ok, bool_decide_true by done.
  cbn [toknext]. rewrite reply_found by done. rewrite bind_Ok. cbn [Nat.ltb Nat.leb]. eauto.
Qed.

(** * Theorems *)

(** A poll.  Whatever the chunks in which the reply arrives, whatever its layout
    and its other members, the latest tweet is the text of the reply, cut to the
    buffer, and its identifier is remembered.  A tweet that starts with the
    command prefix, in any case, is put on the bus without the prefix and its
    deletion is requested; another one is left alone. *)
Theorem checkForTweets_spec (cfg : config) (junk : Z) (userid : cstr) (t0 : toks) (r : reply) (chunks : list cstr)
    (deleted : answer) (w : twitter) (s : cstr) :
  holds (twit w) s -> reply_ok r = true -> concat chunks = reply_text r -> length t0 = TOKEN_COUNT ->
  (forall ok l, deleted = Some (ok, l) -> Forall no_nul l) ->
  (length (uid (self cfg)) <= 8)%nat -> (length (source (self cfg)) <= 127)%nat ->
  exists w', checkForTweets junk true userid cfg t0 (Some (true, chunks)) deleted w = Ok w' /\
    tweet w' = take 140 (body r) /\ last_tweet w' = atoll (id_text r) /\ (exists s', holds (twit w') s') /\
    let n := length (prefix cfg) in
    if strncasecmp0 n (take 140 (body r)) (prefix cfg) then
      requests w' = requests w ++ [GET (timeline_url userid (last_tweet w)); DELETE (destroy_url (atoll (id_text r)))] /\
      bus w' = bus w ++ [alias_msg (self cfg) (drop n (take 140 (body r)))]
    else requests w' = requests w ++ [GET (timeline_url userid (last_tweet w))] /\ bus w' = bus w.
Proof.
  intros Hc Hok Hch Ht0 Hdel Hu Hsrc. unfold checkForTweets, get_latest.
  destruct (getLatestTweet_reply junk t0 r chunks (tweet w) 141 (last_tweet w) (twit w) s Hc Hok Hch Ht0) as (c' & -> & Hc').
  rewrite !bind_Ok. cbn [Z.eqb tweet last_tweet twit requests bus Nat.sub]. cbv zeta.
  assert (H0 : (length (prefix cfg) =? 0)%nat || strncasecmp0 (length (prefix cfg)) (take 140 (body r)) (prefix cfg) =
               strncasecmp0 (length (prefix cfg)) (take 140 (body r)) (prefix cfg)).
  { destruct (prefix cfg); [by rewrite orb_true_r|done]. }
  rewrite H0. destruct (strncasecmp0 _ _ _); cbn [negb]; [|eexists; split; [done|]; do 2 (split; [done|]); split; [eauto|done]].
  assert (Hlen : (length (alias_msg (self cfg) (drop (length (prefix cfg)) (take 140 (body r)))) <= 1499)%nat).
  { unfold alias_msg. rewrite !length_app, length_drop. pose proof (length_take (body r) 140). change (length (line "xap-header")) with 11%nat.
    change (length (line "{")) with 2%nat. change (length (line "v=12")) with 5%nat. change (length (line "hop=1")) with 6%nat.
    change (length (line "class=alias")) with 12%nat. change (length (line "}")) with 2%nat. change (length (line "command")) with 8%nat.
    change (length (str "uid=")) with 4%nat. change (length (str "source=")) with 7%nat. change (length (str "text=")) with 5%nat.
    cbn [length]. lia. }
  destruct (Nat.ltb_spec 1500 (length (alias_msg (self cfg) (drop (length (prefix cfg)) (take 140 (body r)))))); [lia|].
  destruct (performDelete_holds junk deleted c' _ Hc' Hdel) as (x & c2 & -> & Hc2). rewrite bind_Ok.
  eexists. split; [done|]. cbn [tweet last_tweet twit requests bus]. do 2 (split; [done|]). split; [done|].
  rewrite <- app_assoc. split; [done|]. do 2 f_equal. unfold snprintf. apply take_ge. lia.
Qed.

(** A reply of one tweet in the usual layout, in two chunks. *)
Definition demo_reply : reply :=
  mkReply [] [10] [] [] [] [([], Str (str "created_at")); ([58], Str (str "today"))] [44] [58; 32] (str "4711")
    [([44], Str (str "user")); ([58], Cont true [([], Str (str "name")); ([58], Str (str "brett"))] [])]
    [44] [58] (str "HAH lights on") [([44], Str (str "id")); ([58], Prim (str "0"))].
Definition demo_cfg : config := mkConfig (mkIdent (str "dbzoo.livebox.Twitter") (str "FF00D900") 3639 (str "10.0.0.1")) (str "hah ") 30.
Definition demo_twitter : twitter := mkTwitter (mkTcurl (replicate 256 0) 256) [] 4000 [] [].
Definition demo_toks : toks := replicate 100 (mkTok JSMN_STRING 9 9 9).

Lemma checkForTweets_spec_witness :
  exists w', checkForTweets 7 true (str "12") demo_cfg demo_toks (Some (true, [take 30 (reply_text demo_reply); drop 30 (reply_text demo_reply)]))
      (Some (true, [])) demo_twitter = Ok w' /\ last_tweet w' = 4711 /\
    bus w' = [alias_msg (self demo_cfg) (str "lights on")] /\
    requests w' = [GET (timeline_url (str "12") 4000); DELETE (str "https://api.twitter.com/1.1/statuses/destroy/4711.json")].
Proof.
  destruct (checkForTweets_spec demo_cfg 7 (str "12") demo_toks demo_reply [take 30 (reply_text demo_reply); drop 30 (reply_text demo_reply)]
    (Some (true, [])) demo_twitter []) as (w' & H & _ & Hid & _ & Hif).
  - split; [done|]. exists (replicate 255 0). split; [vm_compute; reflexivity|constructor].
  - vm_compute. reflexivity.
  - vm_compute. reflexivity.
  - vm_compute. reflexivity.
  - intros ok l [= <- <-]. constructor.
  - vm_compute. lia.
  - vm_compute. lia.
  - change (strncasecmp0 (length (prefix demo_cfg)) (take 140 (body demo_reply)) (prefix demo_cfg)) with true in Hif.
    destruct Hif as [Hr Hb]. exists w'. split; [exact H|]. split; [rewrite Hid; vm_compute; reflexivity|].
    split; [rewrite Hb; vm_compute; reflexivity|]. rewrite Hr. vm_compute. reflexivity.
Defined.

(** A reply that is JSON but mentions neither [id] nor [text] makes the loop read
    tokens that were never written, unless it has more than sixty. *)
Theorem getLatestTweet_unnamed (junk : Z) (t0 : toks) (v : tree) (content : cstr) (clen : nat) (id : Z) (c : tcurl) (s : cstr) :
  holds c s -> tree_ok v = true -> unnamed v = true -> (ntoks v < 60)%nat -> length (text v) <> 2%nat -> length t0 = TOKEN_COUNT ->
  getLatestTweet junk true t0 (Some (true, [text v])) content clen id c = Undef Uninitialised.
Proof.
  intros Hc Hok Hu Hn Hl Ht0. unfold getLatestTweet.
  destruct (performGet_holds junk [text v] c s true Hc) as (c' & -> & _ & q & Hq & Hnn).
  { constructor; [by apply tree_no_nul|constructor]. }
  cbn [concat] in Hq, Hnn. rewrite app_nil_r in Hq, Hnn. rewrite bind_Ok. cbn [Z.eqb negb].
  rewrite Hq, cstr_head by done. cbn [of_opt]. rewrite bind_Ok. destruct (Nat.eqb_spec (length (text v)) 2); [done|].
  pose proof (jsmn_parse_print v [] [] t0 Hok eq_refl eq_refl) as Hj. cbn [app] in Hj. rewrite app_nil_r in Hj.
  rewrite <- Ht0, Hj by (rewrite Ht0; unfold TOKEN_COUNT; lia). rewrite bind_Ok, bool_decide_true by done. cbn [toknext].
  pose proof (tokens_length v 0) as Hlen. rewrite <- Hlen, tweet_loop_app. cbn [length].
  assert (Hno : Forall (no_name (text v)) (tokens_of 0 v)).
  { apply (tokens_no_name (text v) v [] []); [by rewrite app_nil_r|done]. }
  destruct (tokens_of 0 v) as [|k seg] eqn:Hk; [by destruct v|]. apply Forall_cons in Hno as [_ Hno]. cbn [length] in Hlen.
  pose proof (loop_skip (text v) clen seg [k] [] (60 - length seg) 0 id content Hno) as Hs. cbn [app length] in Hs. rewrite app_nil_r in Hs.
  replace (length seg + (60 - length seg))%nat with 60%nat in Hs by lia. cbn [length]. rewrite Hs by lia.
  destruct (60 - length seg)%nat eqn:Hf; [lia|]. cbn [tweet_loop]. destruct (Nat.leb_spec 60 (1 + length seg)); [lia|]. cbn [orb Nat.leb].
  unfold tok_at. cbn [length]. destruct (Nat.ltb_spec (1 + length seg) (S (length seg))); [lia|]. done.
Qed.

Lemma getLatestTweet_unnamed_witness :
  getLatestTweet 7 true demo_toks (Some (true, [text (jobject [(str "errors", Prim (str "1"))])])) [] 141 0 (mkTcurl (replicate 256 0) 256)
    = Undef Uninitialised.
Proof.
  apply (getLatestTweet_unnamed 7 demo_toks (jobject [(str "errors", Prim (str "1"))]) [] 141 0 (mkTcurl (replicate 256 0) 256) []).
  - split; [done|]. exists (replicate 255 0). split; [vm_compute; reflexivity|constructor].
  - vm_compute. reflexivity.
  - vm_compute. reflexivity.
  - vm_compute. lia.
  - vm_compute. discriminate.
  - vm_compute. reflexivity.
Defined.

(** The prefix of the configuration is stored with a blank behind it as long as
    it has at most 18 bytes; with the 19 bytes that fit the array, the terminator
    is written behind its end. *)
Theorem setup_prefix_spec (inifile : option (list Z)) (junk : list Z) :
  length junk = 20%nat ->
  let p := snd (ini_gets (Some (str "twitter")) (Some (str "prefix")) [] [] 20 inifile) in
  no_nul p ->
  ((0 < length p <= 18)%nat -> exists b, setup_prefix inifile junk = Ok (b, S (length p)) /\ cstr_at b 0 = Some (p ++ [32])) /\
  (length p = 19%nat -> setup_prefix inifile junk = Undef OutOfBounds).
Proof.
  intros Hj. unfold setup_prefix. destruct (ini_gets _ _ _ _ _ _) as [n p]. cbn [snd]. intros Hnn.
  assert (Hw : (length p <= 19)%nat -> write_at junk 0 (p ++ [0]) = Ok (p ++ 0 :: drop (S (length p)) junk)).
  { intros Hp. rewrite write_at_Ok by (rewrite length_app; cbn; lia). rewrite take_0, length_app, Nat.add_1_r. cbn [app Nat.add].
    by rewrite <- app_assoc. }
  assert (H32 : forall rest, write_at (p ++ 0 :: rest) (length p) [32] = Ok (p ++ 32 :: rest)).
  { intros rest. rewrite write_at_Ok by (rewrite length_app; cbn; lia). rewrite take_app_length. cbn [length app].
    rewrite drop_app_ge by lia. replace (length p + 1 - length p)%nat with 1%nat by lia. done. }
  split; intros Hp.
  - rewrite Hw, bind_Ok by lia. destruct (decide (p = [])) as [->|Hne]; [cbn in Hp; lia|].
    replace (match p with [] => _ | _ :: _ => _ end) with
      (b ← write_at (p ++ 0 :: drop (S (length p)) junk) (length p) [32]; b ← write_at b (S (length p)) [0]; Ok (b, S (length p)))
      by (by destruct p).
    rewrite H32, bind_Ok. destruct (drop (S (length p)) junk) as [|x rest] eqn:Hd.
    { apply (f_equal length) in Hd. rewrite length_drop in Hd. cbn in Hd. lia. }
    rewrite write_at_Ok by (rewrite length_app; cbn; lia). rewrite bind_Ok. eexists. split; [done|].
    rewrite take_app_ge by lia. replace (S (length p) - length p)%nat with 1%nat by lia. cbn [take]. rewrite <- app_assoc.
    cbn [app]. change (32 :: 0 :: ?l) with ([32] ++ 0 :: l). rewrite app_assoc. apply (cstr_at_app []).
    apply Forall_app. split; [done|by repeat constructor].
  - rewrite Hw, bind_Ok by lia. destruct p as [|c p]; [done|]. rewrite H32, bind_Ok.
    rewrite (drop_ge junk) by lia. unfold write_at.
    rewrite length_app. cbn [length] in *. destruct (Nat.leb_spec (S (S (length p)) + 1) (S (length p) + 1)); [lia|done].
Qed.

Lemma setup_prefix_spec_witness :
  setup_prefix (Some (line "[twitter]" ++ line "prefix=nineteen-characters")) (replicate 20 7) = Undef OutOfBounds.
Proof.
  destruct (setup_prefix_spec (Some (line "[twitter]" ++ line "prefix=nineteen-characters")) (replicate 20 7)) as [_ H].
  - vm_compute. reflexivity.
  - apply (bool_decide_eq_true_1 (Forall _ _)). vm_compute. reflexivity.
  - apply H. vm_compute. reflexivity.
Defined.

(** When the buffer cannot grow the chunk is lost, but the recorded size has
    grown: the next request clears memory behind the buffer. *)
Theorem write_cb_out_of_memory (junk : Z) (p : list Z) (c : tcurl) (s : cstr) :
  holds c s -> (length (callbackData c) < length s + length p + 1)%nat ->
  exists c', write_cb junk false p c = Ok c' /\ callbackData c' = callbackData c /\ clearCallbackBuffers c' = Undef OutOfBounds.
Proof.
  intros (Hl & r & Hb & Hs) Hp. unfold write_cb. rewrite Hb, cstr_head by done. cbn [of_opt]. rewrite bind_Ok. cbv zeta.
  rewrite <- Hb, Hl. destruct (Nat.ltb_spec (length (callbackData c) - length s - 1) (length p)) as [_|H].
  - eexists. split; [done|]. split; [done|]. unfold clearCallbackBuffers, write_at. cbn [callbackData cb_length].
    rewrite length_replicate. destruct (Nat.leb_spec (0 + (length s + length p + 1)) (length (callbackData c))); [lia|done].
  - exfalso. rewrite Hb, length_app in H, Hp. cbn in H, Hp. lia.
Qed.

Lemma write_cb_out_of_memory_witness :
  exists c', write_cb 7 false (str "hello") (mkTcurl [97; 0; 0] 3) = Ok c' /\ clearCallbackBuffers c' = Undef OutOfBounds.
Proof.
  destruct (write_cb_out_of_memory 7 (str "hello") (mkTcurl [97; 0; 0] 3) [97]) as (c' & H & _ & H2).
  - split; [done|]. exists [0]. split; [done|by repeat constructor].
  - vm_compute. lia.
  - by exists c'.
Defined.
