(* ===== verification/Tools.v ===== *)
(** * Echo and snoop (xap-echo/echo.c, xap-snoop/snoop.c)

    Programs with a single filter action: a packet is received, parsed and, when
    the filters match, handed to the one callback.  [on_packet] is that program
    over the state of the callback; the echo, the packet dump, and the adaptors
    for mail and calendars are instances of it.  The theorems: what the echo
    sends for a message, that it answers its own packets with ever longer ones,
    and that snoop prints the packets its command line asks for, unchanged. *)

From S2P Require Import Prelude UtList Strings Frame Wire Filter Timeout Xap Hub Bsc.

(** ** A program with one filter action *)

Record daemon (S : Type) := mkDaemon { d_frame : xAPFrame; d_state : S }.
Arguments mkDaemon {S}.
Arguments d_frame {S}.
Arguments d_state {S}.

Section Daemon.
Context {S : Type} (filters : list xAPFilter) (handler : xAPFrame -> S -> out S).

Definition d_callbacks (_ : daemon S) : list (xAPFilterCallback unit unit) :=
  xapAddFilterAction 1 tt filters tt [].

Definition d_run (_ _ : unit) (d : daemon S) : out (daemon S) :=
  s ← handler (d_frame d) (d_state d); Ok (mkDaemon (d_frame d) s).

Definition on_packet (dgram : option (list Z)) (d : daemon S) : out (daemon S) :=
  handleXapPacket d_callbacks d_frame (fun f d => mkDaemon f (d_state d)) d_run dgram d.

End Daemon.

(** ** echo.c *)

Definition hdr_value (f : xAPFrame) (k : string) : out (option cstr) :=
  xapGetValueF f (str "xap-header") (Some (str k)).

(** The packet sent, if any.  A message without a source is compared through a
    NULL pointer; a missing field prints as the C library prints NULL. *)
Definition echo_reply (x : xAPIdent) (f : xAPFrame) : out (option cstr) :=
  t ← xapGetTypeF f;
  if negb (t =? XAP_MSG_ORDINARY) then Ok None else
  src ← hdr_value f "source";
  src ← of_opt NullDeref src;
  if strcmp0 src (str "dbzoo.livebox.test.Echo") then Ok None else
  old_uid ← hdr_value f "uid";
  class ← hdr_value f "class";
  let newMsg := line "xap-header" ++ line "{" ++ line "v=12" ++ line "hop=1" ++
    str "uid=" ++ uid x ++ [10] ++ line "class=echo" ++ str "source=" ++ source x ++ [10] ++ line "}" ++
    line "old-header" ++ line "{" ++ str "uid=" ++ pstr old_uid ++ [10] ++
    str "source=" ++ src ++ [10] ++ str "class=" ++ pstr class ++ [10] in
  target ← hdr_value f "target";
  newMsg ← match target with
           | Some t => sb_append XAP_DATA_LEN newMsg (str "target=" ++ t ++ [10])
           | None => Ok newMsg
           end;
  let newMsg := cat_to 1500 (sb_content XAP_DATA_LEN newMsg) (line "}") in
  xapBody ← parsedMsgToRawWithoutSectionF f XAP_DATA_LEN (Some (str "xap-header"));
  Ok (Some (cat_to 1500 newMsg xapBody)).

(** The callback; its state is what has been sent. *)
Definition echoPacket (x : xAPIdent) (f : xAPFrame) (sent : list cstr) : out (list cstr) :=
  r ← echo_reply x f;
  Ok match r with Some m => sent ++ [m] | None => sent end.

(** The filter chain of the program is empty. *)
Definition echo_main (x : xAPIdent) : option (list Z) -> daemon (list cstr) -> out (daemon (list cstr)) :=
  on_packet [] (echoPacket x).

(** ** snoop.c *)

(** The state is what has been printed. *)
Definition packetDump (f : xAPFrame) (shown : list cstr) : out (list cstr) :=
  m ← parsedMsgToRawF f XAP_DATA_LEN;
  Ok (shown ++ [m ++ [10]]).

Record snoop_opts := mkSnoop { interfaceName : option cstr; loglevel : Z; filter : list xAPFilter }.

Definition is_opt (short long : string) (a : cstr) : bool := strcmp0 (str short) a || strcmp0 (str long) a.


(** The options of [main]; help exits.  [argv[++i]] behind the last argument is
    NULL, which is a legal interface but cannot be duplicated or converted; the
    word behind that is outside the array. *)
Fixpoint snoop_args (argv : list cstr) (o : snoop_opts) : out snoop_opts :=
  match argv with
  | [] => Ok o
  | a :: r =>
      let add sec k := match r with
        | [] => Undef NullDeref
        | v :: r => snoop_args r (mkSnoop (interfaceName o) (loglevel o) (xapAddFilter (filter o) sec k v))
        end in
      if is_opt "-i" "--interface" a then
        match r with
        | [] => Ok (mkSnoop None (loglevel o) (filter o))
        | v :: r => snoop_args r (mkSnoop (Some v) (loglevel o) (filter o))
        end
      else if is_opt "-d" "--debug" a then
        match r with
        | [] => Undef NullDeref
        | v :: r => snoop_args r (mkSnoop (interfaceName o) (atoi v) (filter o))
        end
      else if is_opt "-h" "--help" a then Die
      else if is_opt "-s" "--source" a then add (str "xap-header") (str "source")
      else if is_opt "-t" "--target" a then add (str "xap-header") (str "target")
      else if is_opt "-c" "--class" a then add (str "xap-header") (str "class")
      else if is_opt "-f" "--filter" a then
        match r with
        | sec :: k :: v :: r => snoop_args r (mkSnoop (interfaceName o) (loglevel o) (xapAddFilter (filter o) sec k v))
        | [_; _] => Undef NullDeref
        | _ => Undef OutOfBounds
        end
      else snoop_args r o
  end.

(** [LOG_ERR] is the level at the start. *)
Definition snoop_main (argv : list cstr) (dgram : option (list Z)) (d : daemon (list cstr)) : out (daemon (list cstr)) :=
  o ← snoop_args argv (mkSnoop None 3 []);
  on_packet (filter o) packetDump dgram d.

(** * Properties *)

(** ** A packet through the program *)

(** The frame after a printed message has been received into [f]. *)
Definition received (m : message) (f : xAPFrame) : xAPFrame :=
  parsed_frame m (0 :: drop (S (length (print_msg m))) (dataPacket f)) (parsedMsg f).

(** What a message must satisfy to be received whole. *)
Definition receivable (m : message) : Prop :=
  msg_wf m /\ m <> [] /\ (length (print_msg m) <= 1499)%nat /\ (length (msg_entries m) < 150)%nat.

Lemma received_rep m f : receivable m -> frame_rep (received m f) (msg_entries m).
Proof. intros (? & _ & ? & _). by apply parsed_frame_rep. Qed.

Lemma received_sized m f : receivable m -> frame_sized f -> frame_sized (received m f).
Proof.
  intros (_ & _ & HL & Hn) [Hd Hp]. unfold received, parsed_frame, frame_sized. cbn [dataPacket parsedMsg].
  rewrite !length_app, length_mark_msg, length_msg_elems, length_drop. cbn [length]. rewrite length_drop. lia.
Qed.

Lemma on_packet_print {S} filters (handler : xAPFrame -> S -> out S) m d :
  receivable m -> frame_sized (d_frame d) ->
  on_packet filters handler (Some (print_msg m)) d
  = let f := received m (d_frame d) in
    if chain_match (msg_entries m) filters then s ← handler f (d_state d); Ok (mkDaemon f s)
    else Ok (mkDaemon f (d_state d)).
Proof.
  intros (Hm & Hne & HL & Hn) Hsz. unfold on_packet. rewrite handle_parsed; try done.
  - unfold d_callbacks, xapAddFilterAction, ll_prepend. cbn [List.filter]. unfold cb_match. cbn [fc_filter]. cbv zeta.
    destruct (chain_match _ _); cbn [run_all]; [|done]. unfold d_run. cbn [d_frame d_state].
    destruct (handler _ _) as [s| |]; [|done|done]. by rewrite !bind_Ok.
  - intros x w w' pre r Hg Hwf _. split; [done|]. exists (pre ++ [x]). by rewrite <- app_assoc.
  - intros cb ud w w' es Hrep. unfold d_run. destruct (handler _ _) as [s| |]; rewrite ?bind_Ok; intros [=]. subst w'.
    exists es. split; [done|apply entry_ci_refl].
  - apply NoDup_singleton.
Qed.

(** ** Echo *)

(** The sections an echo puts in front. *)
Definition echo_header (x : xAPIdent) : block := full_header x (str "echo") None.

Definition old_header (u s c : cstr) (t : option cstr) : block :=
  mkBlock (str "old-header")
    ([(str "uid", u); (str "source", s); (str "class", c)] ++ match t with Some t => [(str "target", t)] | None => [] end).

Definition in_header (m : message) (k : string) : option cstr :=
  entries_lookup (msg_entries m) (str "xap-header") (Some (str k)).

(** The echo of a message that names its source. *)
Definition echo_msg (x : xAPIdent) (m : message) (src : cstr) : message :=
  echo_header x :: old_header (pstr (in_header m "uid")) src (pstr (in_header m "class")) (in_header m "target")
  :: kept (Some (str "xap-header")) m.

Lemma echo_text x u s c t body :
  print_msg (echo_header x :: old_header u s c t :: body)
  = ((line "xap-header" ++ line "{" ++ line "v=12" ++ line "hop=1" ++
     str "uid=" ++ uid x ++ [10] ++ line "class=echo" ++ str "source=" ++ source x ++ [10] ++ line "}" ++
     line "old-header" ++ line "{" ++ str "uid=" ++ u ++ [10] ++ str "source=" ++ s ++ [10] ++ str "class=" ++ c ++ [10])
    ++ match t with Some t => str "target=" ++ t ++ [10] | None => [] end) ++ line "}" ++ print_msg body.
Proof.
  unfold print_msg. cbn [map concat]. unfold print_block, echo_header, full_header, old_header. cbn [b_name b_kvs].
  unfold print_kvs. rewrite !map_app, !concat_app. unfold line, print_kv.
  destruct t; cbn [map concat fst snd]; repeat rewrite <- app_assoc; rewrite ?app_nil_r; cbn [str app];
    repeat rewrite <- app_assoc; reflexivity.
Qed.

Lemma cat_to_fits N s t : (length s + length t < N)%nat -> cat_to N s t = s ++ t.
Proof. intros H. unfold cat_to. apply take_ge. rewrite length_app. lia. Qed.

(** The first section is a header. *)
Definition ordinary (m : message) : Prop :=
  match m with b :: _ => strcasecmp0 (b_name b) (str "xap-header") = true | [] => False end.

Lemma ordinary_type m f : ordinary m -> frame_rep f (msg_entries m) -> xapGetTypeF f = Ok XAP_MSG_ORDINARY.
Proof.
  destruct m as [|b m]; [done|]. cbn [ordinary]. intros Hb Hf.
  assert (exists e es, msg_entries (b :: m) = e :: es /\ en_section e = b_name b) as (e & es & He & Hs).
  { unfold msg_entries. cbn [map concat]. unfold block_entries. destruct (b_kvs b) as [|kv r]; cbn [map app]; eauto. }
  rewrite He in Hf. rewrite (get_type_rep f e es Hf), Hs. f_equal. unfold type_of_section.
  unfold strcasecmp0 in *. apply bool_decide_eq_true in Hb. rewrite Hb. reflexivity.
Qed.

Lemma echo_reply_eq x m f src :
  receivable m -> ordinary m -> in_header m "source" = Some src ->
  (length (print_msg (echo_msg x m src)) < 1500)%nat ->
  echo_reply x (received m f)
  = if strcmp0 src (str "dbzoo.livebox.test.Echo") then Ok None else Ok (Some (print_msg (echo_msg x m src))).
Proof.
  intros Hm Ho Hs HL. pose proof (received_rep m f Hm) as Hrep. unfold echo_reply, hdr_value.
  rewrite (ordinary_type m) by done. rewrite bind_Ok, Z.eqb_refl. cbn [negb].
  rewrite !(get_value_rep _ (msg_entries m)) by done. fold (in_header m "source"). rewrite bind_Ok, Hs. cbn [of_opt].
  rewrite bind_Ok. destruct (strcmp0 src _); [done|]. rewrite !bind_Ok. cbv zeta.
  fold (in_header m "uid") (in_header m "class") (in_header m "target").
  unfold echo_msg in *. rewrite echo_text in *. set (h := line "xap-header" ++ _) in HL |- *.
  set (body := print_msg (kept _ m)) in *.
  assert (Hbody : parsedMsgToRawWithoutSectionF (received m f) XAP_DATA_LEN (Some (str "xap-header")) = Ok body).
  { apply raw_parsed_frame; [apply Hm|]. fold body. rewrite !length_app in HL. unfold XAP_DATA_LEN. lia. }
  rewrite !length_app in HL. unfold XAP_DATA_LEN in *.
  assert (Hend : forall t, (length (h ++ t) + length (line "}") + length body < 1500)%nat ->
    cat_to 1500 (cat_to 1500 (sb_content 1500 (h ++ t)) (line "}")) body = (h ++ t) ++ line "}" ++ body).
  { intros t Ht. rewrite sb_content_fits, (cat_to_fits _ (h ++ t)) by lia.
    rewrite cat_to_fits by (rewrite length_app; lia). by rewrite <- app_assoc. }
  destruct (in_header m "target") as [t|].
  - rewrite sb_append_fits by lia. rewrite bind_Ok, Hbody, bind_Ok, Hend; [done|]. rewrite !length_app in *. lia.
  - rewrite bind_Ok, Hbody, bind_Ok. cbn [length] in HL. rewrite <- (app_nil_r h) at 1. rewrite Hend; [done|]. rewrite app_nil_r. lia.
Qed.

(** The sections of an echo. *)
Lemma find_in_app {A} (p : A -> bool) a b :
  List.find p (a ++ b) = match List.find p a with Some x => Some x | None => List.find p b end.
Proof. induction a as [|x a IH]; [done|]. cbn [app List.find]. by destruct (p x). Qed.

Lemma kept_no_header m k : in_header (kept (Some (str "xap-header")) m) k = None.
Proof.
  unfold in_header, entries_lookup, msg_entries.
  assert (List.find (entry_matches (str "xap-header") (Some (str k)))
            (concat (map block_entries (kept (Some (str "xap-header")) m))) = None) as ->; [|done].
  induction m as [|b m IH]; [done|]. cbn [kept List.filter]. fold (kept (Some (str "xap-header")) m).
  destruct (skipped (Some (str "xap-header")) b) eqn:Hb; cbn [negb]; [exact IH|].
  cbn [map concat]. rewrite find_in_app, IH. cbn [skipped] in Hb.
  assert (Hs : forall e, en_section e = b_name b -> entry_matches (str "xap-header") (Some (str k)) e = false).
  { intros e He. unfold entry_matches. by rewrite He, Hb. }
  unfold block_entries. destruct (b_kvs b) as [|kv r]; cbn [List.find]; [by rewrite Hs|].
  induction (kv :: r) as [|kv' l IHl]; [done|]. cbn [map List.find]. by rewrite Hs.
Qed.

Lemma kept_idem skip m : kept skip (kept skip m) = kept skip m.
Proof.
  induction m as [|b m IH]; [done|]. cbn [kept List.filter]. fold (kept skip m). destruct (skipped skip b) eqn:Hb; cbn [negb]; [done|].
  cbn [kept List.filter]. rewrite Hb. cbn [negb]. by fold (kept skip (kept skip m)); rewrite IH.
Qed.

(** What the echo makes of its own packets. *)
Definition own_header (x : xAPIdent) : block := old_header (uid x) (source x) (str "echo") None.

(** The packet after [n] further rounds; [b] and [r] are the old header and the
    sections of the first echo. *)
Definition echoes (x : xAPIdent) (b : block) (r : message) (n : nat) : message :=
  echo_header x :: replicate n (own_header x) ++ b :: r.

Lemma in_header_own x m k :
  in_header (echo_header x :: m) k
  = match List.find (entry_matches (str "xap-header") (Some (str k))) (block_entries (echo_header x)) with
    | Some en => match en_kv en with Some (_, v) => Some v | None => Some XAP_FILTER_ANY end
    | None => in_header m k
    end.
Proof. unfold in_header, entries_lookup, msg_entries. cbn [map concat]. rewrite find_in_app. by destruct (List.find _ _). Qed.

Lemma echo_again x r :
  kept (Some (str "xap-header")) r = r -> echo_msg x (echo_header x :: r) (source x) = echo_header x :: own_header x :: r.
Proof.
  intros Hr. unfold echo_msg. assert (Ht : in_header r "target" = None) by (rewrite <- Hr; apply kept_no_header).
  rewrite !in_header_own, Ht.
  cbn [kept List.filter]. fold (kept (Some (str "xap-header")) r). by rewrite Hr.
Qed.

(** ** Well-formed echoes *)

Lemma lookup_text m sec k v : msg_wf m -> entries_lookup (msg_entries m) sec k = Some v -> text_wf v.
Proof.
  intros Hm. unfold entries_lookup. destruct (List.find _ _) as [en|] eqn:Hf; [|done].
  apply find_some in Hf as [Hin _]. destruct (en_kv en) as [[k' v']|] eqn:Hkv; intros [= <-]; [|by apply text_wf_str].
  unfold msg_entries in Hin. apply in_concat in Hin as (l & Hl & Hen). apply in_map_iff in Hl as (b & <- & Hb).
  unfold msg_wf in Hm. rewrite Forall_forall in Hm. destruct (Hm b) as [_ Hkvs]; [by apply list_elem_of_In|].
  unfold block_entries in Hen. destruct (b_kvs b) as [|kv r] eqn:Hk; [destruct Hen as [<-|[]]; done|]. rewrite <- Hk in *.
  apply in_map_iff in Hen as (kv0 & <- & Hin). injection Hkv as ->. rewrite Forall_forall in Hkvs.
  by apply (Hkvs _ (proj2 (list_elem_of_In _ _) Hin)).
Qed.

Lemma pstr_text m k : msg_wf m -> text_wf (pstr (in_header m k)).
Proof.
  intros Hm. destruct (in_header m k) as [v|] eqn:Hv; [by eapply lookup_text|by apply text_wf_str].
Qed.

Ltac wf_kvs := split; [by apply name_wf_str|];
  repeat (constructor; [split; [by apply key_wf_str|]|]); cbn [snd]; try done; try (by apply text_wf_str).

Lemma echo_header_wf x : ident_wf x -> block_wf (echo_header x).
Proof. intros (Hs & Hu & _). wf_kvs. Qed.

Lemma old_header_wf u s c t :
  text_wf u -> text_wf s -> text_wf c -> (forall v, t = Some v -> text_wf v) -> block_wf (old_header u s c t).
Proof. intros Hu Hs Hc Ht. destruct t as [t|]; unfold old_header; cbn [app]; wf_kvs. by apply Ht. Qed.

Lemma kept_wf skip m : msg_wf m -> msg_wf (kept skip m).
Proof.
  induction 1 as [|b m Hb Hm IH]; [constructor|]. cbn [kept List.filter]. fold (kept skip m).
  destruct (skipped skip b); cbn [negb]; [done|by constructor].
Qed.

Lemma echo_msg_wf x m src : ident_wf x -> msg_wf m -> text_wf src -> msg_wf (echo_msg x m src).
Proof.
  intros Hx Hm Hs. constructor; [by apply echo_header_wf|]. constructor; [|by apply kept_wf].
  apply old_header_wf; [by apply pstr_text|done|by apply pstr_text|]. intros v Hv. by eapply lookup_text.
Qed.

Lemma echo_step x m d src :
  receivable m -> ordinary m -> in_header m "source" = Some src ->
  (length (print_msg (echo_msg x m src)) < 1500)%nat -> frame_sized (d_frame d) ->
  echo_main x (Some (print_msg m)) d
  = Ok (mkDaemon (received m (d_frame d))
          (d_state d ++ if strcmp0 src (str "dbzoo.livebox.test.Echo") then [] else [print_msg (echo_msg x m src)])).
Proof.
  intros Hm Ho Hs HL Hd. unfold echo_main. rewrite on_packet_print by done. cbn [chain_match forallb]. cbv zeta.
  unfold echoPacket. rewrite (echo_reply_eq x m _ src) by done. destruct (strcmp0 src _); rewrite !bind_Ok; [|done]. by rewrite app_nil_r.
Qed.

(** The hub delivers a packet to its sender too: the echo hears its last packet,
    [n] times. *)
Fixpoint feed (x : xAPIdent) (n : nat) (d : daemon (list cstr)) : out (daemon (list cstr)) :=
  match n with
  | O => Ok d
  | S n => d ← feed x n d; match last (d_state d) with Some p => echo_main x (Some p) d | None => Ok d end
  end.

Lemma print_msg_app a b : print_msg (a ++ b) = print_msg a ++ print_msg b.
Proof. unfold print_msg. by rewrite map_app, concat_app. Qed.

Lemma echoes_length x b r n :
  length (print_msg (echoes x b r n)) = (length (print_msg (echoes x b r 0)) + n * length (print_block (own_header x)))%nat.
Proof.
  unfold echoes. induction n as [|n IH]; [simpl; lia|]. cbn [replicate app] in *. unfold print_msg in *. cbn [map concat] in *.
  rewrite !length_app in *. lia.
Qed.

Lemma echoes_entries x b r n :
  length (msg_entries (echoes x b r n)) = (length (msg_entries (echoes x b r 0)) + 3 * n)%nat.
Proof.
  unfold echoes. induction n as [|n IH]; [lia|]. cbn [replicate app] in *. unfold msg_entries in *. cbn [map concat] in *.
  rewrite !length_app in *. change (length (block_entries (own_header x))) with 3%nat. lia.
Qed.

Lemma kept_echoes x u s c t r n :
  kept (Some (str "xap-header")) r = r ->
  kept (Some (str "xap-header")) (replicate n (own_header x) ++ old_header u s c t :: r)
  = replicate n (own_header x) ++ old_header u s c t :: r.
Proof.
  intros Hr. induction n as [|n IH]; cbn [replicate app kept List.filter].
  - fold (kept (Some (str "xap-header")) r). by rewrite Hr.
  - fold (kept (Some (str "xap-header")) (replicate n (own_header x) ++ old_header u s c t :: r)). by rewrite IH.
Qed.

Lemma echoes_receivable x u s c t r n :
  ident_wf x -> block_wf (old_header u s c t) -> msg_wf r ->
  (length (print_msg (echoes x (old_header u s c t) r n)) < 1500)%nat ->
  (length (msg_entries (echoes x (old_header u s c t) r n)) < 150)%nat ->
  receivable (echoes x (old_header u s c t) r n).
Proof.
  intros Hx Hb Hr HL Hn. pose proof Hx as (Hs & Hu & _). split; [|by split; [|lia]].
  constructor; [by apply echo_header_wf|]. apply Forall_app. split; [|by constructor].
  apply Forall_replicate, old_header_wf; [done|done|by apply text_wf_str|done].
Qed.

Lemma feed_echoes x u s c t r n d :
  ident_wf x -> source x <> str "dbzoo.livebox.test.Echo" ->
  block_wf (old_header u s c t) -> msg_wf r -> kept (Some (str "xap-header")) r = r ->
  let e i := echoes x (old_header u s c t) r i in
  (length (print_msg (e n)) < 1500)%nat -> (length (msg_entries (e n)) < 150)%nat ->
  frame_sized (d_frame d) -> last (d_state d) = Some (print_msg (e 0%nat)) ->
  exists d', feed x n d = Ok d' /\ frame_sized (d_frame d') /\
    d_state d' = d_state d ++ map (fun i => print_msg (e i)) (seq 1 n) /\ last (d_state d') = Some (print_msg (e n)).
Proof.
  intros Hx Hself Hb Hr Hk e HL Hn Hd Hlast. subst e. cbn beta in *.
  induction n as [|n IH]; [exists d; split; [done|]; by rewrite app_nil_r|].
  pose proof (echoes_length x (old_header u s c t) r n) as L1. pose proof (echoes_length x (old_header u s c t) r (S n)) as L2.
  pose proof (echoes_entries x (old_header u s c t) r n) as E1. pose proof (echoes_entries x (old_header u s c t) r (S n)) as E2.
  destruct IH as (d1 & Hf & Hd1 & Hs1 & Hl1); [lia|lia|]. cbn [feed]. rewrite Hf, bind_Ok, Hl1.
  assert (He : echo_msg x (echoes x (old_header u s c t) r n) (source x) = echoes x (old_header u s c t) r (S n))
    by (apply echo_again, kept_echoes; done).
  assert (Hrc : receivable (echoes x (old_header u s c t) r n)) by (apply echoes_receivable; (done || lia)).
  rewrite (echo_step x _ d1 (source x)); [|done|done|done|by rewrite He|done].
  rewrite He. unfold strcmp0. rewrite bool_decide_false by done.
  eexists. split; [done|]. cbn [d_frame d_state]. split; [by apply received_sized|].
  rewrite Hs1, seq_S, map_app, <- app_assoc. split; [done|]. by rewrite app_assoc, last_snoc.
Qed.

(** A message with a header that names its source is echoed: the packet sent
    carries the echo's own header, the identity of the original in a section
    [old-header], and the other sections unchanged and in order.  Only packets of
    the source [dbzoo.livebox.test.Echo] are left alone. *)
Theorem echo_spec (x : xAPIdent) (m : message) (d : daemon (list cstr)) (src : cstr) :
  receivable m -> ordinary m -> in_header m "source" = Some src ->
  (length (print_msg (echo_msg x m src)) < 1500)%nat -> frame_sized (d_frame d) ->
  exists d', echo_main x (Some (print_msg m)) d = Ok d' /\
    d_state d' = d_state d ++ if strcmp0 src (str "dbzoo.livebox.test.Echo") then [] else [print_msg (echo_msg x m src)].
Proof. intros. eexists. split; [by apply echo_step|done]. Qed.

(** The echo does not recognise its own packets: its source is
    [dbzoo.<device>.Echo], not the literal it compares with.  After one message
    the packets it hears back make it send [n] more, each with one more section
    [old-header], for every [n] as long as the packet fits. *)
Theorem echo_feedback (x : xAPIdent) (m : message) (src : cstr) (d : daemon (list cstr)) (n : nat) :
  ident_wf x -> source x <> str "dbzoo.livebox.test.Echo" ->
  receivable m -> ordinary m -> in_header m "source" = Some src -> src <> str "dbzoo.livebox.test.Echo" ->
  let e i := echoes x (old_header (pstr (in_header m "uid")) src (pstr (in_header m "class")) (in_header m "target"))
               (kept (Some (str "xap-header")) m) i in
  (length (print_msg (e n)) < 1500)%nat -> (length (msg_entries (e n)) < 150)%nat -> frame_sized (d_frame d) ->
  exists d', (d1 ← echo_main x (Some (print_msg m)) d; feed x n d1) = Ok d' /\
    d_state d' = d_state d ++ map (fun i => print_msg (e i)) (seq 0 (S n)).
Proof.
  intros Hx Hself Hm Ho Hs Hne e HL Hn Hd. pose proof Hm as (Hwf & _ & _ & _).
  pose proof (echoes_length x (old_header (pstr (in_header m "uid")) src (pstr (in_header m "class")) (in_header m "target"))
    (kept (Some (str "xap-header")) m) n) as L. fold (e n) in L.
  assert (He0 : echo_msg x m src = e 0%nat) by done.
  assert (H0 : (length (print_msg (echo_msg x m src)) < 1500)%nat) by (rewrite He0; unfold e at 1; lia).
  rewrite (echo_step x m d src) by done. rewrite bind_Ok. unfold strcmp0. rewrite bool_decide_false by done.
  assert (Hemsg : msg_wf (echo_msg x m src)) by (apply echo_msg_wf; [done|done|by eapply lookup_text]).
  apply Forall_cons in Hemsg as [_ [Hb Hk]%Forall_cons].
  destruct (feed_echoes x (pstr (in_header m "uid")) src (pstr (in_header m "class")) (in_header m "target")
    (kept (Some (str "xap-header")) m) n (mkDaemon (received m (d_frame d)) (d_state d ++ [print_msg (echo_msg x m src)])))
    as (d' & -> & _ & Hst & _); [done|done|done|done|apply kept_idem|done|done|by apply received_sized|cbn [d_state]; by rewrite last_snoc|].
  exists d'. split; [done|]. rewrite Hst. cbn [d_state seq map]. by rewrite <- app_assoc, He0.
Qed.

(** A query of one of the endpoints of another program. *)
Definition echo_demo_ident : xAPIdent := mkIdent (str "dbzoo.wombat.Echo") (str "FF00DF00") 3640 (str "10.0.0.1").
Definition echo_demo : message :=
  [mkBlock (str "xap-header") [(str "uid", str "FF001100"); (str "source", str "acme.pc.x"); (str "class", str "xAPBSC.query");
                               (str "target", str "dbzoo.>")];
   mkBlock (str "request") []].

Lemma echo_demo_receivable : receivable echo_demo.
Proof.
  split; [|split; [done|split; apply Nat.leb_le; reflexivity]].
  constructor; [wf_kvs|]. constructor; [wf_kvs|constructor].
Qed.

Lemma echo_spec_witness :
  exists d', echo_main echo_demo_ident (Some (print_msg echo_demo)) (mkDaemon (load_packet []) []) = Ok d' /\
    d_state d' = [print_msg (echo_msg echo_demo_ident echo_demo (str "acme.pc.x"))].
Proof.
  apply (echo_spec echo_demo_ident echo_demo (mkDaemon (load_packet []) []) (str "acme.pc.x") echo_demo_receivable).
  - reflexivity.
  - reflexivity.
  - apply Nat.ltb_lt. reflexivity.
  - by apply load_packet_sized; simpl; lia.
Defined.

Lemma echo_feedback_witness :
  exists d', (d1 ← echo_main echo_demo_ident (Some (print_msg echo_demo)) (mkDaemon (load_packet []) []);
              feed echo_demo_ident 15 d1) = Ok d' /\ length (d_state d') = 16%nat.
Proof.
  destruct (echo_feedback echo_demo_ident echo_demo (str "acme.pc.x") (mkDaemon (load_packet []) []) 15)
    as (d' & H1 & H2); [| | | | | | | | |exists d'; split; [exact H1|rewrite H2; reflexivity]].
  - repeat split; by apply text_wf_str.
  - done.
  - apply echo_demo_receivable.
  - reflexivity.
  - reflexivity.
  - done.
  - apply Nat.ltb_lt. reflexivity.
  - apply Nat.ltb_lt. reflexivity.
  - by apply load_packet_sized; simpl; lia.
Defined.

(** ** Snoop *)

(** What a user can ask for. *)
Inductive ask := AskInterface (s : cstr) | AskDebug (n : cstr) | AskHeader (k : cstr) (v : cstr) | AskFilter (sec k v : cstr).

Definition ask_argv (a : ask) : list cstr :=
  match a with
  | AskInterface s => [str "-i"; s]
  | AskDebug n => [str "--debug"; n]
  | AskHeader k v => [str "--" ++ k; v]
  | AskFilter sec k v => [str "-f"; sec; k; v]
  end.

Definition ask_ok (a : ask) : bool :=
  match a with AskHeader k _ => bool_decide (k ∈ [str "source"; str "target"; str "class"]) | _ => true end.

Definition ask_filter (a : ask) : list xAPFilter :=
  match a with
  | AskHeader k v => [mkFilter (str "xap-header") k v]
  | AskFilter sec k v => [mkFilter sec k v]
  | _ => []
  end.

Lemma snoop_args_asks l o :
  forallb ask_ok l = true ->
  exists o', snoop_args (concat (map ask_argv l)) o = Ok o' /\ filter o' = rev (concat (map ask_filter l)) ++ filter o.
Proof.
  revert o. induction l as [|a l IH]; intros o Hl; [by exists o|]. cbn [forallb] in Hl. apply andb_true_iff in Hl as [Ha Hl].
  cbn [map concat]. rewrite rev_app_distr.
  destruct a as [s|n|k v|sec k v]; cbn [ask_argv ask_filter app rev]; rewrite ?app_nil_r.
  - destruct (IH (mkSnoop (Some s) (loglevel o) (filter o)) Hl) as (o' & H1 & H2). exists o'. by split.
  - destruct (IH (mkSnoop (interfaceName o) (atoi n) (filter o)) Hl) as (o' & H1 & H2). exists o'. by split.
  - destruct (IH (mkSnoop (interfaceName o) (loglevel o) (xapAddFilter (filter o) (str "xap-header") k v)) Hl) as (o' & H1 & H2).
    exists o'. cbn [ask_ok] in Ha. apply bool_decide_eq_true in Ha.
    split; [|rewrite H2; by rewrite <- app_assoc].
    repeat (apply elem_of_cons in Ha as [->|Ha]; [exact H1|]). by apply elem_of_nil in Ha.
  - destruct (IH (mkSnoop (interfaceName o) (loglevel o) (xapAddFilter (filter o) sec k v)) Hl) as (o' & H1 & H2).
    exists o'. split; [exact H1|]. rewrite H2. by rewrite <- app_assoc.
Qed.

Lemma forallb_rev {A} (p : A -> bool) l : forallb p (rev l) = forallb p l.
Proof. induction l as [|x l IH]; [done|]. cbn [rev forallb]. rewrite forallb_app, IH. cbn [forallb]. by rewrite andb_true_r, andb_comm. Qed.

Lemma kept_none m : kept None m = m.
Proof. induction m as [|b m IH]; [done|]. change (b :: kept None m = b :: m). by rewrite IH. Qed.

Lemma packetDump_eq m f shown : receivable m -> packetDump (received m f) shown = Ok (shown ++ [print_msg m ++ [10]]).
Proof.
  intros (Hm & _ & HL & _). unfold packetDump, parsedMsgToRawF, received.
  rewrite raw_parsed_frame; rewrite ?kept_none; [by rewrite bind_Ok|done|unfold XAP_DATA_LEN; lia].
Qed.

(** The name of the program is not an option. *)
Definition program_name (prog : cstr) : bool :=
  forallb (fun o => negb (strcmp0 (str o) prog))
    ["-i"; "--interface"; "-d"; "--debug"; "-h"; "--help"; "-s"; "--source"; "-t"; "--target"; "-c"; "--class"; "-f"; "--filter"]%string.

Lemma snoop_args_name prog r o : program_name prog = true -> snoop_args (prog :: r) o = snoop_args r o.
Proof.
  unfold program_name. cbn [forallb]. rewrite !andb_true_iff, !negb_true_iff. intros H.
  cbn [snoop_args]. unfold is_opt. destruct_and!. by repeat match goal with H : strcmp0 _ _ = false |- _ => rewrite H; clear H end.
Qed.

(** Snoop started with any sequence of options prints a packet that matches every
    filter asked for exactly as it was received, and prints nothing for any other
    packet. *)
Theorem snoop_spec (prog : cstr) (l : list ask) (m : message) (d : daemon (list cstr)) :
  program_name prog = true -> forallb ask_ok l = true -> receivable m -> frame_sized (d_frame d) ->
  exists d', snoop_main (prog :: concat (map ask_argv l)) (Some (print_msg m)) d = Ok d' /\
    d_state d' = d_state d ++
      if forallb (filter_match (msg_entries m)) (concat (map ask_filter l)) then [print_msg m ++ [10]] else [].
Proof.
  intros Hp Hl Hm Hd. unfold snoop_main. rewrite snoop_args_name by done.
  destruct (snoop_args_asks l (mkSnoop None 3 []) Hl) as (o & -> & Ho). rewrite bind_Ok, on_packet_print by done.
  rewrite Ho. cbn [filter]. rewrite app_nil_r. unfold chain_match. rewrite forallb_rev. cbv zeta.
  clear Hl. destruct (forallb _ _); [|eexists; split; [done|]; cbn [d_state]; by rewrite app_nil_r].
  rewrite packetDump_eq by done. rewrite bind_Ok. by eexists.
Qed.

Lemma snoop_spec_witness :
  exists d', snoop_main (map str ["snoop"; "-s"; "acme.>"; "-f"; "xap-header"; "uid"; "FF001100"]%string)
               (Some (print_msg echo_demo)) (mkDaemon (load_packet []) []) = Ok d' /\
    d_state d' = [print_msg echo_demo ++ [10]].
Proof.
  destruct (snoop_spec (str "snoop") [AskHeader (str "source") (str "acme.>"); AskFilter (str "xap-header") (str "uid") (str "FF001100")]
    echo_demo (mkDaemon (load_packet []) []) eq_refl eq_refl echo_demo_receivable) as (d' & H1 & H2).
  - by apply load_packet_sized; simpl; lia.
  - exists d'. split; [exact H1|]. rewrite H2. reflexivity.
Defined.
