(* ===== verification/Mail.v ===== *)
(** * The mail adaptor (xap-mail/mail.c)

    A message of class [email] is turned into a mail that libcurl uploads through
    a read callback, and the outcome is reported on the bus.  libcurl is a
    parameter: whether a handle can be created, the room of each call of the read
    callback, and the result of the transfer.  The theorems: the mail delivered
    is the headers and the body of the message, line by line, so that no value of
    a message can add a header; the report; and that the report of the adaptor is
    no request to it. *)

From S2P Require Import Prelude UtList Strings Frame Wire Filter Timeout Xap Hub MinIni Bsc Urf Termios Serial Startup Tools.

(** The settings of the INI file. *)
Record smtp := mkSmtp {
  smtp_server : cstr;
  smtp_username : cstr;
  fullname : cstr;
  smtp_password : cstr;
}.

(** A mail handed to libcurl: its recipient and the text it has read. *)
Record mail := mkMail { rcpt : cstr; text_read : cstr }.

Record mailer := mkMailer { mails : list mail; bus : list cstr }.

(** [payload_text], up to its NULL entry. *)
Definition payload_text (c : smtp) (to subject body : cstr) : list cstr :=
  [str "To: <" ++ to ++ str ">" ++ [10];
   str "From: <" ++ smtp_username c ++ str "> (" ++ fullname c ++ str ")" ++ [10];
   str "Subject: " ++ subject ++ [10];
   [10];
   body ++ [10]].

(** [room] is [size*nmemb].  The bytes stored at [ptr] and [lines_read]; the size
    of the buffer is not compared with the length of the line. *)
Definition payload_source (payload : list cstr) (room lines_read : nat) : out (cstr * nat) :=
  if (room =? 0)%nat then Ok ([], lines_read) else
  match payload !! lines_read with
  | Some data => if (length data <=? room)%nat then Ok (data, S lines_read) else Undef OutOfBounds
  | None => Ok ([], lines_read)
  end.

(** libcurl calls the read callback until it answers nothing. *)
Fixpoint upload (payload : list cstr) (rooms : list nat) (lines_read : nat) (acc : cstr) : out cstr :=
  match rooms with
  | [] => Ok acc
  | n :: r =>
      '(data, l) ← payload_source payload n lines_read;
      match data with [] => Ok acc | _ => upload payload r l (acc ++ data) end
  end.

Definition CURLE_OK : Z := 0.
Definition CURLE_FAILED_INIT : Z := 2.

Section Service.
Context (x : xAPIdent) (c : smtp).
(** What libcurl does for one mail. *)
Context (init : bool) (rooms : list nat) (code : Z).

Definition sendmail (to subject body : cstr) (w : mailer) : out (Z * mailer) :=
  if init then
    t ← upload (payload_text c to subject body) rooms 0 [];
    Ok (code, mkMailer (mails w ++ [mkMail to t]) (bus w))
  else Ok (CURLE_FAILED_INIT, w).

(** [text] is the formatted argument. *)
Definition mailStatus (status text : cstr) (w : mailer) : out mailer :=
  let head := line "xap-header" ++ line "{" ++ line "v=12" ++ line "hop=1" ++ str "uid=" ++ uid x ++ [10] ++
    line "class=email" ++ str "source=" ++ source x ++ [10] ++ line "}" ++
    str "mail." ++ status ++ [10] ++ line "{" ++ str "text=" in
  t ← sprintf_buf XAP_DATA_LEN head;
  t ← sb_append XAP_DATA_LEN t text;
  t ← sb_append XAP_DATA_LEN t ([10] ++ line "}");
  Ok (if Z.of_nat (length t) <? XAP_DATA_LEN then mkMailer (mails w) (bus w ++ [t]) else w).

Definition emailService (f : xAPFrame) (w : mailer) : out mailer :=
  to ← xapGetValueF f (str "message") (Some (str "to"));
  text ← xapGetValueF f (str "message") (Some (str "text"));
  subject ← xapGetValueF f (str "message") (Some (str "subject"));
  match to, text, subject with
  | Some to, Some text, Some subject =>
      '(r, w) ← sendmail to subject text w;
      if r =? CURLE_OK then mailStatus (str "ok") (str "Send mail is complete") w
      else mailStatus (str "error") (str "Send mail failed with error code: " ++ fmt_d r) w
  | _, _, _ => Ok w
  end.

(** The filters of [main]. *)
Definition mail_filters : list xAPFilter :=
  let f := xapAddFilter [] (str "xap-header") (str "target") (source x) in
  let f := xapAddFilter f (str "xap-header") (str "class") (str "email") in
  xapAddFilter f (str "message") (str "to") XAP_FILTER_ANY.

Definition mail_main : option (list Z) -> daemon mailer -> out (daemon mailer) := on_packet mail_filters emailService.

End Service.

(** The settings; the program exits when one is missing. *)
Definition setupXAPini (inifile : cstr) (writable : cstr -> bool) (fs : gmap (list Z) (list Z))
    : out (smtp * gmap (list Z) (list Z)) :=
  let get k := snd (ini_gets (Some (str "mail")) (Some (str k)) [] [] 64 (fs !! inifile)) in
  let server := get "server"%string in
  let username := get "from"%string in
  let name := get "fullname"%string in
  '(password, fs) ← getINIPassword (str "mail") (str "password") inifile writable fs;
  match server, username, name, password with
  | _ :: _, _ :: _, _ :: _, Some (_ :: _ as p) => Ok (mkSmtp server username name p, fs)
  | _, _, _, _ => Die
  end.

(** * Properties *)

(** ** The text of a mail *)

Lemma upload_all payload rooms k acc :
  Forall (fun l => l <> []) payload ->
  Forall (fun n => 0 < n /\ Forall (fun l => length l <= n) payload)%nat rooms ->
  (length payload - k <= length rooms)%nat -> (k <= length payload)%nat ->
  upload payload rooms k acc = Ok (acc ++ concat (drop k payload)).
Proof.
  intros Hne. revert k acc. induction rooms as [|n rooms IH]; intros k acc Hr Hl Hk; cbn [upload length] in *.
  - rewrite drop_ge by lia. by rewrite app_nil_r.
  - apply Forall_cons in Hr as [[Hn Hfit] Hr]. unfold payload_source. destruct (Nat.eqb_spec n 0); [lia|].
    destruct (payload !! k) as [data|] eqn:Hd.
    + pose proof (lookup_lt_Some _ _ _ Hd). rewrite Forall_lookup in Hfit, Hne. specialize (Hfit _ _ Hd). specialize (Hne _ _ Hd).
      destruct (Nat.leb_spec (length data) n); [|lia]. rewrite bind_Ok. destruct data as [|z data]; [done|].
      rewrite IH by (done || lia). rewrite (drop_S payload (z :: data) k Hd). cbn [concat]. by rewrite app_assoc.
    + apply lookup_ge_None in Hd. rewrite bind_Ok, drop_ge by lia. by rewrite app_nil_r.
Qed.

(** The lines of a text that ends in a newline. *)
Fixpoint lines_from (cur : cstr) (t : cstr) : list cstr :=
  match t with
  | [] => match cur with [] => [] | _ => [cur] end
  | c :: r => if c =? 10 then cur :: lines_from [] r else lines_from (cur ++ [c]) r
  end.
Definition lines (t : cstr) : list cstr := lines_from [] t.

Lemma lines_from_line cur s r : 10 ∉ s -> lines_from cur (s ++ 10 :: r) = (cur ++ s) :: lines_from [] r.
Proof.
  revert cur. induction s as [|c s IH]; intros cur Hs; cbn [app lines_from]; [by rewrite app_nil_r|].
  rewrite not_elem_of_cons in Hs. destruct Hs as [Hc Hs]. destruct (Z.eqb_spec c 10); [congruence|].
  rewrite IH by done. by rewrite <- app_assoc.
Qed.

Lemma text_no_newline s : text_wf s -> 10 ∉ s.
Proof. intros Hs Hin. unfold text_wf in Hs. rewrite Forall_forall in Hs. specialize (Hs _ Hin). lia. Qed.

Definition mail_text (c : smtp) (to subject body : cstr) : cstr := concat (payload_text c to subject body).

(** The settings hold no control characters. *)
Definition smtp_wf (c : smtp) : Prop :=
  text_wf (smtp_username c) /\ text_wf (fullname c) /\ (length (smtp_username c) < 64)%nat /\ (length (fullname c) < 64)%nat.

(** The lines of a mail. *)
Definition mail_line_list (c : smtp) (to subject body : cstr) : list cstr :=
  [str "To: <" ++ to ++ str ">"; str "From: <" ++ smtp_username c ++ str "> (" ++ fullname c ++ str ")";
   str "Subject: " ++ subject; []; body].

Lemma payload_lines c to subject body :
  payload_text c to subject body = map (fun l => l ++ [10]) (mail_line_list c to subject body).
Proof. unfold payload_text, mail_line_list. cbn [map]. by rewrite <- !app_assoc. Qed.

Lemma lines_concat ls : Forall text_wf ls -> lines (concat (map (fun l => l ++ [10]) ls)) = ls.
Proof.
  unfold lines. induction 1 as [|l ls Hl _ IH]; [done|]. cbn [map concat]. rewrite <- app_assoc.
  cbn [app]. rewrite lines_from_line by (by apply text_no_newline). by rewrite IH.
Qed.

Lemma text_wf_app a b : text_wf a -> text_wf b -> text_wf (a ++ b).
Proof. apply Forall_app_2. Qed.

Lemma mail_lines_wf c to subject body :
  smtp_wf c -> text_wf to -> text_wf subject -> text_wf body -> Forall text_wf (mail_line_list c to subject body).
Proof.
  intros (Hu & Hn & _) Ht Hs Hb. unfold mail_line_list.
  repeat (apply Forall_cons; split); try done; try (by apply text_wf_str);
    repeat apply text_wf_app; try done; by apply text_wf_str.
Qed.

(** ** Values of a message *)

Lemma in_print_block kv b : kv ∈ b_kvs b -> (length (snd kv) <= length (print_block b))%nat.
Proof.
  intros Hin. unfold print_block. rewrite !length_app. enough (length (snd kv) <= length (print_kvs (b_kvs b)))%nat by lia.
  induction (b_kvs b) as [|kv' r IH]; [by apply elem_of_nil in Hin|]. unfold print_kvs in *. cbn [map concat].
  rewrite length_app. apply elem_of_cons in Hin as [->|Hin]; [unfold print_kv; rewrite !length_app; lia|]. specialize (IH Hin). lia.
Qed.

Lemma lookup_length m sec k v :
  entries_lookup (msg_entries m) sec k = Some v -> (length v <= length (print_msg m))%nat \/ v = XAP_FILTER_ANY.
Proof.
  unfold entries_lookup. destruct (List.find _ _) as [en|] eqn:Hf; [|done].
  apply find_some in Hf as [Hin _]. destruct (en_kv en) as [[k' v']|] eqn:Hkv; intros [= <-]; [left|by right].
  induction m as [|b m IH]; [done|]. unfold msg_entries, print_msg in *. cbn [map concat] in *. rewrite length_app.
  apply in_app_iff in Hin as [Hin|Hin]; [|specialize (IH Hin); lia].
  unfold block_entries in Hin. destruct (b_kvs b) as [|kv r] eqn:Hk; [destruct Hin as [<-|[]]; done|]. rewrite <- Hk in *.
  apply in_map_iff in Hin as (kv0 & <- & Hin). injection Hkv as ->. apply list_elem_of_In in Hin.
  pose proof (in_print_block _ _ Hin). cbn [snd] in *. lia.
Qed.

Definition field (m : message) (k : string) : option cstr := entries_lookup (msg_entries m) (str "message") (Some (str k)).

Lemma field_length m k v : receivable m -> field m k = Some v -> (length v <= 1499)%nat.
Proof. intros (_ & _ & HL & _) Hv. apply lookup_length in Hv as [Hv| ->]; [lia|]. apply Nat.leb_le. reflexivity. Qed.

(** Buffers that hold any line of a mail, as many as there are lines. *)
Definition rooms_ok (rooms : list nat) : Prop := Forall (fun n => 1600 <= n)%nat rooms /\ (5 <= length rooms)%nat.

(** Evaluate the lengths of literals. *)
Ltac lit_len := repeat match goal with |- context [length (str ?s)] =>
  let n := eval vm_compute in (length (str s)) in change (length (str s)) with n end.

Lemma upload_mail c rooms to subject body :
  smtp_wf c -> rooms_ok rooms -> (length to <= 1499)%nat -> (length subject <= 1499)%nat -> (length body <= 1499)%nat ->
  upload (payload_text c to subject body) rooms 0 [] = Ok (mail_text c to subject body).
Proof.
  intros (_ & _ & Hu & Hn) [Hr H5] H1 H2 H3. rewrite upload_all; [done| | |unfold payload_text; cbn [length]; lia|lia].
  - repeat constructor; by destruct body.
  - eapply Forall_impl; [exact Hr|]. intros n H. cbn beta in H. split; [lia|]. unfold payload_text.
    repeat (apply Forall_cons; split); try (by apply Forall_nil); rewrite ?length_app; lit_len; cbn [length]; lia.
Qed.

(** ** The report *)

Definition status_msg (x : xAPIdent) (status text : cstr) : message :=
  [full_header x (str "email") None; mkBlock (str "mail." ++ status) [(str "text", text)]].

Lemma status_text x status text :
  print_msg (status_msg x status text)
  = (line "xap-header" ++ line "{" ++ line "v=12" ++ line "hop=1" ++ str "uid=" ++ uid x ++ [10] ++
    line "class=email" ++ str "source=" ++ source x ++ [10] ++ line "}" ++
    str "mail." ++ status ++ [10] ++ line "{" ++ str "text=") ++ text ++ [10] ++ line "}".
Proof.
  unfold status_msg. rewrite fill_header_text. unfold print_msg, print_block, print_kvs, print_kv, line.
  cbn [map concat b_name b_kvs fst snd]. rewrite !app_nil_r. repeat rewrite <- app_assoc. cbn [str app].
  repeat rewrite <- app_assoc. reflexivity.
Qed.

Lemma mailStatus_eq x status text w :
  (length (print_msg (status_msg x status text)) < 1500)%nat ->
  mailStatus x status text w = Ok (mkMailer (mails w) (bus w ++ [print_msg (status_msg x status text)])).
Proof.
  rewrite status_text. set (h := line "xap-header" ++ _). intros HL. unfold mailStatus. fold h. cbv zeta.
  rewrite !length_app in HL. unfold sprintf_buf, XAP_DATA_LEN.
  destruct (Z.ltb_spec (Z.of_nat (length h)) 1500); [|lia]. rewrite bind_Ok.
  rewrite sb_append_fits by lia. rewrite bind_Ok, sb_append_fits by (rewrite length_app; lia). rewrite bind_Ok.
  rewrite <- app_assoc. destruct (Z.ltb_spec (Z.of_nat (length (h ++ text ++ [10] ++ line "}"))) 1500); [done|].
  rewrite !length_app in *. lia.
Qed.

(** The report of a transfer. *)
Definition report (x : xAPIdent) (code : Z) : message :=
  if code =? CURLE_OK then status_msg x (str "ok") (str "Send mail is complete")
  else status_msg x (str "error") (str "Send mail failed with error code: " ++ fmt_d code).

(** What a request does. *)
Definition deliver (x : xAPIdent) (c : smtp) (code : Z) (m : message) (w : mailer) : mailer :=
  match field m "to", field m "text", field m "subject" with
  | Some to, Some text, Some subject =>
      mkMailer (mails w ++ [mkMail to (mail_text c to subject text)]) (bus w ++ [print_msg (report x code)])
  | _, _, _ => w
  end.

Lemma emailService_eq x c rooms code m f w :
  smtp_wf c -> rooms_ok rooms -> receivable m -> (length (print_msg (report x code)) < 1500)%nat ->
  emailService x c true rooms code (received m f) w = Ok (deliver x c code m w).
Proof.
  intros Hc Hr Hm HL. pose proof (received_rep m f Hm) as Hrep. unfold emailService, deliver.
  rewrite !(get_value_rep _ (msg_entries m)) by done. rewrite !bind_Ok.
  fold (field m "to") (field m "text") (field m "subject").
  destruct (field m "to") as [to|] eqn:H1; [|done]. destruct (field m "text") as [text|] eqn:H2; [|done].
  destruct (field m "subject") as [subject|] eqn:H3; [|done].
  unfold sendmail. rewrite upload_mail by (done || by eapply field_length). rewrite !bind_Ok.
  unfold report in *. by destruct (code =? CURLE_OK); rewrite mailStatus_eq.
Qed.

Lemma report_not_request x code : chain_match (msg_entries (report x code)) (mail_filters x) = false.
Proof. unfold report, chain_match, mail_filters, xapAddFilter. cbn [forallb]. by destruct (code =? CURLE_OK). Qed.


(** The adaptor ignores its own reports, which have the class of a request. *)
Theorem mail_no_feedback (x : xAPIdent) (c : smtp) (init : bool) (rooms : list nat) (code code' : Z) (d : daemon mailer) :
  receivable (report x code) -> frame_sized (d_frame d) ->
  exists d', mail_main x c init rooms code' (Some (print_msg (report x code))) d = Ok d' /\ d_state d' = d_state d.
Proof. intros Hm Hd. unfold mail_main. rewrite on_packet_print by done. cbv zeta. rewrite report_not_request. by eexists. Qed.

(** The read callback stores a whole line whatever room it is given. *)
Theorem payload_source_overrun (payload : list cstr) (data : cstr) (room lines_read : nat) :
  payload !! lines_read = Some data -> (0 < room < length data)%nat ->
  payload_source payload room lines_read = Undef OutOfBounds.
Proof.
  intros Hd Hr. unfold payload_source. destruct (Nat.eqb_spec room 0); [lia|]. rewrite Hd.
  destruct (Nat.leb_spec (length data) room); [lia|done].
Qed.

Definition mail_demo_ident : xAPIdent := mkIdent (str "dbzoo.wombat.Mail") (str "FF00E100") 3640 (str "10.0.0.1").
Definition mail_demo_smtp : smtp := mkSmtp (str "smtp://mail") (str "me@dbzoo.com") (str "Me") (str "secret").
Definition mail_demo : message :=
  [mkBlock (str "xap-header") [(str "uid", str "FF00DF00"); (str "source", str "dbzoo.livebox.test");
                               (str "target", str "dbzoo.wombat.Mail"); (str "class", str "email")];
   mkBlock (str "message") [(str "to", str "brett@dbzoo.com"); (str "subject", str "Email test from xAP"); (str "text", str "Hello wombat")]].

Lemma mail_demo_receivable : receivable mail_demo.
Proof.
  split; [|split; [done|split; apply Nat.leb_le; reflexivity]].
  constructor; [wf_kvs|]. constructor; [wf_kvs|constructor].
Qed.

Lemma mail_demo_smtp_wf : smtp_wf mail_demo_smtp.
Proof. split; [by apply text_wf_str|split; [by apply text_wf_str|split; apply Nat.leb_le; reflexivity]]. Qed.


Lemma mail_no_feedback_witness :
  exists d', mail_main mail_demo_ident mail_demo_smtp true [] 0 (Some (print_msg (report mail_demo_ident 7)))
               (mkDaemon (load_packet []) (mkMailer [] [])) = Ok d' /\ d_state d' = mkMailer [] [].
Proof.
  apply (mail_no_feedback mail_demo_ident mail_demo_smtp true [] 7 0 (mkDaemon (load_packet []) (mkMailer [] []))).
  - split; [|split; [done|split; apply Nat.leb_le; reflexivity]].
    constructor; [wf_kvs|]. constructor; [wf_kvs|constructor].
  - by apply load_packet_sized; simpl; lia.
Defined.

Lemma payload_source_overrun_witness :
  payload_source (payload_text mail_demo_smtp (str "a") (str "b") (str "a longer body")) 8 4 = Undef OutOfBounds.
Proof. apply (payload_source_overrun _ (str "a longer body" ++ [10])); [done|]. split; apply Nat.leb_le; reflexivity. Defined.
