(* ===== verification/Calendar.v ===== *)
(** * The Google calendar adaptor (xap-googlecal/googlecal.c)

    Every minute the adaptor goes through the events of the calendar and puts
    those marked for it on the bus, either the message in the description of the
    event or its title as an alias; messages of the bus add events.  libgcal, the
    parser of dates (svn_date.c, of Subversion) and the calendar arithmetic of the
    C library are parameters.  The theorems: which packets a round sends, that the
    time of an event does not matter, what an added event is, and that an event
    added without a place never fires. *)

From S2P Require Import Prelude UtList Strings Frame Wire Filter Timeout Xap Hub MinIni Bsc Urf Termios Serial Startup Tools Jsmn Twitter.

Definition EVENT_FREQ : Z := 60.
Definition DEF_POLL_FREQ : Z := 60.

(** An event of libgcal as its accessors give it; [None] is NULL. *)
Record gcal_event := mkEvent {
  ev_title : option cstr;
  ev_content : option cstr;
  ev_where : option cstr;
  ev_start : cstr;
  ev_end : cstr;
}.

(** The events fetched, with NULL where [gcal_event_element] fails; what was
    added to the calendar; the packets sent. *)
Record calendar := mkCalendar {
  events : list (option gcal_event);
  added : list gcal_event;
  bus : list cstr;
}.

Definition send (p : cstr) (w : calendar) : calendar := mkCalendar (events w) (added w) (bus w ++ [p]).

Section Adaptor.
Context (x : xAPIdent).
(** The parser of dates: the text and the current time; [None] is a failure. *)
Context (svn_parse_date : cstr -> Z -> option Z).
(** The date and time of a moment in Greenwich, in ISO 8601 with the suffix Z, and
    the offset of local time at a moment. *)
Context (gm_iso8601 : Z -> cstr) (tz : Z -> Z).
(** The uninitialised frame of [fillShortXap]. *)
Context (f0 : xAPFrame).

(** [text] is the formatted argument. *)
Definition internalError (text : cstr) (w : calendar) : out calendar :=
  let head := line "xap-header" ++ line "{" ++ line "v=12" ++ line "hop=1" ++ str "uid=" ++ uid x ++ [10] ++
    line "class=google.calendar" ++ str "source=" ++ source x ++ [10] ++ line "}" ++
    line "error" ++ line "{" ++ str "text=" in
  t ← sprintf_buf XAP_DATA_LEN head;
  t ← sb_append XAP_DATA_LEN t text;
  t ← sb_append XAP_DATA_LEN t ([10] ++ line "}");
  Ok (if Z.of_nat (length t) <? XAP_DATA_LEN then send t w else w).

(** The packet of an event that fires; [fillShortXap] may refuse a description. *)
Definition event_packet (e : gcal_event) : out (option cstr) :=
  match ev_content e with
  | Some (c :: r) => fillShortXap x f0 (c :: r)
  | _ => Ok (Some (snprintf 1500 (alias_msg x (pstr (ev_title e)))))
  end.

(** The body of the loop of [googleEventCheck] for an event. *)
Definition check_event (curtime : Z) (e : gcal_event) (w : calendar) : out calendar :=
  match svn_parse_date (ev_start e) curtime with
  | None => internalError (str "Error parsing START date: " ++ ev_start e) w
  | Some start_time =>
      match svn_parse_date (ev_end e) curtime with
      | None => internalError (str "Error parsing END date: " ++ ev_end e) w
      | Some stop_time =>
          if (curtime <? start_time) && (stop_time <? curtime) then Ok w else
          wh ← of_opt NullDeref (ev_where e);
          if negb (strcasecmp0 (str "xap") wh) then Ok w else
          xapmsg ← event_packet e;
          Ok match xapmsg with Some m => send m w | None => w end
      end
  end.

Fixpoint check_loop (curtime : Z) (l : list (option gcal_event)) (w : calendar) : out calendar :=
  match l with
  | Some e :: r => w ← check_event curtime e w; check_loop curtime r w
  | _ => Ok w
  end.

Definition googleEventCheck (curtime : Z) (w : calendar) : out calendar := check_loop curtime (events w) w.

(** The times of the query are those of the local clock at the minute, and
    [timezone] the suffix libgcal uses. *)
Definition get_offset_timestamp (local_minute : Z -> cstr) (timezone : option cstr) (curtime offset : Z) : cstr :=
  local_minute (curtime + offset) ++ match timezone with Some z => z | None => str "Z" end.

Definition query (local_minute : Z -> cstr) (timezone : option cstr) (curtime freq : Z) : cstr :=
  snprintf 256 (str "start-min=" ++ get_offset_timestamp local_minute timezone curtime 0 ++
    str "&start-max=" ++ get_offset_timestamp local_minute timezone curtime freq ++ str "&singleevents=true").

(** [answer]: what libgcal returns for the query, [None] when it fails. *)
Definition googlePeriodEventCheck (answer : option (list (option gcal_event))) (w : calendar) : calendar :=
  mkCalendar (match answer with Some l => l | None => [] end) (added w) (bus w).

(** [localtime] with the suffix of Greenwich. *)
Definition to_iso8601 (then_ : Z) : cstr := gm_iso8601 (then_ + tz then_).

(** The moment and its text; [None] is NULL. *)
Definition normalize_date (keyword : string) (dateExpr : option cstr) (now : Z) (w : calendar)
    : out (option (Z * cstr) * calendar) :=
  match dateExpr with
  | None => Ok (None, w)
  | Some d =>
      match svn_parse_date d now with
      | None =>
          w ← internalError (str "unable to parse " ++ str keyword ++ str " date: '" ++ d ++ str "'") w;
          Ok (None, w)
      | Some t => Ok (Some (t, to_iso8601 t), w)
      end
  end.

(** [new_ok]: an event can be created; [add_ok]: the service accepts it. *)
Definition recordEvent (now : Z) (new_ok add_ok : bool) (f : xAPFrame) (w : calendar) : out calendar :=
  let get k := xapGetValueF f (str "event") (Some (str k)) in
  title ← get "title"%string;
  start ← get "start"%string;
  end_ ← get "end"%string;
  description ← get "description"%string;
  where_ ← get "where"%string;
  '(s, w) ← normalize_date "START" start now w;
  match s with
  | None => Ok w
  | Some (startTime, normalizedStart) =>
      '(e, w) ← normalize_date "END" end_ now w;
      let normalizedEnd := match e with Some (_, t) => t | None => to_iso8601 (startTime + EVENT_FREQ) end in
      if new_ok then
        let ev := mkEvent title description (Some (match where_ with None => str "xap-event" | Some v => v end))
                    normalizedStart normalizedEnd in
        if add_ok then Ok (mkCalendar (events w) (added w ++ [ev]) (bus w))
        else internalError (str "Failed adding a new event") w
      else internalError (str "gcal_event_new() failed") w
  end.

(** The filters of [main]. *)
Definition calendar_filters : list xAPFilter :=
  let f := xapAddFilter [] (str "xap-header") (str "target") (source x) in
  let f := xapAddFilter f (str "xap-header") (str "class") (str "google.calendar") in
  let f := xapAddFilter f (str "event") (str "title") XAP_FILTER_ANY in
  xapAddFilter f (str "event") (str "start") XAP_FILTER_ANY.

Definition calendar_main (now : Z) (new_ok add_ok : bool) : option (list Z) -> daemon calendar -> out (daemon calendar) :=
  on_packet calendar_filters (recordEvent now new_ok add_ok).

End Adaptor.

(** ** Settings *)

Definition validatePollingFrequency (newFreq : Z) : Z :=
  if (newFreq <? DEF_POLL_FREQ) || (60 * 60 * 24 <? newFreq) then DEF_POLL_FREQ else newFreq.

Record gcal_opts := mkGcal { username : cstr; password : option cstr; freq : Z }.

Definition setupXAPini (inifile : cstr) (writable : cstr -> bool) (fs : gmap (list Z) (list Z))
    : out (gcal_opts * gmap (list Z) (list Z)) :=
  let f := validatePollingFrequency (ini_getl (Some (str "googlecal")) (Some (str "ufreq")) DEF_POLL_FREQ (fs !! inifile)) in
  let u := snd (ini_gets (Some (str "googlecal")) (Some (str "user")) [] [] 64 (fs !! inifile)) in
  '(p, fs) ← getINIPassword (str "googlecal") (str "passwd") inifile writable fs;
  Ok (mkGcal u p f, fs).

(** The second pass over the command line. *)
Fixpoint override (argv : list cstr) (o : gcal_opts) : out gcal_opts :=
  match argv with
  | [] => Ok o
  | a :: r =>
      if is_opt "-u" "--username" a then
        match r with [] => Undef NullDeref | v :: r => override r (mkGcal (take 63 v) (password o) (freq o)) end
      else if is_opt "-p" "--password" a then
        match r with [] => Undef NullDeref | v :: r => override r (mkGcal (username o) (Some v) (freq o)) end
      else if is_opt "-f" "--freq" a then
        match r with [] => Undef NullDeref | v :: r => override r (mkGcal (username o) (password o) (validatePollingFrequency (atoi v))) end
      else override r o
  end.

(** The checks before the program connects; the length of a missing password is
    asked of a NULL pointer. *)
Definition check_options (o : gcal_opts) : out gcal_opts :=
  match username o with
  | [] => Die
  | _ =>
      p ← of_opt NullDeref (password o);
      match p with [] => Die | _ => Ok o end
  end.

Definition calendar_options (argv : list cstr) (inifile : cstr) (writable : cstr -> bool) (fs : gmap (list Z) (list Z)) : out gcal_opts :=
  '(o, _) ← setupXAPini inifile writable fs;
  o ← override argv o;
  check_options o.

(** * Properties *)

Section AdaptorProps.
Context (x : xAPIdent) (svn_parse_date : cstr -> Z -> option Z) (f0 : xAPFrame).

(** What an event puts on the bus when it fires. *)
Inductive event_sends (e : gcal_event) : list cstr -> Prop :=
| es_other wh : ev_where e = Some wh -> lower wh <> str "xap" -> event_sends e []
| es_alias wh :
    ev_where e = Some wh -> lower wh = str "xap" -> (ev_content e = None \/ ev_content e = Some []) ->
    event_sends e [snprintf 1500 (alias_msg x (pstr (ev_title e)))]
| es_refused wh m :
    ev_where e = Some wh -> lower wh = str "xap" -> ev_content e = Some (print_msg m) -> receivable m ->
    in_header m "class" = None -> event_sends e []
| es_message wh m class :
    ev_where e = Some wh -> lower wh = str "xap" -> ev_content e = Some (print_msg m) -> receivable m ->
    in_header m "class" = Some class ->
    (length (print_msg (full_header x class (in_header m "target") :: kept (Some (str "xap-header")) m)) < 1500)%nat ->
    event_sends e [print_msg (full_header x class (in_header m "target") :: kept (Some (str "xap-header")) m)].

(** The dates of an event can be read and are in order. *)
Definition dated (e : gcal_event) : Prop := forall now,
  exists a b, svn_parse_date (ev_start e) now = Some a /\ svn_parse_date (ev_end e) now = Some b /\ a <= b.

Lemma is_xap wh : lower wh = str "xap" -> strcasecmp0 (str "xap") wh = true.
Proof. intros H. by apply strcasecmp0_lit. Qed.

Lemma not_xap wh : lower wh <> str "xap" -> strcasecmp0 (str "xap") wh = false.
Proof. intros H. apply not_true_iff_false. intros Ht. by apply strcasecmp0_lit in Ht. Qed.

Lemma print_msg_cons m : m <> [] -> msg_wf m -> exists c r, print_msg m = c :: r.
Proof.
  destruct m as [|b m]; [done|]. intros _ [[(_ & _ & Hn) _] _]%Forall_cons. unfold print_msg. cbn [map concat]. unfold print_block.
  destruct (b_name b) as [|c r]; [done|]. rewrite <- !app_assoc. cbn [app]. eauto.
Qed.

Lemma content_packet e m :
  frame_sized f0 -> ev_content e = Some (print_msg m) -> receivable m -> event_packet x f0 e = fillShortXap x f0 (print_msg m).
Proof.
  intros Hf Hc (Hm & Hne & _). unfold event_packet. rewrite Hc. by destruct (print_msg_cons m Hne Hm) as (c & r & ->).
Qed.

Lemma check_event_sends e ps now w :
  frame_sized f0 -> dated e -> event_sends e ps ->
  check_event x svn_parse_date f0 now e w = Ok (mkCalendar (events w) (added w) (bus w ++ ps)).
Proof.
  intros Hf Hd Hs. destruct (Hd now) as (a & b & Ha & Hb & Hab). unfold check_event. rewrite Ha, Hb.
  destruct (Z.ltb_spec now a), (Z.ltb_spec b now); cbn [andb]; try lia;
  (destruct Hs as [wh Hw Hx|wh Hw Hx Hc|wh m Hw Hx Hc Hm Hcl|wh m class Hw Hx Hc Hm Hcl HL]; rewrite Hw; cbn [of_opt]; rewrite bind_Ok;
   [rewrite not_xap by done; cbn [negb]; rewrite app_nil_r; by destruct w| | |]; rewrite is_xap by done; cbn [negb];
   [unfold event_packet; destruct Hc as [-> | ->]; by rewrite bind_Ok| |];
   rewrite (content_packet e m) by done; destruct Hm as (Hm & _ & HL1 & HL2);
   pose proof (fill_short_eq x f0 m Hf Hm HL1 HL2) as Hfill; cbv zeta in Hfill;
   fold (in_header m "class") (in_header m "target") in Hfill; rewrite Hcl in Hfill;
   [rewrite Hfill, bind_Ok, app_nil_r; by destruct w|rewrite Hfill by done; by rewrite bind_Ok]).
Qed.

Lemma check_loop_sends l ps now w :
  frame_sized f0 -> Forall dated l -> Forall2 event_sends l ps ->
  check_loop x svn_parse_date f0 now (map Some l) w = Ok (mkCalendar (events w) (added w) (bus w ++ concat ps)).
Proof.
  intros Hf Hd Hs. revert w. induction Hs as [|e p l ps He _ IH]; intros w; cbn [map check_loop concat].
  - rewrite app_nil_r. by destruct w.
  - apply Forall_cons in Hd as [He1 Hd]. rewrite (check_event_sends e p) by done. rewrite bind_Ok, IH by done.
    cbn [events added bus]. by rewrite app_assoc.
Qed.

End AdaptorProps.

(** A round over events whose dates can be read and are in order sends, for each
    event in the calendar's order, its packet when its place is [xap] and nothing
    otherwise: the message of the description completed with a full header, or
    the title as an alias.  This holds at every time [now]: the test that should
    hold back events outside their period never does. *)
Theorem googleEventCheck_spec (x : xAPIdent) (svn_parse_date : cstr -> Z -> option Z) (f0 : xAPFrame)
    (l : list gcal_event) (ps : list (list cstr)) (now : Z) (w : calendar) :
  frame_sized f0 -> Forall (dated svn_parse_date) l -> Forall2 (event_sends x) l ps -> events w = map Some l ->
  googleEventCheck x svn_parse_date f0 now w = Ok (mkCalendar (events w) (added w) (bus w ++ concat ps)).
Proof. intros Hf Hd Hs Hw. unfold googleEventCheck. rewrite Hw at 1. by apply check_loop_sends. Qed.

Definition event_field (m : message) (k : string) : option cstr := entries_lookup (msg_entries m) (str "event") (Some (str k)).

(** The event a message asks for. *)
Definition event_of (gm_iso8601 : Z -> cstr) (tz : Z -> Z) (m : message) (t : Z) (e : option Z) : gcal_event :=
  mkEvent (event_field m "title") (event_field m "description")
    (Some (match event_field m "where" with Some v => v | None => str "xap-event" end))
    (to_iso8601 gm_iso8601 tz t)
    (to_iso8601 gm_iso8601 tz (match e with Some e => e | None => t + EVENT_FREQ end)).

Lemma recordEvent_eq x parse gm tz now m f w s t e :
  receivable m -> event_field m "start" = Some s -> parse s now = Some t ->
  match event_field m "end" with None => e = None | Some d => parse d now = e /\ e <> None end ->
  recordEvent x parse gm tz now true true (received m f) w
  = Ok (mkCalendar (events w) (added w ++ [event_of gm tz m t e]) (bus w)).
Proof.
  intros Hm Hs Ht He. pose proof (received_rep m f Hm) as Hrep. unfold recordEvent. cbv zeta.
  rewrite !(get_value_rep _ (msg_entries m)) by done. rewrite !bind_Ok.
  fold (event_field m "title") (event_field m "start") (event_field m "end") (event_field m "description") (event_field m "where").
  rewrite Hs. cbn [normalize_date]. rewrite Ht, bind_Ok. unfold event_of.
  destruct (event_field m "end") as [d|]; cbn [normalize_date].
  - destruct He as [He Hne]. rewrite He. destruct e as [e|]; [|done]. by rewrite bind_Ok.
  - rewrite bind_Ok. by subst e.
Qed.

(** A message for the adaptor with a start it can read adds one event: title and
    description of the message, the place of the message or [xap-event], and the
    dates written out, the end a minute after the start when the message gives
    none.  Local time is written as Greenwich time: read back, the dates of the
    event are off by the time zone. *)
Theorem recordEvent_spec (x : xAPIdent) (parse : cstr -> Z -> option Z) (gm : Z -> cstr) (tz : Z -> Z)
    (now : Z) (m : message) (d : daemon calendar) (s : cstr) (t : Z) (e : option Z) :
  receivable m -> frame_sized (d_frame d) -> chain_match (msg_entries m) (calendar_filters x) = true ->
  event_field m "start" = Some s -> parse s now = Some t ->
  match event_field m "end" with None => e = None | Some d => parse d now = e /\ e <> None end ->
  (forall u now, parse (gm u) now = Some u) ->
  exists d', calendar_main x parse gm tz now true true (Some (print_msg m)) d = Ok d' /\
    d_state d' = mkCalendar (events (d_state d)) (added (d_state d) ++ [event_of gm tz m t e]) (bus (d_state d)) /\
    parse (ev_start (event_of gm tz m t e)) now = Some (t + tz t).
Proof.
  intros Hm Hd Hc Hs Ht He Hgm. unfold calendar_main. rewrite on_packet_print by done. cbv zeta. rewrite Hc.
  rewrite (recordEvent_eq x parse gm tz now m _ _ s t e) by done. rewrite bind_Ok. eexists. split; [done|]. split; [done|].
  cbn [event_of ev_start]. unfold to_iso8601. by rewrite Hgm.
Qed.

(** An event added for a message that names no place is never put on the bus:
    the adaptor marks it [xap-event] and looks for [xap].  With the place [xap]
    and no description its title is sent as an alias. *)
Theorem recorded_event_fires (x : xAPIdent) (parse : cstr -> Z -> option Z) (gm : Z -> cstr) (tz : Z -> Z)
    (f0 : xAPFrame) (m : message) (t now : Z) (e : option Z) (w : calendar) :
  frame_sized f0 -> (forall u now, parse (gm u) now = Some u) ->
  (forall a b, a <= b -> a + tz a <= b + tz b) -> t <= match e with Some e => e | None => t end ->
  events w = [Some (event_of gm tz m t e)] ->
  (event_field m "where" = None -> googleEventCheck x parse f0 now w = Ok w) /\
  (forall wh, event_field m "where" = Some wh -> lower wh = str "xap" -> event_field m "description" = None ->
     googleEventCheck x parse f0 now w
     = Ok (mkCalendar (events w) (added w) (bus w ++ [snprintf 1500 (alias_msg x (pstr (event_field m "title")))]))).
Proof.
  intros Hf Hgm Htz Hte Hw.
  assert (Hd : Forall (dated parse) [event_of gm tz m t e]).
  { constructor; [|constructor]. intros n. cbn [event_of ev_start ev_end]. unfold to_iso8601. rewrite !Hgm.
    eexists _, _. split; [done|]. split; [done|]. apply Htz. unfold EVENT_FREQ. destruct e; lia. }
  assert (Hrun : forall ps, event_sends x (event_of gm tz m t e) ps ->
    googleEventCheck x parse f0 now w = Ok (mkCalendar (events w) (added w) (bus w ++ ps))).
  { intros ps Hs. unfold googleEventCheck. rewrite Hw at 1.
    pose proof (check_loop_sends x parse f0 [_] [ps] now w Hf Hd ltac:(by repeat apply Forall2_cons_2 || apply Forall2_nil_2)) as H.
    cbn [map concat] in H. by rewrite app_nil_r in H. }
  split.
  - intros Hwh. rewrite (Hrun []); [rewrite app_nil_r; by destruct w|].
    apply es_other with (str "xap-event"); [|done]. cbn [event_of ev_where]. by rewrite Hwh.
  - intros wh Hwh Hx Hdesc. apply Hrun. apply es_alias with wh; [|done|by left].
    cbn [event_of ev_where]. by rewrite Hwh.
Qed.

(** Arguments other than the options of the second pass leave the settings. *)
Lemma override_other argv o :
  Forall (fun a => is_opt "-u" "--username" a = false /\ is_opt "-p" "--password" a = false /\ is_opt "-f" "--freq" a = false) argv ->
  override argv o = Ok o.
Proof. induction 1 as [|a argv (H1 & H2 & H3) _ IH]; [done|]. cbn [override]. by rewrite H1, H2, H3. Qed.

(** With a user but no password in the INI file and none on the command line the
    program reads through a NULL pointer; the message that the password has not
    been set up is never printed. *)
Theorem missing_password (argv : list cstr) (inifile : cstr) (writable : cstr -> bool) (fs : gmap (list Z) (list Z)) :
  snd (ini_gets (Some (str "googlecal")) (Some (str "user")) [] [] 64 (fs !! inifile)) <> [] ->
  fst (ini_gets (Some (str "googlecal")) (Some (str "passwd")) [] [] 64 (fs !! inifile)) = 0 ->
  Forall (fun a => is_opt "-u" "--username" a = false /\ is_opt "-p" "--password" a = false /\ is_opt "-f" "--freq" a = false) argv ->
  calendar_options argv inifile writable fs = Undef NullDeref.
Proof.
  intros Hu Hp Ha. unfold calendar_options, setupXAPini, getINIPassword.
  destruct (ini_gets (Some (str "googlecal")) (Some (str "passwd")) [] [] 64 (fs !! inifile)) as [n pw]. cbn [fst] in Hp. subst n.
  cbn [Z.eqb]. rewrite !bind_Ok, override_other by done. rewrite bind_Ok. unfold check_options. cbn [username password].
  by destruct (snd _).
Qed.

(** ** Examples *)

Definition cal_ident : xAPIdent := mkIdent (str "dbzoo.livebox.GoogleCal") (str "FF00DA00") 3640 (str "10.0.0.1").

(** Moments written in decimal. *)
Definition cal_parse (s : cstr) (now : Z) : option Z := Some (atoi s).

Definition cal_events : list gcal_event :=
  [mkEvent (Some (str "lamp on")) None (Some (str "XAP")) (str "100") (str "200");
   mkEvent (Some (str "dentist")) None (Some (str "town")) (str "100") (str "200");
   mkEvent (Some (str "lcd")) (Some (print_msg demo_msg)) (Some (str "xap")) (str "100") (str "100")].

Lemma cal_events_dated : Forall (dated cal_parse) cal_events.
Proof. repeat constructor; intros now; eexists _, _; (split; [reflexivity|]; split; [reflexivity|]; by apply Z.leb_le). Qed.

(** At time 7, long before their start. *)
Lemma googleEventCheck_spec_witness :
  exists p, googleEventCheck cal_ident cal_parse (load_packet []) 7 (mkCalendar (map Some cal_events) [] [])
    = Ok (mkCalendar (map Some cal_events) [] [alias_msg cal_ident (str "lamp on"); p]).
Proof.
  eexists. rewrite (googleEventCheck_spec cal_ident cal_parse (load_packet []) cal_events
    [[snprintf 1500 (alias_msg cal_ident (pstr (Some (str "lamp on"))))]; [];
     [print_msg (full_header cal_ident (str "xAPBSC.query") (Some (str "a.b.c:>")) :: kept (Some (str "xap-header")) demo_msg)]]).
  - reflexivity.
  - by apply load_packet_sized; simpl; lia.
  - apply cal_events_dated.
  - constructor; [|constructor; [|constructor; [|constructor]]].
    + exact (es_alias cal_ident (mkEvent (Some (str "lamp on")) None (Some (str "XAP")) (str "100") (str "200")) (str "XAP")
        eq_refl eq_refl (or_introl eq_refl)).
    + apply (es_other cal_ident _ (str "town")); [reflexivity|discriminate].
    + apply (es_message cal_ident _ (str "xap") demo_msg (str "xAPBSC.query")); [reflexivity|reflexivity|reflexivity| |reflexivity|].
      * split; [apply demo_msg_wf|split; [done|split; apply Nat.leb_le; reflexivity]].
      * apply Nat.ltb_lt. reflexivity.
  - reflexivity.
Defined.

Definition cal_request : message :=
  [mkBlock (str "xap-header") [(str "source", str "a.b.c"); (str "target", str "dbzoo.livebox.GoogleCal"); (str "class", str "google.calendar")];
   mkBlock (str "event") [(str "title", str "lamp on"); (str "start", str "500")]].

Lemma cal_request_receivable : receivable cal_request.
Proof.
  split; [|split; [done|split; apply Nat.leb_le; reflexivity]].
  constructor; [wf_kvs|]. constructor; [wf_kvs|constructor].
Qed.

(** Moments in decimal, read back. *)
Definition cal_read (s : cstr) (now : Z) : option Z :=
  match s with
  | c :: r => if c =? 45 then Some (- digits_val r) else Some (digits_val s)
  | [] => None
  end.

Lemma cal_read_fmt u now : cal_read (fmt_d u) now = Some u.
Proof.
  unfold fmt_d. destruct (Z.ltb_spec u 0).
  - cbn [cal_read Z.eqb Pos.eqb]. by rewrite digits_val_digits, Z.opp_involutive by lia.
  - pose proof (digits_val_digits u ltac:(lia)) as Hv. pose proof (digits_isdigit u ltac:(lia)) as Hd.
    destruct (map dec_char (digits 10 u)) as [|c r] eqn:Hm; [|cbn [cal_read]].
    + change (0 = u) in Hv. by subst u.
    + apply Forall_cons in Hd as [Hc _]. destruct (Z.eqb_spec c 45) as [->|]; [done|]. by rewrite Hv.
Qed.

Lemma recordEvent_spec_witness :
  exists d', calendar_main cal_ident cal_read fmt_d (fun _ => 3600) 7 true true (Some (print_msg cal_request))
      (mkDaemon (load_packet []) (mkCalendar [] [] [])) = Ok d' /\
    added (d_state d') = [mkEvent (Some (str "lamp on")) None (Some (str "xap-event")) (str "4100") (str "4160")].
Proof.
  destruct (recordEvent_spec cal_ident cal_read fmt_d (fun _ => 3600) 7 cal_request (mkDaemon (load_packet []) (mkCalendar [] [] []))
    (str "500") 500 None) as (d' & H1 & H2 & _).
  - apply cal_request_receivable.
  - by apply load_packet_sized; simpl; lia.
  - reflexivity.
  - reflexivity.
  - reflexivity.
  - reflexivity.
  - apply cal_read_fmt.
  - exists d'. split; [exact H1|]. rewrite H2. reflexivity.
Defined.

Lemma recorded_event_fires_witness :
  googleEventCheck cal_ident cal_read (load_packet []) 9
    (mkCalendar [Some (event_of fmt_d (fun _ => 3600) cal_request 500 None)] [] [])
  = Ok (mkCalendar [Some (event_of fmt_d (fun _ => 3600) cal_request 500 None)] [] []).
Proof.
  refine (proj1 (recorded_event_fires cal_ident cal_read fmt_d (fun _ => 3600) (load_packet []) cal_request 500 9 None _ _ _ _ _ _) _).
  - by apply load_packet_sized; simpl; lia.
  - apply cal_read_fmt.
  - intros a b Hab. lia.
  - lia.
  - reflexivity.
  - reflexivity.
Defined.

Lemma missing_password_witness :
  calendar_options [str "googlecal"] (str "ini") (fun _ => true)
    {[ str "ini" := line "[googlecal]" ++ line "user=me" ]} = Undef NullDeref.
Proof.
  apply missing_password.
  - vm_compute. discriminate.
  - vm_compute. reflexivity.
  - by repeat constructor.
Defined.
