(* ===== verification/WebClient.v ===== *)
(** * The library of the web pages (klone/liblivebox)

    The pages ask the controller over a local socket (comms.c, with the loop of
    xap-livebox/server.c at the other end) and read and write its INI file
    (utils.c).  The answers of the network are arguments.  The theorems: a request
    reaches the command handler of the controller and its answer the page; the
    firmware version arrives as the controller knows it; an answer that fills the
    buffer of the client is terminated outside it; lists of names are split at
    their commas; a form field that is submitted is what the next page reads. *)

From S2P Require Import Prelude UtList Strings Frame Wire Filter Timeout Xap MinIni Bsc Urf Termios Livebox Controller Server IServer IServerProps.

(** ** server.c: the connection *)

Section Connection.
Context (inifile : option (list Z)) (x : xAPIdent).
(** What the 512 bytes of the buffer hold before the [k]-th call of [recv]:
    nothing defined at first, later what the handler has left there. *)
Context (stale : nat -> list Z).

(** [recvs] are the results of [recv] before it returns 0: the bytes of a call,
    or an error, after which the old contents are handled again.  The answers,
    each as it is passed to [sendall], and the state. *)
Fixpoint svr_process (now : Z) (recvs : list (option (list Z))) (k : nat) (w : world) : out (list (list Z) * world) :=
  match recvs with
  | [] => Ok ([], w)
  | r :: rest =>
      let buff := match r with
                  | Some b => let b := take 512 b in b ++ drop (length b) (stale k)
                  | None => stale k
                  end in
      request ← of_opt OutOfBounds (cstr_at buff 0);
      '(reply, w) ← svr_answer inifile x now request w;
      '(replies, w) ← svr_process now rest (S k) w;
      Ok (reply :: replies, w)
  end.

(** A connection that is not accepted changes nothing. *)
Definition webHandler (now : Z) (recvs : option (list (option (list Z)))) (w : world) : out (list (list Z) * world) :=
  match recvs with None => Ok ([], w) | Some l => svr_process now l 0 w end.

End Connection.

(** ** comms.c *)

(** The result and the bytes sent. *)
Definition sendall (net : nat -> send_ev) (buf : list Z) : out (Z * list Z) :=
  let '(sent, _, n, _) := send_loop (length buf) net 0 [] buf None in
  n ← of_opt Uninitialised n;
  Ok (if n =? -1 then -1 else 0, sent).

(** Looking up the address and connecting to it; then the answers of [send] and
    the result of the one [recv]. *)
Inductive connection := NoAddress | Refused | Connected (net : nat -> send_ev) (reply : option (list Z)).

Definition BUF_SIZE : nat := 1024.

(** The string returned and the bytes sent. *)
Definition send_cmd (c : connection) (cmd : cstr) : out (cstr * list Z) :=
  match c with
  | NoAddress => Ok (str "getaddrinfo: fail", [])
  | Refused => Ok (str "?Err?", [])
  | Connected net reply =>
      '(s, sent) ← sendall net (cmd ++ [0]);
      if s =? -1 then Ok (str "partial send", sent) else
      match reply with
      | None => Undef OutOfBounds
      | Some b =>
          let b := take BUF_SIZE b in
          if (length b <? BUF_SIZE)%nat then Ok (match until0 b with Some t => t | None => b end, sent)
          else Undef OutOfBounds
      end
  end.

Definition query (c : connection) (type : cstr) (instance : Z) : out (cstr * list Z) :=
  cmd ← sprintf_buf 100 (str "query " ++ type ++ str "." ++ fmt_d instance);
  send_cmd c cmd.

(** The version, major and minor. *)
Definition getAVRfirmwareVersion (c : connection) : out (Z * Z) :=
  '(AVRfirmware, _) ← send_cmd c (str "version");
  Ok (if strcmp0 (str "?Err?") AVRfirmware then (1, 0)
      else match strchr AVRfirmware 46 with
           | None => (atoi AVRfirmware, 0)
           | Some i => (atoi (take i AVRfirmware), atoi (drop (S i) AVRfirmware))
           end).

(** ** utils.c *)

Definition upperstr (s : cstr) : cstr := map toupper s.

(** The loop of [commaTok]: [p] is the position, [arg] the offsets stored in an
    array of [arglen] pointers.  A round moves [p] by one, so that the length of
    the buffer bounds the rounds. *)
Fixpoint comma_loop (fuel arglen : nat) (buf : list Z) (p : nat) (arg : list nat) : out (list nat * list Z) :=
  match fuel with
  | O => Undef OutOfBounds
  | S f =>
      c ← of_opt OutOfBounds (buf !! p);
      '(arg, buf, full) ← (if c =? 44 then
                             if (length arg <? arglen)%nat
                             then Ok (arg ++ [S p], <[p := 0]> buf, (S (length arg) =? arglen)%nat)
                             else Undef OutOfBounds
                           else Ok (arg, buf, false));
      if (full : bool) then Ok (arg, buf) else
      c ← of_opt OutOfBounds (buf !! S p);
      if c =? 0 then Ok (arg, buf) else comma_loop f arglen buf (S p) arg
  end.

(** [buf] holds the string and its terminator. *)
Definition commaTok (arglen : nat) (buf : list Z) : out (list nat * list Z) :=
  if (0 <? arglen)%nat then comma_loop (length buf) arglen buf 0 [0%nat] else Undef OutOfBounds.

Section Pages.
Context (inifile : cstr) (writable : cstr -> bool).
(** The arguments of the request. *)
Context (request_get_arg : cstr -> option cstr).

Definition submit_statickey (section key : cstr) (fs : ini_fs) : out ini_fs :=
  let formKey := snprintf 20 (section ++ [46] ++ key) in
  match request_get_arg formKey with
  | Some value => '(_, fs) ← ini_puts (Some section) (Some key) (Some value) inifile writable fs; Ok fs
  | None => Ok fs
  end.

(** A pattern with one [%d] is the text around the number. *)
Definition dynkey (pattern : cstr * cstr) (id : Z) : cstr := snprintf 20 (fst pattern ++ fmt_d id ++ snd pattern).

Definition submit_dynkey (section : cstr) (pattern : cstr * cstr) (id : Z) (fs : ini_fs) : out ini_fs :=
  let iniKey := dynkey pattern id in
  match request_get_arg iniKey with
  | Some value => '(_, fs) ← ini_puts (Some section) (Some iniKey) (Some value) inifile writable fs; Ok fs
  | None => Ok fs
  end.

(** [for(i=1; i<=cnt; i++)] with [n] rounds left. *)
Fixpoint dynkeys_loop (n : nat) (section : cstr) (pattern : cstr * cstr) (i : Z) (fs : ini_fs) : out ini_fs :=
  match n with
  | O => Ok fs
  | S n => fs ← submit_dynkey section pattern i fs; dynkeys_loop n section pattern (i + 1) fs
  end.

Definition submit_dynkeys (section : cstr) (pattern : cstr * cstr) (cnt : Z) (fs : ini_fs) : out ini_fs :=
  dynkeys_loop (Z.to_nat cnt) section pattern 1 fs.

(** The string in the static array of 128 bytes. *)
Definition iniGetDynKeyWithDefault (section : cstr) (pattern : cstr * cstr) (id : Z) (dflt : cstr) (fs : ini_fs) : cstr :=
  let '(n, buf) := ini_gets (Some section) (Some (dynkey pattern id)) [] [] 128 (fs !! inifile) in
  if n =? 0 then snprintf 128 (dflt ++ fmt_d id) else buf.

Definition iniGetDynKey (section : cstr) (pattern : cstr * cstr) (id : Z) (fs : ini_fs) : cstr :=
  snd (ini_gets (Some section) (Some (dynkey pattern id)) [] [] 128 (fs !! inifile)).

(** No value is returned for any other name. *)
Definition iniGetDynLabel (name : cstr) (id : Z) (fs : ini_fs) : out cstr :=
  if strcmp0 name (str "sensor") then Ok (iniGetDynKeyWithDefault (str "1wire") (str "sensor", str ".label") id (str "Sensor ") fs)
  else if strcmp0 name (str "rf") then Ok (iniGetDynKeyWithDefault (str "rf") (str "rf", str ".label") id (str "RF ") fs)
  else if strcmp0 name (str "relay") then Ok (iniGetDynKeyWithDefault (str "relay") (str "relay", str ".label") id (str "Relay ") fs)
  else if strcmp0 name (str "input") then Ok (iniGetDynKeyWithDefault (str "input") (str "input", str ".label") id (str "Input ") fs)
  else if strcmp0 name (str "urfrx") then Ok (iniGetDynKeyWithDefault (str "urfrx") (str "rf", str ".label") id (str "RF ") fs)
  else Undef Uninitialised.

End Pages.

(** ** const.c *)

(** The trailing white space is overwritten from the end; nothing stops at the
    beginning. *)
Fixpoint trim_end (rs : cstr) : out cstr :=
  match rs with
  | [] => Undef OutOfBounds
  | c :: r => if isspace c then trim_end r else Ok (rev rs)
  end.

(** The build: the contents of the first of the two files that can be read. *)
Definition const_init (load : cstr -> option (list Z)) : out cstr :=
  match (match load (str "/etc_ro_fs/build") with Some f => Some f | None => load (str "/etc/xap.d/build") end) with
  | None => Ok (str "?")
  | Some file => trim_end (rev (c_text file))
  end.

(** * Properties *)

(** ** Requests *)

Lemma sendall_all net buf :
  buf <> [] -> (forall k, exists m, net k = SentN m) -> sendall net buf = Ok (0, buf).
Proof.
  intros Hne Hnet. unfold sendall. destruct (send_loop_all net buf Hne Hnet) as (m & Hm & ->). cbn [of_opt]. rewrite bind_Ok.
  destruct (Z.eqb_spec m (-1)); [lia|done].
Qed.

Lemma send_cmd_reply (net : nat -> send_ev) (cmd r : cstr) (rest : list Z) :
  (forall k, exists m, net k = SentN m) -> no_nul r -> (length (r ++ 0%Z :: rest) < 1024)%nat ->
  send_cmd (Connected net (Some (r ++ 0 :: rest))) cmd = Ok (r, cmd ++ [0]).
Proof.
  intros Hnet Hr HL. unfold send_cmd. rewrite sendall_all by (done || by destruct cmd). rewrite bind_Ok. cbn [Z.eqb].
  unfold BUF_SIZE. rewrite take_ge by lia. destruct (Nat.ltb_spec (length (r ++ 0 :: rest)) 1024); [|lia].
  pose proof (cstr_at_app [] r rest Hr) as H1. unfold cstr_at in H1. cbn [app length] in H1. rewrite drop_0 in H1. by rewrite H1.
Qed.

Lemma svr_process_one inifile x stale now cmd w :
  no_nul cmd -> (length cmd < 512)%nat ->
  svr_process inifile x stale now [Some (cmd ++ [0])] 0 w
  = '(reply, w) ← svr_answer inifile x now cmd w; Ok ([reply], w).
Proof.
  intros Hc HL. cbn [svr_process]. rewrite take_ge by (rewrite length_app; cbn [length]; lia).
  rewrite <- app_assoc. cbn [app]. pose proof (cstr_at_app [] cmd (drop (length (cmd ++ [0])) (stale 0%nat)) Hc) as H1.
  cbn [app length] in H1. rewrite H1. cbn [of_opt]. rewrite bind_Ok.
  destruct (svr_answer _ _ _ _ _) as [[reply w']| |]; [|done|done]. by rewrite !bind_Ok.
Qed.


(** An answer of 1023 characters, the longest table of sensors the controller
    builds, fills the buffer of the page, and its terminator is stored behind it;
    so is the terminator when reception fails. *)
Theorem web_reply_overrun (net : nat -> send_ev) (cmd : cstr) (reply : list Z) :
  (forall k, exists m, net k = SentN m) -> (1024 <= length reply)%nat ->
  send_cmd (Connected net (Some reply)) cmd = Undef OutOfBounds /\ send_cmd (Connected net None) cmd = Undef OutOfBounds.
Proof.
  intros Hnet HL. unfold send_cmd. rewrite sendall_all by (done || by destruct cmd). rewrite bind_Ok. cbn [Z.eqb].
  split; [|done]. rewrite length_take. unfold BUF_SIZE. destruct (Nat.ltb_spec (Nat.min 1024 (length reply)) 1024); [lia|done].
Qed.

Lemma fmt_d_no_dot a : 46 ∉ fmt_d a.
Proof. intros H. pose proof (fmt_d_chars a) as Hc. rewrite Forall_forall in Hc. by specialize (Hc _ H). Qed.

Lemma version_parts a b :
  strchr (fmt_d a ++ 46 :: fmt_d b) 46 = Some (length (fmt_d a)) /\
  take (length (fmt_d a)) (fmt_d a ++ 46 :: fmt_d b) = fmt_d a /\
  drop (S (length (fmt_d a))) (fmt_d a ++ 46 :: fmt_d b) = fmt_d b.
Proof.
  split; [|split].
  - apply strchr_app, fmt_d_no_dot.
  - by rewrite take_app_length.
  - rewrite drop_app_ge by lia. by replace (S (length (fmt_d a)) - length (fmt_d a))%nat with 1%nat by lia.
Qed.

(** The page gets the firmware version the controller knows, as two numbers,
    whenever the version fits the four bytes the controller prints it into. *)
Theorem firmware_version (inifile : option (list Z)) (x : xAPIdent) (stale : nat -> list Z) (now : Z) (net : nat -> send_ev) (w : world) :
  (forall k, exists m, net k = SentN m) -> int_range (firmwareMajor w) -> int_range (firmwareMinor w) ->
  Z.of_nat (length (fmt_d (firmwareMajor w) ++ [46] ++ fmt_d (firmwareMinor w))) < 4 ->
  exists reply, webHandler inifile x stale now (Some [Some (str "version" ++ [0])]) w = Ok ([reply], w) /\
    getAVRfirmwareVersion (Connected net (Some reply)) = Ok (firmwareMajor w, firmwareMinor w).
Proof.
  intros Hnet Ha Hb HL. set (r := fmt_d (firmwareMajor w) ++ [46] ++ fmt_d (firmwareMinor w)) in *. exists (r ++ [0]).
  assert (Hr : no_nul r).
  { repeat apply text_no_nul_app; try (apply text_no_nul, fmt_d_text). by repeat constructor. }
  split.
  - unfold webHandler. rewrite svr_process_one; [|by repeat constructor|apply Nat.ltb_lt; reflexivity].
    assert (Hh : msg_handler inifile x now (str "version") w = Ok (Some r, w)).
    { change (msg_handler inifile x now (str "version") w) with (p ← sprintf_buf 4 r; Ok (Some p, w)).
      unfold sprintf_buf. destruct (Z.ltb_spec (Z.of_nat (length r)) 4); [done|lia]. }
    unfold svr_answer. by rewrite Hh, !bind_Ok.
  - unfold getAVRfirmwareVersion. rewrite send_cmd_reply; [|done|done|rewrite length_app; cbn [length]; lia].
    rewrite bind_Ok. destruct (version_parts (firmwareMajor w) (firmwareMinor w)) as (H1 & H2 & H3).
    unfold strcmp0. rewrite bool_decide_false; [unfold r; cbn [app]; by rewrite H1, H2, H3, !atoi_fmt_d|].
    intros Hq. apply (f_equal length) in Hq. change (length (str "?Err?")) with 5%nat in Hq. fold r in Hq. lia.
Qed.

(** ** Lists *)

(** A string of names separated by commas, behind the first name. *)
Definition more (sep : Z) (ts : list cstr) : cstr := concat (map (fun t => sep :: t) ts).

(** The offsets of the names behind a name that ends at [b]. *)
Fixpoint offsets (b : nat) (ts : list cstr) : list nat :=
  match ts with [] => [] | t :: r => S b :: offsets (S b + length t) r end.

Definition item_ok (t : cstr) : Prop := 44 ∉ t /\ no_nul t.

Lemma comma_loop_run fuel arglen pre u ts rest args :
  item_ok u -> Forall item_ok ts -> u ++ more 44 ts <> [] -> (length args + length ts <= arglen)%nat ->
  (length (u ++ more 44 ts) <= fuel)%nat ->
  comma_loop fuel arglen (pre ++ u ++ more 44 ts ++ 0 :: rest) (length pre) args
  = Ok (args ++ offsets (length pre + length u) ts, pre ++ u ++ more 0 ts ++ 0 :: rest).
Proof.
  revert pre u ts args. induction fuel as [|f IH]; intros pre u ts args Hu Hts Hne Hlen Hf.
  { destruct (u ++ more 44 ts); [done|]. cbn [length] in Hf. lia. }
  cbn [comma_loop]. destruct u as [|c u].
  - destruct ts as [|t ts]; [done|]. cbn [app] in *. apply Forall_cons in Hts as [Ht Hts].
    change (more 44 (t :: ts)) with (44 :: t ++ more 44 ts) in *. change (more 0 (t :: ts)) with (0 :: t ++ more 0 ts).
    cbn [app] in *.
    rewrite <- !app_assoc. rewrite lookup_mid. cbn [of_opt]. rewrite bind_Ok, Z.eqb_refl.
    cbn [length] in Hlen. destruct (Nat.ltb_spec (length args) arglen); [|lia]. rewrite bind_Ok, insert_mid.
    rewrite Nat.add_0_r. cbn [offsets]. rewrite (app_cons_assoc pre 0).
    destruct (Nat.eqb_spec (S (length args)) arglen).
    + assert (ts = []) as -> by (destruct ts; [done|cbn [length] in *; lia]). cbn [more map concat app offsets]. by rewrite <- ?app_assoc.
    + replace (S (length pre)) with (length (pre ++ [0%Z])) by (rewrite length_app; cbn [length]; lia).
      destruct (decide (t ++ more 44 ts = [])) as [He|He].
      * apply app_eq_nil in He as [-> He]. destruct ts; [|done]. cbn [app more map concat offsets length]. rewrite lookup_mid. cbn [of_opt]. rewrite bind_Ok. by rewrite <- app_assoc.
      * destruct (t ++ more 44 ts ++ 0 :: rest) as [|c r] eqn:Hc; [by destruct t, (more 44 ts)|].
        rewrite lookup_mid. cbn [of_opt]. rewrite bind_Ok. rewrite <- Hc.
        assert (Hc0 : c <> 0).
        { destruct t as [|d t]; cbn [app] in Hc.
          - destruct ts as [|t' ts']; [done|]. by injection Hc as <- _.
          - injection Hc as <- _. destruct Ht as [_ Hn]. by apply Forall_cons in Hn as [? _]. }
        destruct (Z.eqb_spec c 0); [done|]. rewrite IH; [|done|done|done|rewrite length_app; cbn [length]; lia|cbn [length] in Hf; lia].
        rewrite <- !app_assoc. reflexivity.
  - destruct Hu as [Hc44 Hnn]. apply not_elem_of_cons in Hc44 as [Hc44 Hu44]. apply Forall_cons in Hnn as [Hc0 Hnn].
    cbn [app]. rewrite lookup_mid. cbn [of_opt]. rewrite bind_Ok. destruct (Z.eqb_spec c 44); [congruence|]. rewrite bind_Ok.
    rewrite (app_cons_assoc pre c). replace (S (length pre)) with (length (pre ++ [c])) by (rewrite length_app; cbn [length]; lia).
    destruct (decide (u ++ more 44 ts = [])) as [He|He].
    + apply app_eq_nil in He as [-> He]. destruct ts; [|done]. cbn [app more map concat offsets]. rewrite lookup_mid. cbn [of_opt].
      rewrite bind_Ok. cbn [Z.eqb]. rewrite app_nil_r, <- app_assoc. done.
    + destruct (u ++ more 44 ts ++ 0 :: rest) as [|d r] eqn:Hd; [by destruct u, (more 44 ts)|].
      rewrite lookup_mid. cbn [of_opt]. rewrite bind_Ok. rewrite <- Hd.
      assert (Hd0 : d <> 0).
      { destruct u as [|d' u]; cbn [app] in Hd.
        - destruct ts as [|t' ts']; [done|]. by injection Hd as <- _.
        - injection Hd as <- _. by apply Forall_cons in Hnn as [? _]. }
      destruct (Z.eqb_spec d 0); [done|]. rewrite IH; [|done|done|done|done|cbn [app length] in Hf; lia].
      rewrite <- !app_assoc. cbn [app length]. rewrite length_app. cbn [length].
      by replace (length pre + 1 + length u)%nat with (length pre + S (length u))%nat by lia.
Qed.

Lemma more_zero ts rest : exists q, more 0 ts ++ 0 :: rest = 0 :: q.
Proof. destruct ts as [|t ts]; cbn [more map concat app]; eauto. Qed.

Lemma offsets_strings pre u ts rest :
  Forall item_ok ts ->
  Forall2 (fun o t => cstr_at (pre ++ u ++ more 0 ts ++ 0 :: rest) o = Some t) (offsets (length pre + length u) ts) ts.
Proof.
  intros Hts. revert pre u. induction Hts as [|t ts [_ Ht] _ IH]; intros pre u; [constructor|]. cbn [offsets].
  change (more 0 (t :: ts)) with (0 :: t ++ more 0 ts). cbn [app].
  replace (pre ++ u ++ 0 :: (t ++ more 0 ts) ++ 0 :: rest) with ((pre ++ u ++ [0]) ++ t ++ more 0 ts ++ 0 :: rest)
    by (by rewrite <- !app_assoc).
  replace (S (length pre + length u)) with (length (pre ++ u ++ [0%Z])) by (rewrite !length_app; cbn [length]; lia).
  constructor; [|apply IH]. destruct (more_zero ts rest) as [q ->]. by apply cstr_at_app.
Qed.

(** A list of names without commas, not all of them empty, is split into these
    names: [commaTok] stores one pointer for each, to a string that is the name. *)
Theorem commaTok_spec (arglen : nat) (t : cstr) (ts : list cstr) (rest : list Z) :
  item_ok t -> Forall item_ok ts -> t ++ more 44 ts <> [] -> (length (t :: ts) <= arglen)%nat ->
  exists arg buf, commaTok arglen (t ++ more 44 ts ++ 0 :: rest) = Ok (arg, buf) /\
    Forall2 (fun o n => cstr_at buf o = Some n) arg (t :: ts).
Proof.
  intros Ht Hts Hne HL. cbn [length] in HL. unfold commaTok. destruct (Nat.ltb_spec 0 arglen); [|lia].
  pose proof (comma_loop_run (length (t ++ more 44 ts ++ 0 :: rest)) arglen [] t ts rest [0%nat] Ht Hts Hne) as Hrun.
  cbn [app length] in Hrun. rewrite Hrun; [|lia|rewrite !length_app; lia].
  eexists _, _. split; [done|]. constructor; [|by apply (offsets_strings [] t ts rest)].
  destruct (more_zero ts rest) as [q ->]. by apply (cstr_at_app []), Ht.
Qed.

Lemma commaTok_spec_witness :
  exists arg buf, commaTok 20 (str "index,config,login" ++ [0]) = Ok (arg, buf) /\
    Forall2 (fun o n => cstr_at buf o = Some n) arg [str "index"; str "config"; str "login"].
Proof.
  apply (commaTok_spec 20 (str "index") [str "config"; str "login"] []).
  - split; [by apply (bool_decide_eq_true_1 _)|by repeat constructor].
  - repeat constructor; try (by apply (bool_decide_eq_true_1 (_ ∉ _))); done.
  - done.
  - apply Nat.leb_le. reflexivity.
Defined.

(** The loop looks at the character behind the terminator of an empty string. *)
Theorem commaTok_empty (arglen : nat) :
  (0 < arglen)%nat -> commaTok arglen [0] = Undef OutOfBounds.
Proof. intros H. unfold commaTok. destruct (Nat.ltb_spec 0 arglen); [done|lia]. Qed.

(** ** Forms *)

(** A field of a form that is submitted is what the next page reads for it, and
    no other setting of the file changes. *)
Theorem submit_dynkey_read (inifile tmp : cstr) (writable : cstr -> bool) (request_get_arg : cstr -> option cstr)
    (section : cstr) (pattern : cstr * cstr) (id : Z) (v : cstr) (fs : ini_fs) (ls : list cstr) :
  fs !! inifile = Some (concat ls) -> Forall good ls -> ini_tempname inifile INI_BUFFERSIZE = Some tmp -> tmp <> inifile ->
  writable tmp = true -> section_ok section -> key_ok (dynkey pattern id) -> value_ok v -> (length v < 128)%nat ->
  tight (dynkey pattern id) (norm ls) -> request_get_arg (dynkey pattern id) = Some v ->
  exists fs', submit_dynkey inifile writable request_get_arg section pattern id fs = Ok fs' /\
    iniGetDynKey inifile section pattern id fs' = v /\
    forall section' pattern' id', section' <> [] ->
      strcasecmp0 section section' = false \/ strcasecmp0 (dynkey pattern id) (dynkey pattern' id') = false ->
      iniGetDynKey inifile section' pattern' id' fs' = iniGetDynKey inifile section' pattern' id' fs.
Proof.
  intros Hf Hg Ht Hne Hw Hs Hk Hv HL Htight Ha.
  assert (Hkl : (length (dynkey pattern id) + length v <= 500)%nat).
  { unfold dynkey, snprintf. rewrite length_take. lia. }
  destruct (ini_put_lookup section (dynkey pattern id) v inifile tmp writable fs ls) as (fs' & Hp & Hget & Ho & _); try done.
  exists fs'. unfold submit_dynkey, iniGetDynKey. cbv zeta. rewrite Ha, Hp, bind_Ok. split; [done|]. split.
  - by rewrite Hget by lia.
  - intros section' pattern' id' H1 H2. by rewrite Ho.
Qed.

(** ** The build *)

Lemma trim_end_spaces sp s c :
  Forall (fun c => isspace c = true) sp -> isspace c = false -> trim_end (rev ((s ++ [c]) ++ sp)) = Ok (s ++ [c]).
Proof.
  intros Hsp Hc. rewrite rev_app_distr. apply Forall_rev in Hsp. induction Hsp as [|d l Hd _ IH].
  - cbn [app]. rewrite rev_unit. cbn [trim_end]. rewrite Hc. cbn [rev]. by rewrite rev_involutive.
  - cbn [app trim_end]. by rewrite Hd, IH.
Qed.

(** The build shown by the pages is the text of the file without the white space
    at its end; of a file that holds nothing else, the bytes before the string
    are read. *)
Theorem const_init_spec (load : cstr -> option (list Z)) (text sp : cstr) (c : Z) :
  no_nul (text ++ [c]) -> isspace c = false -> Forall (fun c => isspace c = true) sp ->
  (load (str "/etc_ro_fs/build") = Some ((text ++ [c]) ++ sp) -> const_init load = Ok (text ++ [c])) /\
  (load (str "/etc_ro_fs/build") = Some sp -> const_init load = Undef OutOfBounds).
Proof.
  intros Hn Hc Hsp.
  assert (Hz : forall l, no_nul l -> c_text l = l).
  { intros l Hl. unfold c_text. apply take_while_all. eapply Forall_impl; [exact Hl|]. intros z Hz. cbn beta in Hz.
    destruct (Z.eqb_spec z 0); [done|done]. }
  assert (Hs : no_nul sp).
  { eapply Forall_impl; [exact Hsp|]. intros z Hz'. cbn beta in Hz'. intros ->. done. }
  split; intros Hl; unfold const_init; rewrite Hl, Hz by (done || by apply Forall_app).
  - by apply trim_end_spaces.
  - apply Forall_rev in Hsp. induction Hsp as [|d l Hd _ IH]; [done|]. cbn [trim_end]. by rewrite Hd.
Qed.

Lemma const_init_spec_witness :
  const_init (fun _ => Some (str "297 " ++ [10])) = Ok (str "297") /\ const_init (fun _ => Some [32; 10]) = Undef OutOfBounds.
Proof.
  split.
  - apply (proj1 (const_init_spec (fun _ => Some (str "297 " ++ [10])) (str "29") [32; 10] 55 ltac:(by repeat constructor) eq_refl
      ltac:(by repeat constructor))). reflexivity.
  - apply (proj2 (const_init_spec (fun _ => Some [32; 10]) (str "29") [32; 10] 55 ltac:(by repeat constructor) eq_refl
      ltac:(by repeat constructor))). reflexivity.
Defined.

(** ** Examples *)

(** A network that takes three bytes at a time. *)
Definition web_net (_ : nat) : send_ev := SentN 3.

Lemma web_net_sends : forall k, exists m, web_net k = SentN m.
Proof. intros k. by exists 3%nat. Qed.


Lemma web_reply_overrun_witness :
  send_cmd (Connected web_net (Some (replicate 1023 65 ++ [0]))) (str "1wireroms") = Undef OutOfBounds.
Proof. apply web_reply_overrun; [apply web_net_sends|]. apply Nat.leb_le. reflexivity. Defined.

Lemma firmware_version_witness :
  exists reply, webHandler None demo_xap (fun _ => []) 100 (Some [Some (str "version" ++ [0])]) (setFirmwareVersion 2 5 relay_world)
      = Ok ([reply], setFirmwareVersion 2 5 relay_world) /\
    getAVRfirmwareVersion (Connected web_net (Some reply)) = Ok (2, 5).
Proof.
  apply (firmware_version None demo_xap (fun _ => []) 100 web_net (setFirmwareVersion 2 5 relay_world)).
  - apply web_net_sends.
  - unfold int_range, INT_MIN, INT_MAX. cbn. lia.
  - unfold int_range, INT_MIN, INT_MAX. cbn. lia.
  - reflexivity.
Defined.

Lemma submit_dynkey_read_witness :
  exists fs', submit_dynkey (str "xap.ini") (fun _ => true) (fun _ => Some (str "Lamp")) (str "rf") (str "rf", str ".label") 2
      {[ str "xap.ini" := concat demo_lines ]} = Ok fs' /\
    iniGetDynKey (str "xap.ini") (str "rf") (str "rf", str ".label") 2 fs' = str "Lamp".
Proof.
  destruct (submit_dynkey_read (str "xap.ini") (str "xap.in~") (fun _ => true) (fun _ => Some (str "Lamp")) (str "rf")
    (str "rf", str ".label") 2 (str "Lamp") {[ str "xap.ini" := concat demo_lines ]} demo_lines) as (fs' & H1 & H2 & _).
  - by rewrite lookup_singleton_eq.
  - exact demo_lines_good.
  - reflexivity.
  - done.
  - reflexivity.
  - split; apply (bool_decide_eq_true_1 _); reflexivity.
  - split; try done; try (apply (bool_decide_eq_true_1 _); reflexivity).
  - split; try done; try (apply (bool_decide_eq_true_1 _); reflexivity).
  - apply Nat.ltb_lt. reflexivity.
  - apply (bool_decide_eq_true_1 (Forall _ _)). reflexivity.
  - reflexivity.
  - exists fs'. split; [exact H1|exact H2].
Defined.

Lemma commaTok_empty_witness : commaTok 20 [0] = Undef OutOfBounds.
Proof. apply (commaTok_empty 20). lia. Defined.
