(* ===== verification/Pachube.v ===== *)
(** * The HTTP client of the Xively adaptor (xap-xively/pachulib.c)

    The part of the client library the adaptor uses: a document is sent with one
    PUT request and the status of the response is read.  The answers of the
    network are arguments.  The theorems: a server that reads the header lines and
    then as many bytes as they announce gets the document, with one byte left
    over; the result of an update is the status of the response; and a response
    that fills the buffer is scanned past its end. *)

From S2P Require Import Prelude UtList Strings Frame Wire Filter Timeout Xap MinIni Bsc Urf IServer IServerProps Float Xively.

Definition MSG_MAX : nat := 1500.
Definition HOST : cstr := str "api.xively.com".
Definition RET_OK : Z := 200.
Definition crlf : cstr := [13; 10].

(** Whether all bytes went out, and the bytes that did. *)
Definition send_data (net : nat -> send_ev) (buffer : list Z) : bool * list Z :=
  let '(sent, rest, _, _) := send_loop (length buffer) net 0 [] buffer None in
  (bool_decide (rest = []), sent).

(** The loop of [read_data]: [recvs] are the results of [recv], an error or bytes;
    no bytes, or the end of the list, is the end of the connection.  The result
    and the bytes stored. *)
Fixpoint read_loop (recvs : list (option (list Z))) (acc : list Z) : bool * list Z :=
  if (MSG_MAX <=? length acc)%nat then (true, acc) else
  match recvs with
  | None :: _ => (false, acc)
  | Some (c :: b) :: r => read_loop r (acc ++ take (MSG_MAX - length acc) (c :: b))
  | Some [] :: _ | [] => (negb (length acc =? 0)%nat, acc)
  end.

(** The buffer is cleared first. *)
Definition read_data (recvs : list (option (list Z))) : bool * list Z :=
  let '(ok, acc) := read_loop recvs [] in (ok, acc ++ replicate (MSG_MAX - length acc) 0).

(** [sscanf(msg, "HTTP/1.1 %d*", ...)]: the number, if there is one. *)
Definition scan_number (s : cstr) : option Z :=
  let s := skip_while isspace s in
  let '(neg, s) := match s with c :: r => if c =? 45 then (true, r) else if c =? 43 then (false, r) else (false, s) | [] => (false, s) end in
  match take_while isdigit s with
  | [] => None
  | ds => Some (clamp_int (if neg : bool then - digits_val ds else digits_val ds))
  end.

Definition scan_status (s : cstr) : option Z :=
  if strncmp0 8 (str "HTTP/1.1") s then scan_number (drop 8 s) else None.

Definition recover_status (msg : list Z) : out bool :=
  s ← of_opt OutOfBounds (cstr_at msg 0);
  Ok (match scan_status s with Some c => c =? RET_OK | None => false end).

Definition put_head (env_id : Z) (format : cstr) (api_key : cstr) (len : nat) : cstr :=
  (str "PUT /v2/feeds/" ++ fmt_d env_id ++ str "." ++ format ++ str " HTTP/1.1") ++ crlf ++
  (str "Host: " ++ HOST) ++ crlf ++ (str "X-ApiKey: " ++ api_key) ++ crlf ++
  (str "Content-Length: " ++ fmt_d (Z.of_nat len)) ++ crlf ++ str "Connection: close" ++ crlf ++ crlf.

(** [conn] is [None] when no connection is made, otherwise the answers to the
    calls of [send] and [recv].  The test of the format assigns it and never
    fails.  The result and the bytes sent; the terminator of the string is sent
    with it. *)
Definition update_environment (conn : option ((nat -> send_ev) * list (option (list Z)))) (env_id : Z) (api_key environment : cstr)
    : out (bool * list Z) :=
  match conn with
  | None => Ok (false, [])
  | Some (net, recvs) =>
      msg ← sprintf_buf (Z.of_nat MSG_MAX) (put_head env_id (str "xml") api_key (length environment));
      let '(ok, sent) := send_data net (msg ++ environment ++ [0]) in
      if negb ok then Ok (false, sent) else
      let '(ok, msg) := read_data recvs in
      if negb ok then Ok (false, sent) else
      ok ← recover_status msg;
      Ok (ok, sent)
  end.

(** * Properties *)

(** ** What a server reads *)

(** A line up to its CR LF. *)
Fixpoint http_line (s : cstr) : option (cstr * cstr) :=
  match s with
  | 13 :: 10 :: r => Some ([], r)
  | c :: r => '(l, r) ← http_line r; Some (c :: l, r)
  | [] => None
  end.

(** The header lines up to the empty one, and what follows. *)
Fixpoint http_head (fuel : nat) (s : cstr) : option (list cstr * cstr) :=
  match fuel with
  | O => None
  | S f =>
      '(l, r) ← http_line s;
      match l with
      | [] => Some ([], r)
      | _ => '(ls, r) ← http_head f r; Some (l :: ls, r)
      end
  end.

Definition header_value (name : cstr) (ls : list cstr) : option cstr :=
  drop (length name) <$> List.find (fun l => strncmp0 (length name) name l) ls.

(** The request line, the key, the body and the bytes behind it. *)
Definition http_request (fuel : nat) (s : cstr) : option (cstr * cstr * cstr * cstr) :=
  '(ls, r) ← http_head fuel s;
  line ← head ls;
  key ← header_value (str "X-ApiKey: ") ls;
  n ← header_value (str "Content-Length: ") ls;
  Some (line, key, take (Z.to_nat (atoi n)) r, drop (Z.to_nat (atoi n)) r).

Lemma http_line_crlf l r : 13 ∉ l -> http_line (l ++ crlf ++ r) = Some (l, r).
Proof.
  induction l as [|c l IH]; intros Hl; [done|]. apply not_elem_of_cons in Hl as [Hc Hl].
  cbn [app http_line]. destruct (Z.eq_dec c 13) as [->|Hne]; [done|].
  rewrite IH by done. cbn.
  by repeat match goal with |- context [match ?z with _ => _ end] => is_var z; destruct z end.
Qed.

Definition head_line_ok (l : cstr) : Prop := l <> [] /\ 13 ∉ l.

Lemma http_head_lines ls r :
  Forall head_line_ok ls -> http_head (S (length ls)) (concat (map (fun l => l ++ crlf) ls) ++ crlf ++ r) = Some (ls, r).
Proof.
  induction 1 as [|l ls [Hne Hl] _ IH]; [done|]. cbn [length map concat]. rewrite <- !app_assoc.
  cbn [http_head]. rewrite http_line_crlf by done. cbn [mbind option_bind].
  destruct l as [|c l]; [done|]. cbn [http_head] in IH. rewrite IH. done.
Qed.

(** The lines of a request. *)
Definition put_lines (env_id : Z) (api_key : cstr) (len : nat) : list cstr :=
  [str "PUT /v2/feeds/" ++ fmt_d env_id ++ str ".xml HTTP/1.1"; str "Host: " ++ HOST; str "X-ApiKey: " ++ api_key;
   str "Content-Length: " ++ fmt_d (Z.of_nat len); str "Connection: close"].

Lemma put_head_lines env_id api_key len :
  put_head env_id (str "xml") api_key len = concat (map (fun l => l ++ crlf) (put_lines env_id api_key len)) ++ crlf.
Proof.
  unfold put_head, put_lines. cbn [map concat]. rewrite app_nil_r. repeat rewrite <- app_assoc. reflexivity.
Qed.

Lemma text_no_cr s : text_wf s -> 13 ∉ s.
Proof. intros Hs Hin. unfold text_wf in Hs. rewrite Forall_forall in Hs. specialize (Hs _ Hin). lia. Qed.

Lemma put_lines_ok env_id api_key len : text_wf api_key -> Forall head_line_ok (put_lines env_id api_key len).
Proof.
  intros Hk. unfold put_lines.
  repeat (apply Forall_cons; split); try (by apply Forall_nil); (split; [done|]); apply text_no_cr;
    repeat apply Forall_app_2; try done; try apply fmt_d_text; by apply text_wf_str.
Qed.

Lemma request_read env_id api_key env rest :
  text_wf api_key -> Z.of_nat (length env) <= INT_MAX ->
  http_request 6 (put_head env_id (str "xml") api_key (length env) ++ env ++ rest)
  = Some (str "PUT /v2/feeds/" ++ fmt_d env_id ++ str ".xml HTTP/1.1", api_key, env, rest).
Proof.
  intros Hk HL. unfold http_request. rewrite put_head_lines, <- app_assoc.
  change 6%nat with (S (length (put_lines env_id api_key (length env)))).
  rewrite http_head_lines by (by apply put_lines_ok). cbn [mbind option_bind head put_lines].
  assert (H1 : header_value (str "X-ApiKey: ") (put_lines env_id api_key (length env)) = Some api_key) by reflexivity.
  assert (H2 : header_value (str "Content-Length: ") (put_lines env_id api_key (length env)) = Some (fmt_d (Z.of_nat (length env))))
    by reflexivity.
  fold (put_lines env_id api_key (length env)). rewrite H1. cbn [mbind option_bind]. rewrite H2. cbn [mbind option_bind].
  rewrite atoi_fmt_d by (unfold int_range, INT_MIN; lia). rewrite Nat2Z.id.
  by rewrite take_app_length, drop_app_length.
Qed.

(** ** Responses *)

Lemma send_data_all net buf :
  buf <> [] -> (forall k, exists m, net k = SentN m) -> send_data net buf = (true, buf).
Proof.
  intros Hne Hnet. unfold send_data. by destruct (send_loop_all net buf Hne Hnet) as (m & Hm & ->).
Qed.

Lemma read_loop_chunks chunks acc :
  Forall (fun b => b <> []) chunks -> (length acc + length (concat chunks) < 1500)%nat ->
  read_loop (map Some chunks) acc = (negb (length (acc ++ concat chunks) =? 0)%nat, acc ++ concat chunks).
Proof.
  intros Hne. revert acc. induction Hne as [|b chunks Hb _ IH]; intros acc HL; cbn [map concat read_loop].
  - unfold MSG_MAX. destruct (Nat.leb_spec 1500 (length acc)); [cbn [concat length] in HL; lia|]. by rewrite app_nil_r.
  - cbn [concat] in HL. rewrite length_app in HL. unfold MSG_MAX. destruct (Nat.leb_spec 1500 (length acc)); [lia|].
    destruct b as [|c b]; [done|]. rewrite take_ge by (cbn [length] in *; lia).
    rewrite IH by (rewrite length_app; lia). by rewrite <- app_assoc.
Qed.

Lemma scan_status_code code rest :
  int_range code -> 0 <= code -> match rest with c :: _ => isdigit c = false | [] => True end ->
  scan_status (str "HTTP/1.1 " ++ fmt_d code ++ rest) = Some code.
Proof.
  intros Hc Hpos Hr. unfold scan_status. change (strncmp0 8 (str "HTTP/1.1") (str "HTTP/1.1 " ++ fmt_d code ++ rest)) with true.
  cbv iota. change (drop 8 (str "HTTP/1.1 " ++ fmt_d code ++ rest)) with (32 :: fmt_d code ++ rest).
  unfold fmt_d. destruct (Z.ltb_spec code 0); [lia|].
  pose proof (digits_isdigit code Hpos) as Hd. pose proof (digits_val_digits code Hpos) as Hv.
  destruct (map dec_char (digits 10 code)) as [|c r] eqn:Hm; [change (0 = code) in Hv; by subst code|].
  apply Forall_cons in Hd as [Hdc Hd]. unfold scan_number. cbn [skip_while app].
  change (isspace 32) with true. cbv iota. assert (Hs : isspace c = false) by (unfold isspace, isdigit in *; lia). rewrite Hs.
  destruct (Z.eqb_spec c 45) as [->|]; [done|]. destruct (Z.eqb_spec c 43) as [->|]; [done|].
  assert (Ht : take_while isdigit (c :: r ++ rest) = c :: r).
  { cbn [take_while]. rewrite Hdc. f_equal. clear -Hd Hr. induction Hd as [|d r Hd _ IH]; cbn [app take_while].
    - destruct rest as [|e rest]; [done|]. cbn [take_while]. by rewrite Hr.
    - by rewrite Hd, IH. }
  rewrite Ht, Hv. unfold clamp_int, int_range, INT_MIN, INT_MAX in *. f_equal. lia.
Qed.

Lemma recover_response code rest chunks :
  int_range code -> 0 <= code -> match rest with c :: _ => isdigit c = false | [] => True end -> no_nul rest ->
  Forall (fun b => b <> []) chunks -> concat chunks = str "HTTP/1.1 " ++ fmt_d code ++ rest -> (length (concat chunks) < 1500)%nat ->
  read_data (map Some chunks) = (true, concat chunks ++ replicate (1500 - length (concat chunks)) 0) /\
  recover_status (concat chunks ++ replicate (1500 - length (concat chunks)) 0) = Ok (code =? RET_OK).
Proof.
  intros Hc Hpos Hr Hnn Hne Hch HL. split.
  - unfold read_data. rewrite read_loop_chunks by done. cbn [app]. rewrite Hch. done.
  - unfold recover_status. destruct (1500 - length (concat chunks))%nat as [|k] eqn:Hk; [lia|]. cbn [replicate].
    assert (Hnul : no_nul (concat chunks)).
    { rewrite Hch. repeat apply text_no_nul_app; [by repeat constructor|apply text_no_nul, fmt_d_text|done]. }
    pose proof (cstr_at_app [] (concat chunks) (replicate k 0) Hnul) as Hs. cbn [app length] in Hs. rewrite Hs. cbn [of_opt].
    rewrite bind_Ok, Hch, scan_status_code by done. done.
Qed.

(** C37.  An update over a connection that takes its bytes, in pieces of any size, is
    one PUT request: a server that reads its header lines and then as many bytes
    as they announce gets the feed, the key and exactly the document, and is left
    with one more byte, the terminator of the string.  The result is whether the
    status of the response, in pieces of any size, is 200. *)
Theorem update_environment_spec (net : nat -> send_ev) (env_id : Z) (api_key env : cstr) (code : Z) (rest : cstr) (chunks : list (list Z)) :
  (forall k, exists m, net k = SentN m) -> text_wf api_key -> Z.of_nat (length env) <= INT_MAX ->
  (length (put_head env_id (str "xml") api_key (length env)) < 1500)%nat ->
  int_range code -> 0 <= code -> match rest with c :: _ => isdigit c = false | [] => True end -> no_nul rest ->
  Forall (fun b => b <> []) chunks -> concat chunks = str "HTTP/1.1 " ++ fmt_d code ++ rest -> (length (concat chunks) < 1500)%nat ->
  exists sent, update_environment (Some (net, map Some chunks)) env_id api_key env = Ok (code =? RET_OK, sent) /\
    http_request 6 sent = Some (str "PUT /v2/feeds/" ++ fmt_d env_id ++ str ".xml HTTP/1.1", api_key, env, [0]).
Proof.
  intros Hnet Hk HL Hh Hc Hpos Hr Hnn Hne Hch HL2. exists (put_head env_id (str "xml") api_key (length env) ++ env ++ [0]).
  split; [|by apply request_read]. unfold update_environment, sprintf_buf, MSG_MAX.
  destruct (Z.ltb_spec (Z.of_nat (length (put_head env_id (str "xml") api_key (length env)))) (Z.of_nat 1500)); [|lia].
  rewrite bind_Ok, send_data_all by (done || by destruct (put_head _ _ _ _), env). cbn [negb].
  destruct (recover_response code rest chunks) as [H1 H2]; try done. rewrite H1. cbn [negb]. by rewrite H2, bind_Ok.
Qed.

Lemma read_stop recvs acc : (1500 <= length acc)%nat -> read_loop recvs acc = (true, acc).
Proof. intros H. destruct recvs; cbn [read_loop]; unfold MSG_MAX; by destruct (Nat.leb_spec 1500 (length acc)); [|lia]. Qed.

Lemma read_data_full b : (1500 <= length b)%nat -> read_data [Some b] = (true, take 1500 b).
Proof.
  intros H. destruct b as [|c b]; [cbn [length] in H; lia|]. unfold read_data.
  change (read_loop [Some (c :: b)] []) with (read_loop [] (take 1500 (c :: b))).
  assert (Hl : length (take 1500 (c :: b)) = 1500%nat) by (rewrite length_take; lia).
  revert Hl. generalize (take 1500 (c :: b)). intros l Hl. rewrite read_stop by lia. rewrite Hl. unfold MSG_MAX.
  rewrite Nat.sub_diag. cbn [replicate]. by rewrite app_nil_r.
Qed.

(** A response of 1500 bytes or more leaves no terminator in the buffer: its
    status is scanned past the end. *)
Theorem response_overrun (net : nat -> send_ev) (env_id : Z) (api_key env : cstr) (b : list Z) :
  (forall k, exists m, net k = SentN m) -> no_nul b -> (1500 <= length b)%nat ->
  (length (put_head env_id (str "xml") api_key (length env)) < 1500)%nat ->
  update_environment (Some (net, [Some b])) env_id api_key env = Undef OutOfBounds.
Proof.
  intros Hnet Hb HL Hh. unfold update_environment, sprintf_buf, MSG_MAX.
  destruct (Z.ltb_spec (Z.of_nat (length (put_head env_id (str "xml") api_key (length env)))) (Z.of_nat 1500)); [|lia].
  rewrite bind_Ok, send_data_all by (done || by destruct (put_head _ _ _ _), env). cbn [negb].
  rewrite read_data_full by done. cbn [negb]. unfold recover_status, cstr_at. rewrite drop_0.
  destruct (until0 (take 1500 b)) as [s|] eqn:Hu; [|done]. apply until0_Some in Hu as (_ & q & Hq).
  assert (Hn : no_nul (take 1500 b)) by (by apply Forall_take). rewrite Hq in Hn.
  unfold no_nul in Hn. rewrite Forall_app, Forall_cons in Hn. naive_solver.
Qed.

Definition demo_net (_ : nat) : send_ev := SentN 700.

Lemma update_environment_spec_witness :
  exists sent, update_environment (Some (demo_net, [Some (str "HTTP/1.1 2"); Some (str "00 OK" ++ crlf)])) 1234 (str "key") (str "<eeml/>")
      = Ok (true, sent) /\
    http_request 6 sent = Some (str "PUT /v2/feeds/1234.xml HTTP/1.1", str "key", str "<eeml/>", [0]).
Proof.
  apply (update_environment_spec demo_net 1234 (str "key") (str "<eeml/>") 200 (str " OK" ++ crlf) [str "HTTP/1.1 2"; str "00 OK" ++ crlf]).
  - intros k. by exists 700%nat.
  - by apply text_wf_str.
  - apply Z.leb_le. reflexivity.
  - apply Nat.ltb_lt. reflexivity.
  - unfold int_range, INT_MIN, INT_MAX. lia.
  - lia.
  - reflexivity.
  - by repeat constructor.
  - by repeat constructor.
  - reflexivity.
  - apply Nat.ltb_lt. reflexivity.
Defined.

Lemma response_overrun_witness :
  update_environment (Some (demo_net, [Some (replicate 1500 65)])) 1234 (str "key") (str "<eeml/>") = Undef OutOfBounds.
Proof.
  apply response_overrun.
  - intros k. by exists 700%nat.
  - by apply Forall_replicate.
  - rewrite length_replicate. lia.
  - apply Nat.ltb_lt. reflexivity.
Defined.
