(* ===== verification/Receiver.v ===== *)
(** * The RF receiver as a program (xap-urfrx/rfrx.c)

    [main]: the command line, the endpoints and decoders of the INI file, and the
    three sources of pulses: lines that xap-serial puts on the bus, a serial port,
    or a file.  The answers of the operating system are arguments.  The theorems:
    what the program has set up in each case; that the lines of xap-serial for the
    port, and only those, reach the decoders; and that a line without a separator
    at its end runs into the next one. *)

From S2P Require Import Prelude UtList Strings Frame Wire Filter Timeout Xap Hub MinIni Bsc Urf Termios Serial Startup Tools.

Definition INFO_INTERVAL : Z := 120.
Definition B115200 : Z := 4098.

Record rf_opts := mkRf { rf_interface : option cstr; serialPort : option cstr; rf_loglevel : Z }.

(** The command line; an argument that is missing is NULL. *)
Fixpoint rf_args (argv : list cstr) (o : rf_opts) : out rf_opts :=
  match argv with
  | [] => Ok o
  | a :: r =>
      if is_opt "-i" "--interface" a then
        match r with
        | [] => Ok (mkRf None (serialPort o) (rf_loglevel o))
        | v :: r => rf_args r (mkRf (Some v) (serialPort o) (rf_loglevel o))
        end
      else if is_opt "-s" "--serial" a then
        match r with
        | [] => Ok (mkRf (rf_interface o) None (rf_loglevel o))
        | v :: r => rf_args r (mkRf (rf_interface o) (Some v) (rf_loglevel o))
        end
      else if is_opt "-d" "--debug" a then
        match r with
        | [] => Undef NullDeref
        | v :: r => rf_args r (mkRf (rf_interface o) (serialPort o) (atoi v))
        end
      else if is_opt "-h" "--help" a then Die
      else rf_args r o
  end.

(** [fd]: the result of [open]; [locked]: did [flock] succeed?  The descriptor
    and the attributes set on it. *)
Definition setupSerialPort (port : cstr) (fd : Z) (locked : bool) : out (Z * option termios) :=
  if strncmp0 5 port (str "/dev/") then
    if fd <? 0 then Die
    else if negb locked then Die
    else Ok (fd, Some (mkTermios IGNPAR (Z.lor B115200 (Z.lor CS8 (Z.lor CLOCAL CREAD)))))
  else if fd <? 0 then Die else Ok (fd, None).

(** The filters of the virtual port. *)
Definition virtual_filters (vSource port : cstr) : list xAPFilter :=
  let f := xapAddFilter [] (str "xap-header") (str "class") (str "serial.comms") in
  let f := xapAddFilter f (str "xap-header") (str "source") vSource in
  xapAddFilter f (str "serial.received") (str "port") port.

(** What [main] leads to: pulses from the bus, with the filters and the request
    that is sent; from a port; or from a file that is read to its end. *)
Inductive source_of_pulses :=
| FromBus (filters : list xAPFilter) (request : cstr)
| FromPort (fd : Z) (t : option termios)
| FromFile.

Section Main.
Context {CB IB FB TB A : Type} (inifile : option (list Z)) (x : xAPIdent).
Context (run_info : IB -> addr -> cstr -> bsc CB IB FB TB A -> out (bool * bsc CB IB FB TB A)).

(** The endpoints are registered with the library; the global pointers are NULL
    at the start. *)
Definition rfrx_main (argv : list cstr) (fd : Z) (locked : bool) (now : Z) (reads : list cstr)
    (w : urfrx CB IB FB TB A) : out (source_of_pulses * urfrx CB IB FB TB A) :=
  o ← rf_args argv (mkRf None (Some (str "/dev/ttyUSB0")) 3);
  '(vSerial, vSource, l, w) ← Startup.setupFromINI inifile [] w;
  b ← bscAddEndpointFilterList x l INFO_INTERVAL (bw w);
  let w := mkUrfrx (decoderList w) (buff w) b in
  if vSerial =? 1 then
    port ← of_opt NullDeref (serialPort o);
    Ok (FromBus (virtual_filters vSource port) (snprintf 1500 (urfrx_setup x vSource port)), w)
  else
    port ← of_opt NullDeref (serialPort o);
    '(fd, t) ← setupSerialPort port fd locked;
    if strncmp0 5 port (str "/dev/") then Ok (FromPort fd t, w)
    else w ← serialInputHandler run_info now reads w; Ok (FromFile, w).

End Main.

(** * Properties *)

(** ** The lines of xap-serial *)

(** The message of xap-serial for a line of a port. *)
Definition received_msg (x : xAPIdent) (port data : cstr) : message :=
  [full_header x (str "Serial.Comms") None; mkBlock (str "Serial.Received") [(str "port", port); (str "data", data)]].

Lemma received_msg_text x port data : print_msg (received_msg x port data) = received_text x port data.
Proof.
  unfold received_msg. rewrite fill_header_text. unfold received_text, comms_header, print_msg, print_block, print_kvs, print_kv, line.
  cbn [map concat b_name b_kvs fst snd]. rewrite !app_nil_r. repeat rewrite <- app_assoc. cbn [str app].
  repeat rewrite <- app_assoc. reflexivity.
Qed.

Lemma received_lookup x port data :
  entries_lookup (msg_entries (received_msg x port data)) (str "xap-header") (Some (str "class")) = Some (str "Serial.Comms") /\
  entries_lookup (msg_entries (received_msg x port data)) (str "xap-header") (Some (str "source")) = Some (source x) /\
  entries_lookup (msg_entries (received_msg x port data)) (str "serial.received") (Some (str "port")) = Some port /\
  entries_lookup (msg_entries (received_msg x port data)) (str "serial.received") (Some (str "data")) = Some data.
Proof. repeat split; reflexivity. Qed.

(** Text that is none of the words filters reserve. *)
Definition plain (s : cstr) : Prop := s <> XAP_FILTER_ABSENT /\ s <> XAP_FILTER_ANY.

Lemma filter_match_plain es f :
  plain (f_value f) ->
  filter_match es f = match entries_lookup es (f_section f) (Some (f_key f)) with None => false | Some v => compare_value f v end.
Proof. intros [H1 H2]. unfold filter_match, strcmp0. by rewrite !bool_decide_false. Qed.

(** The filters of the virtual port accept the lines of a port of xap-serial
    exactly when its source matches the configured one, which may hold wild
    cards, and the port is the configured one, up to letter case. *)
Theorem virtual_filters_spec (y : xAPIdent) (vSource port dev data : cstr) :
  plain vSource -> plain port ->
  print_msg (received_msg y dev data) = received_text y dev data /\
  chain_match (msg_entries (received_msg y dev data)) (virtual_filters vSource port)
  = strcasecmp0 dev port && xapFilterAddrSubaddress (Some vSource) (source y).
Proof.
  intros Hs Hp. split; [apply received_msg_text|].
  destruct (received_lookup y dev data) as (H1 & H2 & H3 & _).
  unfold chain_match, virtual_filters, xapAddFilter. cbn [forallb].
  rewrite !filter_match_plain by done. cbn [f_section f_key f_value]. rewrite H1, H2, H3.
  change (compare_value (mkFilter (str "xap-header") (str "class") (str "serial.comms")) (str "Serial.Comms")) with true.
  rewrite !andb_true_r. reflexivity.
Qed.

Section Lines.
Context {CB IB FB TB A : Type}.
Context (run_info : IB -> addr -> cstr -> bsc CB IB FB TB A -> out (bool * bsc CB IB FB TB A)).

Lemma vSerial_line now (w : urfrx CB IB FB TB A) y port d :
  frame_rep (bframe (bw w)) (msg_entries (received_msg y port (str "RFRX " ++ d))) ->
  vSerialHandler run_info now w = processSerial run_info now d None w.
Proof.
  intros Hf. unfold vSerialHandler. rewrite (get_value_rep _ _ _ _ Hf).
  destruct (received_lookup y port (str "RFRX " ++ d)) as (_ & _ & _ & ->). rewrite bind_Ok.
  reflexivity.
Qed.

(** Numbers that are each followed by a comma, then text without one. *)
Lemma process_numbers now ns s (w : urfrx CB IB FB TB A) :
  Forall number_ok ns -> buff w = [] -> Forall (fun c => num_char c = true) s -> (length s <= 9)%nat ->
  processSerial run_info now (serial_text ns ++ s) None w
  = ('(l, b) ← consume_numbers run_info now ns (decoderList w) (bw w); Ok (mkUrfrx l s b)).
Proof.
  intros Hns Hb Hs Hl. generalize (@None Z) as dur. revert w Hb. induction Hns as [|n ns Hn Hns IH]; intros w Hb dur.
  - cbn [serial_text map concat app consume_numbers]. rewrite <- (app_nil_r s) at 1. rewrite accumulate by (done || rewrite Hb; simpl; lia).
    rewrite Hb. done.
  - unfold serial_text. cbn [map concat]. fold (serial_text ns). rewrite <- !app_assoc.
    rewrite accumulate by (apply fmt_d_chars || (rewrite Hb; apply Hn)). rewrite Hb. cbn [app].
    rewrite (finish run_info now n) by done. cbn [decoderList bw consume_numbers]. rewrite bind_assoc.
    destruct (consume_all run_info now n (decoderList w) (bw w)) as [[l b]| |]; [|done|done]. cbn [mbind out_bind]. by rewrite IH.
Qed.

End Lines.

(** A line of pulses that ends without a separator, as the receiver's board sends
    them, leaves its last number behind: the digits of the next line are added to
    it.  When the two numbers together have ten characters, the buffer is overrun
    at the end of the second. *)
Theorem vserial_lines_merge {CB IB FB TB A : Type}
    (run_info : IB -> addr -> cstr -> bsc CB IB FB TB A -> out (bool * bsc CB IB FB TB A))
    (now : Z) (w : urfrx CB IB FB TB A) (y : xAPIdent) (port : cstr) (ns : list Z) (a b : Z) (rest : cstr)
    (l : list URFContext) (b1 : bsc CB IB FB TB A) (f : xAPFrame) :
  Forall number_ok ns -> number_ok a -> number_ok b -> buff w = [] ->
  (length (fmt_d a) + length (fmt_d b) = 10)%nat ->
  frame_rep (bframe (bw w)) (msg_entries (received_msg y port (str "RFRX " ++ serial_text ns ++ fmt_d a))) ->
  consume_numbers run_info now ns (decoderList w) (bw w) = Ok (l, b1) ->
  frame_rep f (msg_entries (received_msg y port (str "RFRX " ++ fmt_d b ++ [44] ++ rest))) ->
  vSerialHandler run_info now w = Ok (mkUrfrx l (fmt_d a) b1) /\
  vSerialHandler run_info now (mkUrfrx l (fmt_d a)
    (mkBsc (endpoints b1) (filters b1) (timeouts b1) f (Bsc.sent b1) (Bsc.id b1) (Bsc.next b1) (app_state b1))) = Undef OutOfBounds.
Proof.
  intros Hns Ha Hb Hbuf Hlen Hf1 Hc Hf2. split.
  - rewrite (vSerial_line run_info now w y port _ Hf1), process_numbers by (done || apply fmt_d_chars || apply Ha). by rewrite Hc.
  - set (b2 := mkBsc _ _ _ f _ _ _ _).
    rewrite (vSerial_line run_info now (mkUrfrx l (fmt_d a) b2) y port _ Hf2).
    pose proof (fmt_d_chars b) as Hch. pose proof (fmt_d_nonempty b) as Hne.
    destruct (fmt_d b) as [|z s _] using rev_ind; [done|]. apply Forall_app in Hch as [Hs Hz]. apply Forall_cons in Hz as [Hz _].
    rewrite length_app in Hlen. cbn [length] in Hlen. rewrite <- app_assoc.
    rewrite accumulate by (done || (cbn [buff]; lia)). cbn [app processSerial buff decoderList bw]. unfold num_char in Hz. rewrite Hz.
    rewrite length_app. destruct (Nat.ltb_spec (length (fmt_d a) + length s) 10); [|lia].
    cbn [processSerial buff]. change (isdigit 44 || (44 =? 45)) with false. cbn match. rewrite !length_app. cbn [length].
    destruct (Nat.eqb_spec (length (fmt_d a) + length s + 1) 0); [lia|].
    destruct (Nat.ltb_spec (length (fmt_d a) + length s + 1) 10); [lia|done].
Qed.

(** ** Examples *)

Definition rx_ident : xAPIdent := mkIdent (str "dbzoo.livebox.serial") (str "FF00D500") 3640 (str "10.0.0.1").
Definition rx_frame (data : string) : xAPFrame := received (received_msg rx_ident (str "/dev/ttyUSB0") (str data)) (load_packet []).
Definition rx_world (f : xAPFrame) : bsc unit unit unit unit unit := mkBsc {[ 1%positive := demo_rf ]} [] [] f [] 2 2 tt.

Lemma rx_receivable data :
  forallb (fun c => 32 <=? c) (str data) = true -> (length (str data) <= 100)%nat ->
  receivable (received_msg rx_ident (str "/dev/ttyUSB0") (str data)).
Proof.
  intros Hd Hl. split; [|split; [done|split; [|apply Nat.ltb_lt; reflexivity]]].
  - apply text_wf_str in Hd. constructor; [wf_kvs|]. constructor; [wf_kvs|constructor].
  - rewrite received_msg_text, received_length by (apply Nat.leb_le; reflexivity). unfold comms_header. rewrite !length_app.
    change (length (uid rx_ident)) with 8%nat. change (length (source rx_ident)) with 20%nat. change (length (str "/dev/ttyUSB0")) with 12%nat.
    repeat match goal with |- context [length (line ?s)] => let n := eval vm_compute in (length (line s)) in change (length (line s)) with n end.
    change (length (str "uid=")) with 4%nat. change (length (str "source=")) with 7%nat. cbn [length]. lia.
Qed.

Lemma virtual_filters_spec_witness :
  chain_match (msg_entries (received_msg rx_ident (str "/dev/ttyusb0") (str "RFRX 1,")))
    (virtual_filters (str "dbzoo.*.serial") (str "/dev/ttyUSB0")) = true.
Proof.
  destruct (virtual_filters_spec rx_ident (str "dbzoo.*.serial") (str "/dev/ttyUSB0") (str "/dev/ttyusb0") (str "RFRX 1,")) as [_ H];
    [done|done|]. rewrite H. reflexivity.
Defined.

Lemma vserial_lines_merge_witness :
  vSerialHandler (CB := unit) (IB := unit) (fun _ _ _ w => Ok (true, w)) 100 (mkUrfrx [] (str "1014") (rx_world (rx_frame "RFRX -10000,380,")))
  = Undef OutOfBounds.
Proof.
  apply (vserial_lines_merge (CB := unit) (IB := unit) (fun _ _ _ w => Ok (true, w)) 100
    (mkUrfrx [] [] (rx_world (rx_frame "RFRX -10000,380,1014"))) rx_ident (str "/dev/ttyUSB0") [-10000; 380] 1014 (-10000) (str "380,")
    [] (rx_world (rx_frame "RFRX -10000,380,1014")) (rx_frame "RFRX -10000,380,")).
  - repeat constructor; unfold INT_MIN, INT_MAX; try lia; apply Nat.leb_le; reflexivity.
  - split; [unfold int_range, INT_MIN, INT_MAX; lia|apply Nat.leb_le; reflexivity].
  - split; [unfold int_range, INT_MIN, INT_MAX; lia|apply Nat.leb_le; reflexivity].
  - reflexivity.
  - reflexivity.
  - apply received_rep. apply (rx_receivable "RFRX -10000,380,1014"); [reflexivity|apply Nat.leb_le; reflexivity].
  - reflexivity.
  - apply received_rep. apply (rx_receivable "RFRX -10000,380,"); [reflexivity|apply Nat.leb_le; reflexivity].
Defined.

Definition rx_start : urfrx unit unit unit unit unit := mkUrfrx [] [] (mkBsc ∅ [] [] (load_packet []) [] 1 1 tt).

(** The program with one device in its INI file, over the bus and from a port. *)
Example rfrx_main_examples :
  let ini v := Some (file_text [str "[urfrx]"; str v; str "devices=1"; str "rf1.on=01010177046504650177060127101900001500"]) in
  let run v argv := '(s, w) ← rfrx_main (ini v) rx_ident (fun _ _ _ w => Ok (true, w)) argv 5 true 100 [] rx_start;
                    Ok (s, length (decoderList w), length (filters (bw w))) in
  run "vserial=1"%string [str "rfrx"; str "-s"; str "/dev/ttyS1"]
    = Ok (FromBus (virtual_filters (str "dbzoo.livebox.serial") (str "/dev/ttyS1"))
            (urfrx_setup rx_ident (str "dbzoo.livebox.serial") (str "/dev/ttyS1")), 1%nat, 1%nat) /\
  run "vserial=0"%string [str "rfrx"]
    = Ok (FromPort 5 (Some (mkTermios 4 6322)), 1%nat, 1%nat) /\
  run "vserial=0"%string [str "rfrx"; str "--serial"] = Undef NullDeref.
Proof. vm_compute. split; [|split]; reflexivity. Qed.
