(* ===== verification/Options.v ===== *)
(** * The command line of the library (xaplib2/init.c, simpleCommandLine)

    Most programs read their command line with [simpleCommandLine], over
    [getopt_long] of the C library, which is modelled for the three options the
    code passes to it: options anywhere among other words, short options in one
    word, arguments in the same or the next word, long names abbreviated.  The
    theorem: however the settings are spelled, the program gets the last of each. *)

From S2P Require Import Prelude.

(** What a call of [getopt_long] returns; [Bad] is ['?'], an option that is
    unknown, ambiguous or without its argument. *)
Inductive opt_found := Interface (optarg : cstr) | Debug (optarg : cstr) | Help | Bad.

(** An option that takes an argument: the rest of its word or the next one. *)
Definition with_arg (mk : cstr -> opt_found) (word : option cstr) (rest : list cstr) : opt_found * list cstr :=
  match word, rest with
  | Some v, _ => (mk v, rest)
  | None, v :: r => (mk v, r)
  | None, [] => (Bad, [])
  end.

(** The letters of a word after its dash: the string ["i:d:h"]. *)
Fixpoint short_opts (s : cstr) (rest : list cstr) : list opt_found * list cstr :=
  match s with
  | [] => ([], rest)
  | c :: r =>
      let word := match r with [] => None | _ => Some r end in
      if c =? 105 then let '(o, rest) := with_arg Interface word rest in ([o], rest)
      else if c =? 100 then let '(o, rest) := with_arg Debug word rest in ([o], rest)
      else let '(l, rest) := short_opts r rest in ((if c =? 104 then Help else Bad) :: l, rest)
  end.

Definition prefix_of (a b : cstr) : bool := bool_decide (a = take (length a) b).

(** A word after its two dashes: a name or the beginning of one, which their
    first letters tell apart, and what follows an equals sign. *)
Definition long_opt (s : cstr) (rest : list cstr) : opt_found * list cstr :=
  let '(name, word) := match strchr s 61 with Some i => (take i s, Some (drop (S i) s)) | None => (s, None) end in
  if (length name =? 0)%nat then (Bad, rest)
  else if prefix_of name (str "interface") then with_arg Interface word rest
  else if prefix_of name (str "debug") then with_arg Debug word rest
  else if prefix_of name (str "help") then (match word with Some _ => Bad | None => Help end, rest)
  else (Bad, rest).

(** The options of the words; [fuel] is their number, each round uses one up.
    Words that are no options are moved behind the options, two dashes end
    them. *)
Fixpoint getopt_long (fuel : nat) (argv : list cstr) : list opt_found :=
  match fuel, argv with
  | S f, a :: rest =>
      if strcmp0 a (str "--") then []
      else match a with
           | 45 :: 45 :: s => let '(o, rest) := long_opt s rest in o :: getopt_long f rest
           | 45 :: _ :: _ => let '(l, rest) := short_opts (tail a) rest in l ++ getopt_long f rest
           | _ => getopt_long f rest
           end
  | _, _ => []
  end.

(** The interface and the level of the log. *)
Fixpoint take_options (l : list opt_found) (interfaceName : option cstr) (loglevel : Z) : out (option cstr * Z) :=
  match l with
  | [] => Ok (interfaceName, loglevel)
  | Interface v :: r => take_options r (Some v) loglevel
  | Debug v :: r => take_options r interfaceName (atoi v)
  | Help :: _ => Die
  | Bad :: r => take_options r interfaceName loglevel
  end.

(** [argv] without the name of the program. *)
Definition simpleCommandLine (argv : list cstr) (interfaceName : option cstr) (loglevel : Z) : out (option cstr * Z) :=
  take_options (getopt_long (length argv) argv) interfaceName loglevel.

(** * Properties *)

(** The ways to write an option with its argument; the number is how much of the
    long name is written. *)
Inductive spelling := ShortNext | ShortSame | LongNext (n : nat) | LongSame (n : nat).

(** A setting, or a word that is no option. *)
Inductive item := SetInterface (sp : spelling) (v : cstr) | SetDebug (sp : spelling) (v : cstr) | Word (s : cstr).

Definition spell (letter : Z) (name : cstr) (sp : spelling) (v : cstr) : list cstr :=
  match sp with
  | ShortNext => [[45; letter]; v]
  | ShortSame => [45 :: letter :: v]
  | LongNext n => [45 :: 45 :: take n name; v]
  | LongSame n => [45 :: 45 :: take n name ++ 61 :: v]
  end.

Definition item_words (i : item) : list cstr :=
  match i with
  | SetInterface sp v => spell 105 (str "interface") sp v
  | SetDebug sp v => spell 100 (str "debug") sp v
  | Word s => [s]
  end.

Definition spelling_ok (sp : spelling) (v : cstr) : Prop :=
  match sp with ShortNext => True | ShortSame => v <> [] | LongNext n | LongSame n => (0 < n)%nat end.

Definition item_wf (i : item) : Prop :=
  match i with
  | SetInterface sp v | SetDebug sp v => spelling_ok sp v
  | Word s => match s with c :: _ => c <> 45 | [] => True end
  end.

Definition item_found (i : item) : list opt_found :=
  match i with SetInterface _ v => [Interface v] | SetDebug _ v => [Debug v] | Word _ => [] end.

Lemma prefix_take n name : prefix_of (take n name) name = true.
Proof.
  unfold prefix_of. apply bool_decide_eq_true. rewrite length_take.
  destruct (Nat.le_ge_cases n (length name)); [by rewrite Nat.min_l by lia|]. rewrite Nat.min_r by lia. by rewrite !take_ge by lia.
Qed.

Lemma long_opt_take n name mk word rest :
  (0 < n)%nat -> 61 ∉ name -> name <> [] ->
  (forall w, with_arg mk w rest = if prefix_of (take n name) (str "interface") then with_arg Interface w rest else
             if prefix_of (take n name) (str "debug") then with_arg Debug w rest else with_arg mk w rest) ->
  prefix_of (take n name) (str "interface") || prefix_of (take n name) (str "debug") = true ->
  long_opt (take n name ++ match word with Some v => 61 :: v | None => [] end) rest = with_arg mk word rest.
Proof.
  intros Hn H61 Hne Hmk Hp. unfold long_opt.
  assert (Ht : 61 ∉ take n name) by (intros Hin; by apply elem_of_take in Hin as (i & Hi & _); apply H61; eapply list_elem_of_lookup_2).
  assert (Hl : (length (take n name) =? 0)%nat = false).
  { apply Nat.eqb_neq. rewrite length_take. destruct name; [done|]. cbn [length]. lia. }
  destruct word as [v|].
  - rewrite strchr_app by done. rewrite take_app_length, drop_app_ge by lia.
    replace (S (length (take n name)) - length (take n name))%nat with 1%nat by lia. cbn [drop]. rewrite Hl, Hmk.
    by destruct (prefix_of _ (str "interface")), (prefix_of _ (str "debug")).
  - rewrite app_nil_r. destruct (strchr (take n name) 61) eqn:Hs; [apply strchr_lookup in Hs as [Hs _]; by apply list_elem_of_lookup_2 in Hs|].
    rewrite Hl, Hmk. by destruct (prefix_of _ (str "interface")), (prefix_of _ (str "debug")).
Qed.

Lemma long_interface n word rest :
  (0 < n)%nat -> long_opt (take n (str "interface") ++ match word with Some v => 61 :: v | None => [] end) rest = with_arg Interface word rest.
Proof.
  intros Hn. apply long_opt_take; [done|by apply (bool_decide_eq_true_1 (_ ∉ _))|done| |by rewrite prefix_take].
  intros w. by rewrite prefix_take.
Qed.

Lemma long_debug n word rest :
  (0 < n)%nat -> long_opt (take n (str "debug") ++ match word with Some v => 61 :: v | None => [] end) rest = with_arg Debug word rest.
Proof.
  intros Hn. assert (Hi : prefix_of (take n (str "debug")) (str "interface") = false).
  { destruct n as [|n]; [lia|]. unfold prefix_of. apply bool_decide_eq_false. cbn [str]. discriminate. }
  apply long_opt_take; [done|by apply (bool_decide_eq_true_1 (_ ∉ _))|done| |by rewrite prefix_take, orb_true_r].
  intros w. by rewrite Hi, prefix_take.
Qed.

Lemma getopt_long_word f s rest : match s with c :: _ => c <> 45 | [] => True end -> getopt_long (S f) (s :: rest) = getopt_long f rest.
Proof.
  intros Hs. cbn [getopt_long]. unfold strcmp0. rewrite bool_decide_false by (intros ->; done).
  destruct s as [|c s]; [done|]. destruct (Z.eq_dec c 45); [done|].
  by repeat match goal with |- context [match ?z with _ => _ end] => is_var z; destruct z end.
Qed.

Lemma getopt_long_long f s rest : s <> [] ->
  getopt_long (S f) ((45 :: 45 :: s) :: rest) = let '(o, rest) := long_opt s rest in o :: getopt_long f rest.
Proof. intros Hs. cbn [getopt_long]. unfold strcmp0. rewrite bool_decide_false; [done|]. by destruct s. Qed.

Lemma getopt_item f i rest :
  item_wf i -> (length (item_words i) <= f)%nat ->
  exists f', (f' + length (item_words i) >= f)%nat /\ (f' < f)%nat /\
    getopt_long f (item_words i ++ rest) = item_found i ++ getopt_long f' rest.
Proof.
  intros Hi Hf. destruct f as [|f]; [destruct i as [[]|[]|]; cbn in Hf; lia|]. exists f.
  destruct i as [sp v|sp v|s]; cbn [item_wf] in Hi.
  - split; [destruct sp; cbn; lia|]. split; [lia|]. destruct sp as [| |n|n]; cbn [item_words spell app item_found spelling_ok] in *.
    + done.
    + destruct v as [|c v]; [done|]. done.
    + rewrite getopt_long_long by (by destruct n; [lia|]). pose proof (long_interface n None (v :: rest) Hi) as H. cbn match in H.
      rewrite app_nil_r in H. by rewrite H.
    + rewrite getopt_long_long by (by destruct n; [lia|]). by rewrite (long_interface n (Some v) rest Hi).
  - split; [destruct sp; cbn; lia|]. split; [lia|]. destruct sp as [| |n|n]; cbn [item_words spell app item_found spelling_ok] in *.
    + done.
    + destruct v as [|c v]; [done|]. done.
    + rewrite getopt_long_long by (by destruct n; [lia|]). pose proof (long_debug n None (v :: rest) Hi) as H. cbn match in H.
      rewrite app_nil_r in H. by rewrite H.
    + rewrite getopt_long_long by (by destruct n; [lia|]). by rewrite (long_debug n (Some v) rest Hi).
  - split; [cbn; lia|]. split; [lia|]. cbn [item_words app item_found]. by apply getopt_long_word.
Qed.

Lemma getopt_items f l :
  Forall item_wf l -> (length (concat (map item_words l)) <= f)%nat ->
  getopt_long f (concat (map item_words l)) = concat (map item_found l).
Proof.
  intros Hl. revert f. induction Hl as [|i l Hi _ IH]; intros f Hf; [by destruct f|]. cbn [map concat] in *. rewrite length_app in Hf.
  destruct (getopt_item f i (concat (map item_words l)) Hi) as (f' & H1 & H2 & ->); [lia|]. by rewrite IH by lia.
Qed.

(** The last interface and the last level among the items. *)
Definition last_interface (l : list item) (i : option cstr) : option cstr :=
  fold_left (fun i it => match it with SetInterface _ v => Some v | _ => i end) l i.
Definition last_level (l : list item) (d : Z) : Z :=
  fold_left (fun d it => match it with SetDebug _ v => atoi v | _ => d end) l d.

(** However the settings are spelled (a letter or a name, abbreviated or not, the
    argument in the same or the next word) and whatever other words are between
    them, the program gets the last interface and the last level given. *)
Theorem simpleCommandLine_spec (l : list item) (i : option cstr) (d : Z) :
  Forall item_wf l -> simpleCommandLine (concat (map item_words l)) i d = Ok (last_interface l i, last_level l d).
Proof.
  intros Hl. unfold simpleCommandLine. rewrite getopt_items by done. clear Hl. revert i d.
  induction l as [|[sp v|sp v|s] l IH]; intros i d; [done|..]; cbn [map concat item_found app take_options]; by rewrite IH.
Qed.

Lemma simpleCommandLine_spec_witness :
  simpleCommandLine (map str ["x"; "-d3"; "--int"; "eth0"; "y"; "--interface=br0"; "-d"; "7"]%string) None 3 = Ok (Some (str "br0"), 7).
Proof.
  apply (simpleCommandLine_spec [Word (str "x"); SetDebug ShortSame (str "3"); SetInterface (LongNext 3) (str "eth0"); Word (str "y");
    SetInterface (LongSame 9) (str "br0"); SetDebug ShortNext (str "7")]).
  repeat constructor; done || (cbn; lia).
Defined.
